(* ===== verification/_CoqProject ===== *)
-Q . S2P
Prelude.v
GoStd.v
Api.v
K8s.v
K8sProps.v
Webhook.v
Trace.v
World.v
Worker.v
DemoApi.v
TestHelpers.v
DemoHelper.v
TestLogr.v
Temporal.v
TemporalProps.v
StateMapper.v
StateMapperProps.v
Planner.v
SunsetProps.v
UpdateProps.v
IdentityProps.v
RolloutProps.v
GateProps.v
Servers.v
Safety.v
ClientPool.v
ClientPoolProps.v
Controller.v
Startup.v
ControllerProps.v
RunProps.v
PoolRuns.v
EndToEnd.v
Panics.v
WriteProps.v
Loop.v
Liveness.v
SunsetLoop.v
Memory.v
DeepCopy.v
MemoryProps.v
DeepCopyProps.v
DeepCopyScenario.v
Scenario.v
PoolScenario.v
LoopScenario.v
SunsetScenario.v
Witnesses.v
