(* ===== verification/Prelude.v ===== *)
(** * Temporal Worker Controller: a verification development

    The Temporal Worker Controller is a Kubernetes operator.  For every
    [TemporalWorkerDeployment] resource it keeps one Kubernetes Deployment per
    worker version, moves the Temporal server's routing from the Current version
    to the target version along a rollout strategy, and scales down and deletes
    the versions that are no longer needed.  This library is a model of its Go
    sources (under src/) with the theorems that make them correct.

    ** The program and how its parts interact

    A reconciliation ([Reconcile], internal/controller/worker_controller.go)
      - reads the resource, defaults and validates it
        (api/v1alpha1/temporalworker_webhook.go),
      - reads the connection and gets a client from the pool
        (internal/controller/clientpool/clientpool.go),
      - lists the child Deployments and indexes them by build ID
        ([GetDeploymentState], internal/k8s/deployments.go),
      - asks the server about the worker deployment and its versions
        ([GetWorkerDeploymentState], internal/temporal/worker_deployment.go),
      - computes the new status (internal/controller/genstatus.go and
        state_mapper.go) and writes it,
      - computes a plan ([generatePlan], internal/controller/genplan.go, on top
        of [GeneratePlan], internal/planner/planner.go), and
      - executes it ([executePlan], internal/controller/execplan.go).

    ** Files

    Foundations:
      - Prelude.v: Go errors (with the classification [errors.As] sees), the
        monad [outcome] of a Go call ([Ok], [Err], [Panic]), [range] loops with
        [break] and early return, nil maps, and the lemmas on them;
      - GoStd.v: machine integers, [time], [float32], [strings], [strconv.Atoi],
        FNV-1a, SHA-256, [sort.SliceStable];
      - Trace.v: the monad [traced E] of programs that call out.  A run maps the
        log of past events to an outcome and the longer log, so "what was read",
        "what was written" and "in which order" are statements about logs.
        [emits P m] says that every event of [m] satisfies [P];
      - World.v: the Temporal SDK's and Kubernetes client's types, the events of
        a run, the class [World] of answers - each call may be answered
        depending on everything that happened before it - and [io], the
        programs with these events.

    Models, one file per component, definitions named as in the source:
      - Api.v: api/v1alpha1/worker_types.go and temporalconnection_types.go, and
        the fields of the Kubernetes types that the sources touch;
      - K8s.v: internal/k8s/deployments.go and internal/controller/k8s.io/utils;
      - Webhook.v: api/v1alpha1/temporalworker_webhook.go, internal/defaults;
      - Temporal.v: internal/temporal/worker_deployment.go;
      - StateMapper.v: internal/controller/state_mapper.go and genstatus.go;
      - Planner.v: internal/planner/planner.go;
      - ClientPool.v: internal/controller/clientpool/clientpool.go;
      - Controller.v: internal/controller/util.go, genplan.go, execplan.go and
        worker_controller.go;
      - Startup.v: cmd/main.go and [SetupWithManager] (worker_controller.go);
      - Memory.v and DeepCopy.v: the heap with the pointers and slices of the API
        types, and api/v1alpha1/zz_generated.deepcopy.go over it;
      - Worker.v: the demo worker, internal/demo/helloworld and internal/demo/util;
      - DemoApi.v: what the demo's patches add to it, util/activity.go,
        util/http.go and helloworld/apiclient.go;
      - TestHelpers.v: internal/testhelpers/make.go and workers.go;
      - TestLogr.v: internal/testhelpers/testlogr/testlogr.go;
      - DemoHelper.v: hack/demohelper/main.go.

    Theorems on one component: K8sProps.v, TemporalProps.v, StateMapperProps.v,
    SunsetProps.v (deletion, scaling, creation), UpdateProps.v, IdentityProps.v
    (names, and the identity the workers read), RolloutProps.v, GateProps.v,
    ClientPoolProps.v, ControllerProps.v, MemoryProps.v and DeepCopyProps.v; the
    theorems on the smaller components are in the files of their models
    (Webhook.v, Startup.v, Worker.v, DemoApi.v, TestHelpers.v, TestLogr.v,
    DemoHelper.v).

    Theorems on their composition: Servers.v states, as classes, what is relied
    on of the Temporal and Kubernetes servers; Safety.v goes from the server's
    answers to the plan; RunProps.v describes the runs of [Reconcile]; EndToEnd.v
    and WriteProps.v go from a run's answers to its writes; PoolRuns.v follows the
    clients through the life of a process; Panics.v lists the answers that make a
    run panic; Loop.v closes the loop, runs against a server that obeys their
    writes; Liveness.v and SunsetLoop.v show its progress, of the rollout and of
    the versions that are retired.

    Witnesses: Scenario.v is a concrete cluster and server, LoopScenario.v one
    that obeys the writes, with the witnesses of EndToEnd.v, WriteProps.v,
    Panics.v, Loop.v and Liveness.v; SunsetScenario.v continues it;
    PoolScenario.v has Secrets that are rotated, DeepCopyScenario.v a heap with
    one resource; Witnesses.v has the others.

    ** Conventions of the model

    [outcome] and [io].  A pure Go function is a function to [outcome] when it
    can fail or panic; a nil pointer that is dereferenced is [deref None], a
    panic.  Code that calls out or reads the clock is an [io] program.

    Pointers.  [GetDeploymentState] keeps the addresses of the elements of one
    slice, which the planner later mutates in place: a [Store] is that slice, a
    pointer an index into it, and the functions that mutate take and return the
    store.  References to objects ([*corev1.ObjectReference]) are compared by
    address where they are map keys, so [RefPtr] carries an address.  The deep
    copies are about nothing but pointers: Memory.v has a heap of typed cells in
    which every pointer and every slice of the API types is a location.  The
    slices of TestLogr.v have a capacity, as [append] may write in place.

    Map iteration.  Go's order is arbitrary: [KeyOrder] and [ScaleOrder] are any
    function to a permutation of the entries, and theorems hold for each.

    Servers.  What a theorem relies on is a class over [World]: the clock does
    not go back ([WorldClock]), objects come back under the names they were asked
    for ([NamedObjects]), [Describe] is consistent ([DescribeServer]), a stored
    status comes back with its times cut to whole seconds ([StatusServer]), and
    the routing changes only by the writes that change it ([RoutingServer]), and
    does change by those that succeed ([ObeyingServer]); decoding an answer makes
    no two references one ([DecodingClient]).  Each has an instance in
    LoopScenario.v or SunsetScenario.v.

    Libraries.  [K8sLib] (the [distribution/reference] parser, [spew],
    [rand.SafeEncodeString], [ctrl.SetControllerReference]), [CertLib] (PEM and
    X.509), [OwnerLib], [ManagerLib], [WorkerLib], [WorkflowLib], [HttpLib],
    [Kubelet], [Shell] and [Env] (the environment) are classes.  [K8sLibLaws]
    states what is relied on: safe-encoding goes byte by byte to
    letters and digits, and setting the owner reference changes only the owner
    references.  The structs of k8s.io inside the API types and their deep copies
    are [Library] and [LibraryCopies] (Memory.v, DeepCopy.v), and [LibraryLaws]
    (DeepCopyProps.v) says that those copies are deep; [Growth] (TestLogr.v) is
    the capacity that [append] chooses.

    Loops.  [withBackoff] is the only unbounded loop: it takes fuel, and
    [backoff_fuel = 11] is enough for the 10-second bound with 1-second ticks on
    any clock that does not go back (TemporalProps.v).  The redirects of the demo's
    HTTP client stop after ten requests (DemoApi.v).  All other loops are
    structural.

    ** What the theorems show

    End to end: whatever its outcome, a reconciliation deletes or scales to zero
    only Deployments of builds that its own answers show the server neither
    routes to nor drains; makes Current or ramps only the resource's target, when
    its Deployment is healthy and the gate has passed, with the conflict token of
    the state it looked at (EndToEnd.v); and writes only well-formed calls in the
    scope of its request (WriteProps.v).  It panics only after one of six kinds
    of answers, each of which is spelled out (Panics.v).

    The closed loop: reconciliations, some of which fail or crash half-way,
    interleaved with anything that leaves the routing alone, refine the abstract
    rollout; a step's pause is kept up to an explicit slack, the skew between the
    server's and the controller's clocks plus the second that [metav1.Time] cuts
    off (Loop.v).  And it makes progress: once the target is ready, each completed
    reconciliation after the pause of the current step moves the rollout on, so
    that after one more of them than there are steps the target is Current
    (Liveness.v); and a completed reconciliation scales to zero, and later
    deletes, the Deployment of a version that has been drained for long enough
    (SunsetLoop.v).

    Safety of what is removed: a Deployment that a plan deletes, or scales to
    zero, belongs neither to the target nor to a version the server routes to or
    is still draining (Safety.v); the exact conditions and delays, totality, and
    disjointness of deletion and scaling (SunsetProps.v).

    Rollout: the progressive rollout as a transition system - time passes, the
    controller polls, the server records - never skips a step, never cuts a
    pause short, never promotes early, and does promote when polled often enough
    (RolloutProps.v); exactly when and how the routing is changed, and that
    behind a gate no version becomes Current or ramps before every one of its
    workflow task queues has a completed test workflow (GateProps.v).

    Reconciliation: what each result of a reconciliation says was done; the
    effects of a plan in order, up to the first error; the status is published
    before anything else is written; planning only reads; changes by others
    freeze the routing (ControllerProps.v).

    Observation: the server's answers to the state to the status, with each
    build in exactly one role and independence of the map order
    (TemporalProps.v, StateMapperProps.v).

    Convergence: an updated version is up to date, a second pass changes
    nothing, a created Deployment is recognised, needs no update and is not
    created again (UpdateProps.v, Safety.v).

    Identity: the worker deployment and build ID written into the pods of a new
    Deployment survive any sequence of updates and are what the worker processes
    register as; distinct resources have distinct worker deployments; exactly
    when a versioned Deployment's name is valid (IdentityProps.v).

    Validation, names and pool: the webhook accepts exactly the valid resources;
    build IDs are valid labels and separate pod-template hashes; which of the
    pool's operations are exclusive (ClientPoolProps.v).  Through the life of a
    process every reconciliation uses a client made for its own connection, and
    certificates are renewed before their end (PoolRuns.v).

    Copies: a deep copy is equal to the original and leaves it alone, and the two
    share nothing but the input of a gate (DeepCopyProps.v).

    The processes: the controller starts completely or stops at the first
    failing call, with the limit of versions the environment names if it fits an
    int32 (Startup.v); a demo worker creates only the worker its environment
    names (Worker.v); the demo script runs its commands in order (DemoHelper.v).

    Some theorems state behaviour the authors may not intend: behind a gate a
    rolled-back ramp is never reset (GateProps.v); a drained version of unknown
    drain time makes planning panic (SunsetProps.v), a failed health check of a
    TLS client panics instead of being returned (Panics.v); a connection update keeps
    the old API-key secret (UpdateProps.v); a deployment name in the user's own
    template takes over at the first rolling update, and capitals in a build ID
    make Deployment names invalid (IdentityProps.v); a large limit on versions
    wraps around (Startup.v); clients are shared across Kubernetes namespaces, a
    changed API key is never picked up and replaced clients are never closed
    (PoolRuns.v); one insertion takes no lock (ClientPoolProps.v); the copy of a
    resource shares the input of its gate (DeepCopyProps.v); loggers derived from
    one logger can overwrite each other's values (TestLogr.v);
    the mark on a ramping version is never read (TemporalProps.v); different
    build IDs can share a Deployment name, and hashes ignore the authentication
    mode or keep only four digits (K8sProps.v).

    ** What is not modelled

    Logging, metrics and contexts (no value of the model depends on them).
    The scheme registration of groupversion_info.go: three variables of library
    types.  Of the test code, test_builder.go and internal/tests, which describe
    and drive the integration tests; Helm charts.
    Of controller-runtime, the Temporal SDK and server only the answers to the
    calls the sources make are present, as classes.  TLS configuration is reduced
    to the certificate whose expiry the pool checks.  Between reconciliations
    the loop of Loop.v allows any event that leaves the routing alone; the
    work queue that schedules them is not modelled.

    ** Plan

    Later: the work queue that schedules the reconciliations, with the requests
    that changed connections and Deployments put into it, and concurrent
    reconciliations over one pool. *)

From stdpp Require Import base gmap sets list strings.
From Stdlib Require Import ZArith Lia.

#[export] Set Warnings "-clear-no-such-hyp".

(** ** Go errors *)

(** An error value.  [ErrLeaf] is an error made by [errors.New] or handed over
    by a library, with the classification that [errors.As] and the [apierrors]
    predicates see; [Errorf] is [fmt.Errorf] without a cause, [ErrWrap] is
    [fmt.Errorf] with a [%w] cause.  Format strings are kept verbatim with the
    arguments beside them. *)
Inductive error_kind :=
  | KNotFound       (* *serviceerror.NotFound of the Temporal API *)
  | KApiNotFound    (* apierrors.IsNotFound *)
  | KApiConflict    (* apierrors.IsConflict *)
  | KApiInvalid     (* apierrors.NewInvalid *)
  | KOther.

Inductive gerror :=
  | ErrLeaf (kind : error_kind) (msg : string)
  | Errorf (format : string) (args : list string)
  | ErrWrap (format : string) (args : list string) (cause : gerror).

#[export] Instance error_kind_eq_dec : EqDecision error_kind.
Proof. solve_decision. Defined.

#[export] Instance gerror_eq_dec : EqDecision gerror.
Proof. solve_decision. Defined.

Definition errors_New (msg : string) : gerror := ErrLeaf KOther msg.

(** [errors.As]: the classification found along the chain of wrapped errors. *)
Fixpoint error_kind_of (e : gerror) : error_kind :=
  match e with
  | ErrLeaf k _ => k
  | Errorf _ _ => KOther
  | ErrWrap _ _ c => error_kind_of c
  end.

(** [err.Error()], with the format verbs left in place. *)
Fixpoint error_text (e : gerror) : string :=
  match e with
  | ErrLeaf _ msg => msg
  | Errorf format _ => format
  | ErrWrap format _ c => format +:+ error_text c
  end.

Definition is_kind (k : error_kind) (e : gerror) : bool :=
  bool_decide (error_kind_of e = k).

(** ** Outcomes of Go calls *)

Inductive panic :=
  | NilDereference
  | NilMapWrite
  | IndexOutOfRange
  | ExplicitPanic (e : gerror)
  | OutOfFuel.       (* not Go: the model's bound on a loop was too small *)

(** [Ok a]: the call returned [a] (with a nil error where the signature has
    one); [Err e]: it returned the error [e]; [Panic p]: it panicked. *)
Inductive outcome (A : Type) :=
  | Ok (a : A)
  | Err (e : gerror)
  | Panic (p : panic).
Arguments Ok {A} a.
Arguments Err {A} e.
Arguments Panic {A} p.

#[export] Instance panic_eq_dec : EqDecision panic.
Proof. solve_decision. Defined.

#[export] Instance outcome_eq_dec {A} `{EqDecision A} : EqDecision (outcome A).
Proof. solve_decision. Defined.

#[export] Instance outcome_ret : MRet outcome := fun A a => Ok a.

#[export] Instance outcome_bind : MBind outcome := fun A B f m =>
  match m with
  | Ok a => f a
  | Err e => Err e
  | Panic p => Panic p
  end.

Definition is_Ok {A} (m : outcome A) : Prop := exists a, m = Ok a.

Definition is_Panic {A} (m : outcome A) : Prop := exists p, m = Panic p.

(** Dereferencing a pointer: [None] is the nil pointer. *)
Definition deref {A} (p : option A) : outcome A :=
  match p with
  | Some a => Ok a
  | None => Panic NilDereference
  end.

(** [p == nil] *)
Definition is_nil {A} (o : option A) : bool :=
  match o with
  | None => true
  | Some _ => false
  end.

(** Indexing a slice. *)
Definition index {A} (l : list A) (i : nat) : outcome A :=
  match l !! i with
  | Some a => Ok a
  | None => Panic IndexOutOfRange
  end.

(** ** Go maps with string keys: [None] is the nil map *)

Definition gomap (V : Type) : Type := option (gmap string V).

Definition gm_lookup {V} (m : gomap V) (k : string) : option V :=
  match m with
  | Some g => g !! k
  | None => None
  end.

(** [m[k]] on a [map[string]string]: the zero value when absent. *)
Definition gm_get (m : gomap string) (k : string) : string :=
  default EmptyString (gm_lookup m k).

(** [m[k] = v] panics on the nil map. *)
Definition gm_set {V} (m : gomap V) (k : string) (v : V) : outcome (gomap V) :=
  match m with
  | Some g => Ok (Some (<[k := v]> g))
  | None => Panic NilMapWrite
  end.

(** The entries a [for k, v := range m] loop visits. *)
Definition gm_entries {V} (m : gomap V) : gmap string V := default ∅ m.

(** ** Range loops *)

(** [for i, x := range l { s = body }] where the body neither breaks nor
    returns ([continue] is just an early [Ok]). *)
Fixpoint range_from {A S} (body : nat -> A -> S -> outcome S)
    (i : nat) (l : list A) (s : S) : outcome S :=
  match l with
  | [] => Ok s
  | x :: l' => s' ← body i x s; range_from body (Datatypes.S i) l' s'
  end.

Definition range {A S} (body : nat -> A -> S -> outcome S) (l : list A) (s : S)
  : outcome S := range_from body 0%nat l s.

(** A loop body that can also [break] or [return]. *)
Inductive ctrl (S R : Type) :=
  | Next (s : S)
  | Break (s : S)
  | Return (r : R).
Arguments Next {S R} s.
Arguments Break {S R} s.
Arguments Return {S R} r.

(** [inl s]: the loop ran to its end, or broke, in state [s]; [inr r]: the
    enclosing function returned [r] from inside the loop. *)
Fixpoint loop_from {A S R} (body : nat -> A -> S -> outcome (ctrl S R))
    (i : nat) (l : list A) (s : S) : outcome (S + R) :=
  match l with
  | [] => Ok (inl s)
  | x :: l' =>
      c ← body i x s;
      match c with
      | Next s' => loop_from body (Datatypes.S i) l' s'
      | Break s' => Ok (inl s')
      | Return r => Ok (inr r)
      end
  end.

Definition loop {A S R} (body : nat -> A -> S -> outcome (ctrl S R)) (l : list A)
    (s : S) : outcome (S + R) := loop_from body 0%nat l s.

(** ** Lemmas on outcomes *)

Lemma bind_Ok {A B} (m : outcome A) (f : A -> outcome B) b :
  (x ← m; f x) = Ok b <-> exists a, m = Ok a /\ f a = Ok b.
Proof.
  destruct m; simpl; split; [eauto | by intros (? & [= ->] & ?) | done | | done |];
    by intros (? & ? & ?).
Qed.

Lemma bind_assoc {A B C} (m : outcome A) (f : A -> outcome B) (g : B -> outcome C) :
  (y ← (x ← m; f x); g y) = (x ← m; y ← f x; g y).
Proof. by destruct m. Qed.

Lemma deref_Ok {A} (p : option A) a : deref p = Ok a <-> p = Some a.
Proof. destruct p; simpl; naive_solver. Qed.

Lemma index_Ok {A} (l : list A) i a : index l i = Ok a <-> l !! i = Some a.
Proof. unfold index. destruct (l !! i); naive_solver. Qed.

Lemma not_Panic_Ok {A} (a : A) : ~ is_Panic (Ok a).
Proof. intros [p Hp]. discriminate. Qed.

Lemma is_Ok_not_Panic {A} (m : outcome A) : is_Ok m -> ~ is_Panic m.
Proof. intros [a ->] [p Hp]. discriminate. Qed.

(** ** Lemmas on Go maps *)

Lemma gm_lookup_set {V} (m m' : gomap V) k v k' :
  gm_set m k v = Ok m' ->
  gm_lookup m' k' = if decide (k' = k) then Some v else gm_lookup m k'.
Proof.
  destruct m as [g|]; simpl; [|discriminate]. intros [= <-]. simpl.
  case_decide as Hk; subst; [apply lookup_insert_eq | by rewrite lookup_insert_ne].
Qed.

Lemma gm_get_set (m m' : gomap string) k v k' :
  gm_set m k v = Ok m' -> gm_get m' k' = if decide (k' = k) then v else gm_get m k'.
Proof.
  intros H. unfold gm_get. rewrite (gm_lookup_set _ _ _ _ _ H). by case_decide.
Qed.

(** ** Proof rules for loops *)

(** Running a loop over an append is running it over both halves. *)
Lemma range_from_app {A S} (body : nat -> A -> S -> outcome S) l1 l2 i s :
  range_from body i (l1 ++ l2) s
  = (s' ← range_from body i l1 s; range_from body (length l1 + i)%nat l2 s').
Proof.
  revert i s. induction l1 as [|x l1 IH]; intros i s; simpl; [done|].
  destruct (body i x s) as [s'|e|p]; simpl; [|done..].
  rewrite IH. by rewrite Nat.add_succ_r.
Qed.

(** The invariant rule: [P i s] holds before iteration [i]. *)
Lemma range_from_inv {A S} (body : nat -> A -> S -> outcome S) (P : nat -> S -> Prop)
    l i s s' :
  (forall j x t t', l !! j = Some x -> P (i + j)%nat t -> body (i + j)%nat x t = Ok t' ->
     P (Datatypes.S (i + j)) t') ->
  P i s -> range_from body i l s = Ok s' -> P (i + length l)%nat s'.
Proof.
  revert i s. induction l as [|x l IH]; intros i s Hstep HP; simpl.
  - intros [= <-]. by rewrite Nat.add_0_r.
  - intros (t & Hb & Hr)%bind_Ok.
    rewrite <- Nat.add_succ_comm. apply (IH _ t); [| |exact Hr].
    + intros j y u u' Hj. rewrite Nat.add_succ_comm. intros HPu Hu.
      by apply (Hstep (Datatypes.S j) y u u').
    + pose proof (Hstep 0%nat x s t eq_refl) as H0.
      rewrite Nat.add_0_r in H0. by apply H0.
Qed.

Lemma range_inv {A S} (body : nat -> A -> S -> outcome S) (P : nat -> S -> Prop) l s s' :
  (forall j x t t', l !! j = Some x -> P j t -> body j x t = Ok t' -> P (Datatypes.S j) t') ->
  P 0%nat s -> range body l s = Ok s' -> P (length l) s'.
Proof. intros Hstep HP Hr. by apply (range_from_inv body P l 0%nat s s'). Qed.

(** The total rule: the body succeeds and keeps [P], so the loop does. *)
Lemma range_from_total {A S} (body : nat -> A -> S -> outcome S) (P : S -> Prop) l i s :
  (forall j x t, x ∈ l -> P t -> exists t', body j x t = Ok t' /\ P t') ->
  P s -> exists s', range_from body i l s = Ok s' /\ P s'.
Proof.
  revert i s. induction l as [|x l IH]; intros i s Hb HP; simpl; [eauto|].
  destruct (Hb i x s) as (t & -> & Ht); [by left | done |]. simpl.
  apply IH; [|done]. intros j y u Hy. apply Hb. by right.
Qed.

Lemma range_total {A S} (body : nat -> A -> S -> outcome S) (P : S -> Prop) l s :
  (forall j x t, x ∈ l -> P t -> exists t', body j x t = Ok t' /\ P t') ->
  P s -> exists s', range body l s = Ok s' /\ P s'.
Proof. apply range_from_total. Qed.

(** A loop that appends to an accumulator computes a flat map. *)
Lemma range_from_append {A B} (body : nat -> A -> list B -> outcome (list B))
    (g : nat -> A -> list B) l i acc :
  (forall j x t, l !! j = Some x -> body (i + j)%nat x t = Ok (t ++ g (i + j)%nat x)) ->
  range_from body i l acc = Ok (acc ++ concat (imap (fun j => g (i + j)%nat) l)).
Proof.
  revert i acc. induction l as [|x l IH]; intros i acc Hb; simpl.
  - by rewrite app_nil_r.
  - rewrite <- (Nat.add_0_r i) at 1. rewrite (Hb 0%nat x acc eq_refl). simpl.
    rewrite IH.
    + rewrite <- app_assoc. do 2 f_equal. f_equal. f_equal.
      apply imap_ext. intros j y _. simpl. by rewrite Nat.add_succ_r.
    + intros j y t Hj. rewrite Nat.add_succ_comm. by apply Hb.
Qed.

Lemma range_append {A B} (body : nat -> A -> list B -> outcome (list B))
    (g : nat -> A -> list B) l acc :
  (forall j x t, l !! j = Some x -> body j x t = Ok (t ++ g j x)) ->
  range body l acc = Ok (acc ++ concat (imap g l)).
Proof. intros Hb. by apply (range_from_append body g l 0%nat acc). Qed.

(** Loops whose bodies agree on the elements visited agree. *)
Lemma range_from_ext {A S} (f g : nat -> A -> S -> outcome S) l i s :
  (forall j x t, x ∈ l -> f j x t = g j x t) -> range_from f i l s = range_from g i l s.
Proof.
  revert i s. induction l as [|x l IH]; intros i s Hfg; simpl; [done|].
  rewrite Hfg by (by left). destruct (g i x s); simpl; [|done..].
  apply IH. intros j y t Hy. apply Hfg. by right.
Qed.

(** ** Lists *)

Lemma elem_of_concat_imap {A B} (g : nat -> A -> list B) l b :
  b ∈ concat (imap g l) <-> exists i x, l !! i = Some x /\ b ∈ g i x.
Proof.
  rewrite list_elem_of_In, in_concat. split.
  - intros (bs & Hbs & Hb). apply list_elem_of_In in Hbs, Hb.
    apply elem_of_lookup_imap in Hbs as (i & x & -> & Hl). eauto.
  - intros (i & x & Hl & Hb). exists (g i x). split; apply list_elem_of_In; [|done].
    apply elem_of_lookup_imap. eauto.
Qed.

(** ** Automation *)

(** [go_inv H] splits a successful composition [m; k = Ok b] into the value of
    [m] and the equation of [k], as deep as the binds go. *)
Ltac go_inv H :=
  repeat match type of H with
  | mbind _ _ = Ok _ =>
      let a := fresh "v" in let Ha := fresh "Hv" in
      apply bind_Ok in H as (a & Ha & H)
  end.

(** Case analysis on everything the goal still branches on. *)
Ltac go_cases := repeat (simpl in *; simplify_eq; try done; case_match).

Create HintDb go.
#[export] Hint Resolve not_Panic_Ok is_Ok_not_Panic : go.
#[export] Hint Extern 1 (is_Ok (Ok _)) => eexists; reflexivity : go.
