(* ===== verification/GoStd.v ===== *)
(** * The parts of Go and of its standard library the controller uses

    Machine integers at their width, [time.Duration] and [time.Time],
    [float32] (binary32, executable), [strings.Trim] and [strings.Contains],
    decimal formatting, [hash/fnv] (FNV-1a, 32 bits), [crypto/sha256] with
    [encoding/hex], and [sort.SliceStable]. *)

From stdpp Require Import base gmap sets list strings sorting.
From Stdlib Require Import ZArith Lia SpecFloat Ascii.
From S2P Require Import Prelude.
Local Open Scope Z_scope.

(** ** Machine integers *)

Definition wrap_signed (w z : Z) : Z := (z + 2 ^ (w - 1)) mod 2 ^ w - 2 ^ (w - 1).
Definition wrap_unsigned (w z : Z) : Z := z mod 2 ^ w.

Definition int32 (z : Z) : Z := wrap_signed 32 z.
Definition int64 (z : Z) : Z := wrap_signed 64 z.
Definition uint32 (z : Z) : Z := wrap_unsigned 32 z.

Definition in_int32 (z : Z) : Prop := - 2 ^ 31 <= z < 2 ^ 31.
Definition in_int64 (z : Z) : Prop := - 2 ^ 63 <= z < 2 ^ 63.

(** ** Durations and instants, in nanoseconds *)

Definition Duration := Z.
Definition Time := Z.

Definition Nanosecond : Duration := 1.
Definition Second : Duration := 1000000000 * Nanosecond.
Definition Minute : Duration := 60 * Second.
Definition Hour : Duration := 60 * Minute.

Definition minDuration : Duration := - 2 ^ 63.
Definition maxDuration : Duration := 2 ^ 63 - 1.

(** [d1 + d2] on durations is int64 addition. *)
Definition duration_add (d1 d2 : Duration) : Duration := int64 (d1 + d2).

(** [t.Sub(u)] saturates. *)
Definition time_Sub (t u : Time) : Duration :=
  Z.max minDuration (Z.min maxDuration (t - u)).

(** [time.Since(t)] with the clock reading made explicit. *)
Definition time_Since (now t : Time) : Duration := time_Sub now t.

Definition time_Add (t : Time) (d : Duration) : Time := t + d.
Definition time_Before (t u : Time) : bool := t <? u.
(** [time.Time{}]: January 1, year 1, UTC. *)
Definition zeroTime : Time := - 62135596800 * Second.

Definition time_After (t u : Time) : bool := u <? t.

(** ** float32 *)

(** IEEE binary32: 24 bits of precision, exponents below 128. *)
Definition float32 := spec_float.

(** [float32(z)] rounds to nearest even. *)
Definition float32_of_Z (z : Z) : float32 := binary_normalize 24 128 z 0 false.

(** Comparisons are false on NaN; [!=] is the negation of [==]. *)
Definition float32_eqb (x y : float32) : bool := SFeqb x y.
Definition float32_ltb (x y : float32) : bool := SFltb x y.
Definition float32_gtb (x y : float32) : bool := SFltb y x.
Definition float32_zero : float32 := S754_zero false.

#[export] Instance float32_eq_dec : EqDecision float32.
Proof. solve_decision. Defined.

(** ** Strings *)

Definition in_cutset (cutset : list ascii) (a : ascii) : bool :=
  bool_decide (a ∈ cutset).

Fixpoint trim_left (cutset : list ascii) (l : list ascii) : list ascii :=
  match l with
  | [] => []
  | a :: l' => if in_cutset cutset a then trim_left cutset l' else l
  end.

(** [strings.Trim] with an ASCII cutset. *)
Definition trim (cutset : list ascii) (l : list ascii) : list ascii :=
  reverse (trim_left cutset (reverse (trim_left cutset l))).

Definition strings_Trim (s : string) (cutset : string) : string :=
  String.string_of_list_ascii (trim (String.list_ascii_of_string cutset) (String.list_ascii_of_string s)).

Definition strings_Contains (s pat : string) : bool :=
  match String.index 0 pat s with
  | Some _ => true
  | None => false
  end.

Definition str_len (s : string) : nat := String.length s.

(** ** Decimal and hexadecimal digits *)

Definition digit (z : Z) : ascii := ascii_of_nat (48 + Z.to_nat z).

(** [fmt.Sprintf("%0wd", z)] for [0 <= z < 10^w]. *)
Fixpoint pad_decimal (w : nat) (z : Z) : list ascii :=
  match w with
  | O => []
  | S w' => pad_decimal w' (z / 10) ++ [digit (z mod 10)]
  end.

Definition digit_value (a : ascii) : option Z :=
  let n := Z.of_nat (nat_of_ascii a) in
  if (48 <=? n) && (n <=? 57) then Some (n - 48) else None.

Fixpoint digits_value (acc : Z) (l : list ascii) : option Z :=
  match l with
  | [] => Some acc
  | a :: l' => d ← digit_value a; digits_value (10 * acc + d) l'
  end.

(** [strconv.Atoi] on a 64-bit platform; [None] is an error: no digits, another
    character, or a value that is not an [int]. *)
Definition strconv_Atoi (s : string) : option Z :=
  let '(neg, ds) :=
    match String.list_ascii_of_string s with
    | a :: l' =>
        if bool_decide (a = "-"%char) then (true, l')
        else if bool_decide (a = "+"%char) then (false, l')
        else (false, a :: l')
    | [] => (false, [])
    end in
  match ds with
  | [] => None
  | _ =>
      v ← digits_value 0 ds;
      let z := if neg : bool then - v else v in
      if (- 2 ^ 63 <=? z) && (z <? 2 ^ 63) then Some z else None
  end.

Definition hex_digit (z : Z) : ascii :=
  ascii_of_nat (if z <? 10 then 48 + Z.to_nat z else 87 + Z.to_nat z).

(** [hex.EncodeToString] *)
Definition hex_EncodeToString (bytes : list Z) : string :=
  String.string_of_list_ascii (concat ((fun b => [hex_digit (b / 16); hex_digit (b mod 16)]) <$> bytes)).

Definition bytes_of_string (s : string) : list Z :=
  (fun a => Z.of_nat (nat_of_ascii a)) <$> String.list_ascii_of_string s.

(** ** hash/fnv: [New32a] *)

Definition fnv32_offset : Z := 2166136261.
Definition fnv32_prime : Z := 16777619.

Definition fnv32a_step (h b : Z) : Z := uint32 (Z.lxor h b * fnv32_prime).

(** [Write] on a hasher whose sum so far is [h]. *)
Definition fnv32a_Write (h : Z) (bytes : list Z) : Z := foldl fnv32a_step h bytes.

(** ** crypto/sha256 (FIPS 180-4) *)

Definition sha256_K : list Z := [
   1116352408; 1899447441; 3049323471; 3921009573; 961987163; 1508970993;
   2453635748; 2870763221; 3624381080; 310598401; 607225278; 1426881987;
   1925078388; 2162078206; 2614888103; 3248222580; 3835390401; 4022224774;
   264347078; 604807628; 770255983; 1249150122; 1555081692; 1996064986;
   2554220882; 2821834349; 2952996808; 3210313671; 3336571891; 3584528711;
   113926993; 338241895; 666307205; 773529912; 1294757372; 1396182291;
   1695183700; 1986661051; 2177026350; 2456956037; 2730485921; 2820302411;
   3259730800; 3345764771; 3516065817; 3600352804; 4094571909; 275423344;
   430227734; 506948616; 659060556; 883997877; 958139571; 1322822218;
   1537002063; 1747873779; 1955562222; 2024104815; 2227730452; 2361852424;
   2428436474; 2756734187; 3204031479; 3329325298].

Definition sha256_H0 : list Z := [
   1779033703; 3144134277; 1013904242; 2773480762; 1359893119; 2600822924;
   528734635; 1541459225].

Definition rotr32 (n x : Z) : Z :=
  Z.lor (Z.shiftr x n) (uint32 (Z.shiftl x (32 - n))).
Definition not32 (x : Z) : Z := 2 ^ 32 - 1 - x.

Definition sha_ch (x y z : Z) : Z := Z.lxor (Z.land x y) (Z.land (not32 x) z).
Definition sha_maj (x y z : Z) : Z :=
  Z.lxor (Z.lxor (Z.land x y) (Z.land x z)) (Z.land y z).
Definition sha_big0 (x : Z) : Z := Z.lxor (Z.lxor (rotr32 2 x) (rotr32 13 x)) (rotr32 22 x).
Definition sha_big1 (x : Z) : Z := Z.lxor (Z.lxor (rotr32 6 x) (rotr32 11 x)) (rotr32 25 x).
Definition sha_small0 (x : Z) : Z :=
  Z.lxor (Z.lxor (rotr32 7 x) (rotr32 18 x)) (Z.shiftr x 3).
Definition sha_small1 (x : Z) : Z :=
  Z.lxor (Z.lxor (rotr32 17 x) (rotr32 19 x)) (Z.shiftr x 10).

(** The message schedule, kept newest first. *)
Fixpoint sha_schedule (n : nat) (w : list Z) : list Z :=
  match n with
  | O => w
  | S n' =>
      let x := uint32 (sha_small1 (nth 1 w 0) + nth 6 w 0
                       + sha_small0 (nth 14 w 0) + nth 15 w 0) in
      sha_schedule n' (x :: w)
  end.

Definition sha_round (st : list Z) (kw : Z * Z) : list Z :=
  match st with
  | [a; b; c; d; e; f; g; h] =>
      let t1 := uint32 (h + sha_big1 e + sha_ch e f g + kw.1 + kw.2) in
      let t2 := uint32 (sha_big0 a + sha_maj a b c) in
      [uint32 (t1 + t2); a; b; c; uint32 (d + t1); e; f; g]
  | _ => st
  end.

Fixpoint be_words (l : list Z) : list Z :=
  match l with
  | b0 :: b1 :: b2 :: b3 :: l' =>
      (Z.shiftl b0 24 + Z.shiftl b1 16 + Z.shiftl b2 8 + b3) :: be_words l'
  | _ => []
  end.

Definition sha_block (st : list Z) (block : list Z) : list Z :=
  let w := reverse (sha_schedule 48 (reverse (be_words block))) in
  zip_with (fun x y => uint32 (x + y)) st (foldl sha_round st (zip sha256_K w)).

Fixpoint sha_blocks (fuel : nat) (st msg : list Z) : list Z :=
  match fuel with
  | O => st
  | S fuel' =>
      match msg with
      | [] => st
      | _ => sha_blocks fuel' (sha_block st (take 64 msg)) (drop 64 msg)
      end
  end.

Definition be_bytes (n : nat) (z : Z) : list Z :=
  (fun i => Z.shiftr z (8 * Z.of_nat i) mod 256) <$> reverse (seq 0 n).

Definition sha_pad (msg : list Z) : list Z :=
  msg ++ [128]
      ++ replicate (Z.to_nat ((55 - Z.of_nat (length msg)) mod 64)) 0
      ++ be_bytes 8 (8 * Z.of_nat (length msg)).

(** The digest, 32 bytes.  [length (sha_pad msg)] is fuel enough: every block
    takes 64 bytes. *)
Definition sha256 (msg : list Z) : list Z :=
  let p := sha_pad msg in
  concat (be_bytes 4 <$> sha_blocks (length p) sha256_H0 p).

(** ** sort.SliceStable *)

(** The stable sort for a strict weak order [lt] is unique; insertion from the
    right keeps equal elements in order. *)
Section SliceStable.
Context {A : Type} (lt : A -> A -> bool).

Fixpoint insert_stable (x : A) (l : list A) : list A :=
  match l with
  | [] => [x]
  | y :: l' => if lt y x then y :: insert_stable x l' else x :: l
  end.

Definition SliceStable (l : list A) : list A := foldr insert_stable [] l.
End SliceStable.

Example sha256_abc :
  hex_EncodeToString (sha256 (bytes_of_string "abc"))
  = "ba7816bf8f01cfea414140de5dae2223b00361a396177a9cb410ff61f20015ad"%string.
Proof. vm_compute. reflexivity. Qed.

Example fnv32a_foobar : fnv32a_Write fnv32_offset (bytes_of_string "foobar") = 3214735720.
Proof. vm_compute. reflexivity. Qed.

(** ** Lemmas: machine integers and time *)

Lemma int32_small z : in_int32 z -> int32 z = z.
Proof.
  unfold in_int32, int32, wrap_signed. intros Hz. simpl.
  rewrite Z.mod_small; lia.
Qed.

Lemma int64_small z : in_int64 z -> int64 z = z.
Proof.
  unfold in_int64, int64, wrap_signed. intros Hz. simpl.
  rewrite Z.mod_small; lia.
Qed.

Lemma uint32_small z : 0 <= z < 2 ^ 32 -> uint32 z = z.
Proof. intros. by apply Z.mod_small. Qed.

Lemma int32_range z : in_int32 (int32 z).
Proof.
  unfold int32, wrap_signed, in_int32. pose proof (Z.mod_pos_bound (z + 2 ^ (32 - 1)) (2 ^ 32)).
  simpl in *. lia.
Qed.

Lemma int32_mod z : (int32 z - z) mod 2 ^ 32 = 0.
Proof.
  unfold int32, wrap_signed. pose proof (Z.div_mod (z + 2 ^ (32 - 1)) (2 ^ 32) ltac:(done)) as H.
  replace ((z + 2 ^ (32 - 1)) mod 2 ^ 32 - 2 ^ (32 - 1) - z)
    with (- ((z + 2 ^ (32 - 1)) / 2 ^ 32) * 2 ^ 32) by lia.
  apply Z_mod_mult.
Qed.

(** The round trip of a signed count through an unsigned one. *)
Lemma int32_uint32 z : in_int32 z -> int32 (uint32 z) = z.
Proof.
  intros Hz. unfold uint32, wrap_unsigned, int32, wrap_signed.
  rewrite Zplus_mod_idemp_l. by apply int32_small.
Qed.

Lemma uint32_range z : 0 <= uint32 z < 2 ^ 32.
Proof. apply Z.mod_pos_bound. done. Qed.

Lemma time_Since_gt now t d :
  in_int64 d -> d < maxDuration -> (time_Since now t > d <-> now - t > d).
Proof. unfold time_Since, time_Sub, in_int64, minDuration, maxDuration. lia. Qed.

(** ** Lemmas: float32 on percentages *)

Definition percents : list Z := Z.of_nat <$> seq 0 101.

Lemma elem_of_percents z : z ∈ percents <-> 0 <= z <= 100.
Proof.
  unfold percents. rewrite list_elem_of_fmap. split.
  - intros (n & -> & Hn%elem_of_seq). lia.
  - intros Hz. exists (Z.to_nat z). split; [lia|]. apply elem_of_seq. lia.
Qed.

Lemma percents_check :
  forallb (fun a => forallb (fun b =>
    Bool.eqb (float32_ltb (float32_of_Z a) (float32_of_Z b)) (a <? b) &&
    Bool.eqb (float32_eqb (float32_of_Z a) (float32_of_Z b)) (a =? b)) percents) percents
  = true.
Proof. vm_compute. reflexivity. Qed.

Lemma float32_percents a b :
  0 <= a <= 100 -> 0 <= b <= 100 ->
  float32_ltb (float32_of_Z a) (float32_of_Z b) = (a <? b) /\
  float32_eqb (float32_of_Z a) (float32_of_Z b) = (a =? b).
Proof.
  intros Ha Hb. pose proof percents_check as H. rewrite forallb_forall in H.
  specialize (H a). rewrite <- list_elem_of_In, elem_of_percents, forallb_forall in H.
  specialize (H Ha b). rewrite <- list_elem_of_In, elem_of_percents in H.
  specialize (H Hb). apply andb_prop in H as [H1%Bool.eqb_prop H2%Bool.eqb_prop].
  done.
Qed.

Lemma float32_gtb_percents a b :
  0 <= a <= 100 -> 0 <= b <= 100 ->
  float32_gtb (float32_of_Z a) (float32_of_Z b) = (b <? a).
Proof. intros. unfold float32_gtb. by apply float32_percents. Qed.

Lemma float32_eqb_percents a b :
  0 <= a <= 100 -> 0 <= b <= 100 ->
  float32_eqb (float32_of_Z a) (float32_of_Z b) = (a =? b).
Proof. intros. by apply float32_percents. Qed.

(** ** Lemmas: strings *)

Lemma string_length_list s :
  String.length s = length (String.list_ascii_of_string s).
Proof. induction s as [|a s IH]; [done|]. cbn. by rewrite IH. Qed.

Lemma string_of_list_length l : String.length (String.string_of_list_ascii l) = length l.
Proof. induction l as [|a l IH]; [done|]. cbn. by rewrite IH. Qed.

Lemma string_eq_list s t :
  String.list_ascii_of_string s = String.list_ascii_of_string t -> s = t.
Proof.
  intros H. rewrite <- (String.string_of_list_ascii_of_string s), H.
  apply String.string_of_list_ascii_of_string.
Qed.

Lemma list_of_append s t :
  String.list_ascii_of_string (String.append s t)
  = String.list_ascii_of_string s ++ String.list_ascii_of_string t.
Proof.
  induction s as [|a s IH]; [done|].
  change (a :: String.list_ascii_of_string (String.append s t)
          = a :: (String.list_ascii_of_string s ++ String.list_ascii_of_string t)).
  by rewrite IH.
Qed.

Lemma trim_left_suffix c l : exists p, l = p ++ trim_left c l.
Proof.
  induction l as [|a l [p IH]]; simpl; [by exists []|].
  case_match; [exists (a :: p) | exists []]; simpl; congruence.
Qed.

Lemma trim_left_head c l a : head (trim_left c l) = Some a -> in_cutset c a = false.
Proof.
  induction l as [|b l IH]; simpl; [done|]. case_match; [done|]. by intros [= ->].
Qed.

Lemma trim_left_id c l :
  (forall a, head l = Some a -> in_cutset c a = false) -> trim_left c l = l.
Proof. destruct l as [|a l]; simpl; [done|]. intros H. by rewrite H. Qed.

(** [trim] returns an infix of its argument. *)
Lemma trim_infix c l : exists p q, l = p ++ trim c l ++ q.
Proof.
  destruct (trim_left_suffix c l) as [p Hp].
  destruct (trim_left_suffix c (reverse (trim_left c l))) as [q Hq].
  exists p, (reverse q). unfold trim. rewrite <- reverse_app, <- Hq, reverse_involutive.
  done.
Qed.

Lemma trim_length c l : (length (trim c l) <= length l)%nat.
Proof.
  destruct (trim_infix c l) as (p & q & H). rewrite H at 2. rewrite !length_app. lia.
Qed.

Lemma trim_Forall (P : ascii -> Prop) c l : Forall P l -> Forall P (trim c l).
Proof.
  destruct (trim_infix c l) as (p & q & H). rewrite H at 1.
  rewrite !Forall_app. tauto.
Qed.

(** After [trim] neither end is in the cutset. *)
Lemma trim_last c l a : last (trim c l) = Some a -> in_cutset c a = false.
Proof.
  unfold trim. rewrite last_reverse. apply trim_left_head.
Qed.

Lemma trim_head c l a : head (trim c l) = Some a -> in_cutset c a = false.
Proof.
  unfold trim. rewrite head_reverse. intros Hl.
  destruct (trim_left_suffix c (reverse (trim_left c l))) as [p Hp].
  apply (trim_left_head c l).
  rewrite <- (reverse_involutive (trim_left c l)), Hp, head_reverse, last_app.
  by rewrite Hl.
Qed.

Lemma trim_id c l :
  (forall a, head l = Some a -> in_cutset c a = false) ->
  (forall a, last l = Some a -> in_cutset c a = false) ->
  trim c l = l.
Proof.
  intros Hh Hl. unfold trim. rewrite (trim_left_id c l) by done.
  rewrite trim_left_id, reverse_involutive; [done|].
  intros a. rewrite head_reverse. apply Hl.
Qed.

(** ** Lemmas: digests *)

Lemma pad_decimal_length w z : length (pad_decimal w z) = w.
Proof.
  revert z. induction w as [|w IH]; intros z; simpl; [done|].
  rewrite length_app, IH. simpl. lia.
Qed.

(** ** Lemmas: decimal numbers *)

Lemma digit_value_digit z : 0 <= z < 10 -> digit_value (digit z) = Some z.
Proof.
  intros Hz. unfold digit_value, digit. rewrite nat_ascii_embedding by lia.
  rewrite Nat2Z.inj_add, Z2Nat.id by lia. change (Z.of_nat 48) with 48. cbv zeta.
  assert ((48 <=? 48 + z) && (48 + z <=? 57) = true) as -> by (apply andb_true_iff; lia).
  f_equal. lia.
Qed.

Lemma digits_value_app acc l1 l2 :
  digits_value acc (l1 ++ l2) = (v ← digits_value acc l1; digits_value v l2).
Proof.
  revert acc. induction l1 as [|a l1 IH]; intros acc; simpl; [done|].
  destruct (digit_value a); simpl; [apply IH|done].
Qed.

Lemma digits_value_pad w z :
  0 <= z < 10 ^ Z.of_nat w -> digits_value 0 (pad_decimal w z) = Some z.
Proof.
  revert z. induction w as [|w IH]; intros z Hz; cbn [pad_decimal].
  - simpl in Hz. assert (z = 0) as -> by lia. done.
  - rewrite Nat2Z.inj_succ, Z.pow_succ_r in Hz by lia.
    rewrite digits_value_app, IH by (split; [apply Z.div_pos; lia|apply Z.div_lt_upper_bound; lia]).
    cbn [mbind option_bind digits_value].
    rewrite digit_value_digit by (apply Z.mod_pos_bound; lia). cbn [mbind option_bind].
    by rewrite <- Z.div_mod.
Qed.

(** [strconv.Atoi] reads back what was printed, with or without leading zeros. *)
Lemma Atoi_pad_decimal w z :
  (0 < w)%nat -> 0 <= z < 10 ^ Z.of_nat w -> z < 2 ^ 63 ->
  strconv_Atoi (String.string_of_list_ascii (pad_decimal w z)) = Some z.
Proof.
  intros Hw Hz Hlt. unfold strconv_Atoi. rewrite String.list_ascii_of_string_of_list_ascii.
  pose proof (digits_value_pad w z Hz) as Hv.
  destruct (pad_decimal w z) as [|a l] eqn:Ep.
  - pose proof (pad_decimal_length w z) as Hl. rewrite Ep in Hl. simpl in Hl. lia.
  - assert (is_Some (digit_value a)) as [d Hd].
    { simpl in Hv. destruct (digit_value a); [by eexists|done]. }
    rewrite !bool_decide_false by (intros ->; done). rewrite Hv. simpl.
    assert ((- 2 ^ 63 <=? z) && (z <? 2 ^ 63) = true) as -> by (apply andb_true_iff; lia). done.
Qed.

Lemma hex_length l : String.length (hex_EncodeToString l) = (2 * length l)%nat.
Proof.
  unfold hex_EncodeToString. rewrite string_of_list_length.
  induction l as [|b l IH]; [done|].
  cbn [fmap list_fmap concat]. rewrite length_app, IH. cbn. lia.
Qed.

Lemma sha_round_length st kw : length st = 8%nat -> length (sha_round st kw) = 8%nat.
Proof. intros H. do 9 (destruct st as [|? st]; simpl in *; try lia). Qed.

Lemma sha_rounds_length kws st :
  length st = 8%nat -> length (foldl sha_round st kws) = 8%nat.
Proof.
  revert st. induction kws as [|kw kws IH]; intros st H; cbn [foldl]; [done|].
  apply IH. by apply sha_round_length.
Qed.

Lemma sha_block_length st b : length st = 8%nat -> length (sha_block st b) = 8%nat.
Proof.
  intros H. unfold sha_block. rewrite length_zip_with, H, sha_rounds_length; done.
Qed.

Lemma sha_blocks_length fuel st msg :
  length st = 8%nat -> length (sha_blocks fuel st msg) = 8%nat.
Proof.
  revert st msg. induction fuel as [|n IH]; intros st msg H; cbn [sha_blocks]; [done|].
  destruct msg; [done|]. apply IH. by apply sha_block_length.
Qed.

Lemma be_bytes_length n z : length (be_bytes n z) = n.
Proof. unfold be_bytes. by rewrite length_fmap, length_reverse, length_seq. Qed.

Lemma sha256_length msg : length (sha256 msg) = 32%nat.
Proof.
  unfold sha256. pose proof (sha_blocks_length (length (sha_pad msg)) sha256_H0 (sha_pad msg)
    eq_refl) as H.
  revert H. generalize (sha_blocks (length (sha_pad msg)) sha256_H0 (sha_pad msg)).
  intros l Hl. assert (length (concat (be_bytes 4 <$> l)) = 4 * length l)%nat as ->; [|lia].
  clear Hl. induction l as [|x l IH]; [done|].
  cbn [fmap list_fmap concat]. rewrite length_app, be_bytes_length, IH. simpl. lia.
Qed.

(** ** Lemmas: stable sort *)

Section SliceStableFacts.
Context {A : Type} (lt : A -> A -> bool).

Lemma insert_stable_perm x l : insert_stable lt x l ≡ₚ x :: l.
Proof.
  induction l as [|y l IH]; simpl; [done|]. case_match; [|done].
  rewrite IH. constructor.
Qed.

Lemma SliceStable_perm l : SliceStable lt l ≡ₚ l.
Proof.
  induction l as [|x l IH]; simpl; [done|]. by rewrite insert_stable_perm, IH.
Qed.

(** Stability: of the elements with a property under which [lt] tells none
    apart, the sort keeps the order. *)
Lemma insert_stable_filter (P : A -> Prop) `{!forall x, Decision (P x)} x l :
  (forall a b, P a -> P b -> lt a b = false) ->
  filter P (insert_stable lt x l) = filter P (x :: l).
Proof.
  intros HP. induction l as [|y l IH]; simpl; [done|].
  destruct (lt y x) eqn:Hyx; [|done]. rewrite !(filter_cons P) in *. rewrite IH.
  destruct (decide (P y)) as [Hy|Hy], (decide (P x)) as [Hx|Hx]; try done.
  by rewrite HP in Hyx.
Qed.

Lemma SliceStable_stable (P : A -> Prop) `{!forall x, Decision (P x)} l :
  (forall a b, P a -> P b -> lt a b = false) -> filter P (SliceStable lt l) = filter P l.
Proof.
  intros HP. induction l as [|x l IH]; simpl; [done|].
  rewrite insert_stable_filter by done. by rewrite !(filter_cons P), IH.
Qed.

Context (Htrans : forall x y z, lt y x = false -> lt z y = false -> lt z x = false).
Context (Hasym : forall x y, lt x y = true -> lt y x = false).

Lemma insert_stable_sorted x l :
  StronglySorted (fun a b => lt b a = false) l ->
  StronglySorted (fun a b => lt b a = false) (insert_stable lt x l).
Proof.
  induction 1 as [|y l Hs IH Hall]; simpl; [repeat constructor|].
  destruct (lt y x) eqn:Hyx.
  - constructor; [done|]. rewrite insert_stable_perm. constructor; [|done].
    by apply Hasym.
  - constructor; [by constructor|]. constructor; [done|].
    eapply Forall_impl; [exact Hall|]. intros z Hz. by apply (Htrans x y z).
Qed.

Lemma SliceStable_sorted l : StronglySorted (fun a b => lt b a = false) (SliceStable lt l).
Proof. induction l; simpl; [constructor | by apply insert_stable_sorted]. Qed.
End SliceStableFacts.

(** An element outside the cutset survives trimming. *)
Lemma trim_left_elem c l a : a ∈ l -> in_cutset c a = false -> a ∈ trim_left c l.
Proof.
  intros Ha Hc. induction l as [|b l IH]; simpl; [by apply not_elem_of_nil in Ha|].
  apply elem_of_cons in Ha as [->|Ha]; [rewrite Hc; by left|].
  case_match; [by apply IH | by right].
Qed.

Lemma trim_elem c l a : a ∈ l -> in_cutset c a = false -> a ∈ trim c l.
Proof.
  intros Ha Hc. unfold trim. rewrite elem_of_reverse. apply trim_left_elem; [|done].
  rewrite elem_of_reverse. by apply trim_left_elem.
Qed.

(** A suffix whose ends are outside the cutset survives trimming. *)
Lemma trim_left_app c p l a :
  head l = Some a -> in_cutset c a = false -> trim_left c (p ++ l) = trim_left c p ++ l.
Proof.
  intros Hl Ha. induction p as [|b p IH]; simpl.
  - destruct l as [|b l]; simpl in *; [done|]. simplify_eq. by rewrite Ha.
  - case_match; [done|]. done.
Qed.

Lemma trim_app_suffix c p l a b :
  head l = Some a -> in_cutset c a = false ->
  last l = Some b -> in_cutset c b = false ->
  trim c (p ++ l) = trim_left c p ++ l.
Proof.
  intros Hh Ha Hl Hb. unfold trim. rewrite (trim_left_app c p l a) by done.
  rewrite trim_left_id, reverse_involutive; [done|].
  intros x. rewrite head_reverse, last_app, Hl. by intros [= <-].
Qed.
