(* ===== verification/Api.v ===== *)
(** * The data the controller works on

    First the Kubernetes objects of [k8s.io/api] that the sources read and
    write (their types are library types: each record keeps the fields the
    sources touch, and an opaque [..._Other] field carries the rest, which the
    code only copies); then the custom resources of [api/v1alpha1], field by
    field.  Pointers to scalars and structs that are never written through are
    options; [nil] maps are told from empty ones ([gomap]). *)

From stdpp Require Import base gmap sets list strings.
From Stdlib Require Import ZArith.
From S2P Require Import Prelude GoStd.

(** ** Kubernetes objects *)

Record TypeMeta := mkTypeMeta { tm_APIVersion : string; tm_Kind : string }.

Record OwnerReference := mkOwnerReference {
  or_APIVersion : string;
  or_Kind : string;
  or_Name : string;
  or_UID : string;
  or_BlockOwnerDeletion : option bool;
  or_Controller : option bool;
}.

Record ObjectMeta := mkObjectMeta {
  om_Name : string;
  om_Namespace : string;
  om_UID : string;
  om_Labels : gomap string;
  om_Annotations : gomap string;
  om_CreationTimestamp : Time;
  om_OwnerReferences : list OwnerReference;
}.

Record ObjectReference := mkObjectReference {
  ref_APIVersion : string;
  ref_Kind : string;
  ref_Name : string;
  ref_Namespace : string;
  ref_UID : string;
  ref_ResourceVersion : string;
  ref_FieldPath : string;
}.

(** [corev1.ConfigMapKeySelector] and [corev1.SecretKeySelector]. *)
Record KeySelector := mkKeySelector { ks_Name : string; ks_Key : string }.

Record EnvVarSource := mkEnvVarSource {
  evs_SecretKeyRef : option KeySelector;
  evs_Other : string;
}.

Record EnvVar := mkEnvVar {
  env_Name : string;
  env_Value : string;
  env_ValueFrom : option EnvVarSource;
}.

Record VolumeMount := mkVolumeMount {
  vm_Name : string;
  vm_MountPath : string;
  vm_Other : string;
}.

Record Container := mkContainer {
  c_Name : string;
  c_Image : string;
  c_Env : list EnvVar;
  c_VolumeMounts : list VolumeMount;
  c_Other : string;
}.

Record SecretVolumeSource := mkSecretVolumeSource {
  svs_SecretName : string;
  svs_Other : string;
}.

Record Volume := mkVolume {
  v_Name : string;
  v_Secret : option SecretVolumeSource;
  v_Other : string;
}.

Record PodSpec := mkPodSpec {
  ps_Containers : list Container;
  ps_Volumes : list Volume;
  ps_Other : string;
}.

Record PodTemplateSpec := mkPodTemplateSpec {
  pts_Labels : gomap string;
  pts_Annotations : gomap string;
  pts_MetaOther : string;
  pts_Spec : PodSpec;
}.

Record DeploymentSpec := mkDeploymentSpec {
  ds_Replicas : option Z;
  ds_Selector : option (gomap string);   (* *metav1.LabelSelector: MatchLabels *)
  ds_Template : PodTemplateSpec;
  ds_MinReadySeconds : Z;
  ds_Other : string;
}.

Record DeploymentCondition := mkDeploymentCondition {
  dc_Type : string;
  dc_Status : string;
  dc_LastTransitionTime : Time;
}.

Record DeploymentStatus := mkDeploymentStatus {
  dst_Replicas : Z;
  dst_Conditions : list DeploymentCondition;
}.

Record Deployment := mkDeployment {
  d_TypeMeta : TypeMeta;
  d_ObjectMeta : ObjectMeta;
  d_Spec : DeploymentSpec;
  d_Status : DeploymentStatus;
}.

(** Field updates, [o.f = v]. *)
Definition env_set_Value (v : string) (e : EnvVar) : EnvVar :=
  mkEnvVar (env_Name e) v (env_ValueFrom e).
Definition c_set_Env (v : list EnvVar) (c : Container) : Container :=
  mkContainer (c_Name c) (c_Image c) v (c_VolumeMounts c) (c_Other c).
Definition c_set_VolumeMounts (v : list VolumeMount) (c : Container) : Container :=
  mkContainer (c_Name c) (c_Image c) (c_Env c) v (c_Other c).
Definition svs_set_SecretName (v : string) (s : SecretVolumeSource) : SecretVolumeSource :=
  mkSecretVolumeSource v (svs_Other s).
Definition v_set_Secret (s : option SecretVolumeSource) (v : Volume) : Volume :=
  mkVolume (v_Name v) s (v_Other v).
Definition ps_set_Containers (v : list Container) (p : PodSpec) : PodSpec :=
  mkPodSpec v (ps_Volumes p) (ps_Other p).
Definition ps_set_Volumes (v : list Volume) (p : PodSpec) : PodSpec :=
  mkPodSpec (ps_Containers p) v (ps_Other p).
Definition pts_set_Annotations (v : gomap string) (t : PodTemplateSpec) : PodTemplateSpec :=
  mkPodTemplateSpec (pts_Labels t) v (pts_MetaOther t) (pts_Spec t).
Definition pts_set_Labels (v : gomap string) (t : PodTemplateSpec) : PodTemplateSpec :=
  mkPodTemplateSpec v (pts_Annotations t) (pts_MetaOther t) (pts_Spec t).
Definition pts_set_Spec (v : PodSpec) (t : PodTemplateSpec) : PodTemplateSpec :=
  mkPodTemplateSpec (pts_Labels t) (pts_Annotations t) (pts_MetaOther t) v.
Definition ds_set_Template (v : PodTemplateSpec) (s : DeploymentSpec) : DeploymentSpec :=
  mkDeploymentSpec (ds_Replicas s) (ds_Selector s) v (ds_MinReadySeconds s) (ds_Other s).
Definition ds_set_Replicas (v : option Z) (s : DeploymentSpec) : DeploymentSpec :=
  mkDeploymentSpec v (ds_Selector s) (ds_Template s) (ds_MinReadySeconds s) (ds_Other s).
Definition ds_set_MinReadySeconds (v : Z) (s : DeploymentSpec) : DeploymentSpec :=
  mkDeploymentSpec (ds_Replicas s) (ds_Selector s) (ds_Template s) v (ds_Other s).
Definition d_set_Spec (v : DeploymentSpec) (d : Deployment) : Deployment :=
  mkDeployment (d_TypeMeta d) (d_ObjectMeta d) v (d_Status d).
Definition d_set_ObjectMeta (v : ObjectMeta) (d : Deployment) : Deployment :=
  mkDeployment (d_TypeMeta d) v (d_Spec d) (d_Status d).
Definition om_set_OwnerReferences (v : list OwnerReference) (m : ObjectMeta) : ObjectMeta :=
  mkObjectMeta (om_Name m) (om_Namespace m) (om_UID m) (om_Labels m) (om_Annotations m)
    (om_CreationTimestamp m) v.

(** [d.Spec.Template] *)
Definition d_Template (d : Deployment) : PodTemplateSpec := ds_Template (d_Spec d).
Definition d_set_Template (t : PodTemplateSpec) (d : Deployment) : Deployment :=
  d_set_Spec (ds_set_Template t (d_Spec d)) d.

(** ** api/v1alpha1/temporalconnection_types.go *)

Record SecretReference := mkSecretReference { sr_Name : string }.

Record TemporalConnectionSpec := mkTemporalConnectionSpec {
  HostPort : string;
  MutualTLSSecretRef : option SecretReference;
  APIKeySecretRef : option KeySelector;
}.

(** ** api/v1alpha1/worker_types.go *)

Record WorkerOptions := mkWorkerOptions {
  TemporalConnectionRef : string;
  TemporalNamespace : string;
  UnsafeCustomBuildID : string;
}.

(** [DefaultVersionUpdateStrategy] and [VersionStatus] are string types; the
    last constructor stands for any string that is not one of the constants. *)
Inductive DefaultVersionUpdateStrategy :=
  | UpdateManual
  | UpdateAllAtOnce
  | UpdateProgressive
  | UpdateOther (s : string).

Inductive VersionStatus :=
  | VersionStatusNotRegistered
  | VersionStatusInactive
  | VersionStatusRamping
  | VersionStatusCurrent
  | VersionStatusDraining
  | VersionStatusDrained
  | VersionStatusOther (s : string).

Inductive WorkflowExecutionStatus :=
  | WorkflowExecutionStatusRunning
  | WorkflowExecutionStatusCompleted
  | WorkflowExecutionStatusFailed
  | WorkflowExecutionStatusCanceled
  | WorkflowExecutionStatusTerminated
  | WorkflowExecutionStatusTimedOut.

#[export] Instance strategy_eq_dec : EqDecision DefaultVersionUpdateStrategy.
Proof. solve_decision. Defined.
#[export] Instance VersionStatus_eq_dec : EqDecision VersionStatus.
Proof. solve_decision. Defined.
#[export] Instance WorkflowExecutionStatus_eq_dec : EqDecision WorkflowExecutionStatus.
Proof. solve_decision. Defined.

Record GateInputSource := mkGateInputSource {
  ConfigMapKeyRef : option KeySelector;
  SecretKeyRef : option KeySelector;
}.

(** [Input] is the raw JSON. *)
Record GateWorkflowConfig := mkGateWorkflowConfig {
  gate_WorkflowType : string;
  gate_Input : option string;
  gate_InputFrom : option GateInputSource;
}.

Record RolloutStep := mkRolloutStep {
  step_RampPercentage : Z;
  step_PauseDuration : Duration;
}.

Record RolloutStrategy := mkRolloutStrategy {
  rs_Strategy : DefaultVersionUpdateStrategy;
  rs_Gate : option GateWorkflowConfig;
  rs_Steps : list RolloutStep;
}.

Record SunsetStrategy := mkSunsetStrategy {
  ScaledownDelay : option Duration;
  DeleteDelay : option Duration;
}.

Record TemporalWorkerDeploymentSpec := mkTemporalWorkerDeploymentSpec {
  spec_Replicas : option Z;
  spec_Template : PodTemplateSpec;
  spec_MinReadySeconds : Z;
  spec_ProgressDeadlineSeconds : option Z;
  spec_RolloutStrategy : RolloutStrategy;
  spec_SunsetStrategy : SunsetStrategy;
  spec_WorkerOptions : WorkerOptions;
}.

Record WorkflowExecution := mkWorkflowExecution {
  wf_WorkflowID : string;
  wf_RunID : string;
  wf_Status : WorkflowExecutionStatus;
  wf_TaskQueue : string;
}.

Record TaskQueue := mkTaskQueue { tq_Name : string }.

(** A [*corev1.ObjectReference]: its identity as a pointer (the planner uses it
    as a map key) and the object it points to, which is never written. *)
Record RefPtr := mkRefPtr { rp_addr : nat; rp_ref : ObjectReference }.

Record BaseWorkerDeploymentVersion := mkBaseWorkerDeploymentVersion {
  BuildID : string;
  ver_Status : VersionStatus;
  HealthySince : option Time;
  ver_Deployment : option RefPtr;
  TaskQueues : list TaskQueue;
  ManagedBy : string;
}.

Record CurrentWorkerDeploymentVersion := mkCurrentWorkerDeploymentVersion {
  cur_base :> BaseWorkerDeploymentVersion;
}.

Record TargetWorkerDeploymentVersion := mkTargetWorkerDeploymentVersion {
  tgt_base :> BaseWorkerDeploymentVersion;
  TestWorkflows : list WorkflowExecution;
  RampPercentage : option float32;
  RampingSince : option Time;
  RampLastModifiedAt : option Time;
}.

Record DeprecatedWorkerDeploymentVersion := mkDeprecatedWorkerDeploymentVersion {
  dep_base :> BaseWorkerDeploymentVersion;
  DrainedSince : option Time;
  EligibleForDeletion : bool;
}.

(** The entries of [DeprecatedVersions] are non-nil pointers nobody writes
    through. *)
Record TemporalWorkerDeploymentStatus := mkTemporalWorkerDeploymentStatus {
  TargetVersion : TargetWorkerDeploymentVersion;
  CurrentVersion : option CurrentWorkerDeploymentVersion;
  DeprecatedVersions : list DeprecatedWorkerDeploymentVersion;
  VersionConflictToken : string;
  LastModifierIdentity : string;
  VersionCount : Z;
}.

Record TemporalWorkerDeployment := mkTemporalWorkerDeployment {
  twd_TypeMeta : TypeMeta;
  twd_ObjectMeta : ObjectMeta;
  twd_Spec : TemporalWorkerDeploymentSpec;
  twd_Status : TemporalWorkerDeploymentStatus;
}.

Definition twd_set_Spec (s : TemporalWorkerDeploymentSpec) (w : TemporalWorkerDeployment)
  : TemporalWorkerDeployment :=
  mkTemporalWorkerDeployment (twd_TypeMeta w) (twd_ObjectMeta w) s (twd_Status w).
Definition twd_set_Status (s : TemporalWorkerDeploymentStatus) (w : TemporalWorkerDeployment)
  : TemporalWorkerDeployment :=
  mkTemporalWorkerDeployment (twd_TypeMeta w) (twd_ObjectMeta w) (twd_Spec w) s.

(** ** Generic objects, for witnesses and executable examples *)

Definition empty_podspec : PodSpec := mkPodSpec [] [] "".
Definition empty_template : PodTemplateSpec := mkPodTemplateSpec None None "" empty_podspec.
Definition empty_meta : ObjectMeta := mkObjectMeta "" "" "" None None 0%Z [].
