(* ===== verification/K8s.v ===== *)
(** * internal/k8s/deployments.go and internal/controller/k8s.io/utils/utils.go

    Build IDs and names, the state of the child Deployments, construction of a
    versioned Deployment and the pod-spec modifications.  Library code the
    sources call is the class [K8sLib]; what they rely on is [K8sLibLaws].

    Pointers to Deployments: [GetDeploymentState] takes the address of the
    elements of one slice, so a pointer is an index into that slice, which the
    planner later mutates in place ([Store]). *)

From stdpp Require Import base gmap sets list strings sorting.
From Stdlib Require Import ZArith Lia Ascii.
From S2P Require Import Prelude GoStd Api.

(** ** Library interface *)

(** What [reference.Parse] knows about an image reference: the interfaces of
    [distribution/reference] the value implements, with what their methods
    return. *)
Record Reference := mkReference {
  ref_Tagged : option string;      (* Tag() *)
  ref_Digested : option string;    (* Digest().Hex() *)
  ref_Named : option string;       (* reference.Path *)
}.

Class K8sLib := {
  reference_Parse : string -> option Reference;
  spew_Sprintf : PodTemplateSpec -> string;
  rand_SafeEncodeString : string -> string;
  gv_String : string -> string;
  ctrl_SetControllerReference : TemporalWorkerDeployment -> Deployment -> outcome Deployment;
}.

(** ** Constants *)

Definition BuildIDLabel : string := "temporal.io/build-id".
Definition twdNameLabel : string := "temporal.io/deployment-name".
Definition WorkerDeploymentNameSeparator : string := "/".
Definition ResourceNameSeparator : string := "-".
Definition MaxBuildIdLen : Z := 63.
Definition ConnectionSpecHashAnnotation : string := "temporal.io/connection-spec-hash".
Definition PodTemplateSpecHashAnnotation : string := "temporal.io/pod-template-spec-hash".
Definition DeploymentAvailable : string := "Available".
Definition ConditionTrue : string := "True".

(** A pointer to an element of the slice of Deployments. *)
Abbreviation ptr := nat (only parsing).

(** The slice the pointers of one [DeploymentState] point into. *)
Abbreviation Store := (list Deployment).

(** ** Strings: names and build IDs *)

Definition char_in (lo hi a : ascii) : bool :=
  (nat_of_ascii lo <=? nat_of_ascii a)%nat && (nat_of_ascii a <=? nat_of_ascii hi)%nat.

Definition is_alnum (a : ascii) : bool :=
  char_in "a" "z" a || char_in "A" "Z" a || char_in "0" "9" a.

(** The complements of the two character classes of the regular expressions. *)
Definition dns_char (a : ascii) : bool := is_alnum a || bool_decide (a = "-"%char).
Definition build_char (a : ascii) : bool :=
  dns_char a || bool_decide (a = "."%char) || bool_decide (a = "_"%char).

(** [regexp.MustCompile(`[^...]+`).ReplaceAllString(s, "-")]: every maximal run
    of characters that are not [ok] becomes one dash. *)
Fixpoint replace_runs (ok : ascii -> bool) (in_run : bool) (l : list ascii) : list ascii :=
  match l with
  | [] => []
  | a :: l' =>
      if ok a then a :: replace_runs ok false l'
      else if in_run then replace_runs ok true l'
      else "-"%char :: replace_runs ok true l'
  end.

Definition ReplaceAllString (ok : ascii -> bool) (s : string) : string :=
  String.string_of_list_ascii (replace_runs ok false (String.list_ascii_of_string s)).

Definition TruncateString (s : string) (n : Z) : string :=
  if (Z.of_nat (String.length s) >? n)%Z && (n >? 0)%Z
  then String.string_of_list_ascii (take (Z.to_nat n) (String.list_ascii_of_string s))
  else s.

Definition CleanStringForDNS (s : string) : string := ReplaceAllString dns_char s.

Definition cleanBuildID (s : string) : string :=
  strings_Trim (ReplaceAllString build_char s) "-._".

(** ** utils.ComputeHash *)

Section WithLib.
Context `{K8sLib}.

Definition dumpForHash (template : PodTemplateSpec) : string := spew_Sprintf template.

(** [hasher.Reset()] then [Fprintf(hasher, "%v", dump)]. *)
Definition deepHashObject (template : PodTemplateSpec) : Z :=
  fnv32a_Write fnv32_offset (bytes_of_string (dumpForHash template)).

(** [binary.LittleEndian.PutUint32] into the first half of 8 zero bytes. *)
Definition collisionCountBytes (c : Z) : list Z :=
  let u := uint32 c in
  [(u mod 256)%Z; (u / 256 mod 256)%Z; (u / 65536 mod 256)%Z; (u / 16777216 mod 256)%Z;
   0%Z; 0%Z; 0%Z; 0%Z].

Definition ComputeHash (template : PodTemplateSpec) (collisionCount : option Z)
    (short : bool) : string :=
  let h := deepHashObject template in
  let sum := match collisionCount with
             | Some c => fnv32a_Write h (collisionCountBytes c)
             | None => h
             end in
  if short
  then rand_SafeEncodeString (String.string_of_list_ascii (pad_decimal 4 (sum mod 10000)))
  else rand_SafeEncodeString (String.string_of_list_ascii (pad_decimal 10 (sum mod 10000))).

(** ** Build IDs and deployment names *)

Definition computeImagePrefix (s : string) (maxLen : Z) : string :=
  let s' := match reference_Parse s with
            | Some ref =>
                match ref_Tagged ref, ref_Digested ref, ref_Named ref with
                | Some tag, _, _ => tag
                | None, Some digest, _ => digest
                | None, None, Some path => path
                | None, None, None => s
                end
            | None => s
            end in
  TruncateString s' maxLen.

(** The hash-based build ID, used without a (usable) override. *)
Definition hashBuildID (template : PodTemplateSpec) : string :=
  match ps_Containers (pts_Spec template) with
  | c :: _ =>
      if decide (c_Image c = EmptyString) then ComputeHash template None false
      else
        let shortHashSuffix := ResourceNameSeparator +:+ ComputeHash template None true in
        let maxImgLen := (MaxBuildIdLen - Z.of_nat (String.length shortHashSuffix))%Z in
        let imagePrefix := computeImagePrefix (c_Image c) maxImgLen in
        cleanBuildID (imagePrefix +:+ shortHashSuffix)
  | [] => ComputeHash template None false
  end.

Definition ComputeBuildID (w : TemporalWorkerDeployment) : string :=
  let template := spec_Template (twd_Spec w) in
  let override := UnsafeCustomBuildID (spec_WorkerOptions (twd_Spec w)) in
  if decide (override <> EmptyString) then
    let cleaned := cleanBuildID override in
    if decide (cleaned <> EmptyString) then TruncateString cleaned MaxBuildIdLen
    else hashBuildID template
  else hashBuildID template.

Definition ComputeWorkerDeploymentName (w : TemporalWorkerDeployment) : string :=
  om_Namespace (twd_ObjectMeta w) +:+ WorkerDeploymentNameSeparator
  +:+ om_Name (twd_ObjectMeta w).

Definition ComputeVersionedDeploymentName (baseName buildID : string) : string :=
  CleanStringForDNS (baseName +:+ ResourceNameSeparator +:+ buildID).

(** ** Hashes kept as annotations *)

Definition ComputeConnectionSpecHash (connection : TemporalConnectionSpec) : string :=
  if decide (HostPort connection = EmptyString) then EmptyString
  else
    let written :=
      bytes_of_string (HostPort connection) ++
      match MutualTLSSecretRef connection, APIKeySecretRef connection with
      | Some r, _ => bytes_of_string (sr_Name r)
      | None, Some r => bytes_of_string (ks_Name r)
      | None, None => []
      end in
    hex_EncodeToString (sha256 written).

Definition ComputePodTemplateSpecHash (template : PodTemplateSpec) : string :=
  hex_EncodeToString (sha256 (bytes_of_string (spew_Sprintf template))).

(** ** The state of the child Deployments *)

Definition load (h : Store) (p : ptr) : outcome Deployment := deref (h !! p).

Record DeploymentState := mkDeploymentState {
  Deployments : gmap string ptr;
  DeploymentsByTime : list ptr;
  DeploymentRefs : gmap string RefPtr;
}.

(** [addr] is the address of the new object. *)
Definition NewObjectRef (addr : nat) (obj : Deployment) : RefPtr :=
  mkRefPtr addr
    (mkObjectReference (gv_String (tm_APIVersion (d_TypeMeta obj))) (tm_Kind (d_TypeMeta obj))
       (om_Name (d_ObjectMeta obj)) (om_Namespace (d_ObjectMeta obj))
       (om_UID (d_ObjectMeta obj)) EmptyString EmptyString).

Definition created_before (a b : Deployment) : bool :=
  time_Before (om_CreationTimestamp (d_ObjectMeta a)) (om_CreationTimestamp (d_ObjectMeta b)).

(** One iteration of the loop that indexes the Deployments by build ID. *)
Definition trackDeployment (i : nat) (deploy : Deployment) (state : DeploymentState)
  : outcome DeploymentState :=
  match gm_lookup (om_Labels (d_ObjectMeta deploy)) BuildIDLabel with
  | Some buildID =>
      Ok (mkDeploymentState
            (<[buildID := i]> (Deployments state))
            (DeploymentsByTime state ++ [i])
            (<[buildID := NewObjectRef i deploy]> (DeploymentRefs state)))
  | None => Ok state
  end.

(** [listed] is the answer of [k8sClient.List] for the children of the owner. *)
Definition GetDeploymentState (listed : outcome (list Deployment))
  : outcome (DeploymentState * Store) :=
  match listed with
  | Ok items =>
      let items' := SliceStable created_before items in
      state ← range trackDeployment items' (mkDeploymentState ∅ [] ∅);
      Ok (state, items')
  | Err e => Err (ErrWrap "unable to list child deployments: %w" [] e)
  | Panic p => Panic p
  end.

Definition healthyBody (_ : nat) (c : DeploymentCondition) (u : unit)
  : outcome (ctrl unit (bool * option Time)) :=
  Ok (if bool_decide (dc_Type c = DeploymentAvailable)
         && bool_decide (dc_Status c = ConditionTrue)
      then Return (true, Some (dc_LastTransitionTime c)) else Next u).

Definition IsDeploymentHealthy (deployment : Deployment) : outcome (bool * option Time) :=
  r ← loop healthyBody (dst_Conditions (d_Status deployment)) tt;
  match r with
  | inr res => Ok res
  | inl _ => Ok (false, None)
  end.

(** ** Pod spec modifications *)

Definition plainEnv (name value : string) : EnvVar := mkEnvVar name value None.

Definition append_Env (vars : list EnvVar) (c : Container) : Container :=
  c_set_Env (c_Env c ++ vars) c.

Definition controllerEnv (connection : TemporalConnectionSpec)
    (temporalNamespace workerDeploymentName buildID : string) : list EnvVar :=
  [plainEnv "TEMPORAL_ADDRESS" (HostPort connection);
   plainEnv "TEMPORAL_NAMESPACE" temporalNamespace;
   plainEnv "TEMPORAL_DEPLOYMENT_NAME" workerDeploymentName;
   plainEnv "TEMPORAL_WORKER_BUILD_ID" buildID].

Definition tlsEnv : list EnvVar :=
  [plainEnv "TEMPORAL_TLS" "true";
   plainEnv "TEMPORAL_TLS_CLIENT_KEY_PATH" "/etc/temporal/tls/tls.key";
   plainEnv "TEMPORAL_TLS_CLIENT_CERT_PATH" "/etc/temporal/tls/tls.crt"].

Definition tlsVolumeMount : VolumeMount :=
  mkVolumeMount "temporal-tls" "/etc/temporal/tls" EmptyString.

Definition tlsContainer (c : Container) : Container :=
  let c' := append_Env tlsEnv c in
  c_set_VolumeMounts (c_VolumeMounts c' ++ [tlsVolumeMount]) c'.

Definition tlsVolume (secretName : string) : Volume :=
  mkVolume "temporal-tls" (Some (mkSecretVolumeSource secretName EmptyString)) EmptyString.

Definition apiKeyEnv (ref : KeySelector) : list EnvVar :=
  [mkEnvVar "TEMPORAL_API_KEY" EmptyString (Some (mkEnvVarSource (Some ref) EmptyString))].

Definition ApplyControllerPodSpecModifications (podSpec : PodSpec)
    (connection : TemporalConnectionSpec)
    (temporalNamespace workerDeploymentName buildID : string) : PodSpec :=
  let withEnv :=
    append_Env (controllerEnv connection temporalNamespace workerDeploymentName buildID)
      <$> ps_Containers podSpec in
  let podSpec1 := ps_set_Containers withEnv podSpec in
  match MutualTLSSecretRef connection with
  | Some ref =>
      ps_set_Volumes (ps_Volumes podSpec1 ++ [tlsVolume (sr_Name ref)])
        (ps_set_Containers (tlsContainer <$> ps_Containers podSpec1) podSpec1)
  | None =>
      match APIKeySecretRef connection with
      | Some ref =>
          ps_set_Containers (append_Env (apiKeyEnv ref) <$> ps_Containers podSpec1) podSpec1
      | None => podSpec1
      end
  end.

(** ** Construction of a versioned Deployment *)

(** [for k, v := range src { dst[k] = v }] *)
Definition copy_into (src dst : gmap string string) : gmap string string := src ∪ dst.

Definition selectorLabelsFor (objectName buildID : string) : gmap string string :=
  <[twdNameLabel := TruncateString (CleanStringForDNS objectName) 63]>
    {[BuildIDLabel := TruncateString buildID 63]}.

(** The annotations of the pods: the user's, then the two hashes. *)
Definition podAnnotationsFor (template : PodTemplateSpec)
    (connection : TemporalConnectionSpec) : gmap string string :=
  <[PodTemplateSpecHashAnnotation := ComputePodTemplateSpecHash template]>
    (<[ConnectionSpecHashAnnotation := ComputeConnectionSpecHash connection]>
       (copy_into (gm_entries (pts_Annotations template)) ∅)).

Definition NewDeploymentWithOwnerRef (typeMeta : TypeMeta) (objectMeta : ObjectMeta)
    (spec : TemporalWorkerDeploymentSpec) (workerDeploymentName buildID : string)
    (connection : TemporalConnectionSpec) : Deployment :=
  let selectorLabels := selectorLabelsFor (om_Name objectMeta) buildID in
  let template := spec_Template spec in
  let podLabels :=
    copy_into selectorLabels (copy_into (gm_entries (pts_Labels template)) ∅) in
  let podSpec :=
    ApplyControllerPodSpecModifications (pts_Spec template) connection
      (TemporalNamespace (spec_WorkerOptions spec)) workerDeploymentName buildID in
  mkDeployment
    (mkTypeMeta EmptyString EmptyString)
    (mkObjectMeta
       (ComputeVersionedDeploymentName (om_Name objectMeta) buildID)
       (om_Namespace objectMeta) EmptyString
       (Some selectorLabels) (pts_Annotations template) zeroTime
       [mkOwnerReference (tm_APIVersion typeMeta) (tm_Kind typeMeta) (om_Name objectMeta)
          (om_UID objectMeta) (Some true) None])
    (mkDeploymentSpec (spec_Replicas spec) (Some (Some selectorLabels))
       (mkPodTemplateSpec (Some podLabels) (Some (podAnnotationsFor template connection))
          EmptyString podSpec)
       (spec_MinReadySeconds spec) EmptyString)
    (mkDeploymentStatus 0%Z []).

Definition NewDeploymentWithControllerRef (w : TemporalWorkerDeployment) (buildID : string)
    (connection : TemporalConnectionSpec) : outcome Deployment :=
  let d := NewDeploymentWithOwnerRef (twd_TypeMeta w) (twd_ObjectMeta w) (twd_Spec w)
             (ComputeWorkerDeploymentName w) buildID connection in
  ctrl_SetControllerReference w d.
End WithLib.

(** ** What the code relies on in the libraries *)

Definition Forall_chars (P : ascii -> bool) (s : string) : Prop :=
  Forall (fun a => P a = true) (String.list_ascii_of_string s).

(** [rand.SafeEncodeString] replaces every byte by an alphanumeric one;
    [ctrl.SetControllerReference] only touches the owner references of the
    object it is given. *)
Class K8sLibLaws (L : K8sLib) := {
  SafeEncode_length s : String.length (rand_SafeEncodeString s) = String.length s;
  SafeEncode_alnum s : Forall_chars is_alnum (rand_SafeEncodeString s);
  SafeEncode_app s t :
    rand_SafeEncodeString (s +:+ t) = rand_SafeEncodeString s +:+ rand_SafeEncodeString t;
  SetControllerReference_frame w d d' :
    ctrl_SetControllerReference w d = Ok d' ->
    exists refs, d' = d_set_ObjectMeta (om_set_OwnerReferences refs (d_ObjectMeta d)) d;
}.

(** ** A concrete library, for examples

    [SafeEncodeString] is the function of [k8s.io/apimachinery]; [spew] prints
    the first image; [reference.Parse] knows no image; the owner reference
    becomes the controller. *)
Definition alphanums : list ascii :=
  String.list_ascii_of_string "bcdfghjklmnpqrstvwxz2456789".

Definition safe_char (a : ascii) : ascii := nth (nat_of_ascii a mod 27) alphanums "b"%char.

#[export] Instance demoLib : K8sLib := {|
  reference_Parse _ := None;
  spew_Sprintf t :=
    match ps_Containers (pts_Spec t) with
    | c :: _ => c_Image c
    | [] => EmptyString
    end;
  rand_SafeEncodeString s :=
    String.string_of_list_ascii (safe_char <$> String.list_ascii_of_string s);
  gv_String s := s;
  ctrl_SetControllerReference w d :=
    Ok (d_set_ObjectMeta
          (om_set_OwnerReferences
             [mkOwnerReference (tm_APIVersion (twd_TypeMeta w)) (tm_Kind (twd_TypeMeta w))
                (om_Name (twd_ObjectMeta w)) (om_UID (twd_ObjectMeta w))
                (Some true) (Some true)] (d_ObjectMeta d)) d);
|}.

(** ** Specification of [GetDeploymentState] *)

Definition build_label (d : Deployment) : option string :=
  gm_lookup (om_Labels (d_ObjectMeta d)) BuildIDLabel.

Definition label_at (h : Store) (p : ptr) : option string := h !! p ≫= build_label.

(** The Deployment a build ID stands for: the last created one of that label. *)
Definition newest_with_label (h : Store) (n : nat) (b : string) : option ptr :=
  last (filter (fun p => label_at h p = Some b) (seq 0 n)).

Section Spec.
Context `{K8sLib}.

Definition ref_at (h : Store) (p : ptr) : option RefPtr := NewObjectRef p <$> h !! p.

(** What the other components rely on: a build ID leads to a live Deployment
    that carries it as its label, and to the reference of that Deployment. *)
Record state_wf (ks : DeploymentState) (h : Store) : Prop := {
  wf_deployment b p :
    Deployments ks !! b = Some p -> exists d, h !! p = Some d /\ build_label d = Some b;
  wf_ref b : DeploymentRefs ks !! b = Deployments ks !! b ≫= ref_at h;
}.
End Spec.
