(* ===== verification/K8sProps.v ===== *)
(** * Theorems on internal/k8s

    Build IDs are valid label values that carry the template hash; the index
    of the child Deployments; the pods of a new Deployment. *)

From stdpp Require Import base gmap sets list strings sorting.
From Stdlib Require Import ZArith Lia Ascii.
From S2P Require Import Prelude GoStd Api K8s.

(** ** Character classes *)

(** The constraints of Kubernetes on label values, as the comment on
    [cleanBuildID] states them. *)
Definition ends_ok (o : option ascii) : bool :=
  match o with
  | Some a => is_alnum a
  | None => true
  end.

Definition valid_label (s : string) : bool :=
  let l := String.list_ascii_of_string s in
  (length l <=? 63)%nat && forallb build_char l && ends_ok (head l) && ends_ok (last l).

Definition cutset : list ascii := String.list_ascii_of_string "-._".

Lemma ascii_forall (P : ascii -> bool) :
  forallb P (ascii_of_nat <$> seq 0 256) = true -> forall a, P a = true.
Proof.
  rewrite forallb_forall. intros H a. apply H, list_elem_of_In, list_elem_of_fmap.
  exists (nat_of_ascii a). split; [by rewrite ascii_nat_embedding|].
  apply elem_of_seq. pose proof (nat_ascii_bounded a). lia.
Qed.

Lemma is_alnum_cutset a : is_alnum a = build_char a && negb (in_cutset cutset a).
Proof.
  apply Bool.eqb_prop. revert a. apply ascii_forall. vm_compute. reflexivity.
Qed.

Lemma build_char_dash : build_char "-" = true.
Proof. reflexivity. Qed.

Lemma is_alnum_build a : is_alnum a = true -> build_char a = true.
Proof. rewrite is_alnum_cutset. by intros [? _]%andb_prop. Qed.

Lemma is_alnum_not_cutset a : is_alnum a = true -> in_cutset cutset a = false.
Proof. rewrite is_alnum_cutset. by intros [_ ?%negb_true_iff]%andb_prop. Qed.

#[export] Hint Resolve is_alnum_build is_alnum_not_cutset build_char_dash : go.

(** ** Replacing runs *)

Section ReplaceRuns.
Context (ok : ascii -> bool) (Hdash : ok "-"%char = true).

Lemma replace_runs_Forall b l : Forall (fun a => ok a = true) (replace_runs ok b l).
Proof.
  revert b. induction l as [|a l IH]; intros b; simpl; [constructor|].
  destruct (ok a) eqn:Ha; [by constructor|]. destruct b; [done|]. by constructor.
Qed.

Lemma replace_runs_length b l : (length (replace_runs ok b l) <= length l)%nat.
Proof.
  revert b. induction l as [|a l IH]; intros b; simpl; [lia|].
  pose proof (IH true). pose proof (IH false). destruct (ok a), b; simpl; lia.
Qed.

Lemma replace_runs_id b l :
  Forall (fun a => ok a = true) l -> replace_runs ok b l = l.
Proof.
  intros H. revert b. induction H as [|a l Ha _ IH]; intros b; simpl; [done|].
  by rewrite Ha, IH.
Qed.

(** A suffix of allowed characters is kept as it is. *)
Lemma replace_runs_app b l s :
  Forall (fun a => ok a = true) s ->
  replace_runs ok b (l ++ s) = replace_runs ok b l ++ s.
Proof.
  intros Hs. revert b. induction l as [|a l IH]; intros b; simpl.
  - by apply replace_runs_id.
  - destruct (ok a), b; simpl; by rewrite IH.
Qed.
End ReplaceRuns.

(** ** cleanBuildID *)

Abbreviation chars := String.list_ascii_of_string.

Lemma chars_string l : chars (String.string_of_list_ascii l) = l.
Proof. apply String.list_ascii_of_string_of_list_ascii. Qed.

Lemma cleanBuildID_chars s :
  chars (cleanBuildID s) = trim cutset (replace_runs build_char false (chars s)).
Proof.
  unfold cleanBuildID, strings_Trim, ReplaceAllString. by rewrite !chars_string.
Qed.

Lemma cleanBuildID_Forall s : Forall (fun a => build_char a = true) (chars (cleanBuildID s)).
Proof. rewrite cleanBuildID_chars. by apply trim_Forall, replace_runs_Forall. Qed.

Lemma cleanBuildID_length s : (String.length (cleanBuildID s) <= String.length s)%nat.
Proof.
  rewrite !string_length_list, cleanBuildID_chars.
  etrans; [apply trim_length | apply replace_runs_length].
Qed.

Lemma cleanBuildID_ends s :
  ends_ok (head (chars (cleanBuildID s))) = true /\
  ends_ok (last (chars (cleanBuildID s))) = true.
Proof.
  pose proof (cleanBuildID_Forall s) as Hall. rewrite cleanBuildID_chars in *.
  set (l := replace_runs build_char false (chars s)) in *.
  assert (forall a, a ∈ trim cutset l -> in_cutset cutset a = false -> is_alnum a = true)
    as Hin.
  { intros a Ha Hc. rewrite is_alnum_cutset, Hc.
    rewrite Forall_forall in Hall. by rewrite (Hall a Ha). }
  split.
  - destruct (head (trim cutset l)) eqn:E; simpl; [|done].
    apply Hin; [by apply head_Some_elem_of | by apply (trim_head _ l)].
  - destruct (last (trim cutset l)) eqn:E; simpl; [|done].
    apply Hin; [by apply last_Some_elem_of | by apply (trim_last _ l)].
Qed.

(** A cleaned build ID of at most 63 characters is a valid label value. *)
Lemma cleanBuildID_valid s :
  (String.length (cleanBuildID s) <= 63)%nat -> valid_label (cleanBuildID s) = true.
Proof.
  intros Hlen. unfold valid_label. destruct (cleanBuildID_ends s) as [-> ->].
  rewrite string_length_list in Hlen. apply Nat.leb_le in Hlen as ->. simpl.
  rewrite !andb_true_r. apply forallb_forall. intros a Ha%list_elem_of_In.
  pose proof (cleanBuildID_Forall s) as H. rewrite Forall_forall in H. by apply H.
Qed.

(** Valid label values are left alone. *)
Lemma cleanBuildID_id s : valid_label s = true -> cleanBuildID s = s.
Proof.
  unfold valid_label. rewrite !andb_true_iff. intros [[[_ Hall] Hh] Hl].
  apply string_eq_list. rewrite cleanBuildID_chars.
  rewrite replace_runs_id.
  2:{ apply Forall_forall. intros a Ha. rewrite forallb_forall in Hall.
      by apply Hall, list_elem_of_In. }
  apply trim_id; intros a Ha; rewrite Ha in *; by apply is_alnum_not_cutset.
Qed.

(** A nonempty alphanumeric suffix is kept by the cleaning. *)
Lemma cleanBuildID_suffix p s :
  Forall_chars is_alnum s -> s <> EmptyString ->
  exists q, cleanBuildID (p +:+ s) = q +:+ s /\ (String.length q <= String.length p)%nat.
Proof.
  unfold Forall_chars. intros Hs Hne.
  assert (exists a, head (chars s) = Some a /\ is_alnum a = true) as (a & Ha & Haa).
  { destruct s as [|a s]; [done|]. exists a. split; [done|]. by inversion Hs. }
  assert (exists b, last (chars s) = Some b /\ is_alnum b = true) as (b & Hb & Hbb).
  { destruct (last (chars s)) as [b|] eqn:E; [|by apply last_None in E; destruct s].
    exists b. split; [done|]. rewrite Forall_forall in Hs.
    by apply Hs, last_Some_elem_of. }
  set (l := replace_runs build_char false (chars p)).
  exists (String.string_of_list_ascii (trim_left cutset l)). split.
  - apply string_eq_list. rewrite cleanBuildID_chars, !list_of_append, chars_string.
    rewrite replace_runs_app.
    2:{ eapply Forall_impl; [exact Hs|]. intros. by apply is_alnum_build. }
    apply (trim_app_suffix cutset l (chars s) a b); auto with go.
  - rewrite string_of_list_length, string_length_list.
    destruct (trim_left_suffix cutset l) as [q Hq].
    etrans; [|apply (replace_runs_length build_char false (chars p))].
    fold l. rewrite Hq at 2. rewrite length_app. lia.
Qed.

Lemma TruncateString_length s n :
  (0 < n)%Z -> (Z.of_nat (String.length (TruncateString s n)) <= n)%Z.
Proof.
  intros Hn. unfold TruncateString.
  destruct (Z.gtb_spec (Z.of_nat (String.length s)) n); [|simpl; lia].
  destruct (Z.gtb_spec n 0); [|lia]. simpl.
  rewrite string_of_list_length, length_take. lia.
Qed.

Lemma TruncateString_id s n :
  (Z.of_nat (String.length s) <= n)%Z -> TruncateString s n = s.
Proof.
  intros Hn. unfold TruncateString.
  destruct (Z.gtb_spec (Z.of_nat (String.length s)) n); [lia|done].
Qed.

Lemma string_app_length s t :
  String.length (s +:+ t) = (String.length s + String.length t)%nat.
Proof. rewrite !string_length_list, list_of_append. apply length_app. Qed.

Section Laws.
Context `{L : K8sLib} `{!K8sLibLaws L}.

(** ** ComputeHash *)

Lemma ComputeHash_length template cc short :
  String.length (ComputeHash template cc short) = if short then 4%nat else 10%nat.
Proof.
  unfold ComputeHash. destruct short;
    rewrite SafeEncode_length, string_of_list_length; apply pad_decimal_length.
Qed.

Lemma ComputeHash_alnum template cc short :
  Forall_chars is_alnum (ComputeHash template cc short).
Proof. unfold ComputeHash. destruct short; apply SafeEncode_alnum. Qed.

Lemma ComputeHash_nonempty template cc short : ComputeHash template cc short <> EmptyString.
Proof.
  intros Hc. pose proof (ComputeHash_length template cc short) as H.
  rewrite Hc in H. by destruct short.
Qed.

(** ** hashBuildID *)

(** The hash a build ID without an override ends with. *)
Definition build_hash (template : PodTemplateSpec) : string :=
  match ps_Containers (pts_Spec template) with
  | c :: _ =>
      if decide (c_Image c = EmptyString) then ComputeHash template None false
      else ComputeHash template None true
  | [] => ComputeHash template None false
  end.

Lemma build_hash_alnum template : Forall_chars is_alnum (build_hash template).
Proof. unfold build_hash. repeat case_match; apply ComputeHash_alnum. Qed.

Lemma build_hash_nonempty template : build_hash template <> EmptyString.
Proof. unfold build_hash. repeat case_match; apply ComputeHash_nonempty. Qed.

Lemma hashBuildID_shape template :
  exists p, hashBuildID template = p +:+ build_hash template
    /\ (String.length (hashBuildID template) <= 63)%nat
    /\ cleanBuildID (hashBuildID template) = hashBuildID template.
Proof.
  assert (forall cc short, let h := ComputeHash template cc short in
    exists p, h = p +:+ h /\ (String.length h <= 63)%nat /\ cleanBuildID h = h) as Hplain.
  { intros cc short h. exists EmptyString. split; [done|].
    assert (String.length h <= 63)%nat as Hlen.
    { unfold h. rewrite ComputeHash_length. destruct short; lia. }
    split; [done|]. destruct (cleanBuildID_suffix EmptyString h) as (q & Hq & Hl).
    - apply ComputeHash_alnum.
    - apply ComputeHash_nonempty.
    - change (EmptyString +:+ h) with h in Hq. rewrite Hq.
      destruct q; simpl in Hl; [done|lia]. }
  unfold hashBuildID, build_hash.
  destruct (ps_Containers (pts_Spec template)) as [|c cs]; [apply Hplain|].
  case_decide as Himg; [apply Hplain|]. clear Hplain.
  set (h := ComputeHash template None true).
  assert (String.length h = 4%nat) as Hh by apply ComputeHash_length.
  assert (Z.of_nat (String.length (ResourceNameSeparator +:+ h)) = 5)%Z as ->
    by (rewrite string_app_length, Hh; done).
  set (img := computeImagePrefix (c_Image c) (MaxBuildIdLen - 5)).
  assert (Z.of_nat (String.length img) <= 58)%Z as Himgl
    by (apply TruncateString_length; done).
  assert (img +:+ (ResourceNameSeparator +:+ h) = (img +:+ ResourceNameSeparator) +:+ h)
    as ->. { apply string_eq_list. by rewrite !list_of_append, app_assoc. }
  destruct (cleanBuildID_suffix (img +:+ ResourceNameSeparator) h) as (q & Hq & Hl);
    [apply ComputeHash_alnum | apply ComputeHash_nonempty|].
  assert (String.length (cleanBuildID ((img +:+ ResourceNameSeparator) +:+ h)) <= 63)%nat
    as Hlen.
  { rewrite string_app_length in Hl. simpl in Hl.
    rewrite Hq, string_app_length, Hh. lia. }
  exists q. split; [done|]. split; [done|].
  by apply cleanBuildID_id, cleanBuildID_valid.
Qed.
End Laws.

(** ** The demo library satisfies the laws *)

Lemma safe_char_alnum a : is_alnum (safe_char a) = true.
Proof. revert a. apply ascii_forall. vm_compute. reflexivity. Qed.

#[export] Instance demoLib_laws : K8sLibLaws demoLib.
Proof.
  split; simpl.
  - intros s. by rewrite string_of_list_length, length_fmap, <- string_length_list.
  - intros s. unfold Forall_chars. rewrite chars_string.
    apply Forall_fmap, Forall_true. intros a. apply safe_char_alnum.
  - intros s t. apply string_eq_list.
    by rewrite !list_of_append, !chars_string, fmap_app.
  - intros w d d' [= <-]. eauto.
Qed.

(** A worker deployment with an override and one container, for witnesses. *)
Definition demo_template (image : string) : PodTemplateSpec :=
  mkPodTemplateSpec None None EmptyString
    (mkPodSpec [mkContainer "worker" image [] [] EmptyString] [] EmptyString).

Definition demo_twd (override image : string) : TemporalWorkerDeployment :=
  mkTemporalWorkerDeployment
    (mkTypeMeta "temporal.io/v1alpha1" "TemporalWorkerDeployment")
    (mkObjectMeta "foo" "ns" "uid" None None zeroTime [])
    (mkTemporalWorkerDeploymentSpec (Some 1%Z) (demo_template image) 0 None
       (mkRolloutStrategy UpdateAllAtOnce None [])
       (mkSunsetStrategy (Some Hour) (Some (24 * Hour)%Z))
       (mkWorkerOptions "conn" "tns" override))
    (mkTemporalWorkerDeploymentStatus
       (mkTargetWorkerDeploymentVersion
          (mkBaseWorkerDeploymentVersion EmptyString VersionStatusNotRegistered None None []
             EmptyString) [] None None None)
       None [] EmptyString EmptyString 0).

Abbreviation overrideOf w :=
  (UnsafeCustomBuildID (spec_WorkerOptions (twd_Spec w))) (only parsing).
Abbreviation templateOf w := (spec_Template (twd_Spec w)) (only parsing).

(** ** Theorems: build IDs *)

(** C29: With an override of at most 63 characters (the CRD's MaxLength) or none,
    the computed build ID is a non-empty valid Kubernetes label value: at most
    63 characters out of letters, digits, dash, dot and underscore, with
    alphanumeric ends. *)
Theorem ComputeBuildID_valid_label `{L : K8sLib} `{!K8sLibLaws L} w :
  (String.length (overrideOf w) <= 63)%nat ->
  valid_label (ComputeBuildID w) = true /\ ComputeBuildID w <> EmptyString.
Proof.
  intros Hlen. unfold ComputeBuildID.
  assert (valid_label (hashBuildID (templateOf w)) = true
          /\ hashBuildID (templateOf w) <> EmptyString) as Hhash.
  { destruct (hashBuildID_shape (templateOf w)) as (p & Hp & Hl & Hc).
    split; [rewrite <- Hc; apply cleanBuildID_valid; by rewrite Hc|].
    rewrite Hp. intros He. apply (f_equal String.length) in He.
    rewrite string_app_length in He.
    pose proof (build_hash_nonempty (templateOf w)) as Hne.
    destruct (build_hash (templateOf w)); [done|]. simpl in He. lia. }
  case_decide as Ho; [|exact Hhash]. case_decide as Hc; [|exact Hhash].
  pose proof (cleanBuildID_length (overrideOf w)).
  rewrite TruncateString_id by (unfold MaxBuildIdLen; lia).
  split; [|done]. apply cleanBuildID_valid. lia.
Qed.

Lemma ComputeBuildID_length `{L : K8sLib} `{!K8sLibLaws L} w :
  (String.length (ComputeBuildID w) <= 63)%nat.
Proof.
  destruct (hashBuildID_shape (templateOf w)) as (_ & _ & Hl & _).
  unfold ComputeBuildID. repeat case_decide; [|done..].
  pose proof (TruncateString_length (cleanBuildID (overrideOf w)) MaxBuildIdLen ltac:(done)).
  unfold MaxBuildIdLen in *. lia.
Qed.

Lemma ComputeBuildID_nonempty `{L : K8sLib} `{!K8sLibLaws L} w : ComputeBuildID w <> EmptyString.
Proof.
  assert (hashBuildID (templateOf w) <> EmptyString) as Hhash.
  { destruct (hashBuildID_shape (templateOf w)) as (p & -> & _). intros He.
    apply (f_equal String.length) in He. rewrite string_app_length in He.
    pose proof (build_hash_nonempty (templateOf w)) as Hne.
    destruct (build_hash (templateOf w)); [done|]. simpl in He. lia. }
  unfold ComputeBuildID. repeat case_decide; [|done..]. unfold TruncateString.
  destruct (cleanBuildID (overrideOf w)) as [|a s]; [done|]. by destruct (_ && _).
Qed.

Lemma ComputeBuildID_valid_label_witness :
  let w := demo_twd "v1.2_rc/3!" "repo/app:latest" in
  (String.length (overrideOf w) <= 63)%nat /\
  (valid_label (ComputeBuildID w) = true /\ ComputeBuildID w <> EmptyString).
Proof.
  split; [vm_compute; lia|]. apply ComputeBuildID_valid_label. vm_compute; lia.
Defined.

Lemma hashBuildID_eq_hash `{L : K8sLib} `{!K8sLibLaws L} t1 t2 :
  String.length (build_hash t1) = String.length (build_hash t2) ->
  hashBuildID t1 = hashBuildID t2 -> build_hash t1 = build_hash t2.
Proof.
  intros Hlen Heq.
  destruct (hashBuildID_shape t1) as (p & Hp & _). destruct (hashBuildID_shape t2) as (q & Hq & _).
  rewrite Hp, Hq in Heq. apply (f_equal chars) in Heq. rewrite !list_of_append in Heq.
  apply string_eq_list. eapply app_inj_2; [|exact Heq].
  by rewrite <- !string_length_list.
Qed.

(** The first container exists and names an image. *)
Definition has_image (template : PodTemplateSpec) : bool :=
  match ps_Containers (pts_Spec template) with
  | c :: _ => negb (bool_decide (c_Image c = EmptyString))
  | [] => false
  end.

(** Without an override, pod templates whose hashes differ get different
    build IDs, whatever their images: cleaning and truncation never lose the
    hash. *)
Theorem ComputeBuildID_separates_hashes `{L : K8sLib} `{!K8sLibLaws L} w1 w2 :
  overrideOf w1 = EmptyString -> overrideOf w2 = EmptyString ->
  has_image (templateOf w1) = true -> has_image (templateOf w2) = true ->
  ComputeHash (templateOf w1) None true <> ComputeHash (templateOf w2) None true ->
  ComputeBuildID w1 <> ComputeBuildID w2.
Proof.
  intros H1 H2 Hi1 Hi2 Hne. unfold ComputeBuildID. rewrite H1, H2. simpl.
  assert (forall t, has_image t = true -> build_hash t = ComputeHash t None true) as Hbh.
  { intros t. unfold has_image, build_hash. destruct (ps_Containers _); [done|].
    intros ?%negb_true_iff%bool_decide_eq_false. by rewrite decide_False. }
  intros Heq. apply Hne. rewrite <- !Hbh by done. apply hashBuildID_eq_hash; [|done].
  rewrite !Hbh by done. by rewrite !ComputeHash_length.
Qed.

Lemma ComputeBuildID_separates_hashes_witness :
  let w1 := demo_twd EmptyString "app:v1" in
  let w2 := demo_twd EmptyString "app:v2" in
  ComputeHash (templateOf w1) None true <> ComputeHash (templateOf w2) None true /\
  ComputeBuildID w1 <> ComputeBuildID w2.
Proof.
  split; [vm_compute; discriminate|].
  apply ComputeBuildID_separates_hashes; [reflexivity..|vm_compute; discriminate].
Defined.

(** The override branch truncates after cleaning, so an override longer than
    the CRD allows can end in a separator. *)
Example ComputeBuildID_long_override_invalid :
  let w := demo_twd
    "aaaaaaaaaaaaaaaaaaaaaaaaaaaaaaaaaaaaaaaaaaaaaaaaaaaaaaaaaaaaaa.tail" "app:v1" in
  valid_label (ComputeBuildID w) = false.
Proof. vm_compute. reflexivity. Qed.

(** ** Theorems: the template hash *)

Lemma pad_decimal_app a b z :
  (0 <= z)%Z ->
  pad_decimal (a + b) z = pad_decimal a (z / 10 ^ Z.of_nat b) ++ pad_decimal b z.
Proof.
  revert z. induction b as [|b IH]; intros z Hz.
  - rewrite Nat.add_0_r, Z.div_1_r. simpl. by rewrite app_nil_r.
  - rewrite Nat.add_succ_r. cbn [pad_decimal]. rewrite IH by (apply Z.div_pos; lia).
    rewrite <- app_assoc. do 2 f_equal.
    rewrite Z.div_div by lia. f_equal. rewrite Nat2Z.inj_succ, Z.pow_succ_r by lia. done.
Qed.

(** The "full" template hash carries no more information than the short one:
    both print the FNV sum modulo 10000, so the 10-digit form is a constant
    prefix followed by the 4-digit form. *)
Theorem ComputeHash_full_is_padded_short `{L : K8sLib} `{!K8sLibLaws L} template cc :
  ComputeHash template cc false
  = rand_SafeEncodeString "000000" +:+ ComputeHash template cc true.
Proof.
  unfold ComputeHash. set (sum := match cc with Some _ => _ | None => _ end).
  rewrite <- SafeEncode_app. f_equal. apply string_eq_list.
  rewrite list_of_append, !chars_string.
  pose proof (Z.mod_pos_bound sum 10000 ltac:(done)).
  rewrite (pad_decimal_app 6 4) by lia.
  rewrite (Z.div_small (sum mod 10000)) by (simpl; lia). reflexivity.
Qed.

Lemma ComputeHash_full_is_padded_short_witness :
  ComputeHash (demo_template "nginx") (Some 5%Z) false
  = rand_SafeEncodeString "000000" +:+ ComputeHash (demo_template "nginx") (Some 5%Z) true.
Proof. apply ComputeHash_full_is_padded_short. Defined.

(** ** Theorems: names *)

Lemma replace_runs_break ok b l a s :
  ok a = true ->
  replace_runs ok b (l ++ a :: s) = replace_runs ok b l ++ a :: replace_runs ok false s.
Proof.
  intros Ha. revert b. induction l as [|c l IH]; intros b; simpl; [by rewrite Ha|].
  destruct (ok c), b; simpl; by rewrite IH.
Qed.

(** The name a build ID contributes does not depend on the base name. *)
Lemma ComputeVersionedDeploymentName_app base b :
  ComputeVersionedDeploymentName base b
  = CleanStringForDNS base +:+ "-" +:+ CleanStringForDNS b.
Proof.
  unfold ComputeVersionedDeploymentName, CleanStringForDNS, ReplaceAllString.
  apply string_eq_list. rewrite !list_of_append, !chars_string.
  change (chars ResourceNameSeparator ++ chars b) with ("-"%char :: chars b).
  by apply replace_runs_break.
Qed.

(** Build IDs that differ only in the separators that are legal in labels
    but not in names get the same Deployment name: the versions v1.0, v1_0 and
    v1-0 of one worker deployment collide, although all three are valid and
    different build IDs. *)
Theorem versioned_names_collide base :
  ComputeVersionedDeploymentName base "v1.0" = ComputeVersionedDeploymentName base "v1-0" /\
  ComputeVersionedDeploymentName base "v1_0" = ComputeVersionedDeploymentName base "v1-0" /\
  (forall b, b ∈ ["v1.0"; "v1_0"; "v1-0"] -> valid_label b = true /\ cleanBuildID b = b).
Proof.
  rewrite !ComputeVersionedDeploymentName_app. split_and!; [reflexivity..|].
  intros b Hb. repeat (apply elem_of_cons in Hb as [->|Hb]; [by vm_compute|]).
  by apply not_elem_of_nil in Hb.
Qed.

Lemma CleanStringForDNS_chars s :
  Forall_chars dns_char (CleanStringForDNS s).
Proof.
  unfold Forall_chars, CleanStringForDNS, ReplaceAllString. rewrite chars_string.
  by apply replace_runs_Forall.
Qed.

(** ** Theorems: the connection hash *)

Lemma ComputeConnectionSpecHash_length c :
  String.length (ComputeConnectionSpecHash c)
  = if decide (HostPort c = EmptyString) then 0%nat else 64%nat.
Proof.
  unfold ComputeConnectionSpecHash. case_decide; [done|].
  by rewrite hex_length, sha256_length.
Qed.

Lemma ComputeConnectionSpecHash_empty c :
  ComputeConnectionSpecHash c = EmptyString <-> HostPort c = EmptyString.
Proof.
  pose proof (ComputeConnectionSpecHash_length c) as H.
  split.
  - intros He. rewrite He in H. by case_decide.
  - intros He. unfold ComputeConnectionSpecHash. by rewrite decide_True.
Qed.

Lemma ComputePodTemplateSpecHash_length `{L : K8sLib} t :
  String.length (ComputePodTemplateSpecHash t) = 64%nat.
Proof. unfold ComputePodTemplateSpecHash. by rewrite hex_length, sha256_length. Qed.

(** The connection hash depends only on the host and on the name of the
    secret: connections that use the same secret name once for mutual TLS and
    once for an API key (or other keys of one API-key secret) are not told
    apart, although their pods need different settings. *)
Theorem ComputeConnectionSpecHash_ignores_auth_mode host name key key' :
  let tls := mkTemporalConnectionSpec host (Some (mkSecretReference name)) None in
  let api k := mkTemporalConnectionSpec host None (Some (mkKeySelector name k)) in
  ComputeConnectionSpecHash tls = ComputeConnectionSpecHash (api key) /\
  ComputeConnectionSpecHash (api key) = ComputeConnectionSpecHash (api key') /\
  forall podSpec ns wdn b,
    ps_Volumes (ApplyControllerPodSpecModifications podSpec tls ns wdn b)
    <> ps_Volumes (ApplyControllerPodSpecModifications podSpec (api key) ns wdn b).
Proof.
  split_and!; [reflexivity..|]. intros podSpec ns wdn b Heq.
  apply (f_equal length) in Heq. simpl in Heq. rewrite length_app in Heq.
  simpl in Heq. lia.
Qed.

(** ** Theorems: the index of the child Deployments *)

Section State.
Context `{L : K8sLib}.

(** Two build IDs never share a Deployment. *)
Lemma state_wf_inj ks h b b' p :
  state_wf ks h -> Deployments ks !! b = Some p -> Deployments ks !! b' = Some p -> b = b'.
Proof.
  intros [Hd _] (d & Hp & Hb)%Hd (d' & Hp' & Hb')%Hd. simplify_eq. congruence.
Qed.

Definition track_inv (h : Store) (i : nat) (st : DeploymentState) : Prop :=
  (forall b, Deployments st !! b = newest_with_label h i b) /\
  (forall b, DeploymentRefs st !! b = Deployments st !! b ≫= ref_at h) /\
  DeploymentsByTime st = filter (fun p => is_Some (label_at h p)) (seq 0 i).

Lemma newest_with_label_S h i b :
  newest_with_label h (S i) b
  = if decide (label_at h i = Some b) then Some i else newest_with_label h i b.
Proof.
  unfold newest_with_label. rewrite seq_S, filter_app, filter_cons, filter_nil. simpl.
  case_decide; [by rewrite last_snoc | by rewrite app_nil_r].
Qed.

Lemma trackDeployment_inv h i d st st' :
  h !! i = Some d -> track_inv h i st -> trackDeployment i d st = Ok st' ->
  track_inv h (S i) st'.
Proof.
  intros Hi (Hd & Hr & Ht). unfold trackDeployment.
  assert (label_at h i = build_label d) as Hl by (unfold label_at; by rewrite Hi).
  change (gm_lookup (om_Labels (d_ObjectMeta d)) BuildIDLabel) with (build_label d).
  unfold track_inv. setoid_rewrite newest_with_label_S.
  rewrite seq_S, filter_app, filter_cons, filter_nil. simpl. rewrite Hl.
  destruct (build_label d) as [b'|]; intros [= <-]; simpl.
  - split_and!.
    + intros b. rewrite lookup_insert. case_decide; subst; case_decide; naive_solver.
    + intros b. rewrite !lookup_insert. case_decide; [|apply Hr].
      simpl. unfold ref_at. by rewrite Hi.
    + by rewrite Ht.
  - split_and!.
    + apply Hd.
    + apply Hr.
    + by rewrite app_nil_r.
Qed.

Lemma trackDeployment_total i d st : exists st', trackDeployment i d st = Ok st'.
Proof. unfold trackDeployment. case_match; eauto. Qed.

Lemma GetDeploymentState_inv items ks h :
  GetDeploymentState (Ok items) = Ok (ks, h) ->
  h = SliceStable created_before items /\ track_inv h (length h) ks.
Proof.
  unfold GetDeploymentState. intros (st & Hst & [= <- <-])%bind_Ok. split; [done|].
  refine (range_inv trackDeployment (track_inv _) _ _ _ _ _ Hst).
  - intros j d t t'. apply trackDeployment_inv.
  - repeat split.
Qed.

Lemma newest_with_label_Some h b p :
  newest_with_label h (length h) b = Some p ->
  label_at h p = Some b /\ forall q, label_at h q = Some b -> (q <= p)%nat.
Proof.
  assert (forall n, newest_with_label h n b = Some p -> label_at h p = Some b /\
            forall q, (q < n)%nat -> label_at h q = Some b -> (q <= p)%nat) as Hgen.
  { induction n as [|n IH]; [done|]. rewrite newest_with_label_S.
    case_decide as Hn.
    - intros [= ->]. split; [done|]. intros; lia.
    - intros (? & Hq)%IH. split; [done|]. intros q Hlt Hb.
      apply Hq; [|done]. destruct (decide (q = n)); [congruence|lia]. }
  intros (? & Hq)%Hgen. split; [done|]. intros q Hb. apply Hq; [|done].
  unfold label_at in Hb. destruct (h !! q) eqn:E; [|done]. by apply lookup_lt_Some in E.
Qed.

Lemma newest_with_label_None h b :
  newest_with_label h (length h) b = None -> forall d, d ∈ h -> build_label d <> Some b.
Proof.
  unfold newest_with_label. rewrite last_None. intros Hnil d Hd Hb.
  apply list_elem_of_lookup in Hd as [i Hi].
  assert (i ∈ filter (fun p => label_at h p = Some b) (seq 0 (length h))) as Hin.
  { apply list_elem_of_filter. split; [unfold label_at; by rewrite Hi|].
    apply elem_of_seq. apply lookup_lt_Some in Hi. lia. }
  rewrite Hnil in Hin. by apply not_elem_of_nil in Hin.
Qed.

Lemma created_sorted items :
  StronglySorted (fun a b => created_before b a = false) (SliceStable created_before items).
Proof.
  apply SliceStable_sorted; unfold created_before, time_Before.
  - intros x y z ?%Z.ltb_ge ?%Z.ltb_ge. apply Z.ltb_ge. lia.
  - intros x y ?%Z.ltb_lt. apply Z.ltb_ge. lia.
Qed.

Lemma created_stable items t :
  filter (fun d => om_CreationTimestamp (d_ObjectMeta d) = t) (SliceStable created_before items)
  = filter (fun d => om_CreationTimestamp (d_ObjectMeta d) = t) items.
Proof.
  apply SliceStable_stable. unfold created_before, time_Before. intros a b -> ->. apply Z.ltb_irrefl.
Qed.

(** What the other components use of it. *)
Lemma GetDeploymentState_tracked items :
  exists ks h, GetDeploymentState (Ok items) = Ok (ks, h) /\ state_wf ks h /\
    (forall b, is_Some (Deployments ks !! b) <-> exists d, d ∈ items /\ build_label d = Some b).
Proof.
  destruct (range_total trackDeployment (fun _ => True) (SliceStable created_before items)
              (mkDeploymentState ∅ [] ∅)) as (ks & Hks & _); [|done|].
  { intros j d st _ _. destruct (trackDeployment_total j d st); eauto. }
  set (h := SliceStable created_before items) in *.
  assert (GetDeploymentState (Ok items) = Ok (ks, h)) as Hg.
  { unfold GetDeploymentState. fold h. by rewrite Hks. }
  exists ks, h. split; [done|].
  destruct (GetDeploymentState_inv _ _ _ Hg) as (_ & Hd & Hr & _).
  assert (h ≡ₚ items) as Hperm by apply SliceStable_perm.
  split; [split|]; [|apply Hr|].
  - intros b p. rewrite Hd. intros (Hl & _)%newest_with_label_Some.
    unfold label_at in Hl. destruct (h !! p); naive_solver.
  - intros b. rewrite Hd. split.
    + intros [p (Hl & _)%newest_with_label_Some]. unfold label_at in Hl.
      destruct (h !! p) as [d|] eqn:E; [|done]. exists d. split; [|done].
      rewrite <- Hperm. by apply list_elem_of_lookup_2 in E.
    + intros (d & Hin & Hb). destruct (newest_with_label h (length h) b) eqn:E; [done|].
      rewrite <- Hperm in Hin. by apply (newest_with_label_None h b E) in Hb.
Qed.

(** C32: [GetDeploymentState] never fails on a listed slice.  The slice it keeps
    is the listed one sorted by creation time, and stably so: the children created
    at one time stay in the listed order; a build ID is mapped
    exactly when some child carries it as its label, to the most recently
    created such child; references point to the mapped Deployments; and
    [DeploymentsByTime] lists the labelled children, and only those, in order. *)
Theorem GetDeploymentState_spec items :
  exists ks h, GetDeploymentState (Ok items) = Ok (ks, h) /\
    h ≡ₚ items /\
    StronglySorted (fun a b => created_before b a = false) h /\
    (forall t, filter (fun d => om_CreationTimestamp (d_ObjectMeta d) = t) h
               = filter (fun d => om_CreationTimestamp (d_ObjectMeta d) = t) items) /\
    state_wf ks h /\
    (forall b, is_Some (Deployments ks !! b) <-> exists d, d ∈ items /\ build_label d = Some b) /\
    (forall b p q, Deployments ks !! b = Some p -> label_at h q = Some b -> (q <= p)%nat) /\
    DeploymentsByTime ks = filter (fun p => is_Some (label_at h p)) (seq 0 (length h)).
Proof.
  destruct (GetDeploymentState_tracked items) as (ks & h & Hg & Hwf & Htr).
  exists ks, h. destruct (GetDeploymentState_inv _ _ _ Hg) as (-> & Hd & _ & Ht).
  split_and!; [done | apply SliceStable_perm | apply created_sorted | apply created_stable
              | done | done | | done].
  intros b p q. rewrite Hd. intros (_ & Hq)%newest_with_label_Some. apply Hq.
Qed.
End State.
