(* ===== verification/Webhook.v ===== *)
(** * api/v1alpha1/temporalworker_webhook.go and internal/defaults/defaults.go

    Defaulting and validation of a [TemporalWorkerDeployment].  The validator's
    specification, [valid_deployment], is what the rest of the development
    assumes of an accepted resource. *)

From stdpp Require Import base gmap sets list strings.
From Stdlib Require Import ZArith Lia.
From S2P Require Import Prelude GoStd Api.
Local Open Scope Z_scope.

(** ** internal/defaults *)

Definition defaults_ScaledownDelay : Duration := 1 * Hour.
Definition defaults_DeleteDelay : Duration := 24 * Hour.
Definition ServerMaxVersions : Z := 100.
(** [int32(ServerMaxVersions * 0.75)], a constant expression. *)
Definition MaxVersionsIneligibleForDeletion : Z := ServerMaxVersions * 75 / 100.
Definition defaults_ControllerIdentity : string := "temporal-worker-controller".

(** ** Objects handed to the webhook *)

(** A [runtime.Object]: the type assertion only tells a
    [*TemporalWorkerDeployment] from anything else. *)
Inductive RuntimeObject :=
  | ObjTWD (w : TemporalWorkerDeployment)
  | ObjOther.

Definition NewBadRequest (msg : string) : gerror := ErrLeaf KOther msg.

(** ** Defaulting *)

Definition SunsetStrategy_Default (s : SunsetStrategy) : SunsetStrategy :=
  let s1 := match ScaledownDelay s with
            | None => mkSunsetStrategy (Some defaults_ScaledownDelay) (DeleteDelay s)
            | Some _ => s
            end in
  match DeleteDelay s1 with
  | None => mkSunsetStrategy (ScaledownDelay s1) (Some defaults_DeleteDelay)
  | Some _ => s1
  end.

Definition Spec_Default (s : TemporalWorkerDeploymentSpec)
  : outcome TemporalWorkerDeploymentSpec :=
  Ok (mkTemporalWorkerDeploymentSpec (spec_Replicas s) (spec_Template s)
        (spec_MinReadySeconds s) (spec_ProgressDeadlineSeconds s) (spec_RolloutStrategy s)
        (SunsetStrategy_Default (spec_SunsetStrategy s)) (spec_WorkerOptions s)).

(** [Default] updates the object it is given; the result is the updated one. *)
Definition TWD_Default (obj : RuntimeObject) : outcome TemporalWorkerDeployment :=
  match obj with
  | ObjOther => Err (NewBadRequest "expected a TemporalWorkerDeployment")
  | ObjTWD dep => spec' ← Spec_Default (twd_Spec dep); Ok (twd_set_Spec spec' dep)
  end.

(** ** Validation *)

(** A [*field.Error] of [field.Invalid]; the step number that the path and the
    detail print is kept beside them. *)
Record FieldError := mkFieldError {
  fe_Path : string;
  fe_Index : option nat;
  fe_Detail : string;
}.

Definition maxTemporalWorkerDeploymentNameLen : nat := 63.

(** One iteration of the loop over the steps; the state is the list of errors
    and [lastRamp]. *)
Definition validateStep (i : nat) (s : RolloutStep) (st : list FieldError * Z)
  : outcome (list FieldError * Z) :=
  let '(allErrs, lastRamp) := st in
  let allErrs :=
    if step_PauseDuration s <? 30 * Second
    then allErrs ++ [mkFieldError "spec.rollout.steps[%d].pauseDuration" (Some i)
                       "pause duration must be at least 30s"]
    else allErrs in
  let allErrs :=
    if step_RampPercentage s <=? lastRamp
    then allErrs ++ [mkFieldError "spec.rollout.steps[%d].rampPercentage" (Some i)
                       "rampPercentage must increase between each step"]
    else allErrs in
  Ok (allErrs, step_RampPercentage s).

Definition validateSteps (rolloutSteps : list RolloutStep) : outcome (list FieldError) :=
  let allErrs :=
    if decide (rolloutSteps = [])
    then [mkFieldError "spec.rollout.steps" None "steps are required for Progressive rollout"]
    else [] in
  r ← range validateStep rolloutSteps (allErrs, 0);
  Ok r.1.

Definition validateGate (gate : GateWorkflowConfig) : list FieldError :=
  (if negb (is_nil (gate_Input gate)) && negb (is_nil (gate_InputFrom gate))
   then [mkFieldError "spec.rollout.gate" None "only one of input or inputFrom may be set"]
   else []) ++
  match gate_InputFrom gate with
  | Some from =>
      let cm := ConfigMapKeyRef from in
      let sec := SecretKeyRef from in
      if (is_nil cm && is_nil sec) || (negb (is_nil cm) && negb (is_nil sec))
      then [mkFieldError "spec.rollout.gate.inputFrom" None
              "exactly one of configMapKeyRef or secretKeyRef must be set"]
      else []
  | None => []
  end.

Definition validateRolloutStrategy (s : RolloutStrategy) : outcome (list FieldError) :=
  stepErrs ← (if decide (rs_Strategy s = UpdateProgressive)
              then validateSteps (rs_Steps s) else Ok []);
  Ok (stepErrs ++ match rs_Gate s with
                  | Some gate => validateGate gate
                  | None => []
                  end).

(** The returned error is [apierrors.NewInvalid] of the collected errors. *)
Definition validateForUpdateOrCreate (new : TemporalWorkerDeployment) : outcome unit :=
  let nameErrs :=
    if (maxTemporalWorkerDeploymentNameLen <? str_len (om_Name (twd_ObjectMeta new)))%nat
    then [mkFieldError "metadata.name" None "cannot be more than %d characters"]
    else [] in
  rolloutErrs ← validateRolloutStrategy (spec_RolloutStrategy (twd_Spec new));
  let allErrs := nameErrs ++ rolloutErrs in
  if (0 <? length allErrs)%nat
  then Err (ErrLeaf KApiInvalid (om_Name (twd_ObjectMeta new)))
  else Ok tt.

Definition method_validateForUpdateOrCreate (obj : RuntimeObject) : outcome unit :=
  match obj with
  | ObjOther => Err (NewBadRequest "expected a TemporalWorkerDeployment")
  | ObjTWD dep => validateForUpdateOrCreate dep
  end.

Definition ValidateCreate (obj : RuntimeObject) : outcome unit :=
  method_validateForUpdateOrCreate obj.
Definition ValidateUpdate (oldObj newObj : RuntimeObject) : outcome unit :=
  method_validateForUpdateOrCreate newObj.
Definition ValidateDelete (obj : RuntimeObject) : outcome unit := Ok tt.

(** ** Specification *)

(** Ramps grow strictly, from above [last]. *)
Fixpoint ramps_above (last : Z) (steps : list RolloutStep) : Prop :=
  match steps with
  | [] => True
  | s :: steps' => last < step_RampPercentage s /\ ramps_above (step_RampPercentage s) steps'
  end.

Definition valid_steps (steps : list RolloutStep) : Prop :=
  steps <> [] /\ ramps_above 0 steps /\
  Forall (fun s => 30 * Second <= step_PauseDuration s) steps.

Definition valid_gate (gate : GateWorkflowConfig) : Prop :=
  match gate_InputFrom gate with
  | Some from =>
      gate_Input gate = None /\
      (is_Some (ConfigMapKeyRef from) /\ SecretKeyRef from = None \/
       ConfigMapKeyRef from = None /\ is_Some (SecretKeyRef from))
  | None => True
  end.

Definition valid_rollout (s : RolloutStrategy) : Prop :=
  (rs_Strategy s = UpdateProgressive -> valid_steps (rs_Steps s)) /\
  (forall gate, rs_Gate s = Some gate -> valid_gate gate).

Definition valid_deployment (w : TemporalWorkerDeployment) : Prop :=
  (str_len (om_Name (twd_ObjectMeta w)) <= 63)%nat /\
  valid_rollout (spec_RolloutStrategy (twd_Spec w)).

(** ** Lemmas *)

Lemma validateGate_nil gate : validateGate gate = [] <-> valid_gate gate.
Proof.
  unfold validateGate, valid_gate. destruct gate as [t input from]; simpl.
  destruct from as [[cm sec]|]; simpl.
  - destruct input, cm, sec; simpl; split; intros; try discriminate; try done;
      naive_solver.
  - destruct input; done.
Qed.

(** The loop over the steps only appends errors, and none exactly when every
    step is fine. *)
Lemma validateStep_loop steps i errs last :
  exists errs' last',
    range_from validateStep i steps (errs, last) = Ok (errs ++ errs', last') /\
    (errs' = [] <-> ramps_above last steps /\
                    Forall (fun s => 30 * Second <= step_PauseDuration s) steps).
Proof.
  revert i errs last. induction steps as [|s steps IH]; intros i errs last; simpl.
  - exists [], last. rewrite app_nil_r. split; [done|]. split; [|done]. by repeat constructor.
  - set (e1 := if step_PauseDuration s <? 30 * Second then _ else errs).
    set (e2 := if step_RampPercentage s <=? last then _ else e1).
    destruct (IH (S i) e2 (step_RampPercentage s)) as (errs' & last' & -> & Hiff).
    assert (exists d, e2 = errs ++ d /\
      (d = [] <-> last < step_RampPercentage s /\ 30 * Second <= step_PauseDuration s))
      as (d & -> & Hd).
    { unfold e2, e1. destruct (Z.ltb_spec (step_PauseDuration s) (30 * Second)),
        (Z.leb_spec (step_RampPercentage s) last); rewrite <- ?app_assoc.
      1-3: eexists; split; [done|]; split; [discriminate | lia].
      exists []. by rewrite app_nil_r. }
    exists (d ++ errs'), last'. rewrite app_assoc. split; [done|].
    rewrite Forall_cons, app_nil. naive_solver.
Qed.

Lemma validateSteps_spec steps :
  exists errs, validateSteps steps = Ok errs /\ (errs = [] <-> valid_steps steps).
Proof.
  unfold validateSteps, valid_steps, range.
  destruct (validateStep_loop steps 0%nat
    (if decide (steps = [])
     then [mkFieldError "spec.rollout.steps" None "steps are required for Progressive rollout"]
     else []) 0) as (errs' & last' & -> & Hiff).
  eexists; split; [reflexivity|]. simpl. rewrite app_nil, Hiff. case_decide; naive_solver.
Qed.

Lemma validateRolloutStrategy_spec s :
  exists errs, validateRolloutStrategy s = Ok errs /\ (errs = [] <-> valid_rollout s).
Proof.
  unfold validateRolloutStrategy, valid_rollout.
  destruct (validateSteps_spec (rs_Steps s)) as (errs & Hs & Hiff).
  assert (match rs_Gate s with Some g => validateGate g | None => [] end = [] <->
          forall g, rs_Gate s = Some g -> valid_gate g) as Hg.
  { destruct (rs_Gate s) as [g|]; [rewrite validateGate_nil|]; naive_solver. }
  case_decide as Hst; [rewrite Hs|]; simpl; (eexists; split; [reflexivity|]).
  - rewrite app_nil, Hiff, Hg. naive_solver.
  - rewrite Hg. naive_solver.
Qed.

(** ** Theorems *)

(** Validation decides validity. *)
Lemma validate_cases w :
  (valid_deployment w /\ ValidateCreate (ObjTWD w) = Ok tt) \/
  (~ valid_deployment w /\
   ValidateCreate (ObjTWD w) = Err (ErrLeaf KApiInvalid (om_Name (twd_ObjectMeta w)))).
Proof.
  unfold ValidateCreate, method_validateForUpdateOrCreate, validateForUpdateOrCreate,
    valid_deployment, maxTemporalWorkerDeploymentNameLen.
  destruct (validateRolloutStrategy_spec (spec_RolloutStrategy (twd_Spec w)))
    as (errs & -> & Hiff).
  simpl. destruct (Nat.ltb_spec 63 (str_len (om_Name (twd_ObjectMeta w)))) as [Hn|Hn]; simpl.
  - right. split; [lia|done].
  - destruct errs as [|e errs]; simpl.
    + left. split; [|done]. split; [done|]. by apply Hiff.
    + right. split; [|done]. intros [_ ?%Hiff]. discriminate.
Qed.

(** C28: Validation accepts a resource exactly when its name has at most 63
    characters, a Progressive rollout has steps, all pausing at least 30 s with
    strictly growing positive ramps, and a gate with an [inputFrom] has no inline
    input and sets exactly one of the ConfigMap and Secret references there - an
    empty [inputFrom] is refused; otherwise it returns the Invalid error.  Create
    and update agree. *)
Theorem ValidateCreate_spec w :
  (ValidateCreate (ObjTWD w) = Ok tt <-> valid_deployment w) /\
  (~ valid_deployment w ->
     ValidateCreate (ObjTWD w) = Err (ErrLeaf KApiInvalid (om_Name (twd_ObjectMeta w)))) /\
  (forall old, ValidateUpdate old (ObjTWD w) = ValidateCreate (ObjTWD w)).
Proof.
  assert (forall old, ValidateUpdate old (ObjTWD w) = ValidateCreate (ObjTWD w)) as Hu by done.
  destruct (validate_cases w) as [[Hv He]|[Hv He]]; split_and!; try done; rewrite He; try done.
Qed.

(** The spec with another sunset strategy. *)
Definition with_SunsetStrategy (s : SunsetStrategy) (spec : TemporalWorkerDeploymentSpec)
  : TemporalWorkerDeploymentSpec :=
  mkTemporalWorkerDeploymentSpec (spec_Replicas spec) (spec_Template spec)
    (spec_MinReadySeconds spec) (spec_ProgressDeadlineSeconds spec)
    (spec_RolloutStrategy spec) s (spec_WorkerOptions spec).

(** Defaulting fills exactly the missing delays (1 h and 24 h), changes
    nothing else, leaves a complete resource alone, is idempotent, and does not
    affect validity. *)
Theorem Default_spec w :
  exists w', TWD_Default (ObjTWD w) = Ok w' /\
    ScaledownDelay (spec_SunsetStrategy (twd_Spec w'))
      = Some (default (1 * Hour) (ScaledownDelay (spec_SunsetStrategy (twd_Spec w)))) /\
    DeleteDelay (spec_SunsetStrategy (twd_Spec w'))
      = Some (default (24 * Hour) (DeleteDelay (spec_SunsetStrategy (twd_Spec w)))) /\
    TWD_Default (ObjTWD w') = Ok w' /\
    (is_Some (ScaledownDelay (spec_SunsetStrategy (twd_Spec w))) ->
     is_Some (DeleteDelay (spec_SunsetStrategy (twd_Spec w))) -> w' = w) /\
    ValidateCreate (ObjTWD w') = ValidateCreate (ObjTWD w) /\
    twd_set_Spec (with_SunsetStrategy (spec_SunsetStrategy (twd_Spec w)) (twd_Spec w')) w' = w.
Proof.
  destruct w as [tm om [r t m p rs [sd dd] wo] st].
  eexists; split; [reflexivity|]. destruct sd, dd; simpl; split_and!; try reflexivity;
    by intros [? ?] [? ?].
Qed.
