(* ===== verification/Trace.v ===== *)
(** * Programs that call out

    A program that calls the outside world keeps the chronological list of the
    calls it made (of a type [E] of events); every answer may depend on it.
    [traced E] is the monad of such programs; [emits], [extends] and the rules
    for loops are how their runs are reasoned about. *)

From stdpp Require Import base gmap sets list strings.
From Stdlib Require Import ZArith Lia.
From S2P Require Import Prelude.

(** ** The monad *)

Definition traced (E A : Type) : Type := list E -> outcome A * list E.

Section Traced.
Context {E : Type}.
Abbreviation io := (traced E).
Abbreviation Log := (list E).

#[export] Instance io_ret : MRet io := fun A a l => (Ok a, l).

#[export] Instance io_bind : MBind io := fun A B f m l =>
  match m l with
  | (Ok a, l') => f a l'
  | (Err e, l') => (Err e, l')
  | (Panic p, l') => (Panic p, l')
  end.

Definition lift {A} (m : outcome A) : io A := fun l => (m, l).

Definition io_throw {A} (e : gerror) : io A := fun l => (Err e, l).

Definition answer {A} (r : A + gerror) : outcome A :=
  match r with
  | inl a => Ok a
  | inr e => Err e
  end.

(** A call: the world answers knowing the history, then the event is history. *)
Definition call {A} (ev : E) (f : Log -> A + gerror) : io A :=
  fun l => (answer (f l), l ++ [ev]).

(** [r, err := m], with the error as a value. *)
Definition try {A} (m : io A) : io (A + gerror) := fun l =>
  match m l with
  | (Ok a, l') => (Ok (inl a), l')
  | (Err e, l') => (Ok (inr e), l')
  | (Panic p, l') => (Panic p, l')
  end.

(** [if err := m; err != nil { return wrap(err) }] *)
Definition wrap_error {A} (w : gerror -> gerror) (m : io A) : io A := fun l =>
  match m l with
  | (Err e, l') => (Err (w e), l')
  | r => r
  end.

Fixpoint io_range_from {A S} (body : nat -> A -> S -> io S) (i : nat) (l : list A) (s : S)
  : io S :=
  match l with
  | [] => mret s
  | x :: l' => s' ← body i x s; io_range_from body (Datatypes.S i) l' s'
  end.

Definition io_range {A S} (body : nat -> A -> S -> io S) (l : list A) (s : S) : io S :=
  io_range_from body 0%nat l s.

(** ** Reasoning about runs *)

Lemma io_bind_run {A B} (m : io A) (f : A -> io B) l :
  (x ← m; f x) l = match m l with
                   | (Ok a, l') => f a l'
                   | (Err e, l') => (Err e, l')
                   | (Panic p, l') => (Panic p, l')
                   end.
Proof. reflexivity. Qed.

Lemma io_bind_Ok {A B} (m : io A) (f : A -> io B) l b l' :
  (x ← m; f x) l = (Ok b, l') <-> exists a l1, m l = (Ok a, l1) /\ f a l1 = (Ok b, l').
Proof.
  unfold mbind, io_bind. destruct (m l) as [[a|e|p] l1]; split.
  1: eauto. 1: by intros (? & ? & [= -> ->] & ?).
  all: try done; by intros (? & ? & ? & ?).
Qed.

Lemma wrap_error_Ok {A} w (m : io A) l a l' : wrap_error w m l = (Ok a, l') -> m l = (Ok a, l').
Proof. unfold wrap_error. by destruct (m l) as [[?|?|?] ?]. Qed.

Lemma lift_Ok {A} (m : outcome A) l a l' : lift m l = (Ok a, l') -> m = Ok a /\ l' = l.
Proof. unfold lift. intros H. by inversion H. Qed.

Lemma answer_Ok {A} (r : A + gerror) a : answer r = Ok a -> r = inl a.
Proof. destruct r; simpl; congruence. Qed.

(** Loops that append: [ev x] is what the iteration on [x] adds to the log, so
    the iteration on [x] starts in the log [visited] pairs it with. *)
Fixpoint visited {A} (ev : A -> Log) (l : Log) (xs : list A) : list (A * Log) :=
  match xs with
  | [] => []
  | x :: xs' => (x, l) :: visited ev (l ++ ev x) xs'
  end.

Lemma visited_elem {A} (ev : A -> Log) l xs x lx :
  (x, lx) ∈ visited ev l xs ->
  x ∈ xs /\ exists l1 l2, lx = l ++ l1 /\ l ++ concat (ev <$> xs) = lx ++ l2.
Proof.
  revert l. induction xs as [|y xs IH]; intros l; simpl; [by intros ?%not_elem_of_nil|].
  intros [[= -> ->]|Hx]%elem_of_cons.
  - split; [by left|]. exists [], (ev y ++ concat (ev <$> xs)). by rewrite app_nil_r.
  - apply IH in Hx as (Hin & l1 & l2 & -> & Hl). split; [by right|].
    exists (ev y ++ l1), l2. rewrite <- Hl. by rewrite <- !app_assoc.
Qed.

Lemma elem_of_visited {A} (ev : A -> Log) l xs x :
  x ∈ xs -> exists lx, (x, lx) ∈ visited ev l xs.
Proof.
  revert l. induction xs as [|y xs IH]; intros l; simpl; [by intros ?%not_elem_of_nil|].
  intros [->|Hx]%elem_of_cons; [eexists; by left|].
  destruct (IH (l ++ ev y) Hx) as [lx Hlx]. exists lx. by right.
Qed.

Lemma io_range_visited {A S} (body : nat -> A -> S -> io S) (ev : A -> Log)
    (step : A -> Log -> S -> S) xs s l s' l' :
  (forall i x t l1 t' l2, x ∈ xs -> body i x t l1 = (Ok t', l2) ->
     t' = step x l1 t /\ l2 = l1 ++ ev x) ->
  io_range body xs s l = (Ok s', l') ->
  s' = foldl (fun t xl => step xl.1 xl.2 t) s (visited ev l xs) /\
  l' = l ++ concat (ev <$> xs).
Proof.
  unfold io_range. generalize 0%nat. revert s l.
  induction xs as [|x xs IH]; intros s l i Hb; simpl.
  - intros [= <- <-]. by rewrite app_nil_r.
  - intros (t & l1 & Hx & Hr)%io_bind_Ok. apply Hb in Hx as [-> ->]; [|by left].
    apply IH in Hr as [-> ->]; [by rewrite <- app_assoc|].
    intros j y u la u' lb Hy. apply Hb. by right.
Qed.

(** The same with a body that appends. *)
Lemma foldl_append {A B} (g : A -> list B) xs acc :
  foldl (fun t x => t ++ g x) acc xs = acc ++ concat (g <$> xs).
Proof.
  revert acc. induction xs as [|x xs IH]; intros acc; simpl; [by rewrite app_nil_r|].
  by rewrite IH, app_assoc.
Qed.

Lemma foldl_append_ext {A B} (g : A -> list B) f xs acc :
  (forall t x, f t x = t ++ g x) -> foldl f acc xs = acc ++ concat (g <$> xs).
Proof.
  intros Hf. rewrite <- foldl_append. revert acc.
  induction xs as [|x xs IH]; intros acc; simpl; [done|]. by rewrite Hf.
Qed.

(** The total rule: the body returns from every state it can reach. *)
Lemma io_range_total {A S} (body : nat -> A -> S -> io S) (P : S -> Prop) xs s l :
  (forall i x t l1, x ∈ xs -> P t -> exists t' l2, body i x t l1 = (Ok t', l2) /\ P t') ->
  P s -> exists s' l', io_range body xs s l = (Ok s', l') /\ P s'.
Proof.
  unfold io_range. generalize 0%nat. revert s l.
  induction xs as [|x xs IH]; intros s l i Hb Hs; simpl; [eauto|].
  destruct (Hb i x s l) as (t & l1 & Ht & HPt); [by left|done|].
  rewrite io_bind_run, Ht. apply IH; [|done].
  intros j y u lu Hy. apply Hb. by right.
Qed.

(** [m] only extends the log, and by events satisfying [P]. *)
Definition emits {A} (P : E -> Prop) (m : io A) : Prop :=
  forall l, exists l', (m l).2 = l ++ l' /\ Forall P l'.

Section Emits.
Context {P : E -> Prop}.

Lemma emits_ret {A} (a : A) : emits P (mret a).
Proof. intros l. exists []. split; [simpl; by rewrite app_nil_r | constructor]. Qed.

Lemma emits_lift {A} (m : outcome A) : emits P (lift m).
Proof. intros l. exists []. split; [simpl; by rewrite app_nil_r | constructor]. Qed.

Lemma emits_throw {A} e : emits P (io_throw (A := A) e).
Proof. apply (emits_lift (Err e)). Qed.

Lemma emits_bind {A B} (m : io A) (f : A -> io B) :
  emits P m -> (forall a, emits P (f a)) -> emits P (x ← m; f x).
Proof.
  intros Hm Hf l. destruct (Hm l) as (l1 & Hl1 & HP1).
  unfold mbind, io_bind. destruct (m l) as [[a|e|p] lm]; simpl in *; subst.
  - destruct (Hf a (l ++ l1)) as (l2 & -> & HP2). exists (l1 ++ l2).
    rewrite app_assoc. split; [done|]. by apply Forall_app.
  - eauto.
  - eauto.
Qed.

(** After a pure step the continuation knows its value. *)
Lemma emits_bind_lift {A B} (m : outcome A) (f : A -> io B) :
  (forall a, m = Ok a -> emits P (f a)) -> emits P (x ← lift m; f x).
Proof.
  intros Hf l. unfold mbind, io_bind, lift. destruct m as [a|e|p].
  - by apply Hf.
  - exists []. by rewrite app_nil_r.
  - exists []. by rewrite app_nil_r.
Qed.

Lemma emits_try {A} (m : io A) : emits P m -> emits P (try m).
Proof.
  intros Hm l. destruct (Hm l) as (l1 & Hl1 & HP1). unfold try.
  destruct (m l) as [[a|e|p] lm]; simpl in *; subst; eauto.
Qed.

Lemma emits_wrap {A} w (m : io A) : emits P m -> emits P (wrap_error w m).
Proof.
  intros Hm l. destruct (Hm l) as (l1 & Hl1 & HP1). unfold wrap_error.
  destruct (m l) as [[a|e|p] lm]; simpl in *; subst; eauto.
Qed.

Lemma emits_call {A} ev (f : Log -> A + gerror) : P ev -> emits P (call ev f).
Proof. intros HP l. exists [ev]. split; [done|]. by constructor. Qed.

Lemma emits_range_from {A S} (body : nat -> A -> S -> io S) i l s :
  (forall i x s', emits P (body i x s')) -> emits P (io_range_from body i l s).
Proof.
  intros Hb. revert i s. induction l as [|x l IH]; intros i s; simpl; [apply emits_ret|].
  apply emits_bind; [apply Hb|]. intros s'. apply IH.
Qed.

Lemma emits_range {A S} (body : nat -> A -> S -> io S) l s :
  (forall i x s', emits P (body i x s')) -> emits P (io_range body l s).
Proof. apply emits_range_from. Qed.
End Emits.

Lemma emits_weaken {A} (P Q : E -> Prop) (m : io A) :
  (forall ev, P ev -> Q ev) -> emits P m -> emits Q m.
Proof.
  intros HPQ Hm l. destruct (Hm l) as (l' & Hl & HP). exists l'. split; [done|].
  eapply Forall_impl; [exact HP|done].
Qed.

(** Programs only extend the log. *)
Definition extends {A} (m : io A) : Prop := emits (fun _ => True) m.

Lemma emits_extends {A} (P : E -> Prop) (m : io A) : emits P m -> extends m.
Proof. by apply emits_weaken. Qed.

Lemma extends_prefix {A} (m : io A) l o l' :
  extends m -> m l = (o, l') -> l `prefix_of` l'.
Proof. intros Hm Hr. destruct (Hm l) as (ext & Hl & _). rewrite Hr in Hl. by exists ext. Qed.

(** A log of a run between two of its logs. *)
Definition during (la lb l : Log) : Prop := la `prefix_of` l /\ l `prefix_of` lb.

Lemma during_mono la lb la' lb' l :
  la' `prefix_of` la -> lb `prefix_of` lb' -> during la lb l -> during la' lb' l.
Proof. intros Ha Hb [H1 H2]. split; by etrans. Qed.

Lemma during_call {A} ev (f : Log -> A + gerror) l o l' :
  call ev f l = (o, l') -> during l l' l.
Proof. intros [= _ <-]. split; [done|by exists [ev]]. Qed.

(** The invariant rule for loops that call out: [P done s] holds after the
    elements [done]. *)
Lemma io_range_inv {A S} (body : nat -> A -> S -> io S) (P : list A -> S -> Prop)
    xs s s' l l' :
  (forall i x t, extends (body i x t)) ->
  (forall done i x t t' l1 l2, x ∈ xs -> l `prefix_of` l1 -> l2 `prefix_of` l' ->
     P done t -> body i x t l1 = (Ok t', l2) -> P (done ++ [x]) t') ->
  P [] s -> io_range body xs s l = (Ok s', l') -> P xs s'.
Proof.
  intros Hext Hb HP. unfold io_range.
  assert (forall ys i dn t l1, (forall y, y ∈ ys -> y ∈ xs) -> P dn t -> l `prefix_of` l1 ->
            io_range_from body i ys t l1 = (Ok s', l') -> P (dn ++ ys) s') as Hgen.
  { induction ys as [|y ys IH]; intros i dn t l1 Hin Ht Hl1; simpl.
    - intros [= <- _]. by rewrite app_nil_r.
    - intros (t' & l2 & Hby & Hr)%io_bind_Ok.
      pose proof (extends_prefix _ _ _ _ (Hext i y t) Hby) as H12.
      pose proof (extends_prefix _ _ _ _ (emits_range_from body _ ys t' Hext) Hr) as H2.
      rewrite cons_middle, app_assoc. apply (IH (Datatypes.S i) _ t' l2); [| | |done].
      + intros z Hz. apply Hin. by right.
      + eapply Hb; [apply Hin; by left|done|done|done|done].
      + by etrans. }
  apply (Hgen xs 0%nat [] s l); auto.
Qed.
End Traced.

(** [io_run] runs the binds of a program as far as their heads are known. *)
Ltac io_run := simpl; repeat (rewrite io_bind_run; simpl).

(** The lemmas about named programs are kept in [emits]; [emits_steps] splits
    an [emits] goal along the syntax of the program and looks the names up. *)
Create HintDb emits.

Ltac emits_steps :=
  repeat (intros; lazymatch goal with
  | |- emits _ (mret _) => apply emits_ret
  | |- emits _ (lift _) => apply emits_lift
  | |- emits _ (io_throw _) => apply emits_throw
  | |- emits _ (mbind _ (lift _)) => apply emits_bind_lift
  | |- emits _ (mbind _ _) => apply emits_bind
  | |- emits _ (try _) => apply emits_try
  | |- emits _ (wrap_error _ _) => apply emits_wrap
  | |- emits _ (io_range _ _ _) => apply emits_range
  | |- emits _ (match ?x with _ => _ end) => destruct x
  | |- emits _ _ => solve [eauto with emits]
  end); intros.
