(* ===== verification/World.v ===== *)
(** * The outside world: the Temporal and Kubernetes clients and the clock

    The SDK's response and option types (the fields the sources use), the
    events of a run, the class [World] that answers each call depending on
    everything that happened before it, and the monad [io] of code that calls
    out.  A run keeps the chronological list of its events ([Log]). *)

From stdpp Require Import base gmap sets list strings.
From Stdlib Require Import ZArith Lia.
From S2P Require Import Prelude GoStd Api K8s Trace.

(** ** Types of the Temporal SDK *)

Record WorkerDeploymentVersion := mkWorkerDeploymentVersion {
  wdv_DeploymentName : string;
  wdv_BuildId : string;
}.

Inductive DrainageStatus :=
  | DrainageStatusUnspecified
  | DrainageStatusDraining
  | DrainageStatusDrained.

#[export] Instance DrainageStatus_eq_dec : EqDecision DrainageStatus.
Proof. solve_decision. Defined.

Record VersionSummary := mkVersionSummary {
  vs_Version : WorkerDeploymentVersion;
  vs_DrainageStatus : DrainageStatus;
}.

Record RoutingConfig := mkRoutingConfig {
  rc_CurrentVersion : option WorkerDeploymentVersion;
  rc_RampingVersion : option WorkerDeploymentVersion;
  rc_RampingVersionPercentage : float32;
  rc_RampingVersionChangedTime : Time;
  rc_RampingVersionPercentageChangedTime : Time;
}.

Record WorkerDeploymentInfo := mkWorkerDeploymentInfo {
  wdi_VersionSummaries : list VersionSummary;
  wdi_RoutingConfig : RoutingConfig;
  wdi_LastModifierIdentity : string;
}.

Record DescribeResponse := mkDescribeResponse {
  dr_Info : WorkerDeploymentInfo;
  dr_ConflictToken : string;
}.

Inductive TaskQueueType :=
  | TaskQueueTypeUnspecified
  | TaskQueueTypeWorkflow
  | TaskQueueTypeActivity
  | TaskQueueTypeNexus.

#[export] Instance TaskQueueType_eq_dec : EqDecision TaskQueueType.
Proof. solve_decision. Defined.

Record TaskQueueInfo := mkTaskQueueInfo {
  tqi_Name : string;
  tqi_Type : TaskQueueType;
}.

Record DrainageInfo := mkDrainageInfo {
  di_DrainageStatus : DrainageStatus;
  di_LastChangedTime : Time;
}.

(** [WorkerDeploymentVersionDescription.Info]; payloads are opaque. *)
Record VersionDescription := mkVersionDescription {
  vd_TaskQueuesInfos : list TaskQueueInfo;
  vd_DrainageInfo : option DrainageInfo;
  vd_Metadata : gmap string string;
}.

Definition zeroVersionDescription : VersionDescription := mkVersionDescription [] None ∅.

Inductive WorkerVersioningMode :=
  | VersioningModeUnspecified
  | VersioningModeUnversioned
  | VersioningModeVersioned.

#[export] Instance WorkerVersioningMode_eq_dec : EqDecision WorkerVersioningMode.
Proof. solve_decision. Defined.

Inductive ServerWorkflowStatus :=
  | WORKFLOW_EXECUTION_STATUS_UNSPECIFIED
  | WORKFLOW_EXECUTION_STATUS_RUNNING
  | WORKFLOW_EXECUTION_STATUS_COMPLETED
  | WORKFLOW_EXECUTION_STATUS_FAILED
  | WORKFLOW_EXECUTION_STATUS_CANCELED
  | WORKFLOW_EXECUTION_STATUS_TERMINATED
  | WORKFLOW_EXECUTION_STATUS_CONTINUED_AS_NEW
  | WORKFLOW_EXECUTION_STATUS_TIMED_OUT.

Record WorkflowExecutionInfo := mkWorkflowExecutionInfo {
  wei_WorkflowId : string;
  wei_RunId : string;
  wei_TaskQueue : string;
  wei_Status : ServerWorkflowStatus;
}.

(** ** Options of the calls that change something *)

Record StartWorkflowOptions := mkStartWorkflowOptions {
  swo_ID : string;
  swo_TaskQueue : string;
  swo_WorkflowExecutionTimeout : Duration;
  swo_RejectDuplicate : bool;       (* WORKFLOW_ID_REUSE_POLICY_REJECT_DUPLICATE *)
  swo_FailOnConflict : bool;        (* WORKFLOW_ID_CONFLICT_POLICY_FAIL *)
  swo_PinnedVersion : WorkerDeploymentVersion;
}.

Record SetCurrentVersionOptions := mkSetCurrentVersionOptions {
  scv_BuildID : string;
  scv_ConflictToken : string;
  scv_Identity : string;
}.

Record SetRampingVersionOptions := mkSetRampingVersionOptions {
  srv_BuildID : string;
  srv_Percentage : float32;
  srv_ConflictToken : string;
  srv_Identity : string;
}.

Record UpdateVersionMetadataOptions := mkUpdateVersionMetadataOptions {
  uvm_Version : WorkerDeploymentVersion;
  uvm_UpsertEntries : gmap string string;
  uvm_RemoveEntries : list string;
}.

(** ** Secrets, ConfigMaps and connections *)

Record Secret := mkSecret {
  sec_Name : string;
  sec_Type : string;
  sec_Data : gomap string;
}.

Record ConfigMap := mkConfigMap {
  cm_Data : gomap string;
  cm_BinaryData : gomap string;
}.

(** The credentials given to [sdkclient.Dial].  An API key is read from the
    captured Secret whenever the client needs it. *)
Inductive Credentials :=
  | NoCredentials
  | ClientCertificate (certPEM keyPEM : string)
  | APIKeyFrom (secret : Secret) (key : string).

Record DialOptions := mkDialOptions {
  do_HostPort : string;
  do_Namespace : string;
  do_Credentials : Credentials;
}.

(** A connected client. *)
Abbreviation sdkClient := nat (only parsing).

(** ** Events *)

Inductive Event :=
  (* clock *)
  | EvNow
  | EvSleep (d : Duration)
  (* Temporal: reads *)
  | EvDescribe (deployment : string)
  | EvDescribeVersion (deployment buildID : string)
  | EvDescribeTaskQueue (name : string) (type : TaskQueueType)
  | EvDescribeWorkflowExecution (workflowID : string)
  (* Temporal: writes *)
  | EvExecuteWorkflow (opts : StartWorkflowOptions) (workflowType : string)
      (input : option string)
  | EvSetCurrentVersion (deployment : string) (opts : SetCurrentVersionOptions)
  | EvSetRampingVersion (deployment : string) (opts : SetRampingVersionOptions)
  | EvUpdateVersionMetadata (deployment : string) (opts : UpdateVersionMetadataOptions)
  (* connections; [EvUseClient] marks whose calls follow *)
  | EvDial (opts : DialOptions)
  | EvCheckHealth (c : sdkClient)
  | EvCloseClient (c : sdkClient)
  | EvUseClient (c : sdkClient)
  (* Kubernetes: reads *)
  | EvGetTWD (namespace name : string)
  | EvListTWDs (namespace : string)
  | EvGetConnection (namespace name : string)
  | EvListDeployments (namespace owner : string)
  | EvGetConfigMap (namespace name : string)
  | EvGetSecret (namespace name : string)
  (* Kubernetes: writes *)
  | EvUpdateStatus (w : TemporalWorkerDeployment)
  | EvCreate (d : Deployment)
  | EvDelete (d : Deployment)
  | EvScale (namespace name resourceVersion uid : string) (replicas : Z)
  | EvUpdate (d : Deployment).

Abbreviation Log := (list Event).

(** The answers of the outside world; [inr] is a returned error. *)
Class World := {
  w_Now : Log -> Time;
  w_Describe : Log -> string -> DescribeResponse + gerror;
  w_DescribeVersion : Log -> string -> string -> VersionDescription + gerror;
  w_DescribeTaskQueue : Log -> string -> TaskQueueType -> list WorkerVersioningMode + gerror;
  w_DescribeWorkflowExecution : Log -> string -> WorkflowExecutionInfo + gerror;
  (* converter.GetDefaultDataConverter().FromPayload into a string *)
  w_FromPayload : string -> string + gerror;
  w_Dial : Log -> DialOptions -> sdkClient + gerror;
  w_CheckHealth : Log -> sdkClient -> unit + gerror;
  w_GetTWD : Log -> string -> string -> TemporalWorkerDeployment + gerror;
  w_ListTWDs : Log -> string -> list TemporalWorkerDeployment + gerror;
  w_GetConnection : Log -> string -> string -> TemporalConnectionSpec + gerror;
  w_ListDeployments : Log -> string -> string -> list Deployment + gerror;
  w_GetConfigMap : Log -> string -> string -> ConfigMap + gerror;
  w_GetSecret : Log -> string -> string -> Secret + gerror;
  (* the API server's answer to a status update: the object as stored *)
  w_UpdateStatus : Log -> TemporalWorkerDeployment -> TemporalWorkerDeployment + gerror;
  (* the other calls that write return nothing the code looks at *)
  w_Write : Log -> Event -> unit + gerror;
}.

(** The clock never goes back and [Sleep] sleeps. *)
Class WorldClock (W : World) := {
  clock_mono l l' : (w_Now l <= w_Now (l ++ l'))%Z;
  clock_sleep l d l' : (w_Now l + d <= w_Now (l ++ EvSleep d :: l'))%Z;
}.

(** ** The calls *)

Abbreviation io := (traced Event).

Section Calls.
Context `{World}.

Definition time_Now : io Time := fun l => (Ok (w_Now l), l ++ [EvNow]).
Definition time_Sleep (d : Duration) : io unit := fun l => (Ok tt, l ++ [EvSleep d]).

Definition Describe (name : string) : io DescribeResponse :=
  call (EvDescribe name) (fun l => w_Describe l name).
Definition DescribeVersion (name buildID : string) : io VersionDescription :=
  call (EvDescribeVersion name buildID) (fun l => w_DescribeVersion l name buildID).
Definition DescribeTaskQueue (name : string) (type : TaskQueueType)
  : io (list WorkerVersioningMode) :=
  call (EvDescribeTaskQueue name type) (fun l => w_DescribeTaskQueue l name type).
Definition DescribeWorkflowExecution (id : string) : io WorkflowExecutionInfo :=
  call (EvDescribeWorkflowExecution id) (fun l => w_DescribeWorkflowExecution l id).
Definition Dial (opts : DialOptions) : io sdkClient :=
  call (EvDial opts) (fun l => w_Dial l opts).
Definition CheckHealth (c : sdkClient) : io unit :=
  call (EvCheckHealth c) (fun l => w_CheckHealth l c).
Definition CloseClient (c : sdkClient) : io unit := call (EvCloseClient c) (fun _ => inl tt).
Definition UseClient (c : sdkClient) : io unit := call (EvUseClient c) (fun _ => inl tt).
Definition GetTWD (ns name : string) : io TemporalWorkerDeployment :=
  call (EvGetTWD ns name) (fun l => w_GetTWD l ns name).
Definition ListTWDs (ns : string) : io (list TemporalWorkerDeployment) :=
  call (EvListTWDs ns) (fun l => w_ListTWDs l ns).
Definition GetConnection (ns name : string) : io TemporalConnectionSpec :=
  call (EvGetConnection ns name) (fun l => w_GetConnection l ns name).
Definition ListDeployments (ns owner : string) : io (list Deployment) :=
  call (EvListDeployments ns owner) (fun l => w_ListDeployments l ns owner).
Definition GetConfigMap (ns name : string) : io ConfigMap :=
  call (EvGetConfigMap ns name) (fun l => w_GetConfigMap l ns name).
Definition GetSecret (ns name : string) : io Secret :=
  call (EvGetSecret ns name) (fun l => w_GetSecret l ns name).
Definition UpdateStatus (w : TemporalWorkerDeployment) : io TemporalWorkerDeployment :=
  call (EvUpdateStatus w) (fun l => w_UpdateStatus l w).
Definition write (ev : Event) : io unit := call ev (fun l => w_Write l ev).
End Calls.

(** An event is read-only when it changes neither Kubernetes nor Temporal. *)
Definition is_write (ev : Event) : bool :=
  match ev with
  | EvExecuteWorkflow _ _ _ | EvSetCurrentVersion _ _ | EvSetRampingVersion _ _
  | EvUpdateVersionMetadata _ _ | EvUpdateStatus _ | EvCreate _ | EvDelete _
  | EvScale _ _ _ _ _ | EvUpdate _ => true
  | _ => false
  end.

(** The primitive calls. *)
Section EmitsCalls.
Context `{World} {P : Event -> Prop}.

Lemma emits_Now : P EvNow -> emits P time_Now.
Proof. intros HP l. exists [EvNow]. split; [done|]. by constructor. Qed.
Lemma emits_Sleep d : P (EvSleep d) -> emits P (time_Sleep d).
Proof. intros HP l. exists [EvSleep d]. split; [done|]. by constructor. Qed.
Lemma emits_Describe n : P (EvDescribe n) -> emits P (Describe n).
Proof. apply emits_call. Qed.
Lemma emits_DescribeVersion n b : P (EvDescribeVersion n b) -> emits P (DescribeVersion n b).
Proof. apply emits_call. Qed.
Lemma emits_DescribeTaskQueue n t :
  P (EvDescribeTaskQueue n t) -> emits P (DescribeTaskQueue n t).
Proof. apply emits_call. Qed.
Lemma emits_DescribeWorkflowExecution id :
  P (EvDescribeWorkflowExecution id) -> emits P (DescribeWorkflowExecution id).
Proof. apply emits_call. Qed.
Lemma emits_Dial o : P (EvDial o) -> emits P (Dial o).
Proof. apply emits_call. Qed.
Lemma emits_CheckHealth c : P (EvCheckHealth c) -> emits P (CheckHealth c).
Proof. apply emits_call. Qed.
Lemma emits_CloseClient c : P (EvCloseClient c) -> emits P (CloseClient c).
Proof. apply emits_call. Qed.
Lemma emits_UseClient c : P (EvUseClient c) -> emits P (UseClient c).
Proof. apply emits_call. Qed.
Lemma emits_GetTWD ns n : P (EvGetTWD ns n) -> emits P (GetTWD ns n).
Proof. apply emits_call. Qed.
Lemma emits_ListTWDs ns : P (EvListTWDs ns) -> emits P (ListTWDs ns).
Proof. apply emits_call. Qed.
Lemma emits_GetConnection ns n : P (EvGetConnection ns n) -> emits P (GetConnection ns n).
Proof. apply emits_call. Qed.
Lemma emits_ListDeployments ns n : P (EvListDeployments ns n) -> emits P (ListDeployments ns n).
Proof. apply emits_call. Qed.
Lemma emits_GetConfigMap ns n : P (EvGetConfigMap ns n) -> emits P (GetConfigMap ns n).
Proof. apply emits_call. Qed.
Lemma emits_GetSecret ns n : P (EvGetSecret ns n) -> emits P (GetSecret ns n).
Proof. apply emits_call. Qed.
Lemma emits_UpdateStatus w : P (EvUpdateStatus w) -> emits P (UpdateStatus w).
Proof. apply emits_call. Qed.
Lemma emits_write ev : P ev -> emits P (write ev).
Proof. apply emits_call. Qed.
End EmitsCalls.

#[export] Hint Resolve emits_Now emits_Sleep emits_Describe emits_DescribeVersion
  emits_DescribeTaskQueue emits_DescribeWorkflowExecution emits_Dial emits_CheckHealth
  emits_CloseClient emits_UseClient emits_GetTWD emits_ListTWDs emits_GetConnection
  emits_ListDeployments emits_GetConfigMap emits_GetSecret emits_UpdateStatus
  emits_write : emits.
#[export] Hint Extern 5 (is_write _ = false) => reflexivity : emits.
