(* ===== verification/Worker.v ===== *)
(** * internal/demo: the demo worker

    The process that runs in the pods: helloworld/cmd/worker/main.go with
    util/env.go, util/client.go, util/observability.go and util/worker.go, and
    the workflows of helloworld/worker.go, whose time-outs are util/activity.go's.
    Its environment is a function
    ([os.LookupEnv]); the SDK, envconfig and the Prometheus exporter are the
    class [WorkerLib].  Goroutines are started ([WoGo]) and not followed. *)

From stdpp Require Import base gmap sets list strings.
From Stdlib Require Import ZArith Lia.
From S2P Require Import Prelude GoStd Api K8s Trace World.
Local Open Scope Z_scope.

(** ** Data of the SDK *)

Inductive VersioningBehavior :=
  | VersioningBehaviorUnspecified
  | VersioningBehaviorPinned
  | VersioningBehaviorAutoUpgrade.

Record DeploymentOptions := mkDeploymentOptions {
  do_UseVersioning : bool;
  do_Version : WorkerDeploymentVersion;
  do_DefaultVersioningBehavior : VersioningBehavior;
}.

(** [worker.Options]: the zero value has no deployment options. *)
Definition zeroDeploymentOptions : DeploymentOptions :=
  mkDeploymentOptions false (mkWorkerDeploymentVersion EmptyString EmptyString)
    VersioningBehaviorUnspecified.

Record ClientOptions := mkClientOptions {
  co_Identity : string;
  co_HostPort : string;
  co_Namespace : string;
}.

(** A [worker.Worker]: client, task queue, options. *)
Record SdkWorker := mkSdkWorker {
  wk_client : nat;
  wk_taskQueue : string;
  wk_DeploymentOptions : DeploymentOptions;
}.

Inductive WorkerEvent :=
  | WoGo (what : string)
  | WoDial (opts : ClientOptions)
  | WoCheckHealth (c : nat)
  | WoListWorkflow (c : nat) (namespace : string)
  | WoNew (w : SdkWorker)
  | WoRegisterWorkflow (name : string)
  | WoRegisterActivity (name : string)
  | WoRun (w : SdkWorker)
  | WoStart (w : SdkWorker)
  | WoStop (w : SdkWorker)
  | WoSleep (d : Duration).

Abbreviation proc := (traced WorkerEvent).

(** The environment of a process, as [os.LookupEnv] sees it. *)
Definition environ := string -> option string.

Class WorkerLib := {
  prometheus_New : unit + gerror;
  envconfig_LoadDefaultClientOptions : environ -> ClientOptions + gerror;
  wl_Dial : list WorkerEvent -> ClientOptions -> nat + gerror;
  wl_CheckHealth : list WorkerEvent -> nat -> unit + gerror;
  wl_ListWorkflow : list WorkerEvent -> nat -> unit + gerror;
  wl_Run : list WorkerEvent -> SdkWorker -> unit + gerror;
}.

(** [if err != nil { panic(err) }] *)
Definition must {A} (m : proc A) : proc A :=
  r ← try m;
  match r with
  | inl a => mret a
  | inr err => lift (Panic (ExplicitPanic err))
  end.

(** ** util/env.go *)

Definition mustGetEnv (env : environ) (key : string) : outcome string :=
  match env key with
  | Some v => Ok v
  | None => Panic (ExplicitPanic (Errorf "environment variable %q must be set" [key]))
  end.

Definition os_Getenv_of (env : environ) (key : string) : string := default EmptyString (env key).

Section Process.
Context `{WorkerLib}.

Definition emit (ev : WorkerEvent) : proc unit := call ev (fun _ => inl tt).

(** ** util/observability.go *)

(** The stop function waits for the metrics to be flushed. *)
Definition configureObservability (buildID : string) (metricsPort : Z) : proc (proc unit) :=
  _ ← must (lift (answer prometheus_New));
  _ ← emit (WoGo "metrics");
  mret (emit (WoSleep (5 * Second))).

(** ** util/client.go *)

Definition newClient (env : environ) (buildID : string) (metricsPort : Z)
  : proc (nat * proc unit) :=
  stopFunc ← configureObservability buildID metricsPort;
  opts ← must (lift (answer (envconfig_LoadDefaultClientOptions env)));
  let opts' := mkClientOptions (os_Getenv_of env "HOSTNAME") (co_HostPort opts)
                 (co_Namespace opts) in
  c ← must (call (WoDial opts') (fun l => wl_Dial l opts'));
  _ ← must (call (WoListWorkflow c (co_Namespace opts')) (fun l => wl_ListWorkflow l c));
  mret (c, stopFunc).

Definition NewClient : environ -> string -> Z -> proc (nat * proc unit) := newClient.

(** ** util/worker.go *)

(** The options of the version the environment names; [temporalTaskQueue] was
    read when the package was initialised. *)
Definition NewVersionedWorker (env : environ) (temporalTaskQueue : string)
  : proc (SdkWorker * proc unit) :=
  _ ← emit (WoGo "readiness");
  name ← lift (mustGetEnv env "TEMPORAL_DEPLOYMENT_NAME");
  build ← lift (mustGetEnv env "TEMPORAL_WORKER_BUILD_ID");
  let opts := mkDeploymentOptions true (mkWorkerDeploymentVersion name build)
                VersioningBehaviorPinned in
  buildID ← lift (mustGetEnv env "TEMPORAL_WORKER_BUILD_ID");
  client ← NewClient env buildID 9090;
  let w := mkSdkWorker client.1 temporalTaskQueue opts in
  _ ← emit (WoNew w);
  mret (w, _ ← emit (WoStop w); client.2).

(** ** helloworld/cmd/worker/main.go *)

(** [log.Fatal] exits with the error; the deferred stop runs only on a normal
    return. *)
Definition main (env : environ) : proc unit :=
  temporalTaskQueue ← lift (mustGetEnv env "TEMPORAL_TASK_QUEUE");
  started ← NewVersionedWorker env temporalTaskQueue;
  _ ← emit (WoRegisterWorkflow "RolloutGate");
  _ ← emit (WoRegisterWorkflow "HelloWorld");
  _ ← emit (WoRegisterActivity "GetSubject");
  _ ← call (WoRun started.1) (fun l => wl_Run l started.1);
  started.2.
End Process.

(** ** helloworld/worker.go *)

(** The activity; [latency] is [rand.Intn(30)]. *)
Definition GetSubject (latency : Z) : proc string :=
  _ ← emit (WoSleep (latency * Second));
  mret "World".

(** The options of the SDK the workflows set; the back-off coefficient is an
    integral float64. *)
Record RetryPolicy := mkRetryPolicy { rp_BackoffCoefficient : Z }.

Record ActivityOptions := mkActivityOptions {
  ao_ScheduleToCloseTimeout : Duration;
  ao_StartToCloseTimeout : Duration;
  ao_HeartbeatTimeout : Duration;
  ao_RetryPolicy : option RetryPolicy;
}.

Record ChildWorkflowOptions := mkChildWorkflowOptions {
  cwo_WorkflowExecutionTimeout : Duration;
}.

(** [workflow.Context], and what activities (with their arguments) and child
    workflows answer in one. *)
Class WorkflowLib := {
  wf_Context : Type;
  wf_WithActivityOptions : wf_Context -> ActivityOptions -> wf_Context;
  wf_WithChildOptions : wf_Context -> ChildWorkflowOptions -> wf_Context;
  wf_ExecuteActivity : wf_Context -> string -> list Z -> string + gerror;
  wf_ExecuteChildWorkflow : wf_Context -> string -> string + gerror;
}.

Definition quote : string := String (Ascii.ascii_of_nat 34) EmptyString.

Section Workflows.
Context `{WorkflowLib}.

(** util/activity.go *)
Definition SetActivityTimeout (ctx : wf_Context) (startToClose : Duration) : wf_Context :=
  wf_WithActivityOptions ctx
    (mkActivityOptions 0 startToClose (30 * Second) (Some (mkRetryPolicy 1))).

Definition HelloWorld (ctx : wf_Context) : outcome string :=
  let ctx := SetActivityTimeout ctx (5 * Minute) in
  subject ← answer (wf_ExecuteActivity ctx "GetSubject" []);
  Ok ("Hello " +:+ subject).

(** [strings.HasPrefix] *)
Definition RolloutGate (ctx : wf_Context) : outcome unit :=
  let ctx := wf_WithChildOptions ctx (mkChildWorkflowOptions Minute) in
  greeting ← answer (wf_ExecuteChildWorkflow ctx "HelloWorld");
  if String.prefix "Hello " greeting then Ok tt
  else Err (Errorf ("greeting does not have expect prefix " +:+ quote +:+ "Hello " +:+ quote
                    +:+ "; got: %q") [greeting]).
End Workflows.

(** ** Theorems *)

Lemma prefix_app (p s : string) : String.prefix p (p +:+ s) = true.
Proof.
  induction p as [|a p IH]; simpl; [by destruct s|]. destruct (Ascii.ascii_dec a a); [exact IH|done].
Qed.

(** The demo's gate workflow passes exactly when the greeting workflow it starts
    succeeds, as long as that one is [HelloWorld], run in a context of its own:
    it is never the greeting itself that fails the gate. *)
Theorem RolloutGate_passes (L : WorkflowLib) (ctx child : wf_Context) :
  (forall c greeting, wf_ExecuteChildWorkflow c "HelloWorld" = inl greeting <->
                      HelloWorld child = Ok greeting) ->
  (RolloutGate ctx = Ok tt <->
   exists subject, wf_ExecuteActivity (SetActivityTimeout child (5 * Minute)) "GetSubject" []
                   = inl subject).
Proof.
  intros Hchild. unfold RolloutGate. split.
  - intros (greeting & Hg & _)%bind_Ok. apply answer_Ok, Hchild in Hg. unfold HelloWorld in Hg.
    apply bind_Ok in Hg as (subject & Hs%answer_Ok & _). by exists subject.
  - intros [subject Hs].
    assert (HelloWorld child = Ok ("Hello " +:+ subject)) as Hg by (unfold HelloWorld; by rewrite Hs).
    eapply Hchild in Hg. rewrite Hg. cbn [answer mbind outcome_bind].
    by rewrite (prefix_app "Hello " subject).
Qed.

(** The worker an environment asks for. *)
Definition worker_of (env : environ) (w : SdkWorker) : Prop :=
  exists name build,
    env "TEMPORAL_TASK_QUEUE" = Some (wk_taskQueue w) /\
    env "TEMPORAL_DEPLOYMENT_NAME" = Some name /\ env "TEMPORAL_WORKER_BUILD_ID" = Some build /\
    wk_DeploymentOptions w
    = mkDeploymentOptions true (mkWorkerDeploymentVersion name build)
        VersioningBehaviorPinned.

(** The workers a process may create or run. *)
Definition worker_event_ok (env : environ) (ev : WorkerEvent) : Prop :=
  match ev with
  | WoNew w | WoRun w | WoStart w | WoStop w => worker_of env w
  | _ => True
  end.

Section Main.
Context `{WorkerLib} (env : environ).

Lemma emits_emit P ev : P ev -> emits P (emit ev).
Proof. apply emits_call. Qed.

Lemma emits_must {A} P (m : proc A) : emits P m -> emits P (must m).
Proof.
  intros Hm. apply emits_bind; [by apply emits_try|]. intros [a|e]; [apply emits_ret|apply emits_lift].
Qed.

Lemma configureObservability_stops b port l stop l' :
  configureObservability b port l = (Ok stop, l') -> stop = emit (WoSleep (5 * Second)).
Proof.
  unfold configureObservability. intros (u & l1 & _ & Hk)%io_bind_Ok.
  apply io_bind_Ok in Hk as (u' & l2 & _ & Hk). by injection Hk as <- _.
Qed.

Lemma newClient_stops b port l r l' :
  newClient env b port l = (Ok r, l') -> r.2 = emit (WoSleep (5 * Second)).
Proof.
  unfold newClient. intros (stop & l1 & Hs & Hk)%io_bind_Ok.
  apply configureObservability_stops in Hs as ->.
  apply io_bind_Ok in Hk as (opts & l2 & _ & Hk).
  apply io_bind_Ok in Hk as (c & l3 & _ & Hk).
  apply io_bind_Ok in Hk as (u & l4 & _ & Hk). by injection Hk as <- _.
Qed.

(** Splits a goal about the events of a program along its syntax. *)
Ltac proc_steps :=
  repeat (intros; lazymatch goal with
  | |- emits _ (must _) => apply emits_must
  | |- emits _ (emit _) => apply emits_emit
  | |- emits _ (call _ _) => apply emits_call
  | |- emits _ (mbind _ (lift _)) => apply emits_bind_lift
  | |- emits _ (mbind _ _) => apply emits_bind
  | |- emits _ (lift _) => apply emits_lift
  | |- emits _ (mret _) => apply emits_ret
  end).

Lemma newClient_emits b port : emits (worker_event_ok env) (newClient env b port).
Proof. unfold newClient, configureObservability. by proc_steps. Qed.

Lemma mustGetEnv_Ok key v : mustGetEnv env key = Ok v -> env key = Some v.
Proof. unfold mustGetEnv. destruct (env key); congruence. Qed.

(** The worker and how it is stopped. *)
Lemma NewVersionedWorker_Ok tq l w stop l' :
  env "TEMPORAL_TASK_QUEUE" = Some tq ->
  NewVersionedWorker env tq l = (Ok (w, stop), l') ->
  worker_of env w /\ WoNew w ∈ l' /\
  stop = (_ ← emit (WoStop w); emit (WoSleep (5 * Second))).
Proof.
  intros Htq. unfold NewVersionedWorker, NewClient. intros (u & l1 & _ & Hk)%io_bind_Ok.
  apply io_bind_Ok in Hk as (name & l2 & [Hn%mustGetEnv_Ok ->]%lift_Ok & Hk).
  apply io_bind_Ok in Hk as (build & l3 & [Hb%mustGetEnv_Ok ->]%lift_Ok & Hk).
  apply io_bind_Ok in Hk as (buildID & l4 & _ & Hk).
  apply io_bind_Ok in Hk as (client & l5 & Hc%newClient_stops & Hk).
  apply io_bind_Ok in Hk as (u' & l6 & Hnew & Hk). injection Hnew as _ <-.
  injection Hk as <- <- <-. rewrite Hc. split_and!; [|apply elem_of_app; right; by left|done].
  by exists name, build.
Qed.

Lemma NewVersionedWorker_emits tq :
  env "TEMPORAL_TASK_QUEUE" = Some tq ->
  emits (worker_event_ok env) (NewVersionedWorker env tq).
Proof.
  intros Htq. unfold NewVersionedWorker, NewClient.
  apply emits_bind; [by apply emits_emit|]. intros _.
  apply emits_bind_lift. intros name Hn%mustGetEnv_Ok.
  apply emits_bind_lift. intros build Hb%mustGetEnv_Ok.
  apply emits_bind_lift. intros buildID _.
  apply emits_bind; [apply newClient_emits|]. intros client.
  apply emits_bind; [|intros _; apply emits_ret]. apply emits_emit. by exists name, build.
Qed.

Lemma main_emits : emits (worker_event_ok env) (main env).
Proof.
  unfold main. apply emits_bind_lift. intros tq Htq%mustGetEnv_Ok. intros l1.
  rewrite io_bind_run. pose proof (NewVersionedWorker_emits tq Htq l1) as (e1 & He1 & HP1).
  destruct (NewVersionedWorker env tq l1) as [[[w stop]|e|p] l2] eqn:En; simpl in He1;
    [|by exists e1..].
  destruct (NewVersionedWorker_Ok _ _ _ _ _ Htq En) as (Hw & _ & ->).
  assert (emits (worker_event_ok env)
            (_ ← emit (WoRegisterWorkflow "RolloutGate");
             _ ← emit (WoRegisterWorkflow "HelloWorld");
             _ ← emit (WoRegisterActivity "GetSubject");
             _ ← call (WoRun w) (fun l => wl_Run l w);
             _ ← emit (WoStop w); emit (WoSleep (5 * Second)))) as Hrest by by proc_steps.
  destruct (Hrest l2) as (e2 & He2 & HP2). exists (e1 ++ e2). split; [|by apply Forall_app].
  rewrite app_assoc, <- He1. exact He2.
Qed.

Lemma main_workers l o evs :
  main env l = (o, l ++ evs) -> Forall (worker_event_ok env) evs.
Proof.
  intros Hrun. destruct (main_emits l) as (evs' & Heq & HP). rewrite Hrun in Heq. simpl in Heq.
  by apply app_inv_head in Heq as ->.
Qed.

(** A demo worker is the worker of its environment: every worker that the
    process creates, runs or stops polls the task queue the environment names and
    is a pinned, versioned worker of exactly the worker deployment and build ID
    it names; without one of the three variables no worker is created, and when
    nothing fails one is created, run and stopped. *)
Theorem main_runs_worker_of_env l o evs :
  main env l = (o, l ++ evs) ->
  Forall (worker_event_ok env) evs /\
  (o = Ok tt -> exists w, worker_of env w /\ WoNew w ∈ l ++ evs /\ WoRun w ∈ evs /\
     WoStop w ∈ evs) /\
  (env "TEMPORAL_TASK_QUEUE" = None -> is_Panic o /\ evs = []).
Proof.
  intros Hrun. split_and!.
  - by eapply main_workers.
  - intros ->. unfold main in Hrun.
    apply io_bind_Ok in Hrun as (tq & l1 & [Htq%mustGetEnv_Ok ->]%lift_Ok & Hk).
    apply io_bind_Ok in Hk as ([w stop] & l2 & Hn & Hk).
    destruct (NewVersionedWorker_Ok _ _ _ _ _ Htq Hn) as (Hw & Hnew & ->). exists w.
    pose proof (extends_prefix _ _ _ _ (emits_extends _ _ (NewVersionedWorker_emits tq Htq)) Hn)
      as [e1 ->].
    simpl in Hk. unfold emit, call, mbind, io_bind in Hk. simpl in Hk.
    destruct (wl_Run _ w) as [[]|e]; [|done]. simpl in Hk. injection Hk as Hk.
    rewrite <- !app_assoc in Hk. apply app_inv_head in Hk as <-.
    rewrite !elem_of_app in *. split_and!; [done|naive_solver|set_solver|set_solver].
  - intros Hnone. unfold main, mustGetEnv in Hrun. rewrite Hnone in Hrun. simpl in Hrun.
    injection Hrun as <- Hl. split; [by eexists|].
    rewrite <- (app_nil_r l) in Hl at 1. by apply app_inv_head in Hl as <-.
Qed.
End Main.
