(* ===== verification/DemoApi.v ===== *)
(** * internal/demo: heartbeats and the HTTP client

    What the demo's steps add to the worker of Worker.v: the heartbeats of
    util/activity.go, the slow HTTP transport of util/http.go and the API client
    of helloworld/apiclient.go.  Random numbers, the network and the decoding of
    JSON are the class [HttpLib]; [http.Client.Do] follows redirects the way
    net/http does, at most ten requests. *)

From stdpp Require Import base gmap sets list strings pretty.
From Stdlib Require Import ZArith Lia.
From S2P Require Import Prelude GoStd Trace Worker.
Local Open Scope Z_scope.

(** ** util/activity.go *)

(** What the activity's goroutine waits for: the context is done, or a tick. *)
Inductive Signal := Done | Tick.

Inductive HeartbeatEvent :=
  | HbNewTicker (d : Duration)
  | HbRecordHeartbeat
  | HbStopTicker.

Definition time_NewTicker (d : Duration) : traced HeartbeatEvent unit :=
  if d <=? 0
  then lift (Panic (ExplicitPanic (errors_New "non-positive interval for NewTicker")))
  else call (HbNewTicker d) (fun _ => inl tt).

(** The cases the [select] takes, in order; at the end of the list the goroutine
    waits: the result is [false]. *)
Fixpoint heartbeat_loop (ready : list Signal) : traced HeartbeatEvent bool :=
  match ready with
  | [] => mret false
  | Done :: _ => mret true
  | Tick :: ready' =>
      _ ← call HbRecordHeartbeat (fun _ => inl tt);
      heartbeat_loop ready'
  end.

(** [timeout] is the activity's heartbeat timeout; whether it returned. *)
Definition AutoHeartbeat (timeout : Duration) (ready : list Signal) : traced HeartbeatEvent bool :=
  if decide (timeout = 0) then mret true
  else
    _ ← time_NewTicker (Z.quot timeout 2);
    returned ← heartbeat_loop ready;
    if returned : bool then _ ← call HbStopTicker (fun _ => inl tt); mret true else mret false.

(** ** util/http.go *)

Record HttpRequest := mkHttpRequest { hr_Method : string; hr_URL : string }.
Record HttpResponse := mkHttpResponse { hp_StatusCode : Z; hp_Body : string }.

(** apiclient.go's answer. *)
Record GetSubjectResponse := mkGetSubjectResponse {
  gs_ID : Z;
  gs_Name : string;
  gs_Username : string;
  gs_Email : string;
}.

Inductive HttpEvent :=
  | HtRandom
  | HtSleep (d : Duration)
  | HtRoundTrip (req : HttpRequest)
  | HtCloseBody (resp : HttpResponse).

Abbreviation net := (traced HttpEvent).

Class HttpLib := {
  rand_Source : list HttpEvent -> Z;
  (* the URL is parsed *)
  http_NewRequest : string -> string -> HttpRequest + gerror;
  http_DefaultTransport : list HttpEvent -> HttpRequest -> HttpResponse + gerror;
  (* the request a redirect asks for *)
  http_redirect : HttpRequest -> HttpResponse -> option HttpRequest;
  json_Decode : string -> GetSubjectResponse + gerror;
}.

Section Http.
Context `{HttpLib}.

(** A random number below [n]. *)
Definition rand_Int63n (n : Z) : net Z :=
  if n <=? 0 then lift (Panic (ExplicitPanic (errors_New "invalid argument to Int63n")))
  else call HtRandom (fun l => inl (rand_Source l mod n)).

(** An [http.RoundTripper]. *)
Definition RoundTripper := HttpRequest -> net HttpResponse.

Record sleepyTransport := mkSleepyTransport {
  st_Transport : RoundTripper;
  st_MaxDelay : Duration;
}.

Definition RoundTrip (dt : sleepyTransport) : RoundTripper := fun req =>
  delay ← rand_Int63n (st_MaxDelay dt);
  _ ← call (HtSleep delay) (fun _ => inl tt);
  st_Transport dt req.

(** [http.DefaultTransport] and [http.Client.Do]. *)
Definition DefaultTransport : RoundTripper := fun req =>
  call (HtRoundTrip req) (fun l => http_DefaultTransport l req).

Fixpoint follow (n : nat) (transport : RoundTripper) (req : HttpRequest) : net HttpResponse :=
  match n with
  | O => io_throw (errors_New "stopped after 10 redirects")
  | S n' =>
      resp ← transport req;
      match http_redirect req resp with
      | None => mret resp
      | Some req' => follow n' transport req'
      end
  end.

Definition http_Do (transport : RoundTripper) (req : HttpRequest) : net HttpResponse :=
  wrap_error (ErrWrap "%s %q: %w" [hr_Method req; hr_URL req]) (follow 10 transport req).

(** The client is its transport. *)
Definition NewHTTPClient (maxDelay : Duration) : RoundTripper :=
  RoundTrip (mkSleepyTransport DefaultTransport maxDelay).

(** ** helloworld/apiclient.go *)

Definition closing {A} (resp : HttpResponse) (m : net A) : net A := fun l =>
  let r := m l in (r.1, r.2 ++ [HtCloseBody resp]).

Definition fetchUser (apiEndpoint : string) : net GetSubjectResponse :=
  n ← rand_Int63n 10;
  let userID := n + 1 in
  let url := apiEndpoint +:+ "/users/" +:+ pretty userID in
  req ← wrap_error (ErrWrap "failed to create request: %w" [])
          (lift (answer (http_NewRequest "GET" url)));
  resp ← wrap_error (ErrWrap "failed to fetch user: %w" [])
           (http_Do (NewHTTPClient (30 * Second)) req);
  closing resp
    (if decide (hp_StatusCode resp <> 200)
     then io_throw (Errorf "API returned status %d" [pretty (hp_StatusCode resp)])
     else wrap_error (ErrWrap "failed to decode response: %w" [])
            (lift (answer (json_Decode (hp_Body resp))))).
End Http.

(** ** Theorems *)

(** The ticks before the context is done. *)
Fixpoint beats (ready : list Signal) : nat :=
  match ready with
  | Tick :: ready' => S (beats ready')
  | _ => O
  end.

#[local] Instance Signal_eq_dec : EqDecision Signal.
Proof. solve_decision. Defined.

Lemma heartbeat_loop_run ready l :
  heartbeat_loop ready l
  = (Ok (bool_decide (Done ∈ ready)), l ++ replicate (beats ready) HbRecordHeartbeat).
Proof.
  revert l. induction ready as [|[] ready IH]; intros l; simpl.
  - by rewrite app_nil_r.
  - by rewrite app_nil_r.
  - rewrite io_bind_run. simpl. rewrite IH, <- app_assoc. simpl. do 2 f_equal.
    apply bool_decide_ext. rewrite elem_of_cons. naive_solver.
Qed.

(** The heartbeats of an activity: without a timeout none; with one, every tick
    of a ticker of half the timeout is answered with one heartbeat until the
    context is done, when the goroutine stops the ticker and ends - and only then.
    The least timeout, a nanosecond, and negative ones make the ticker panic. *)
Theorem AutoHeartbeat_spec timeout ready :
  AutoHeartbeat timeout ready [] =
  if decide (timeout = 0) then (Ok true, [])
  else if decide (timeout < 2)
  then (Panic (ExplicitPanic (errors_New "non-positive interval for NewTicker")), [])
  else if decide (Done ∈ ready)
  then (Ok true, HbNewTicker (timeout / 2) :: replicate (beats ready) HbRecordHeartbeat
                 ++ [HbStopTicker])
  else (Ok false, HbNewTicker (timeout / 2) :: replicate (beats ready) HbRecordHeartbeat).
Proof.
  unfold AutoHeartbeat. case_decide as H0; [done|]. rewrite io_bind_run. unfold time_NewTicker.
  assert (timeout < 2 <-> Z.quot timeout 2 <= 0) as Hlt by (Z.to_euclidean_division_equations; lia).
  destruct (Z.leb_spec (Z.quot timeout 2) 0) as [Hle|Hgt].
  - by rewrite decide_True by lia.
  - rewrite decide_False by lia. simpl. rewrite io_bind_run, heartbeat_loop_run.
    rewrite Z.quot_div_nonneg by lia. by case_bool_decide; rewrite ?decide_True, ?decide_False by done.
Qed.

Section Fetch.
Context `{HttpLib}.

(** What the client does to a response's body, and how long it waits. *)
Definition net_event_ok (max : Duration) (ev : HttpEvent) : Prop :=
  match ev with
  | HtSleep d => 0 <= d < max
  | HtCloseBody _ => False
  | _ => True
  end.

Definition is_round_trip (ev : HttpEvent) : bool := if ev is HtRoundTrip _ then true else false.

Definition round_trips (evs : list HttpEvent) : nat :=
  length (filter (fun ev => is_round_trip ev) evs).

(** A program of the client: it returns, waits for less than [max] at a time and
    makes at most [n] requests. *)
Definition fetches {A} (n : nat) (max : Duration) (m : net A) : Prop :=
  forall l, exists evs, (m l).2 = l ++ evs /\ ~ is_Panic (m l).1 /\
    Forall (net_event_ok max) evs /\ (round_trips evs <= n)%nat.

Lemma fetches_bind {A B} n k max (m : net A) (f : A -> net B) :
  fetches n max m -> (forall a, fetches k max (f a)) -> fetches (n + k) max (x ← m; f x).
Proof.
  intros Hm Hf l. destruct (Hm l) as (evs & Hl & Hp & Ho & Hn). rewrite io_bind_run.
  destruct (m l) as [[a|e|p] l1]; simpl in Hl, Hp; subst l1.
  - destruct (Hf a (l ++ evs)) as (evs' & -> & Hp' & Ho' & Hn'). exists (evs ++ evs').
    unfold round_trips in *. rewrite filter_app, length_app, app_assoc, Forall_app. by split_and!; try lia.
  - exists evs. split_and!; [done|by intros [? [=]]|done|lia].
  - destruct Hp. by eexists.
Qed.

Lemma fetches_weaken {A} n k max (m : net A) : (n <= k)%nat -> fetches n max m -> fetches k max m.
Proof. intros Hk Hm l. destruct (Hm l) as (evs & ? & ? & ? & ?). exists evs. split_and!; try done. lia. Qed.

Lemma fetches_lift {A} max (o : outcome A) : ~ is_Panic o -> fetches 0 max (lift o).
Proof. intros Ho l. exists []. by rewrite app_nil_r. Qed.

Lemma fetches_wrap {A} n max w (m : net A) : fetches n max m -> fetches n max (wrap_error w m).
Proof.
  intros Hm l. destruct (Hm l) as (evs & Hl & Hp & Ho & Hn). unfold wrap_error.
  destruct (m l) as [[a|e|p] l1]; simpl in *; exists evs; split_and!; try done. by intros [? [=]].
Qed.

Lemma fetches_call {A} max ev (f : list HttpEvent -> A + gerror) :
  net_event_ok max ev -> fetches (if is_round_trip ev then 1 else 0) max (call ev f).
Proof.
  intros Hev l. exists [ev]. split_and!; [done| |by constructor|by destruct ev].
  unfold call, answer. simpl. destruct (f l); by intros [? [=]].
Qed.

Lemma rand_Int63n_range n l :
  0 < n -> exists d, rand_Int63n n l = (Ok d, l ++ [HtRandom]) /\ 0 <= d < n.
Proof.
  intros Hn. unfold rand_Int63n. rewrite (proj2 (Z.leb_gt n 0)) by done.
  eexists. split; [reflexivity|]. by apply Z.mod_pos_bound.
Qed.

Lemma NewHTTPClient_fetches max req : 0 < max -> fetches 1 max (NewHTTPClient max req).
Proof.
  intros Hm l. unfold NewHTTPClient, RoundTrip. simpl. rewrite io_bind_run.
  destruct (rand_Int63n_range max l Hm) as (d & -> & Hd). rewrite io_bind_run. simpl.
  unfold DefaultTransport, call. exists [HtRandom; HtSleep d; HtRoundTrip req].
  rewrite <- !app_assoc. split_and!; [done| |by rewrite !Forall_cons, Forall_nil|done].
  simpl. unfold answer. destruct (http_DefaultTransport _ _); by intros [? [=]].
Qed.

Lemma http_Do_fetches max req : 0 < max -> fetches 10 max (http_Do (NewHTTPClient max) req).
Proof.
  intros Hm. apply fetches_wrap. generalize 10%nat. intros n. revert req.
  induction n as [|n IH]; intros req; simpl; [by apply (fetches_lift max (Err _)); intros [? [=]]|].
  apply (fetches_bind 1 n); [by apply NewHTTPClient_fetches|]. intros resp.
  destruct (http_redirect req resp); [apply IH|].
  eapply (fetches_weaken 0); [lia|]. apply (fetches_lift max (Ok _)). by intros [? [=]].
Qed.

(** Fetching a user ends without a panic, in at most ten requests that are each
    delayed by less than thirty seconds.  The body of a response is closed
    exactly when there is one, as the last thing; then the status decides:
    anything but 200 is an error, and otherwise the body is decoded. *)
Theorem fetchUser_spec apiEndpoint l o l' :
  fetchUser apiEndpoint l = (o, l') ->
  ~ is_Panic o /\
  exists evs, Forall (net_event_ok (30 * Second)) evs /\ (round_trips evs <= 10)%nat /\
    ((l' = l ++ evs /\ exists e, o = Err e) \/
     exists resp, l' = l ++ evs ++ [HtCloseBody resp] /\
       (hp_StatusCode resp <> 200 /\
        o = Err (Errorf "API returned status %d" [pretty (hp_StatusCode resp)]) \/
        hp_StatusCode resp = 200 /\
        match json_Decode (hp_Body resp) with
        | inl user => o = Ok user
        | inr e => o = Err (ErrWrap "failed to decode response: %w" [] e)
        end)).
Proof.
  unfold fetchUser. rewrite io_bind_run.
  destruct (rand_Int63n_range 10 l ltac:(lia)) as (n & -> & Hn).
  rewrite io_bind_run. unfold wrap_error at 1, lift at 1, answer at 1.
  destruct (http_NewRequest _ _) as [req|e].
  2: { intros [= <- <-]. split; [by intros [? [=]]|]. exists [HtRandom].
       split_and!; [by repeat constructor|simpl; cbv; lia|left; eauto]. }
  rewrite io_bind_run.
  pose proof (fetches_wrap _ _ (ErrWrap "failed to fetch user: %w" []) _
    (http_Do_fetches (30 * Second) req ltac:(done)) (l ++ [HtRandom])) as (evs & Hl & Hp & Ho & Ht).
  destruct (wrap_error _ _ _) as [[resp|e|p] l1]; simpl in Hl, Hp; subst l1;
    [| |destruct Hp; by eexists].
  all: intros Hrun; split; [|exists (HtRandom :: evs); split_and!; [by constructor|exact Ht|]].
  - injection Hrun as <- _. case_decide; [by intros [? [=]]|].
    unfold wrap_error, lift, answer. simpl. destruct (json_Decode _); by intros [? [=]].
  - right. exists resp. unfold closing in Hrun. case_decide as Hs; simpl in Hrun.
    + injection Hrun as <- <-. rewrite <- !app_assoc. auto.
    + unfold wrap_error, lift, answer in Hrun. destruct (json_Decode _);
        injection Hrun as <- <-; rewrite <- !app_assoc; (split; [done|]);
        right; (split; [lia|done]).
  - injection Hrun as <- _. by intros [? [=]].
  - left. injection Hrun as <- <-. rewrite <- app_assoc. eauto.
Qed.
End Fetch.
