(* ===== verification/TestHelpers.v ===== *)
(** * internal/testhelpers: make.go and workers.go

    The builders of the integration tests and the worker they run against the
    controller's Deployments.  [uuid.New()] and [time.Now()] are arguments.  The
    slices of containers are written in place; as every caller passes a fresh
    slice, the functions return the new contents. *)

From stdpp Require Import base gmap sets list strings.
From Stdlib Require Import ZArith Lia.
From S2P Require Import Prelude GoStd Api K8s K8sProps Trace World Worker.
Local Open Scope Z_scope.

(** ** make.go *)

Definition taskQueueEnvKey : string := "TEMPORAL_TASK_QUEUE".

(** The constant of the server's [worker_versioning] package. *)
Class ServerConstants := { UnversionedVersionId : string }.

Definition zeroRolloutStrategy : RolloutStrategy :=
  mkRolloutStrategy (UpdateOther EmptyString) None [].
Definition zeroSunsetStrategy : SunsetStrategy := mkSunsetStrategy None None.
Definition zeroWorkerOptions : WorkerOptions := mkWorkerOptions EmptyString EmptyString EmptyString.

Definition zeroBaseVersion : BaseWorkerDeploymentVersion :=
  mkBaseWorkerDeploymentVersion EmptyString (VersionStatusOther EmptyString) None None [] EmptyString.
Definition zeroStatus : TemporalWorkerDeploymentStatus :=
  mkTemporalWorkerDeploymentStatus
    (mkTargetWorkerDeploymentVersion zeroBaseVersion [] None None None)
    None [] EmptyString EmptyString 0.

Definition MakeTWD (uuid name namespace : string) (replicas : Z) (podSpec : PodTemplateSpec)
    (rolloutStrategy : option RolloutStrategy) (sunsetStrategy : option SunsetStrategy)
    (workerOpts : option WorkerOptions) : TemporalWorkerDeployment :=
  mkTemporalWorkerDeployment
    (mkTypeMeta "temporal.io/v1alpha1" "TemporalWorkerDeployment")
    (mkObjectMeta name namespace ("test-owner-" +:+ uuid) (Some {["app" := "test-worker"]}) None
       zeroTime [])
    (mkTemporalWorkerDeploymentSpec (Some replicas) podSpec 0 None
       (default zeroRolloutStrategy rolloutStrategy) (default zeroSunsetStrategy sunsetStrategy)
       (default zeroWorkerOptions workerOpts))
    zeroStatus.

Definition MakePodSpec (containers : list Container) (labels : gomap string)
    (taskQueue : string) : PodTemplateSpec :=
  mkPodTemplateSpec labels None EmptyString
    (mkPodSpec (append_Env [plainEnv taskQueueEnvKey taskQueue] <$> containers) [] EmptyString).

Definition MakePodSpecWithImage (imageName : string) : PodTemplateSpec :=
  MakePodSpec [mkContainer "worker" imageName [] [] EmptyString]
    (Some {["app" := "test-worker"]}) EmptyString.

Definition put_task_queue (taskQueue : string) (e : EnvVar) : EnvVar :=
  if decide (env_Name e = taskQueueEnvKey) then env_set_Value taskQueue e else e.

(** Every variable of the name is overwritten; the loop sets [found]. *)
Definition set_task_queue (taskQueue : string) (c : Container) : Container :=
  let found := existsb (fun e => bool_decide (env_Name e = taskQueueEnvKey)) (c_Env c) in
  let c' := c_set_Env (put_task_queue taskQueue <$> c_Env c) c in
  if found then c' else append_Env [plainEnv taskQueueEnvKey taskQueue] c'.

Definition SetTaskQueue (podSpec : PodTemplateSpec) (taskQueue : string) : PodTemplateSpec :=
  pts_set_Spec (ps_set_Containers (set_task_queue taskQueue <$> ps_Containers (pts_Spec podSpec))
                  (pts_Spec podSpec)) podSpec.

Definition MakeTWDWithImage (uuid name namespace imageName : string) : TemporalWorkerDeployment :=
  MakeTWD uuid name namespace 1
    (MakePodSpec [mkContainer EmptyString imageName [] [] EmptyString] None EmptyString)
    None None None.

Definition MakeTWDWithName (uuid name namespace : string) : TemporalWorkerDeployment :=
  MakeTWD uuid name namespace 1 (MakePodSpec [] None EmptyString) None None None.

Definition ModifyObj {T} (obj : T) (callback : T -> T) : T := callback obj.

Section Make.
Context `{K8sLib} `{ServerConstants} (uuid : string) (now : Time).

Definition MakeBuildId (twdName imageName unsafeCustomBuildID : string)
    (podSpec : option PodTemplateSpec) : string :=
  if decide (unsafeCustomBuildID <> EmptyString) then unsafeCustomBuildID
  else
    ComputeBuildID
      (ModifyObj (MakeTWDWithName uuid twdName EmptyString) (fun obj =>
         let template :=
           match podSpec with
           | Some p => p
           | None => SetTaskQueue (MakePodSpecWithImage imageName) twdName
           end in
         let spec := twd_Spec obj in
         twd_set_Spec
           (mkTemporalWorkerDeploymentSpec (spec_Replicas spec) template
              (spec_MinReadySeconds spec) (spec_ProgressDeadlineSeconds spec)
              (spec_RolloutStrategy spec) (spec_SunsetStrategy spec) (spec_WorkerOptions spec))
           obj)).

(** The new reference has an address of its own.  [createDeployment] writes
    through the reference, which is nil without [hasDeployment]. *)
Definition MakeBaseVersion (addr : nat) (namespace twdName imageName unsafeCustomBuildID : string)
    (status : VersionStatus) (createDeployment hasDeployment : bool)
  : outcome BaseWorkerDeploymentVersion :=
  let buildID := MakeBuildId twdName imageName unsafeCustomBuildID None in
  let ref fieldPath :=
    mkRefPtr addr
      (mkObjectReference EmptyString EmptyString (ComputeVersionedDeploymentName twdName buildID)
         namespace EmptyString EmptyString fieldPath) in
  let ret deployment :=
    mkBaseWorkerDeploymentVersion buildID status None deployment [mkTaskQueue twdName]
      EmptyString in
  if createDeployment then
    if hasDeployment then Ok (ret (Some (ref "create"))) else Panic NilDereference
  else Ok (ret (if hasDeployment then Some (ref EmptyString) else None)).

Definition base_set_HealthySince (t : option Time) (v : BaseWorkerDeploymentVersion)
  : BaseWorkerDeploymentVersion :=
  mkBaseWorkerDeploymentVersion (BuildID v) (ver_Status v) t (ver_Deployment v) (TaskQueues v)
    (ManagedBy v).

Definition healthy_now (healthy : bool) (v : BaseWorkerDeploymentVersion)
  : BaseWorkerDeploymentVersion :=
  if healthy then base_set_HealthySince (Some now) v else v.

Definition MakeCurrentVersion (addr : nat)
    (namespace twdName imageName unsafeCustomBuildID : string) (healthy createDeployment : bool)
  : outcome (option CurrentWorkerDeploymentVersion) :=
  if decide (imageName = UnversionedVersionId) then Ok None
  else
    base ← MakeBaseVersion addr namespace twdName imageName unsafeCustomBuildID
             VersionStatusCurrent createDeployment true;
    Ok (Some (mkCurrentWorkerDeploymentVersion (healthy_now healthy base))).

Definition MakeTargetVersion (addr : nat)
    (namespace twdName imageName unsafeCustomBuildID : string) (status : VersionStatus)
    (rampPercentage : Z) (healthy createDeployment : bool)
  : outcome TargetWorkerDeploymentVersion :=
  base ← MakeBaseVersion addr namespace twdName imageName unsafeCustomBuildID status
           createDeployment true;
  Ok (mkTargetWorkerDeploymentVersion (healthy_now healthy base) []
        (if rampPercentage >=? 0 then Some (float32_of_Z rampPercentage) else None) None None).

(** The clock is read for the drain time first ([drainedAt]). *)
Definition MakeDeprecatedVersion (addr : nat) (drainedAt : Time)
    (namespace twdName imageName unsafeCustomBuildID : string) (status : VersionStatus)
    (healthy createDeployment hasDeployment : bool)
  : outcome DeprecatedWorkerDeploymentVersion :=
  base ← MakeBaseVersion addr namespace twdName imageName unsafeCustomBuildID status
           createDeployment hasDeployment;
  Ok (mkDeprecatedWorkerDeploymentVersion (healthy_now healthy base)
        (if decide (status = VersionStatusDrained) then Some drainedAt else None) false).
End Make.

(** ** workers.go *)

(** The first definition counts; a pod without containers panics. *)
Definition getEnv (podTemplateSpec : PodTemplateSpec) (key : string) : outcome string :=
  c ← index (ps_Containers (pts_Spec podTemplateSpec)) 0;
  match find (fun e => bool_decide (env_Name e = key)) (c_Env c) with
  | Some e => Ok (env_Value e)
  | None => Err (Errorf "environment variable %q must be set" [key])
  end.

Section Workers.
Context `{WorkerLib}.

Definition newClient (hostPort namespace : string) : proc nat :=
  let opts := mkClientOptions "integration-tests" hostPort namespace in
  c ← wrap_error (fun err => Errorf "failed to dial server: %v" [error_text err])
        (call (WoDial opts) (fun l => wl_Dial l opts));
  _ ← wrap_error (fun err => Errorf "failed to check health for server client: %v" [error_text err])
        (call (WoCheckHealth c) (fun l => wl_CheckHealth l c));
  _ ← wrap_error (fun err => Errorf "failed to list workflows with server client: %v"
                               [error_text err])
        (call (WoListWorkflow c namespace) (fun l => wl_ListWorkflow l c));
  mret c.

(** The worker and its stop function. *)
Definition NewWorker (temporalDeploymentName workerBuildId temporalTaskQueue temporalHostPort
    temporalNamespace : string) (versioned : bool) : proc (SdkWorker * proc unit) :=
  let opts :=
    if versioned
    then mkDeploymentOptions true
           (mkWorkerDeploymentVersion temporalDeploymentName workerBuildId)
           VersioningBehaviorPinned
    else zeroDeploymentOptions in
  c ← newClient temporalHostPort temporalNamespace;
  let w := mkSdkWorker c temporalTaskQueue opts in
  _ ← emit (WoNew w);
  mret (w, emit (WoStop w)).

Definition newVersionedWorker (podTemplateSpec : PodTemplateSpec) : proc (SdkWorker * proc unit) :=
  temporalDeploymentName ← lift (getEnv podTemplateSpec "TEMPORAL_DEPLOYMENT_NAME");
  workerBuildId ← lift (getEnv podTemplateSpec "TEMPORAL_WORKER_BUILD_ID");
  temporalTaskQueue ← lift (getEnv podTemplateSpec taskQueueEnvKey);
  temporalHostPort ← lift (getEnv podTemplateSpec "TEMPORAL_ADDRESS");
  temporalNamespace ← lift (getEnv podTemplateSpec "TEMPORAL_NAMESPACE");
  NewWorker temporalDeploymentName workerBuildId temporalTaskQueue temporalHostPort
    temporalNamespace true.

(** [callback] is called from the goroutine that starts the worker; the error of
    [newVersionedWorker] is dropped. *)
Definition RunHelloWorldWorker (podTemplateSpec : PodTemplateSpec)
    (callback : proc unit + gerror -> proc unit) : proc unit :=
  started ← try (newVersionedWorker podTemplateSpec);
  match started with
  | inr _ => mret tt
  | inl (w, stopFunc) =>
      _ ← emit (WoRegisterWorkflow "successTestWorkflow");
      _ ← emit (WoRegisterWorkflow "failTestWorkflow");
      _ ← emit (WoRegisterActivity "getSubjectTestActivity");
      _ ← emit (WoRegisterActivity "sleepTestActivity");
      ran ← try (call (WoStart w) (fun l => wl_Run l w));
      match ran with
      | inr err => callback (inr err)
      | inl _ => callback (inl stopFunc)
      end
  end.
End Workers.

Definition successTestWorkflowType : string := "successTestWorkflow".
Definition failTestWorkflowType : string := "failTestWorkflow".

Definition sleepTestActivity (seconds : Z) : proc unit := emit (WoSleep (seconds * Second)).
Definition getSubjectTestActivity : outcome string := Ok "World10".

Section TestWorkflows.
Context `{WorkflowLib}.

Definition setActivityTimeout (ctx : wf_Context) (d : Duration) : wf_Context :=
  wf_WithActivityOptions ctx (mkActivityOptions d 0 0 None).

Definition successTestWorkflow (ctx : wf_Context) : outcome string :=
  let ctx := setActivityTimeout ctx (5 * Minute) in
  subject ← answer (wf_ExecuteActivity ctx "getSubjectTestActivity" []);
  _ ← answer (wf_ExecuteActivity ctx "sleepTestActivity" [5]);
  Ok ("Hello " +:+ subject).

Definition failTestWorkflow (ctx : wf_Context) : outcome string :=
  let ctx := setActivityTimeout ctx (5 * Minute) in
  _ ← answer (wf_ExecuteActivity ctx "getSubjectTestActivity" []);
  _ ← answer (wf_ExecuteActivity ctx "sleepTestActivity" [5]);
  Err (errors_New "this is a manufactured error to make the test fail").
End TestWorkflows.

(** ** Theorems *)

Lemma put_task_queue_name tq e : env_Name (put_task_queue tq e) = env_Name e.
Proof. unfold put_task_queue. by case_decide. Qed.

Lemma put_task_queue_value tq e :
  env_Name e = taskQueueEnvKey -> env_Value (put_task_queue tq e) = tq.
Proof. intros He. unfold put_task_queue. by rewrite decide_True. Qed.

Lemma put_task_queue_other tq e : env_Name e <> taskQueueEnvKey -> put_task_queue tq e = e.
Proof. intros He. unfold put_task_queue. by rewrite decide_False. Qed.

(** The variables of a container but the task queue. *)
Definition other_env (env : list EnvVar) : list EnvVar :=
  filter (fun e => env_Name e <> taskQueueEnvKey) env.

Lemma put_task_queue_others tq env : other_env (put_task_queue tq <$> env) = other_env env.
Proof.
  unfold other_env. induction env as [|e env IH]; [done|]. rewrite fmap_cons, !filter_cons, IH.
  destruct (decide (env_Name e <> taskQueueEnvKey)) as [He|He].
  - rewrite decide_True by (by rewrite put_task_queue_name). by rewrite put_task_queue_other.
  - by rewrite decide_False by (by rewrite put_task_queue_name).
Qed.

(** All definitions of the task queue have this value. *)
Definition queue_is (tq : string) (env : list EnvVar) : Prop :=
  forall e, e ∈ env -> env_Name e = taskQueueEnvKey -> env_Value e = tq.

Lemma put_task_queue_is tq env : queue_is tq (put_task_queue tq <$> env).
Proof.
  intros e (e0 & -> & _)%list_elem_of_fmap. rewrite put_task_queue_name.
  apply put_task_queue_value.
Qed.

Lemma put_task_queue_id tq env : queue_is tq env -> put_task_queue tq <$> env = env.
Proof.
  intros Hq. rewrite <- (list_fmap_id env) at 2. apply list_fmap_ext. intros i e Hi.
  apply list_elem_of_lookup_2 in Hi. unfold put_task_queue. case_decide as Hk; [|done].
  pose proof (Hq e Hi Hk) as Hv. destruct e. simpl in *. by subst.
Qed.

Lemma queue_found env :
  existsb (fun e => bool_decide (env_Name e = taskQueueEnvKey)) env = true <->
  exists e, e ∈ env /\ env_Name e = taskQueueEnvKey.
Proof.
  rewrite existsb_exists. split; intros (e & Hin & He); exists e.
  - split; [by apply list_elem_of_In|by apply bool_decide_eq_true in He].
  - split; [by apply list_elem_of_In|by apply bool_decide_eq_true].
Qed.

(** After [SetTaskQueue] every container has the variable, every definition of
    it has the new value, and nothing else changed; doing it again changes
    nothing. *)
Theorem SetTaskQueue_spec tq c :
  let c' := set_task_queue tq c in
  (exists e, e ∈ c_Env c' /\ env_Name e = taskQueueEnvKey) /\ queue_is tq (c_Env c') /\
  other_env (c_Env c') = other_env (c_Env c) /\ set_task_queue tq c' = c'.
Proof.
  intros c'.
  assert ((exists e, e ∈ c_Env c' /\ env_Name e = taskQueueEnvKey) /\ queue_is tq (c_Env c') /\
          other_env (c_Env c') = other_env (c_Env c)) as (Hex & Hq & Ho).
  { unfold c', set_task_queue.
    destruct (existsb _ (c_Env c)) eqn:E; cbn [c_Env c_set_Env append_Env].
    - apply queue_found in E as (e & Hin & Hk). split_and!.
      + exists (put_task_queue tq e). rewrite put_task_queue_name. split; [|done].
        by apply list_elem_of_fmap_2.
      + apply put_task_queue_is.
      + apply put_task_queue_others.
    - split_and!.
      + eexists. split; [apply elem_of_app; right; by left|done].
      + intros e [He|He%list_elem_of_singleton]%elem_of_app; [by eapply put_task_queue_is|].
        by subst.
      + unfold other_env at 1. rewrite filter_app. fold (other_env (put_task_queue tq <$> c_Env c)).
        by rewrite put_task_queue_others, app_nil_r. }
  split_and!; try done. unfold set_task_queue at 1.
  rewrite (proj2 (queue_found _) Hex), (put_task_queue_id _ _ Hq). by destruct c'.
Qed.

(** The build ID depends on the template and the override only. *)
Lemma ComputeBuildID_ext `{K8sLib} w w' :
  spec_Template (twd_Spec w) = spec_Template (twd_Spec w') ->
  UnsafeCustomBuildID (spec_WorkerOptions (twd_Spec w))
  = UnsafeCustomBuildID (spec_WorkerOptions (twd_Spec w')) ->
  ComputeBuildID w = ComputeBuildID w'.
Proof. unfold ComputeBuildID. by intros -> ->. Qed.

(** The tests predict the controller's build ID: that of a resource with the
    template the tests use for an image, and with the override if it is a valid
    label value. *)
Theorem MakeBuildId_predicts `{K8sLib} `{!K8sLibLaws _} uuid twdName imageName custom w :
  spec_Template (twd_Spec w) = SetTaskQueue (MakePodSpecWithImage imageName) twdName ->
  UnsafeCustomBuildID (spec_WorkerOptions (twd_Spec w)) = custom ->
  custom = EmptyString \/ valid_label custom = true ->
  MakeBuildId uuid twdName imageName custom None = ComputeBuildID w.
Proof.
  intros Ht Hc Hv. unfold MakeBuildId. case_decide as Hne.
  - destruct Hv as [?|Hv]; [done|]. unfold ComputeBuildID.
    rewrite Hc, (cleanBuildID_id _ Hv). cbv zeta. rewrite !decide_True by done.
    rewrite TruncateString_id; [done|].
    unfold valid_label in Hv. rewrite !andb_true_iff in Hv. destruct Hv as [[[Hl%Nat.leb_le _] _] _].
    rewrite string_length_list. unfold MaxBuildIdLen. lia.
  - apply ComputeBuildID_ext; simpl; by rewrite ?Ht, ?Hc.
Qed.
