(* ===== verification/DemoHelper.v ===== *)
(** * hack/demohelper/main.go: the demo script

    Steps of shell commands, each step confirmed by the presenter, each command
    run by [sh -c]; a command that is only watched is killed after its duration.
    The terminal, its colours and the shell are the class [Shell]. *)

From stdpp Require Import base gmap sets list strings.
From Stdlib Require Import ZArith Lia.
From S2P Require Import Prelude GoStd Trace.
Local Open Scope Z_scope.

Record demoCommand := mkDemoCommand {
  cmd_description : string;
  cmd_command : string;
  cmd_watchDuration : Duration;
}.

Record demoStep := mkDemoStep {
  step_description : string;
  step_commands : list demoCommand;
}.

Definition newCommand (command : string) : demoCommand := mkDemoCommand EmptyString command 0.

(** The description is not kept. *)
Definition WithWatchDuration (d : Duration) (c : demoCommand) : demoCommand :=
  mkDemoCommand EmptyString (cmd_command c) d.

Definition fakePromptUser : string := "🦆".

Definition skaffoldRunCmd : demoCommand := newCommand "skaffold run --profile demo".
Definition gitResetWorkflowCmd : demoCommand :=
  newCommand "git checkout internal/demo/worker/workflow.go".

(** Characters the strings below cannot hold. *)
Definition newline : string := String (Ascii.ascii_of_nat 10) EmptyString.
Definition dquote : string := String (Ascii.ascii_of_nat 34) EmptyString.

(** ** Terminal and shell *)

Inductive DemoEvent :=
  | DmClear
  | DmPrint (text : string)
  | DmScanln
  | DmExec (command : string) (timeout : option Duration).

(** The error of a command: its exit code when it is an [*exec.ExitError] along
    the chain, -1 when a signal killed it. *)
Record ExecError := mkExecError { exec_error : gerror; exec_ExitCode : option Z }.

Class Shell := {
  sh_faint : string -> string;        (* faintColor.Sprint *)
  sh_blue : string -> string;         (* commandColor.Sprint *)
  sh_clear : unit + gerror;
  sh_Scanln : list DemoEvent -> unit + gerror;
  sh_Run : list DemoEvent -> string -> option Duration -> option ExecError;
}.

Abbreviation demo := (traced DemoEvent).

Definition ignoreExecKillError (err : option ExecError) : option ExecError :=
  match err with
  | Some e => if decide (exec_ExitCode e = Some (-1)) then None else Some e
  | None => None
  end.

Section Demo.
Context `{Shell}.

Definition print (text : string) : demo unit := call (DmPrint text) (fun _ => inl tt).

Definition printConsole (msg : string) : demo unit :=
  print (fakePromptUser +:+ " $ " +:+ msg).
Definition printConsoleComment (comment : string) : demo unit :=
  printConsole (sh_faint ("# " +:+ comment)).

Definition clearConsole : demo unit := call DmClear (fun _ => sh_clear).

(** The function literal in [run]. *)
Definition runCommand (c : demoCommand) : demo unit := fun l =>
  let isWatch := 0 <? cmd_watchDuration c in
  let timeout := if isWatch then Some (cmd_watchDuration c) else None in
  let err := sh_Run l (cmd_command c) timeout in
  let err' := if isWatch then ignoreExecKillError err else err in
  (match err' with
   | None => Ok tt
   | Some e => Err (exec_error e)
   end, l ++ [DmExec (cmd_command c) timeout]).

Definition announce (c : demoCommand) : demo unit :=
  _ ← (if decide (cmd_description c = EmptyString) then mret tt
       else printConsoleComment (cmd_description c +:+ newline));
  printConsole (sh_blue (cmd_command c +:+ newline)).

Definition run (ds : demoStep) (printFirstCommand : bool) : demo unit :=
  io_range (fun i c _ =>
    _ ← (if negb (i =? 0)%nat || printFirstCommand then announce c else mret tt);
    runCommand c) (step_commands ds) tt.

Definition RunAfterConfirmation (ds : demoStep) : demo unit :=
  _ ← match step_commands ds with
      | [] => mret tt
      | c :: _ =>
          _ ← printConsole EmptyString;
          _ ← print (sh_blue (cmd_command c) +:+ " ");
          wrap_error (ErrWrap "error reading input: %w" []) (call DmScanln sh_Scanln)
      end;
  run ds false.

(** [log.Fatalf] ends the process with the error. *)
Definition runDemo (steps : list demoStep) : demo unit :=
  _ ← wrap_error (ErrWrap "Error clearing console: %v" []) clearConsole;
  _ ← io_range (fun _ s _ =>
        _ ← printConsoleComment (step_description s +:+ newline);
        wrap_error (ErrWrap "Error running command: %v" []) (RunAfterConfirmation s)) steps tt;
  printConsoleComment ("Demo complete!" +:+ newline).

Definition demo_script : list demoStep :=
  [mkDemoStep "Ensure worker is up to date" [skaffoldRunCmd];
   mkDemoStep "Switch to workflow.Sleep using a patch/version check"
     [newCommand "git apply ./internal/demo/changes/version-gate.patch"];
   mkDemoStep "Remove the patch/version check"
     [gitResetWorkflowCmd;
      newCommand "git apply ./internal/demo/changes/no-version-gate.patch"];
   mkDemoStep "Deploy the change to workflow.Sleep"
     [newCommand "git add internal/demo/worker/workflow.go";
      newCommand ("git commit -m " +:+ dquote +:+
                  "Use workflow.Sleep instead of time.Sleep (no version gate)" +:+ dquote);
      skaffoldRunCmd];
   mkDemoStep "Apply progressive rollout strategy"
     [newCommand "git apply internal/demo/changes/progressive-rollout.patch"];
   mkDemoStep "Make another code change and re-deploy"
     [newCommand "git add internal/demo/worker/workflow.go";
      newCommand ("git commit -m " +:+ dquote +:+ "Update activity GetSubject" +:+ dquote);
      skaffoldRunCmd]].

Definition main : demo unit := runDemo demo_script.

(** ** The transcript of a run *)

(** [m] adds a beginning of [ev] to the log, all of it when it returns. *)
Definition transcribes {A} (ev : list DemoEvent) (m : demo A) : Prop :=
  forall l, exists l', (m l).2 = l ++ l' /\ l' `prefix_of` ev /\
    forall a, (m l).1 = Ok a -> l' = ev.

Lemma transcribes_ret {A} (a : A) : transcribes [] (mret a).
Proof. intros l. exists []. by rewrite app_nil_r. Qed.

Lemma transcribes_call {A} ev (f : list DemoEvent -> A + gerror) : transcribes [ev] (call ev f).
Proof. intros l. by exists [ev]. Qed.

Lemma transcribes_wrap {A} ev w (m : demo A) : transcribes ev m -> transcribes ev (wrap_error w m).
Proof.
  intros Hm l. destruct (Hm l) as (l' & Hl & Hp & Hok). exists l'. unfold wrap_error.
  destruct (m l) as [[a|e|p] ?]; simpl in *; split_and!; try done; eauto.
Qed.

Lemma transcribes_bind {A B} ev1 ev2 (m : demo A) (f : A -> demo B) :
  transcribes ev1 m -> (forall a, transcribes ev2 (f a)) -> transcribes (ev1 ++ ev2) (x ← m; f x).
Proof.
  intros Hm Hf l. destruct (Hm l) as (l1 & Hl1 & Hp1 & Hok1). rewrite io_bind_run.
  destruct (m l) as [[a|e|p] lm]; simpl in *; subst lm.
  - rewrite (Hok1 a eq_refl). destruct (Hf a (l ++ ev1)) as (l2 & -> & Hp2 & Hok2).
    exists (ev1 ++ l2). rewrite app_assoc. split_and!; [done|by apply prefix_app|].
    intros b Hb. by rewrite (Hok2 b Hb).
  - exists l1. split_and!; [done|by apply prefix_app_r|done].
  - exists l1. split_and!; [done|by apply prefix_app_r|done].
Qed.

Lemma transcribes_range {A S} (ev : nat -> A -> list DemoEvent) (body : nat -> A -> S -> demo S)
    xs s :
  (forall i x t, transcribes (ev i x) (body i x t)) ->
  transcribes (concat (imap ev xs)) (io_range body xs s).
Proof.
  intros Hb. unfold io_range.
  enough (forall n, transcribes (concat (imap (fun i => ev (n + i)%nat) xs))
                      (io_range_from body n xs s)) as Hn by apply (Hn 0%nat).
  revert s. induction xs as [|x xs IH]; intros s n; simpl; [apply transcribes_ret|].
  apply transcribes_bind; [rewrite Nat.add_0_r; apply Hb|]. intros t.
  rewrite (imap_ext _ (fun i => ev (Datatypes.S n + i)%nat)); [apply IH|].
  intros i y _. simpl. by rewrite Nat.add_succ_r.
Qed.

(** What the presenter sees and the shell runs. *)
Definition prompt (msg : string) : DemoEvent := DmPrint (fakePromptUser +:+ " $ " +:+ msg).
Definition exec_event (c : demoCommand) : DemoEvent :=
  DmExec (cmd_command c)
    (if 0 <? cmd_watchDuration c then Some (cmd_watchDuration c) else None).
Definition announced (c : demoCommand) : list DemoEvent :=
  (if decide (cmd_description c = EmptyString) then []
   else [prompt (sh_faint ("# " +:+ (cmd_description c +:+ newline)))]) ++
  [prompt (sh_blue (cmd_command c +:+ newline))].
Definition step_events (s : demoStep) : list DemoEvent :=
  match step_commands s with
  | [] => []
  | c :: cs =>
      [prompt EmptyString; DmPrint (sh_blue (cmd_command c) +:+ " "); DmScanln; exec_event c] ++
      concat ((fun c' => announced c' ++ [exec_event c']) <$> cs)
  end.
Definition demo_events (steps : list demoStep) : list DemoEvent :=
  [DmClear] ++
  concat ((fun s => prompt (sh_faint ("# " +:+ (step_description s +:+ newline))) :: step_events s)
            <$> steps) ++
  [prompt (sh_faint ("# " +:+ ("Demo complete!" +:+ newline)))].

Lemma transcribes_runCommand c : transcribes [exec_event c] (runCommand c).
Proof. intros l. by exists [exec_event c]. Qed.

(** A command fails unless the shell reports nothing, or the kill at the end of
    its watch. *)
Lemma runCommand_Ok c l :
  (runCommand c l).1 = Ok tt <->
  match sh_Run l (cmd_command c)
          (if 0 <? cmd_watchDuration c then Some (cmd_watchDuration c) else None) with
  | None => True
  | Some e => 0 < cmd_watchDuration c /\ exec_ExitCode e = Some (-1)
  end.
Proof.
  unfold runCommand. cbn [fst].
  destruct (Z.ltb_spec 0 (cmd_watchDuration c)), (sh_Run l (cmd_command c) _) as [e|]; simpl;
    [case_decide; naive_solver|done|naive_solver lia|done].
Qed.

Lemma transcribes_announce c : transcribes (announced c) (announce c).
Proof.
  unfold announce, announced. apply transcribes_bind; [|intros; apply transcribes_call].
  case_decide; [apply transcribes_ret|apply transcribes_call].
Qed.

Lemma transcribes_run ds :
  transcribes
    (concat (imap (fun i c => (if (i =? 0)%nat then [] else announced c) ++ [exec_event c])
               (step_commands ds)))
    (run ds false).
Proof.
  apply transcribes_range. intros i c _.
  apply transcribes_bind; [|intros; apply transcribes_runCommand].
  destruct i; simpl; [apply transcribes_ret|apply transcribes_announce].
Qed.

Lemma transcribes_step s : transcribes (step_events s) (RunAfterConfirmation s).
Proof.
  unfold RunAfterConfirmation, step_events. pose proof (transcribes_run s) as Hrun.
  destruct (step_commands s) as [|c cs] eqn:Hcs; simpl in Hrun.
  - apply (transcribes_bind [] [] _ _); [apply transcribes_ret|done].
  - apply (transcribes_bind [_; _; _] (exec_event c :: _)).
    + apply (transcribes_bind [_] [_; _]); [apply transcribes_call|intros _].
      apply (transcribes_bind [_] [_]); [apply transcribes_call|intros _].
      apply transcribes_wrap, transcribes_call.
    + intros _. rewrite <- imap_const. exact Hrun.
Qed.

(** The script runs in order: every run's transcript is a beginning of the
    complete one (each step announced, its first command run after the
    presenter's confirmation, the others announced and run in turn), and the
    run that returns has gone through all of it. *)
Theorem runDemo_in_order steps : transcribes (demo_events steps) (runDemo steps).
Proof.
  unfold runDemo, demo_events.
  apply transcribes_bind; [apply transcribes_wrap, transcribes_call|intros _].
  apply transcribes_bind; [|intros; apply transcribes_call].
  rewrite <- imap_const. apply transcribes_range. intros i s _.
  apply (transcribes_bind [_]); [apply transcribes_call|intros _].
  apply transcribes_wrap, transcribes_step.
Qed.
End Demo.
