(* ===== verification/TestLogr.v ===== *)
(** * internal/testhelpers/testlogr/testlogr.go

    The log sink of the unit tests.  Its loggers keep their values in slices, and
    [WithValues] appends to the slice of the parent, so the model has Go's slices:
    a length and a capacity in a backing array that several slices may share.
    The capacity [append] chooses for a new array is the class [Growth]. *)

From stdpp Require Import base list strings.
From Stdlib Require Import ZArith Lia.
From S2P Require Import Prelude.

(** ** Slices *)

(** Values that are logged; all are printed. *)
Abbreviation any := string.

(** A slice starts at its array's beginning; [None] is nil. *)
Record SliceHeader := mkSliceHeader {
  sl_array : nat;
  sl_len : nat;
  sl_cap : nat;
}.
Abbreviation Slice := (option SliceHeader).

(** The backing arrays by address. *)
Abbreviation Arrays := (list (list any)).

Class Growth := { growslice : nat -> nat -> nat }.

(** The new capacity is enough. *)
Class GrowthLaws (G : Growth) := { growslice_enough cap n : n <= growslice cap n }.

Definition slice_len (s : Slice) : nat := from_option sl_len 0 s.
Definition slice_cap (s : Slice) : nat := from_option sl_cap 0 s.

Definition contents (h : Arrays) (s : Slice) : list any :=
  match s with
  | None => []
  | Some s => take (sl_len s) (default [] (h !! sl_array s))
  end.

Section Sink.
Context `{G : Growth}.

(** Copying [vs] into [a] from index [i] on. *)
Definition overwrite (i : nat) (vs a : list any) : list any :=
  take i a ++ vs ++ drop (i + length vs) a.

(** [append(s, vs...)]: in place if the capacity allows it. *)
Definition append (h : Arrays) (s : Slice) (vs : list any) : Arrays * Slice :=
  let n := slice_len s + length vs in
  if decide (n <= slice_cap s) then
    match s with
    | None => (h, None)
    | Some sh =>
        (alter (overwrite (sl_len sh) vs) (sl_array sh) h,
         Some (mkSliceHeader (sl_array sh) n (sl_cap sh)))
    end
  else
    let cap := growslice (slice_cap s) n in
    (h ++ [contents h s ++ vs ++ replicate (cap - n) EmptyString],
     Some (mkSliceHeader (length h) n cap)).

(** [[]any{...}] *)
Definition literal (h : Arrays) (vs : list any) : Arrays * Slice :=
  (h ++ [vs], Some (mkSliceHeader (length h) (length vs) (length vs))).

(** ** The sink *)

(** What the test prints, a call of [t.Log] each. *)
Record TestState := mkTestState {
  ts_arrays : Arrays;
  ts_output : list (list any);
}.

(** The test is the one whose state is threaded. *)
Record sink := mkSink { sk_keysAndValues : Slice }.

Definition New : sink := mkSink None.

Definition Enabled (s : sink) (level : Z) : bool := true.

Definition log (s : sink) (level msg : string) (keysAndValues : list any) (st : TestState)
  : TestState :=
  let lit := literal (ts_arrays st) [level; msg] in
  let args := append lit.1 lit.2 (contents lit.1 (sk_keysAndValues s)) in
  let args := append args.1 args.2 keysAndValues in
  mkTestState args.1 (ts_output st ++ [contents args.1 args.2]).

Definition Info (s : sink) (level : Z) (msg : string) (keysAndValues : list any) (st : TestState)
  : TestState :=
  log s "INFO" msg keysAndValues st.

(** [err] is an interface, whose method is called. *)
Definition Error (s : sink) (err : option gerror) (msg : string) (keysAndValues : list any)
    (st : TestState) : outcome TestState :=
  e ← deref err;
  Ok (log s "ERROR" (msg +:+ " " +:+ error_text e) keysAndValues st).

Definition WithValues (s : sink) (keysAndValues : list any) (st : TestState) : sink * TestState :=
  let kv := append (ts_arrays st) (sk_keysAndValues s) keysAndValues in
  (mkSink kv.2, mkTestState kv.1 (ts_output st)).

Definition WithName (s : sink) (name : string) : sink := s.

(** ** Well-formed slices *)

Definition slice_ok (h : Arrays) (s : Slice) : Prop :=
  match s with
  | None => True
  | Some s => sl_len s <= sl_cap s /\ exists a, h !! sl_array s = Some a /\ length a = sl_cap s
  end.

(** The values of a logger. *)
Definition values (s : sink) (st : TestState) : list any := contents (ts_arrays st) (sk_keysAndValues s).
Definition sink_ok (s : sink) (st : TestState) : Prop := slice_ok (ts_arrays st) (sk_keysAndValues s).

(** The new values go to the end of the parent's array. *)
Definition has_room (s : sink) (kvs : list any) : Prop :=
  slice_len (sk_keysAndValues s) + length kvs <= slice_cap (sk_keysAndValues s).

#[export] Instance has_room_dec s kvs : Decision (has_room s kvs).
Proof. unfold has_room. apply _. Defined.

Context `{!GrowthLaws G}.

Lemma contents_length h s : slice_ok h s -> length (contents h s) = slice_len s.
Proof.
  destruct s as [s|]; [|done]. intros (Hl & a & Ha & Hc). simpl. rewrite Ha. simpl.
  rewrite length_take. lia.
Qed.

Lemma contents_grow h s a : slice_ok h s -> contents (h ++ [a]) s = contents h s.
Proof.
  destruct s as [s|]; [|done]. intros (_ & b & Hb & _). simpl.
  by rewrite lookup_app_l by (by apply lookup_lt_Some in Hb).
Qed.

Lemma slice_ok_grow h s a : slice_ok h s -> slice_ok (h ++ [a]) s.
Proof.
  destruct s as [s|]; [|done]. intros (Hl & b & Hb & Hc). split; [done|]. exists b.
  by rewrite lookup_app_l by (by apply lookup_lt_Some in Hb).
Qed.

Lemma take_overwrite_before n i vs a : n <= i -> i <= length a -> take n (overwrite i vs a) = take n a.
Proof.
  intros Hn Hi. unfold overwrite. rewrite take_app_le by (rewrite length_take; lia).
  rewrite take_take. f_equal. lia.
Qed.

Lemma take_overwrite_through k i vs a :
  i <= length a -> take (i + k) (overwrite i vs a) = take i a ++ take k (vs ++ drop (i + length vs) a).
Proof.
  intros Hi. unfold overwrite. rewrite take_app_ge by (rewrite length_take; lia).
  do 2 f_equal. rewrite length_take. lia.
Qed.

Lemma length_overwrite i vs a : i + length vs <= length a -> length (overwrite i vs a) = length a.
Proof. intros Hi. unfold overwrite. rewrite !length_app, length_take, length_drop. lia. Qed.

(** The array of a slice was allocated after, or before, the first [n]. *)
Definition newer (n : nat) (s : Slice) : Prop := from_option (fun b => n <= sl_array b) True s.
Definition older (n : nat) (s : Slice) : Prop := from_option (fun b => sl_array b < n) True s.

(** The slices do not share an array. *)
Definition apart (s t : Slice) : Prop :=
  match s, t with
  | Some a, Some b => sl_array a <> sl_array b
  | _, _ => True
  end.

Lemma newer_older_apart n s t : newer n s -> older n t -> apart s t.
Proof. destruct s, t; simpl; try done. lia. Qed.

Lemma slice_ok_older h s : slice_ok h s -> older (length h) s.
Proof. destruct s as [s|]; [|done]. intros (_ & a & Ha & _). by apply lookup_lt_Some in Ha. Qed.

Lemma append_newer h s vs n :
  n <= length h -> newer n s ->
  newer n (append h s vs).2 /\ n <= length (append h s vs).1.
Proof.
  intros Hn Hs. unfold append. case_decide; [destruct s|]; simpl;
    rewrite ?length_alter, ?length_app; simpl; split; try done; lia.
Qed.

(** What [append] returns, and what it does to the other slices: one is affected
    only if it shares the array and reaches behind the end of [s]. *)
Lemma append_spec h s vs :
  slice_ok h s ->
  let r := append h s vs in
  slice_ok r.1 r.2 /\ contents r.1 r.2 = contents h s ++ vs /\
  forall t, slice_ok h t -> slice_ok r.1 t /\
    (slice_len t <= slice_len s \/ slice_cap s < slice_len s + length vs \/
     apart s t ->
     contents r.1 t = contents h t).
Proof.
  intros Hok. unfold append. case_decide as Hroom; simpl.
  - destruct s as [s|]; simpl in *.
    2: { destruct vs; simpl in *; [|lia]. by split_and!. }
    destruct Hok as (Hl & a & Ha & Hc).
    assert (alter (overwrite (sl_len s) vs) (sl_array s) h !! sl_array s
            = Some (overwrite (sl_len s) vs a)) as Hnew
      by (by rewrite list_lookup_alter_eq, Ha).
    split; [split; [lia|]|split].
    + eexists. split; [exact Hnew|]. by rewrite length_overwrite by lia.
    + rewrite Hnew, Ha. simpl. rewrite take_overwrite_through by lia.
      by rewrite take_app_length.
    + intros [t|] Ht; [|done]. simpl in *. destruct Ht as (Htl & b & Hb & Hbc).
      destruct (decide (sl_array t = sl_array s)) as [He|Hne].
      * rewrite He in *. simplify_eq. split.
        -- split; [done|]. eexists. split; [exact Hnew|]. rewrite length_overwrite by lia. lia.
        -- intros [Hle|[|Hd]]; [|lia|by simpl in Hd]. rewrite Hnew, Ha. simpl. apply take_overwrite_before; lia.
      * rewrite list_lookup_alter_ne by done. split; [|done]. split; [done|]. by exists b.
  - pose proof (growslice_enough (slice_cap s) (slice_len s + length vs)) as Henough.
    pose proof (contents_length h s Hok) as Hlen.
    split; [split; [done|]|split].
    + eexists. split; [by rewrite lookup_app_r, Nat.sub_diag by done|].
      rewrite !length_app, length_replicate. lia.
    + rewrite lookup_app_r, Nat.sub_diag by done. simpl. rewrite app_assoc.
      apply take_app_length'. rewrite length_app. lia.
    + intros t Ht. split; [by apply slice_ok_grow|]. intros _. by apply contents_grow.
Qed.

(** A literal is full, in an array of its own. *)
Lemma literal_spec h vs :
  let r := literal h vs in
  slice_ok r.1 r.2 /\ contents r.1 r.2 = vs /\ slice_len r.2 = length vs /\
  slice_cap r.2 = length vs /\ newer (length h) r.2 /\
  forall t, slice_ok h t -> slice_ok r.1 t /\ contents r.1 t = contents h t.
Proof.
  simpl. rewrite lookup_app_r, Nat.sub_diag by done. simpl. split_and!; try done.
  - by eexists.
  - apply take_ge. done.
  - intros t Ht. split; [by apply slice_ok_grow|by apply contents_grow].
Qed.
(** Two appends to the same slice, both in place. *)
Lemma append_twice h s vs1 vs2 :
  slice_ok h s -> slice_len s + length vs1 <= slice_cap s -> slice_len s + length vs2 <= slice_cap s ->
  contents (append (append h s vs1).1 s vs2).1 (append h s vs1).2
  = contents h s ++ take (length vs1) (vs2 ++ drop (length vs2) vs1).
Proof.
  intros Hok H1 H2. unfold append. rewrite !decide_True by done.
  destruct s as [s|]; simpl in *.
  2: { by destruct vs1; simpl in *; [|lia]. }
  destruct Hok as (Hl & a & Ha & Hc). rewrite !list_lookup_alter_eq, Ha. simpl.
  rewrite take_overwrite_through by (rewrite length_overwrite; lia).
  rewrite take_overwrite_before by lia. f_equal.
  rewrite !take_app. f_equal. unfold overwrite.
  rewrite drop_app_ge by (rewrite length_take; lia). rewrite length_take.
  replace (sl_len s + length vs2 - sl_len s `min` length a) with (length vs2) by lia.
  destruct (decide (length vs2 <= length vs1)).
  - rewrite drop_app_le by lia. by rewrite take_app_le by (rewrite length_drop; lia).
  - replace (length vs1 - length vs2) with 0 by lia. done.
Qed.

(** ** Theorems *)

(** What is printed: the level, the message, the logger's values and those of
    the call; and no logger's values change by it. *)
Theorem log_spec s level msg kvs st :
  sink_ok s st ->
  let st' := log s level msg kvs st in
  ts_output st' = ts_output st ++ [level :: msg :: values s st ++ kvs] /\
  forall t, sink_ok t st -> sink_ok t st' /\ values t st' = values t st.
Proof.
  intros Hs. unfold log, sink_ok, values in *. set (h := ts_arrays st) in *.
  destruct (literal_spec h [level; msg]) as (Hok1 & Hc1 & _ & _ & Hn1 & Ht1).
  set (r1 := literal h [level; msg]) in *.
  destruct (Ht1 _ Hs) as [_ Hvs].
  destruct (append_spec r1.1 r1.2 (contents r1.1 (sk_keysAndValues s)) Hok1) as (Hok2 & Hc2 & Ht2).
  destruct (append_newer r1.1 r1.2 (contents r1.1 (sk_keysAndValues s)) (length h)) as [Hn2 _];
    [unfold r1; simpl; rewrite length_app; lia|done|].
  set (r2 := append r1.1 r1.2 _) in *.
  destruct (append_spec r2.1 r2.2 kvs Hok2) as (Hok3 & Hc3 & Ht3).
  cbn [ts_output ts_arrays]. split.
  - by rewrite Hc3, Hc2, Hc1, Hvs.
  - intros t Hok. pose proof (slice_ok_older _ _ Hok) as Hold.
    destruct (Ht1 _ Hok) as [Ho1 He1]. destruct (Ht2 _ Ho1) as [Ho2 He2].
    destruct (Ht3 _ Ho2) as [Ho3 He3]. split; [done|].
    rewrite He3, He2, He1; eauto using newer_older_apart.
Qed.

(** A derived logger has the parent's values and its own, and the parent keeps
    its own.  But a logger derived from the same parent before is not left
    alone: if the parent's array had room for the values of both, the values of
    the second overwrite those of the first. *)
Theorem WithValues_siblings s kvs1 kvs2 st c1 st1 c2 st2 :
  sink_ok s st -> WithValues s kvs1 st = (c1, st1) -> WithValues s kvs2 st1 = (c2, st2) ->
  values c1 st1 = values s st ++ kvs1 /\ values c2 st2 = values s st ++ kvs2 /\
  values s st2 = values s st /\
  values c1 st2 = values s st ++
    (if decide (has_room s kvs1 /\ has_room s kvs2)
     then take (length kvs1) (kvs2 ++ drop (length kvs2) kvs1) else kvs1).
Proof.
  unfold sink_ok, WithValues, values. intros Hs [= <- <-] [= <- <-]. cbn [ts_arrays sk_keysAndValues].
  set (kv := sk_keysAndValues s) in *. set (h := ts_arrays st) in *.
  destruct (append_spec h kv kvs1 Hs) as (Hok1 & Hc1 & Ht1).
  destruct (Ht1 kv Hs) as [Hs1 He1]. rewrite <- He1 by auto.
  destruct (append_spec (append h kv kvs1).1 kv kvs2 Hs1) as (Hok2 & Hc2 & Ht2).
  destruct (Ht2 kv Hs1) as [_ He2]. destruct (Ht2 _ Hok1) as [_ He3].
  rewrite He2 by auto. split_and!; [by rewrite Hc1, He1 by auto|done|done|].
  destruct (decide (has_room s kvs1 /\ has_room s kvs2)) as [[Hr1 Hr2]|Hr].
  - rewrite He1 by auto. by apply append_twice.
  - rewrite He3; [by rewrite Hc1, He1 by auto|]. unfold has_room in Hr. fold kv in Hr.
    destruct (decide (slice_len kv + length kvs2 <= slice_cap kv)); [|right; left; lia].
    right. right. unfold append. rewrite decide_False by tauto.
    pose proof (slice_ok_older _ _ Hs) as Hold. destruct kv; simpl in *; [lia|done].
Qed.
End Sink.

(** ** Two loggers of a test *)

(** Go doubles small arrays. *)
Definition doubling : Growth := {| growslice cap n := n `max` (2 * cap) |}.

(** A logger with three pairs of values, whose array has room for a fourth, and
    two loggers derived from it: the first one now logs the second's pair. *)
Example derived_loggers_clash :
  let '(s1, t1) := WithValues (G := doubling) New ["a"; "1"] (mkTestState [] []) in
  let '(s2, t2) := WithValues (G := doubling) s1 ["b"; "2"] t1 in
  let '(s3, t3) := WithValues (G := doubling) s2 ["c"; "3"] t2 in
  let '(x, t4) := WithValues (G := doubling) s3 ["worker"; "x"] t3 in
  let '(y, t5) := WithValues (G := doubling) s3 ["worker"; "y"] t4 in
  ts_output (Info (G := doubling) x 0 "hello" [] t4)
  = [["INFO"; "hello"; "a"; "1"; "b"; "2"; "c"; "3"; "worker"; "x"]] /\
  ts_output (Info (G := doubling) x 0 "hello" [] t5)
  = [["INFO"; "hello"; "a"; "1"; "b"; "2"; "c"; "3"; "worker"; "y"]].
Proof. vm_compute. split; reflexivity. Qed.
