(* ===== verification/Temporal.v ===== *)
(** * internal/temporal/worker_deployment.go

    What the controller reads from the Temporal server: the state of a worker
    deployment and the status of the test workflows of a version.  [Versions]
    holds one freshly allocated [*VersionInfo] per build ID, reached only
    through the map, so the map of values models it. *)

From stdpp Require Import base gmap sets list strings.
From Stdlib Require Import ZArith Lia.
From S2P Require Import Prelude GoStd Api K8s Trace World.
Local Open Scope Z_scope.

Definition IgnoreLastModifierKey : string := "temporal.io/ignore-last-modifier".

(** ** State *)

Record VersionInfo := mkVersionInfo {
  vi_DeploymentName : string;
  vi_BuildID : string;
  vi_Status : VersionStatus;
  vi_DrainedSince : option Time;
  vi_TaskQueues : list TaskQueue;
  vi_TestWorkflows : list WorkflowExecution;
  vi_AllTaskQueuesHaveUnversionedPoller : bool;
  vi_NoTaskQueuesHaveVersionedPoller : bool;
}.

Record TemporalWorkerState := mkTemporalWorkerState {
  ts_CurrentBuildID : string;
  ts_VersionConflictToken : string;
  ts_RampingBuildID : string;
  ts_RampPercentage : float32;
  ts_RampingSince : option Time;
  ts_RampLastModifiedAt : option Time;
  ts_Versions : gmap string VersionInfo;
  ts_LastModifierIdentity : string;
  ts_IgnoreLastModifier : bool;
}.

Definition emptyTemporalState : TemporalWorkerState :=
  mkTemporalWorkerState EmptyString EmptyString EmptyString float32_zero None None ∅
    EmptyString false.

Definition ts_set_Versions (v : gmap string VersionInfo) (s : TemporalWorkerState)
  : TemporalWorkerState :=
  mkTemporalWorkerState (ts_CurrentBuildID s) (ts_VersionConflictToken s)
    (ts_RampingBuildID s) (ts_RampPercentage s) (ts_RampingSince s)
    (ts_RampLastModifiedAt s) v (ts_LastModifierIdentity s) (ts_IgnoreLastModifier s).

Definition vi_set_TaskQueues (v : list TaskQueue) (i : VersionInfo) : VersionInfo :=
  mkVersionInfo (vi_DeploymentName i) (vi_BuildID i) (vi_Status i) (vi_DrainedSince i) v
    (vi_TestWorkflows i) (vi_AllTaskQueuesHaveUnversionedPoller i)
    (vi_NoTaskQueuesHaveVersionedPoller i).

Definition vi_set_TestWorkflows (v : list WorkflowExecution) (i : VersionInfo) : VersionInfo :=
  mkVersionInfo (vi_DeploymentName i) (vi_BuildID i) (vi_Status i) (vi_DrainedSince i)
    (vi_TaskQueues i) v (vi_AllTaskQueuesHaveUnversionedPoller i)
    (vi_NoTaskQueuesHaveVersionedPoller i).

(** ** Pure helpers *)

Definition mapWorkflowStatus (status : ServerWorkflowStatus) : WorkflowExecutionStatus :=
  match status with
  | WORKFLOW_EXECUTION_STATUS_RUNNING
  | WORKFLOW_EXECUTION_STATUS_CONTINUED_AS_NEW => WorkflowExecutionStatusRunning
  | WORKFLOW_EXECUTION_STATUS_COMPLETED => WorkflowExecutionStatusCompleted
  | WORKFLOW_EXECUTION_STATUS_FAILED => WorkflowExecutionStatusFailed
  | WORKFLOW_EXECUTION_STATUS_CANCELED => WorkflowExecutionStatusCanceled
  | WORKFLOW_EXECUTION_STATUS_TERMINATED => WorkflowExecutionStatusTerminated
  | WORKFLOW_EXECUTION_STATUS_TIMED_OUT => WorkflowExecutionStatusTimedOut
  | WORKFLOW_EXECUTION_STATUS_UNSPECIFIED => WorkflowExecutionStatusRunning
  end.

Definition GetTestWorkflowID (deploymentName buildID taskQueue : string) : string :=
  "test-" +:+ deploymentName +:+ ":" +:+ buildID +:+ "-" +:+ taskQueue.

(** ** Polling with a deadline *)

Section WithWorld.
Context `{World}.

(** The [for time.Now().Before(deadline)] loop.  [Some a]: [fn] succeeded with
    [a] as the captured variable; [None]: the loop ended without one call, so
    the nil [lastErr] is returned and the captured variable keeps its zero. *)
Fixpoint backoff_loop {A} (fuel : nat) (deadline : Time) (tick : Duration) (fn : io A)
    (lastErr : option gerror) : io (option A) :=
  match fuel with
  | O => lift (Panic OutOfFuel)
  | S fuel' =>
      now ← time_Now;
      if time_Before now deadline then
        r ← try fn;
        match r with
        | inl a => mret (Some a)
        | inr err =>
            _ ← time_Sleep tick;
            backoff_loop fuel' deadline tick fn (Some err)
        end
      else
        match lastErr with
        | Some err => io_throw err
        | None => mret None
        end
  end.

Definition withBackoff {A} (fuel : nat) (timeout tick : Duration) (fn : io A)
  : io (option A) :=
  start ← time_Now;
  backoff_loop fuel (time_Add start timeout) tick fn None.

(** Both uses wait 1 s between attempts for at most 10 s. *)
Definition backoff_fuel : nat := 11.

(** ** Pollers *)

Definition getPollers (taskQueueInfo : TaskQueueInfo) : io (list WorkerVersioningMode) :=
  wrap_error (ErrWrap "unable to describe task queue %s: %w" [tqi_Name taskQueueInfo])
    (match tqi_Type taskQueueInfo with
     | TaskQueueTypeWorkflow => DescribeTaskQueue (tqi_Name taskQueueInfo) TaskQueueTypeWorkflow
     | TaskQueueTypeActivity => DescribeTaskQueue (tqi_Name taskQueueInfo) TaskQueueTypeActivity
     | _ => mret []     (* resp stays nil: no pollers *)
     end).

Fixpoint anyUnversioned (pollers : list WorkerVersioningMode) : bool :=
  match pollers with
  | [] => false
  | VersioningModeUnversioned :: _ | VersioningModeUnspecified :: _ => true
  | VersioningModeVersioned :: ps => anyUnversioned ps
  end.

Fixpoint noneVersioned (pollers : list WorkerVersioningMode) : bool :=
  match pollers with
  | [] => true
  | VersioningModeUnversioned :: ps | VersioningModeUnspecified :: ps => noneVersioned ps
  | VersioningModeVersioned :: _ => false
  end.

Definition HasUnversionedPoller (taskQueueInfo : TaskQueueInfo) : io bool :=
  pollers ← wrap_error (ErrWrap "unable to confirm presence of unversioned pollers: %w" [])
              (getPollers taskQueueInfo);
  mret (anyUnversioned pollers).

Definition HasNoVersionedPollers (taskQueueInfo : TaskQueueInfo) : io bool :=
  pollers ← wrap_error (ErrWrap "unable to confirm absence of versioned pollers: %w" [])
              (getPollers taskQueueInfo);
  mret (noneVersioned pollers).

(** [b, _ := check(tq); if b { count++ }]: an error comes with [false]. *)
Definition countIf (check : TaskQueueInfo -> io bool) (_ : nat) (tqInfo : TaskQueueInfo)
    (count : nat) : io nat :=
  r ← try (check tqInfo);
  mret (match r with
        | inl true => S count
        | _ => count
        end).

Definition noTaskQueuesHaveVersionedPollers (tqs : list TaskQueueInfo) : io bool :=
  count ← io_range (countIf HasNoVersionedPollers) tqs 0%nat;
  mret (count =? length tqs)%nat.

Definition allTaskQueuesHaveUnversionedPoller (tqs : list TaskQueueInfo) : io bool :=
  count ← io_range (countIf HasUnversionedPoller) tqs 0%nat;
  mret (count =? length tqs)%nat.

(** ** Ownership metadata *)

Definition getShouldIgnoreLastModifier (deployment buildId : string) : io bool :=
  desc ← wrap_error (ErrWrap "unable to describe version: %w" [])
           (DescribeVersion deployment buildId);
  match vd_Metadata desc !! IgnoreLastModifierKey with
  | Some v =>
      match w_FromPayload v with
      | inl s => mret (bool_decide (s = "true"))
      | inr err =>
          io_throw (ErrWrap "unable to decode metadata payload for key %s: %w"
                      [IgnoreLastModifierKey] err)
      end
  | None => mret false
  end.

Definition DeploymentShouldIgnoreLastModifier (deployment : string)
    (routingConfig : RoutingConfig) : io bool :=
  shouldIgnore ←
    match rc_CurrentVersion routingConfig with
    | Some cur => getShouldIgnoreLastModifier deployment (wdv_BuildId cur)
    | None => mret false
    end;
  match shouldIgnore, rc_RampingVersion routingConfig with
  | false, Some _ =>
      cur ← lift (deref (rc_CurrentVersion routingConfig));
      getShouldIgnoreLastModifier deployment (wdv_BuildId cur)
  | _, _ => mret shouldIgnore
  end.

(** ** The state of a worker deployment *)

Definition same_version (v : WorkerDeploymentVersion) (o : option WorkerDeploymentVersion)
  : bool :=
  match o with
  | Some r => bool_decide (wdv_DeploymentName v = wdv_DeploymentName r)
              && bool_decide (wdv_BuildId v = wdv_BuildId r)
  | None => false
  end.

(** The closure that is retried until the drain time is known. *)
Definition describeVersionUntilDrainTime (deployment buildId : string)
  : io VersionDescription :=
  desc ← DescribeVersion deployment buildId;
  match vd_DrainageInfo desc with
  | None => io_throw (Errorf "drainage info nil for build %s" [buildId])
  | Some di =>
      if decide (di_DrainageStatus di = DrainageStatusDrained) then mret desc
      else io_throw (Errorf "version info does not say that build %s is drained" [buildId])
  end.

Definition newVersionInfo (v : WorkerDeploymentVersion) (status : VersionStatus)
    (drainedSince : option Time) (allUnversioned noVersioned : bool) : VersionInfo :=
  mkVersionInfo (wdv_DeploymentName v) (wdv_BuildId v) status drainedSince [] []
    allUnversioned noVersioned.

(** The branch of a version the summary calls drained. *)
Definition drainedVersion (deployment : string) (k8sDeployments : gmap string ptr)
    (h : Store) (v : WorkerDeploymentVersion) : io VersionInfo :=
  r ← try (withBackoff backoff_fuel (10 * Second) (1 * Second)
             (describeVersionUntilDrainTime deployment (wdv_BuildId v)));
  match r with
  | inl odesc =>
      let desc := default zeroVersionDescription odesc in
      di ← lift (deref (vd_DrainageInfo desc));
      replicas ←
        match k8sDeployments !! wdv_BuildId v with
        | None => mret 0
        | Some p => d ← lift (load h p); mret (dst_Replicas (d_Status d))
        end;
      noVersioned ← (if replicas =? 0
                     then noTaskQueuesHaveVersionedPollers (vd_TaskQueuesInfos desc)
                     else mret false);
      mret (newVersionInfo v VersionStatusDrained (Some (di_LastChangedTime di)) false
              noVersioned)
  | inr err =>
      if is_kind KNotFound err
      then mret (newVersionInfo v VersionStatusNotRegistered None false false)
      else mret (newVersionInfo v VersionStatusDrained None false false)
  end.

(** The branch of a version that is neither routed to nor draining. *)
Definition inactiveVersion (deployment targetBuildId : string)
    (strategy : DefaultVersionUpdateStrategy) (routingConfig : RoutingConfig)
    (v : WorkerDeploymentVersion) : io VersionInfo :=
  if bool_decide (wdv_BuildId v = targetBuildId)
     && is_nil (rc_CurrentVersion routingConfig)
     && bool_decide (strategy = UpdateProgressive)
  then
    r ← try (withBackoff backoff_fuel (10 * Second) (1 * Second)
               (DescribeVersion deployment (wdv_BuildId v)));
    match r with
    | inl odesc =>
        all ← allTaskQueuesHaveUnversionedPoller
                (vd_TaskQueuesInfos (default zeroVersionDescription odesc));
        mret (newVersionInfo v VersionStatusInactive None all false)
    | inr _ => mret (newVersionInfo v VersionStatusInactive None false false)
    end
  else mret (newVersionInfo v VersionStatusInactive None false false).

(** One iteration of the loop over the version summaries. *)
Definition processVersion (deployment targetBuildId : string)
    (strategy : DefaultVersionUpdateStrategy) (routingConfig : RoutingConfig)
    (k8sDeployments : gmap string ptr) (h : Store)
    (_ : nat) (version : VersionSummary) (versions : gmap string VersionInfo)
  : io (gmap string VersionInfo) :=
  let v := vs_Version version in
  versionInfo ←
    (if same_version v (rc_CurrentVersion routingConfig)
     then mret (newVersionInfo v VersionStatusCurrent None false false)
     else if same_version v (rc_RampingVersion routingConfig)
     then mret (newVersionInfo v VersionStatusRamping None false false)
     else match vs_DrainageStatus version with
          | DrainageStatusDraining =>
              mret (newVersionInfo v VersionStatusDraining None false false)
          | DrainageStatusDrained => drainedVersion deployment k8sDeployments h v
          | DrainageStatusUnspecified =>
              inactiveVersion deployment targetBuildId strategy routingConfig v
          end);
  mret (<[wdv_BuildId v := versionInfo]> versions).

(** [if o != nil { x = o.BuildId }] *)
Definition buildIdOf (o : option WorkerDeploymentVersion) : string :=
  match o with
  | Some v => wdv_BuildId v
  | None => EmptyString
  end.

Definition GetWorkerDeploymentState (workerDeploymentName : string)
    (k8sDeployments : gmap string ptr) (h : Store) (targetBuildId : string)
    (strategy : DefaultVersionUpdateStrategy) (controllerIdentity : string)
  : io TemporalWorkerState :=
  r ← try (Describe workerDeploymentName);
  match r with
  | inr err =>
      if is_kind KNotFound err then mret emptyTemporalState
      else io_throw (ErrWrap "unable to describe worker deployment %s: %w"
                       [workerDeploymentName] err)
  | inl resp =>
      let info := dr_Info resp in
      let routingConfig := wdi_RoutingConfig info in
      let lastModifier := wdi_LastModifierIdentity info in
      ignore ←
        (if negb (bool_decide (lastModifier = controllerIdentity))
            && negb (bool_decide (lastModifier = EmptyString))
         then DeploymentShouldIgnoreLastModifier workerDeploymentName routingConfig
         else mret false);
      let ramping := rc_RampingVersion routingConfig in
      versions ← io_range
        (processVersion workerDeploymentName targetBuildId strategy routingConfig
           k8sDeployments h)
        (wdi_VersionSummaries info) ∅;
      mret (mkTemporalWorkerState
              (buildIdOf (rc_CurrentVersion routingConfig))
              (dr_ConflictToken resp)
              (buildIdOf ramping)
              (rc_RampingVersionPercentage routingConfig)
              ((fun _ => rc_RampingVersionChangedTime routingConfig) <$> ramping)
              ((fun _ => rc_RampingVersionPercentageChangedTime routingConfig) <$> ramping)
              versions lastModifier ignore)
  end.

(** ** Test workflows *)

(** One task queue: the state gets the queue's name before the workflow is
    looked up, and keeps it when the lookup fails. *)
Definition testWorkflowOf (versionInfo : VersionInfo) (tq : TaskQueueInfo)
  : io (list WorkflowExecution) :=
  r ← try (DescribeWorkflowExecution
             (GetTestWorkflowID (vi_DeploymentName versionInfo) (vi_BuildID versionInfo)
                (tqi_Name tq)));
  match r with
  | inl info =>
      mret [mkWorkflowExecution (wei_WorkflowId info) (wei_RunId info)
              (mapWorkflowStatus (wei_Status info)) (wei_TaskQueue info)]
  | inr err =>
      if strings_Contains (error_text err) "workflow not found" then mret []
      else io_throw (ErrWrap "unable to describe test workflow: %w" [] err)
  end.

Fixpoint testWorkflows_loop (versionInfo : VersionInfo) (tqs : list TaskQueueInfo)
    (names : list TaskQueue) (results : list WorkflowExecution)
  : io (list TaskQueue * (list WorkflowExecution + gerror)) :=
  match tqs with
  | [] => mret (names, inl results)
  | tq :: tqs' =>
      if decide (tqi_Type tq = TaskQueueTypeWorkflow) then
        let names' := names ++ [mkTaskQueue (tqi_Name tq)] in
        r ← try (testWorkflowOf versionInfo tq);
        match r with
        | inl wfs => testWorkflows_loop versionInfo tqs' names' (results ++ wfs)
        | inr err => mret (names', inr err)
        end
      else testWorkflows_loop versionInfo tqs' names results
  end.

(** Returns the updated state beside the Go results: the state changes even
    when an error is returned. *)
Definition GetTestWorkflowStatus (workerDeploymentName buildID : string)
    (temporalState : TemporalWorkerState)
  : io (TemporalWorkerState * (list WorkflowExecution + gerror)) :=
  match ts_Versions temporalState !! buildID with
  | None => mret (temporalState, inl [])
  | Some versionInfo =>
      r ← try (DescribeVersion workerDeploymentName (vi_BuildID versionInfo));
      match r with
      | inr err =>
          if is_kind KNotFound err then mret (temporalState, inl [])
          else mret (temporalState,
                     inr (ErrWrap "unable to describe worker deployment version for buildID %q: %w"
                            [buildID] err))
      | inl desc =>
          out ← testWorkflows_loop versionInfo (vd_TaskQueuesInfos desc)
                  (vi_TaskQueues versionInfo) [];
          let versions' :=
            <[buildID := vi_set_TaskQueues out.1 versionInfo]> (ts_Versions temporalState) in
          mret (ts_set_Versions versions' temporalState, out.2)
      end
  end.
End WithWorld.
