(* ===== verification/TemporalProps.v ===== *)
(** * Theorems on internal/temporal

    The polling loop ends; what the state of a worker deployment says about
    the server's answers; reading never writes; the ownership metadata of a
    ramping version. *)

From stdpp Require Import base gmap sets list strings.
From Stdlib Require Import ZArith Lia.
From S2P Require Import Prelude GoStd Api K8s Trace World Temporal.
Local Open Scope Z_scope.

Section WithWorld.
Context `{W : World}.

Definition reads_only {A} (m : io A) : Prop := emits (fun ev => is_write ev = false) m.

(** ** The polling loop *)

Section Backoff.
Context `{!WorldClock W}.
Context {A : Type} (fn : io A) (Hext : emits (fun _ => True) fn).

Lemma backoff_loop_enough fuel deadline tick lastErr l :
  0 <= tick ->
  deadline - w_Now l <= Z.of_nat fuel * tick ->
  (backoff_loop (S fuel) deadline tick fn lastErr l).1 = Panic OutOfFuel ->
  exists l', (fn l').1 = Panic OutOfFuel.
Proof.
  intros Htick. revert lastErr l. induction fuel as [|fuel IH]; intros lastErr l Hd;
    cbn [backoff_loop]; unfold time_Now, mbind, io_bind, time_Before; simpl;
    destruct (Z.ltb_spec (w_Now l) deadline) as [Hlt|Hge].
  - lia.
  - by destruct lastErr.
  - unfold try. destruct (Hext (l ++ [EvNow])) as (ext & Hl & _).
    destruct (fn (l ++ [EvNow])) as [[a|e|p] lf] eqn:Ef; simpl in *; [discriminate| |].
    + intros Hr. apply (IH (Some e) (lf ++ [EvSleep tick])); [|exact Hr].
      rewrite Hl. pose proof (clock_sleep ((l ++ [EvNow]) ++ ext) tick []) as Hs.
      pose proof (clock_mono l ([EvNow] ++ ext)) as Hm. rewrite app_assoc in Hm.
      assert (Z.of_nat (S fuel) * tick = Z.of_nat fuel * tick + tick) by lia. lia.
    + intros [= ->]. exists (l ++ [EvNow]). by rewrite Ef.
  - by destruct lastErr.
Qed.

Lemma withBackoff_unfold fuel timeout tick l :
  withBackoff fuel timeout tick fn l
  = backoff_loop fuel (time_Add (w_Now l) timeout) tick fn None (l ++ [EvNow]).
Proof. reflexivity. Qed.

(** With fuel enough to end, more fuel changes nothing. *)
Lemma backoff_loop_mono fuel fuel' deadline tick lastErr l :
  (fuel <= fuel')%nat ->
  (backoff_loop fuel deadline tick fn lastErr l).1 <> Panic OutOfFuel ->
  backoff_loop fuel' deadline tick fn lastErr l = backoff_loop fuel deadline tick fn lastErr l.
Proof.
  revert fuel' lastErr l. induction fuel as [|fuel IH]; intros fuel' lastErr l Hle Hne.
  - by contradict Hne.
  - destruct fuel' as [|fuel']; [lia|]. cbn [backoff_loop] in *.
    unfold time_Now, mbind, io_bind in *. simpl in *.
    destruct (time_Before (w_Now l) deadline); [|done].
    unfold try in *. destruct (fn (l ++ [EvNow])) as [[a|e|p] lf]; simpl in *; [done| |done].
    apply IH; [lia|done].
Qed.

Lemma withBackoff_ends l :
  (forall l', (fn l').1 <> Panic OutOfFuel) ->
  (withBackoff backoff_fuel (10 * Second) (1 * Second) fn l).1 <> Panic OutOfFuel.
Proof.
  intros Hfn Hf. rewrite withBackoff_unfold in Hf.
  apply backoff_loop_enough in Hf as [l' Hl']; [by apply (Hfn l') | done |].
  pose proof (clock_mono l [EvNow]). unfold time_Add. lia.
Qed.

(** C33: Polling ends: on a clock that does not go back and with a sleep that
    sleeps, the 10-second loop with 1-second ticks makes at most ten calls, so
    the model's fuel never runs out unless the polled call itself does not end,
    and any larger bound gives the same run. *)
Theorem withBackoff_terminates l fuel :
  (forall l', (fn l').1 <> Panic OutOfFuel) ->
  (backoff_fuel <= fuel)%nat ->
  (withBackoff backoff_fuel (10 * Second) (1 * Second) fn l).1 <> Panic OutOfFuel /\
  withBackoff fuel (10 * Second) (1 * Second) fn l
  = withBackoff backoff_fuel (10 * Second) (1 * Second) fn l.
Proof.
  intros Hfn Hle. pose proof (withBackoff_ends l Hfn) as Hne. split; [exact Hne|].
  rewrite !withBackoff_unfold in *. by apply backoff_loop_mono.
Qed.
End Backoff.

(** ** Reading never writes *)

Lemma backoff_loop_emits {A} (P : Event -> Prop) fuel deadline tick (fn : io A) lastErr :
  P EvNow -> P (EvSleep tick) -> emits P fn ->
  emits P (backoff_loop fuel deadline tick fn lastErr).
Proof.
  intros Hnow Hsleep Hfn. revert lastErr.
  induction fuel as [|fuel IH]; intros lastErr; cbn [backoff_loop]; emits_steps.
Qed.

Lemma withBackoff_emits {A} (P : Event -> Prop) fuel timeout tick (fn : io A) :
  P EvNow -> P (EvSleep tick) -> emits P fn -> emits P (withBackoff fuel timeout tick fn).
Proof. intros. unfold withBackoff. emits_steps. by apply backoff_loop_emits. Qed.

Lemma getPollers_reads tq : reads_only (getPollers tq).
Proof. unfold reads_only, getPollers. emits_steps. Qed.

Lemma HasNoVersionedPollers_reads tq : reads_only (HasNoVersionedPollers tq).
Proof. unfold reads_only, HasNoVersionedPollers. emits_steps. apply getPollers_reads. Qed.

Lemma HasUnversionedPoller_reads tq : reads_only (HasUnversionedPoller tq).
Proof. unfold reads_only, HasUnversionedPoller. emits_steps. apply getPollers_reads. Qed.

Lemma countIf_reads check i tq n :
  (forall tq', reads_only (check tq')) -> reads_only (countIf check i tq n).
Proof. intros Hc. unfold reads_only, countIf. emits_steps. apply Hc. Qed.

Lemma noTaskQueues_reads tqs : reads_only (noTaskQueuesHaveVersionedPollers tqs).
Proof.
  apply emits_bind; [apply emits_range | intros; apply emits_ret].
  intros. apply countIf_reads, HasNoVersionedPollers_reads.
Qed.

Lemma allTaskQueues_reads tqs : reads_only (allTaskQueuesHaveUnversionedPoller tqs).
Proof.
  apply emits_bind; [apply emits_range | intros; apply emits_ret].
  intros. apply countIf_reads, HasUnversionedPoller_reads.
Qed.

Lemma getShouldIgnore_reads d b : reads_only (getShouldIgnoreLastModifier d b).
Proof. unfold reads_only, getShouldIgnoreLastModifier. emits_steps. Qed.

Lemma untilDrainTime_reads d b : reads_only (describeVersionUntilDrainTime d b).
Proof. unfold reads_only, describeVersionUntilDrainTime. emits_steps. Qed.

Lemma polled_reads {A} fuel timeout tick (fn : io A) :
  reads_only fn -> reads_only (withBackoff fuel timeout tick fn).
Proof. by apply withBackoff_emits. Qed.

#[local] Hint Unfold reads_only : emits.
#[local] Hint Resolve noTaskQueues_reads allTaskQueues_reads getShouldIgnore_reads
  untilDrainTime_reads polled_reads : emits.

Lemma DeploymentShouldIgnore_reads d rc :
  reads_only (DeploymentShouldIgnoreLastModifier d rc).
Proof.
  unfold reads_only, DeploymentShouldIgnoreLastModifier. emits_steps;
    apply getShouldIgnore_reads.
Qed.

Lemma drainedVersion_reads d ks h v : reads_only (drainedVersion d ks h v).
Proof.
  unfold reads_only, drainedVersion. emits_steps.
  - apply polled_reads, untilDrainTime_reads.
  - apply noTaskQueues_reads.
Qed.

Lemma inactiveVersion_reads d t st rc v : reads_only (inactiveVersion d t st rc v).
Proof.
  unfold reads_only, inactiveVersion. emits_steps.
  - apply polled_reads. unfold reads_only. emits_steps.
  - apply allTaskQueues_reads.
Qed.

Lemma processVersion_reads d t st rc ks h i v vs :
  reads_only (processVersion d t st rc ks h i v vs).
Proof.
  unfold reads_only, processVersion. emits_steps;
    [apply inactiveVersion_reads | apply drainedVersion_reads].
Qed.

Lemma testWorkflows_loop_reads vi tqs names wfs :
  reads_only (testWorkflows_loop vi tqs names wfs).
Proof.
  revert names wfs. induction tqs as [|tq tqs IH]; intros names wfs; simpl; [apply emits_ret|].
  case_decide; [|apply IH]. apply emits_bind.
  - unfold testWorkflowOf. emits_steps.
  - intros [?|?]; [apply IH | apply emits_ret].
Qed.

Lemma GetWorkerDeploymentState_reads name ks h target strategy identity :
  reads_only (GetWorkerDeploymentState name ks h target strategy identity).
Proof.
  unfold reads_only, GetWorkerDeploymentState. emits_steps.
  - apply DeploymentShouldIgnore_reads.
  - apply processVersion_reads.
Qed.

Lemma GetTestWorkflowStatus_reads name buildID st :
  reads_only (GetTestWorkflowStatus name buildID st).
Proof.
  unfold reads_only, GetTestWorkflowStatus. emits_steps. apply testWorkflows_loop_reads.
Qed.

(** ** Ownership metadata *)

Lemma DeploymentShouldIgnore_panics name rc l :
  rc_CurrentVersion rc = None -> is_Some (rc_RampingVersion rc) ->
  DeploymentShouldIgnoreLastModifier name rc l = (Panic NilDereference, l).
Proof. intros Hc [ramp Hr]. unfold DeploymentShouldIgnoreLastModifier. by rewrite Hc, Hr. Qed.

(** The ownership metadata of the Ramping version is never consulted: every
    call is about the Current version's build; and when there is a Ramping but
    no Current version - the case for which the runbook tells users to mark the
    Ramping version - the check dereferences the nil Current version. *)
Theorem ramping_metadata_never_read name rc :
  emits (fun ev => exists cur, rc_CurrentVersion rc = Some cur /\
                               ev = EvDescribeVersion name (wdv_BuildId cur))
    (DeploymentShouldIgnoreLastModifier name rc) /\
  (rc_CurrentVersion rc = None -> is_Some (rc_RampingVersion rc) ->
   forall l, DeploymentShouldIgnoreLastModifier name rc l = (Panic NilDereference, l)).
Proof.
  split.
  - unfold DeploymentShouldIgnoreLastModifier, getShouldIgnoreLastModifier.
    destruct (rc_CurrentVersion rc) as [cur|] eqn:E; emits_steps;
      simplify_eq/=; try apply emits_DescribeVersion; eauto.
  - intros. by apply DeploymentShouldIgnore_panics.
Qed.

(** A server that answers [Describe] with a Ramping but no Current version, last
    changed by somebody else, makes the whole query panic. *)
Lemma GetWorkerDeploymentState_panics name ks h target strategy identity resp l :
  (forall l', w_Describe l' name = inl resp) ->
  let rc := wdi_RoutingConfig (dr_Info resp) in
  let modifier := wdi_LastModifierIdentity (dr_Info resp) in
  rc_CurrentVersion rc = None -> is_Some (rc_RampingVersion rc) ->
  modifier <> identity -> modifier <> EmptyString ->
  (GetWorkerDeploymentState name ks h target strategy identity l).1 = Panic NilDereference.
Proof.
  intros Hd rc modifier Hc Hr Hm1 Hm2. unfold GetWorkerDeploymentState.
  unfold mbind at 1, io_bind, try, Describe, call at 1. rewrite Hd. simpl.
  rewrite !bool_decide_false by done. simpl.
  unfold mbind at 1, io_bind.
  by rewrite DeploymentShouldIgnore_panics by done.
Qed.

(** ** Pollers *)

Lemma anyUnversioned_spec ps :
  anyUnversioned ps = true <-> exists m, m ∈ ps /\ m <> VersioningModeVersioned.
Proof.
  induction ps as [|[] ps IH]; simpl.
  - split; [done|]. intros (m & Hm & _). by apply not_elem_of_nil in Hm.
  - split; [|done]. intros _. eexists. split; [by left|done].
  - split; [|done]. intros _. eexists. split; [by left|done].
  - rewrite IH. setoid_rewrite elem_of_cons. naive_solver.
Qed.

Lemma noneVersioned_spec ps :
  noneVersioned ps = true <-> VersioningModeVersioned ∉ ps.
Proof.
  induction ps as [|[] ps IH]; simpl; rewrite ?elem_of_cons, ?IH;
    split; intros; try done; try naive_solver.
  apply not_elem_of_nil.
Qed.

(** Each queue's check, run one after the other from [l], answers [true]. *)
Fixpoint all_confirmed (check : TaskQueueInfo -> io bool) (tqs : list TaskQueueInfo) (l : Log)
  : Prop :=
  match tqs with
  | [] => True
  | tq :: tqs' => (check tq l).1 = Ok true /\ all_confirmed check tqs' (check tq l).2
  end.

Definition never_panics {A} (m : io A) : Prop := forall l, ~ is_Panic (m l).1.

Lemma countIf_run check i tq n l :
  countIf check i tq n l
  = (match (check tq l).1 with
     | Ok true => Ok (S n)
     | Ok false | Err _ => Ok n
     | Panic p => Panic p
     end, (check tq l).2).
Proof.
  unfold countIf. rewrite io_bind_run. unfold try.
  by destruct (check tq l) as [[[]|e|p] lc].
Qed.

Lemma countIf_range check tqs i n l :
  (forall tq, never_panics (check tq)) ->
  exists k l', io_range_from (countIf check) i tqs n l = (Ok (n + k)%nat, l') /\
    (k <= length tqs)%nat /\ (k = length tqs <-> all_confirmed check tqs l).
Proof.
  intros Hnp. revert i n l. induction tqs as [|tq tqs IH]; intros i n l; simpl.
  - exists 0%nat, l. rewrite Nat.add_0_r. repeat split; done.
  - rewrite io_bind_run, countIf_run. pose proof (Hnp tq l) as Hp.
    destruct (check tq l) as [[[]|e|p] lc]; simpl in *.
    + destruct (IH (S i) (S n) lc) as (k & l' & -> & Hk & Hiff).
      exists (S k), l'. rewrite Nat.add_succ_r. split; [done|].
      split; [lia|]. rewrite <- Hiff. naive_solver lia.
    + destruct (IH (S i) n lc) as (k & l' & -> & Hk & Hiff).
      exists k, l'. split_and!; [done|lia|]. split; [lia|naive_solver].
    + destruct (IH (S i) n lc) as (k & l' & -> & Hk & Hiff).
      exists k, l'. split_and!; [done|lia|]. split; [lia|naive_solver].
    + by destruct Hp; eexists.
Qed.

Lemma getPollers_never_panics tq : never_panics (getPollers tq).
Proof.
  intros l [p Hp]. unfold getPollers, wrap_error, DescribeTaskQueue, call, answer in Hp.
  destruct (tqi_Type tq); simpl in Hp; try done;
    by destruct (w_DescribeTaskQueue _ _ _).
Qed.

Lemma check_never_panics f w tq :
  never_panics (pollers ← wrap_error w (getPollers tq); mret (f pollers : bool)).
Proof.
  intros l [p Hp]. pose proof (getPollers_never_panics tq l) as Hn.
  unfold mbind, io_bind, wrap_error in Hp.
  destruct (getPollers tq l) as [[ps|e|q] lg]; simpl in *; try done.
  apply Hn. by eexists.
Qed.

(** Both poller summaries are universal statements about confirmed answers:
    they hold exactly when every task queue in turn was described successfully
    and has only unversioned pollers, respectively at least one; a queue whose
    description failed counts against. *)
Theorem poller_counts_are_universal tqs l :
  (exists b l', noTaskQueuesHaveVersionedPollers tqs l = (Ok b, l') /\
     (b = true <-> all_confirmed HasNoVersionedPollers tqs l)) /\
  (exists b l', allTaskQueuesHaveUnversionedPoller tqs l = (Ok b, l') /\
     (b = true <-> all_confirmed HasUnversionedPoller tqs l)).
Proof.
  split.
  - destruct (countIf_range HasNoVersionedPollers tqs 0%nat 0%nat l) as (k & l' & Hr & _ & Hiff);
      [intros; apply check_never_panics|].
    unfold noTaskQueuesHaveVersionedPollers, io_range, mbind, io_bind. rewrite Hr.
    do 2 eexists. split; [reflexivity|]. rewrite Nat.eqb_eq. apply Hiff.
  - destruct (countIf_range HasUnversionedPoller tqs 0%nat 0%nat l) as (k & l' & Hr & _ & Hiff);
      [intros; apply check_never_panics|].
    unfold allTaskQueuesHaveUnversionedPoller, io_range, mbind, io_bind. rewrite Hr.
    do 2 eexists. split; [reflexivity|]. rewrite Nat.eqb_eq. apply Hiff.
Qed.

(** ** The state of a worker deployment *)

(** A polled value was answered by the polled call, in the run. *)
Lemma backoff_loop_Some {A} fuel deadline tick (fn : io A) lastErr a l l' :
  extends fn -> backoff_loop fuel deadline tick fn lastErr l = (Ok (Some a), l') ->
  exists l1, during l l' l1 /\ fn l1 = (Ok a, l').
Proof.
  intros Hfn. revert l lastErr.
  induction fuel as [|fuel IH]; intros l lastErr; cbn [backoff_loop]; [done|].
  rewrite io_bind_run. cbn. case_match; [|by destruct lastErr].
  rewrite io_bind_run. unfold try. destruct (fn (l ++ [EvNow])) as [[b|e|p] lf] eqn:Ef.
  - intros [= -> <-]. exists (l ++ [EvNow]). split; [|done].
    split; [by exists [EvNow]|by eapply extends_prefix].
  - intros (l1 & [Ha Hb] & H1)%IH. exists l1. split; [|done]. split; [|done].
    apply (extends_prefix _ _ _ _ Hfn) in Ef as [x ->]. destruct Ha as [y ->].
    eexists. rewrite <- !app_assoc. reflexivity.
  - discriminate.
Qed.

(** What a poll failed with last was the polled call's error, in the run. *)
Lemma backoff_loop_Err {A} fuel deadline tick (fn : io A) lastErr e l l' :
  extends fn -> backoff_loop fuel deadline tick fn lastErr l = (Err e, l') ->
  lastErr = Some e \/ exists l1 l2, during l l' l1 /\ fn l1 = (Err e, l2).
Proof.
  intros Hfn. revert l lastErr.
  induction fuel as [|fuel IH]; intros l lastErr; cbn [backoff_loop]; [done|].
  rewrite io_bind_run. cbn. case_match.
  2: { destruct lastErr; intros H'; [|done]. left. by inversion H'. }
  rewrite io_bind_run. unfold try. destruct (fn (l ++ [EvNow])) as [[b|e1|p] lf] eqn:Ef;
    [done| |done].
  pose proof (extends_prefix _ _ _ _ Hfn Ef) as [x ->].
  intros Hrun. right.
  assert (forall la, ((l ++ [EvNow]) ++ x) ++ [EvSleep tick] `prefix_of` la ->
            during l la (l ++ [EvNow])) as Hd.
  { intros la Hla. split; [by exists [EvNow]|]. etrans; [|exact Hla]. rewrite <- app_assoc. by eexists. }
  pose proof (extends_prefix _ _ _ _ (emits_extends _ _ (backoff_loop_emits (fun _ => True) fuel
    deadline tick fn (Some e1) I I Hfn)) Hrun) as Hla.
  destruct (IH _ _ Hrun) as [[= ->]|(l1 & l2 & [Ha Hb] & H1)].
  - eexists _, _. split; [by apply Hd|exact Ef].
  - exists l1, l2. split; [|done]. split; [|done]. etrans; [|exact Ha]. rewrite <- !app_assoc. by eexists.
Qed.

(** The server said, during a run, that the version is drained since [t]. *)
Definition server_says_drained (la lb : Log) (deployment buildId : string) (t : Time) : Prop :=
  exists l desc di, during la lb l /\ w_DescribeVersion l deployment buildId = inl desc /\
    vd_DrainageInfo desc = Some di /\
    di_DrainageStatus di = DrainageStatusDrained /\ di_LastChangedTime di = t.

Lemma untilDrainTime_Ok deployment b l desc l' :
  describeVersionUntilDrainTime deployment b l = (Ok desc, l') ->
  exists di, w_DescribeVersion l deployment b = inl desc /\
    vd_DrainageInfo desc = Some di /\ di_DrainageStatus di = DrainageStatusDrained.
Proof.
  unfold describeVersionUntilDrainTime. intros (d & l1 & Hd & Hk)%io_bind_Ok.
  unfold DescribeVersion, call, answer in Hd.
  destruct (w_DescribeVersion l deployment b) as [d'|]; [|discriminate].
  injection Hd as -> _. destruct (vd_DrainageInfo d) as [di|] eqn:Edi; [|discriminate].
  case_decide; [|discriminate]. injection Hk as -> _. eauto.
Qed.

(** Describing the version failed during a run, or did not confirm that it is
    drained. *)
Definition drain_unconfirmed (la lb : Log) (deployment buildId : string) : Prop :=
  exists l, during la lb l /\
    match w_DescribeVersion l deployment buildId with
    | inl desc => forall di, vd_DrainageInfo desc = Some di ->
                    di_DrainageStatus di <> DrainageStatusDrained
    | inr e => error_kind_of e <> KNotFound
    end.

(** The server did not find the version during a run. *)
Definition version_missing (la lb : Log) (deployment buildId : string) : Prop :=
  exists l e, during la lb l /\ w_DescribeVersion l deployment buildId = inr e /\
    error_kind_of e = KNotFound.

Lemma untilDrainTime_Err deployment b l e l' :
  describeVersionUntilDrainTime deployment b l = (Err e, l') ->
  match w_DescribeVersion l deployment b with
  | inl desc => error_kind_of e <> KNotFound /\
                forall di, vd_DrainageInfo desc = Some di ->
                  di_DrainageStatus di <> DrainageStatusDrained
  | inr e' => e' = e
  end.
Proof.
  unfold describeVersionUntilDrainTime. rewrite io_bind_run.
  unfold DescribeVersion, call, answer.
  destruct (w_DescribeVersion l deployment b) as [desc|e']; [|by intros [= -> _]].
  destruct (vd_DrainageInfo desc) as [di|]; [|by intros [= <- _]].
  case_decide; [done|]. intros [= <- _]. split; [done|]. by intros di' [= <-].
Qed.

(** The status the routing configuration and the summary give a version. *)
Definition status_ok (rc : RoutingConfig) (s : VersionSummary) (status : VersionStatus)
  : Prop :=
  if same_version (vs_Version s) (rc_CurrentVersion rc) then status = VersionStatusCurrent
  else if same_version (vs_Version s) (rc_RampingVersion rc)
  then status = VersionStatusRamping
  else match vs_DrainageStatus s with
       | DrainageStatusDraining => status = VersionStatusDraining
       | DrainageStatusDrained =>
           status = VersionStatusDrained \/ status = VersionStatusNotRegistered
       | DrainageStatusUnspecified => status = VersionStatusInactive
       end.

Record version_info_ok (la lb : Log) (deployment target : string) (strategy : DefaultVersionUpdateStrategy)
    (rc : RoutingConfig) (s : VersionSummary) (vi : VersionInfo) : Prop := {
  vio_id : vi_BuildID vi = wdv_BuildId (vs_Version s) /\
           vi_DeploymentName vi = wdv_DeploymentName (vs_Version s);
  vio_fresh : vi_TaskQueues vi = [] /\ vi_TestWorkflows vi = [];
  vio_status : status_ok rc s (vi_Status vi);
  vio_drained t : vi_DrainedSince vi = Some t ->
    vi_Status vi = VersionStatusDrained /\
    server_says_drained la lb deployment (wdv_BuildId (vs_Version s)) t;
  vio_unknown : vi_Status vi = VersionStatusDrained -> vi_DrainedSince vi = None ->
    drain_unconfirmed la lb deployment (wdv_BuildId (vs_Version s));
  vio_unregistered : vi_Status vi = VersionStatusNotRegistered ->
    version_missing la lb deployment (wdv_BuildId (vs_Version s));
  vio_noVersioned : vi_NoTaskQueuesHaveVersionedPoller vi = true ->
    vi_Status vi = VersionStatusDrained /\ is_Some (vi_DrainedSince vi);
  vio_allUnversioned : vi_AllTaskQueuesHaveUnversionedPoller vi = true ->
    vi_Status vi = VersionStatusInactive /\ wdv_BuildId (vs_Version s) = target /\
    rc_CurrentVersion rc = None /\ strategy = UpdateProgressive;
}.

Lemma drainedVersion_ok deployment ks h target strategy rc s l vi l' :
  same_version (vs_Version s) (rc_CurrentVersion rc) = false ->
  same_version (vs_Version s) (rc_RampingVersion rc) = false ->
  vs_DrainageStatus s = DrainageStatusDrained ->
  drainedVersion deployment ks h (vs_Version s) l = (Ok vi, l') ->
  version_info_ok l l' deployment target strategy rc s vi.
Proof.
  intros Hc Hr Hs. unfold drainedVersion. intros (r & l1 & Hb & Hk)%io_bind_Ok.
  assert (forall st, st = VersionStatusDrained \/ st = VersionStatusNotRegistered ->
            status_ok rc s st) as Hst by (intros; unfold status_ok; by rewrite Hc, Hr, Hs).
  destruct r as [odesc|e].
  - assert (l1 `prefix_of` l') as Hl1.
    { eapply extends_prefix; [|exact Hk]. unfold extends. emits_steps.
      eapply emits_extends, noTaskQueues_reads. }
    apply io_bind_Ok in Hk as (di & l2 & Hdi & Hk).
    injection Hdi as Hdi _. apply deref_Ok in Hdi.
    apply io_bind_Ok in Hk as (n & l3 & _ & Hk).
    apply io_bind_Ok in Hk as (nv & l4 & _ & [= <- _]).
    split; simpl; [done|done|by apply Hst; left| |done|done|eauto|discriminate].
    intros t [= <-]. split; [done|].
    destruct odesc as [desc|]; [|done]. unfold try in Hb.
    destruct (withBackoff _ _ _ _ l) as [[o|e|p] lb] eqn:Ew; [|discriminate..].
    injection Hb as -> ->. rewrite withBackoff_unfold in Ew.
    apply backoff_loop_Some in Ew as (l5 & [Ha Hb] & Hf);
      [|eapply emits_extends, untilDrainTime_reads].
    apply untilDrainTime_Ok in Hf as (di' & Hd & Hdi' & Hds).
    simpl in Hdi. simplify_eq. eexists l5, desc, _. split_and!; try done.
    split; [|by etrans]. etrans; [|exact Ha]. by exists [EvNow].
  - assert (exists la, during l l1 la /\
      match w_DescribeVersion la deployment (wdv_BuildId (vs_Version s)) with
      | inl desc => error_kind_of e <> KNotFound /\
                    forall di, vd_DrainageInfo desc = Some di ->
                      di_DrainageStatus di <> DrainageStatusDrained
      | inr e' => e' = e
      end) as (la & Hla & Hans).
    { unfold try in Hb. destruct (withBackoff _ _ _ _ l) as [[o|e'|p] lb] eqn:Ew;
        [discriminate| |discriminate].
      injection Hb as -> ->. rewrite withBackoff_unfold in Ew.
      apply backoff_loop_Err in Ew as [?|(l5 & l6 & [Ha Hb] & Hf)];
        [done| |eapply emits_extends, untilDrainTime_reads].
      apply untilDrainTime_Err in Hf. exists l5. split; [|done].
      split; [|done]. etrans; [|exact Ha]. by exists [EvNow]. }
    destruct (is_kind KNotFound e) eqn:Ee; injection Hk as <- <-; split; simpl; try done;
      try (apply Hst; by auto).
    + intros _. apply bool_decide_eq_true in Ee. exists la.
      destruct (w_DescribeVersion la _ _) as [desc|e'] eqn:Ed; [by destruct Hans|].
      subst e'. by exists e.
    + intros _ _. apply bool_decide_eq_false in Ee. exists la. split; [done|].
      destruct (w_DescribeVersion la _ _) as [desc|e'] eqn:Ed; [apply Hans|by subst e'].
Qed.

Lemma inactiveVersion_ok deployment target strategy rc s l vi l' :
  same_version (vs_Version s) (rc_CurrentVersion rc) = false ->
  same_version (vs_Version s) (rc_RampingVersion rc) = false ->
  vs_DrainageStatus s = DrainageStatusUnspecified ->
  inactiveVersion deployment target strategy rc (vs_Version s) l = (Ok vi, l') ->
  version_info_ok l l' deployment target strategy rc s vi.
Proof.
  intros Hc Hr Hs. unfold inactiveVersion.
  assert (status_ok rc s VersionStatusInactive) as Hst
    by (unfold status_ok; by rewrite Hc, Hr, Hs).
  destruct (bool_decide (wdv_BuildId (vs_Version s) = target)) eqn:E1,
    (rc_CurrentVersion rc) eqn:E2, (bool_decide (strategy = UpdateProgressive)) eqn:E3;
    simpl; try (intros [= <- _]; by split).
  apply bool_decide_eq_true in E1, E3.
  intros (r & l1 & _ & Hk)%io_bind_Ok. destruct r as [odesc|e].
  - apply io_bind_Ok in Hk as (all & l2 & _ & [= <- _]). by split.
  - injection Hk as <- _. by split.
Qed.

Lemma processVersion_ok deployment target strategy rc ks h i s vs l vs' l' :
  processVersion deployment target strategy rc ks h i s vs l = (Ok vs', l') ->
  exists vi, vs' = <[wdv_BuildId (vs_Version s) := vi]> vs /\
    version_info_ok l l' deployment target strategy rc s vi.
Proof.
  unfold processVersion. intros (vi & l1 & Hv & [= <- <-])%io_bind_Ok.
  exists vi. split; [done|].
  destruct (same_version (vs_Version s) (rc_CurrentVersion rc)) eqn:Ec.
  { injection Hv as <- _. split; simpl; try done. unfold status_ok. by rewrite Ec. }
  destruct (same_version (vs_Version s) (rc_RampingVersion rc)) eqn:Er.
  { injection Hv as <- _. split; simpl; try done. unfold status_ok. by rewrite Ec, Er. }
  destruct (vs_DrainageStatus s) eqn:Ed.
  - by eapply inactiveVersion_ok.
  - injection Hv as <- _. split; simpl; try done. unfold status_ok. by rewrite Ec, Er, Ed.
  - by eapply drainedVersion_ok.
Qed.

Lemma version_info_mono la lb la' lb' deployment target strategy rc s vi :
  la' `prefix_of` la -> lb `prefix_of` lb' ->
  version_info_ok la lb deployment target strategy rc s vi ->
  version_info_ok la' lb' deployment target strategy rc s vi.
Proof.
  intros Ha Hb [? ? ? Hd Hu Hm ? ?]. split; try done.
  - intros t Ht. destruct (Hd t Ht) as [? (l & desc & di & Hl & ?)]. split; [done|].
    exists l, desc, di. split; [|done]. by eapply during_mono.
  - intros H1 H2. destruct (Hu H1 H2) as (l & Hl & ?). exists l. split; [|done].
    by eapply during_mono.
  - intros H1. destruct (Hm H1) as (l & e & Hl & ?). exists l, e. split; [|done].
    by eapply during_mono.
Qed.

(** The map of versions describes exactly the summaries [sums]; what it says
    beyond them was answered between [la] and [lb]. *)
Definition versions_describe la lb deployment target strategy rc (sums : list VersionSummary)
    (vs : gmap string VersionInfo) : Prop :=
  (forall b vi, vs !! b = Some vi ->
     exists s, s ∈ sums /\ wdv_BuildId (vs_Version s) = b /\
               version_info_ok la lb deployment target strategy rc s vi) /\
  (forall s, s ∈ sums -> is_Some (vs !! wdv_BuildId (vs_Version s))).

Lemma versions_loop name target strategy rc ks h sums l vs l' :
  io_range (processVersion name target strategy rc ks h) sums ∅ l = (Ok vs, l') ->
  versions_describe l l' name target strategy rc sums vs.
Proof.
  apply (io_range_inv _ (versions_describe l l' name target strategy rc)).
  - intros i x t. eapply emits_extends, processVersion_reads.
  - intros done i s t t' la lb Hs Hla Hlb [H1 H2] (vi & -> & Hvi)%processVersion_ok. split.
    + intros b vi'. rewrite lookup_insert. case_decide as Hb.
      * intros [= <-]. exists s. split; [by apply elem_of_app; right; left |].
        split; [done|]. by eapply version_info_mono.
      * intros (s' & Hs' & ?)%H1. exists s'. split; [|done]. apply elem_of_app. by left.
    + intros s' [Hs'|Hs']%elem_of_app; rewrite lookup_insert; case_decide as Hb;
        [done | by apply H2 | done |].
      apply list_elem_of_singleton in Hs'. by subst.
  - split; [done|]. intros s Hs. by apply not_elem_of_nil in Hs.
Qed.

(** A successful query that got an answer. *)
Lemma GetWorkerDeploymentState_answered name ks h target strategy identity resp l st l' :
  w_Describe l name = inl resp ->
  GetWorkerDeploymentState name ks h target strategy identity l = (Ok st, l') ->
  exists ignore vs,
    st = mkTemporalWorkerState
           (buildIdOf (rc_CurrentVersion (wdi_RoutingConfig (dr_Info resp))))
           (dr_ConflictToken resp)
           (buildIdOf (rc_RampingVersion (wdi_RoutingConfig (dr_Info resp))))
           (rc_RampingVersionPercentage (wdi_RoutingConfig (dr_Info resp)))
           ((fun _ => rc_RampingVersionChangedTime (wdi_RoutingConfig (dr_Info resp)))
              <$> rc_RampingVersion (wdi_RoutingConfig (dr_Info resp)))
           ((fun _ => rc_RampingVersionPercentageChangedTime (wdi_RoutingConfig (dr_Info resp)))
              <$> rc_RampingVersion (wdi_RoutingConfig (dr_Info resp)))
           vs (wdi_LastModifierIdentity (dr_Info resp)) ignore /\
    versions_describe l l' name target strategy (wdi_RoutingConfig (dr_Info resp))
      (wdi_VersionSummaries (dr_Info resp)) vs.
Proof.
  intros Hd. unfold GetWorkerDeploymentState. intros (r & l1 & Hr & Hk)%io_bind_Ok.
  unfold try, Describe, call, answer in Hr. rewrite Hd in Hr. injection Hr as <- <-.
  apply io_bind_Ok in Hk as (ig & l2 & Hig & Hk).
  assert (l `prefix_of` l2) as Hl2.
  { etrans; [by exists [EvDescribe name]|]. eapply extends_prefix; [|exact Hig].
    destruct (_ && _); [eapply emits_extends, DeploymentShouldIgnore_reads|apply emits_ret]. }
  apply io_bind_Ok in Hk as (vs & l3 & Hvs & [= <- <-]).
  exists ig, vs. split; [done|]. apply versions_loop in Hvs as [H1 H2]. split; [|done].
  intros b vi Hb. destruct (H1 b vi Hb) as (s & Hs & Hsb & Hok). exists s.
  split_and!; [done|done|]. by eapply version_info_mono.
Qed.

Lemma GetWorkerDeploymentState_versions name ks h target strategy identity resp l st l' :
  w_Describe l name = inl resp ->
  GetWorkerDeploymentState name ks h target strategy identity l = (Ok st, l') ->
  versions_describe l l' name target strategy (wdi_RoutingConfig (dr_Info resp))
    (wdi_VersionSummaries (dr_Info resp)) (ts_Versions st).
Proof. intros Hd Hr. by destruct (GetWorkerDeploymentState_answered _ _ _ _ _ _ _ _ _ _ Hd Hr)
  as (ig & vs & -> & ?). Qed.

(** A successful query that got no answer. *)
Lemma GetWorkerDeploymentState_unanswered name ks h target strategy identity l st l' e :
  w_Describe l name = inr e ->
  GetWorkerDeploymentState name ks h target strategy identity l = (Ok st, l') ->
  st = emptyTemporalState /\ error_kind_of e = KNotFound.
Proof.
  intros Ed. unfold GetWorkerDeploymentState. intros (r & l1 & Hr & Hk)%io_bind_Ok.
  unfold try, Describe, call, answer in Hr. rewrite Ed in Hr. injection Hr as <- <-.
  destruct (is_kind KNotFound e) eqn:Ee; [|discriminate].
  injection Hk as <- _. split; [done|]. by apply bool_decide_eq_true in Ee.
Qed.

(** C22: A successful query either found no worker deployment (NotFound) and
    returns the empty state, or copies the routing configuration of the answer -
    the builds, the percentage and, exactly when there is a ramping version, the
    times its ramp began and last changed - with the conflict token and the last
    modifier, and has exactly one entry per build ID of the version summaries, classified
    by the routing configuration and the drainage status; a drain time in it was
    reported by the server for a version the server called drained, a missing one
    means that describing the version failed or did not confirm it, a listed
    version is unregistered only if the server did not find it, and the two
    poller facts are only claimed for drained, respectively for the inactive
    target version of a Progressive rollout without Current version.  What it
    adds to that answer was answered during the query. *)
Theorem GetWorkerDeploymentState_spec name ks h target strategy identity l st l' :
  GetWorkerDeploymentState name ks h target strategy identity l = (Ok st, l') ->
  (st = emptyTemporalState /\
   exists e, w_Describe l name = inr e /\ error_kind_of e = KNotFound) \/
  exists resp, w_Describe l name = inl resp /\
    let info := dr_Info resp in
    let rc := wdi_RoutingConfig info in
    ts_CurrentBuildID st = buildIdOf (rc_CurrentVersion rc) /\
    ts_RampingBuildID st = buildIdOf (rc_RampingVersion rc) /\
    ts_RampPercentage st = rc_RampingVersionPercentage rc /\
    ts_RampingSince st
    = ((fun _ => rc_RampingVersionChangedTime rc) <$> rc_RampingVersion rc) /\
    ts_RampLastModifiedAt st
    = ((fun _ => rc_RampingVersionPercentageChangedTime rc) <$> rc_RampingVersion rc) /\
    ts_VersionConflictToken st = dr_ConflictToken resp /\
    ts_LastModifierIdentity st = wdi_LastModifierIdentity info /\
    versions_describe l l' name target strategy rc (wdi_VersionSummaries info) (ts_Versions st).
Proof.
  intros Hrun. destruct (w_Describe l name) as [resp|e] eqn:Ed.
  - right. exists resp. split; [done|]. cbv zeta.
    by destruct (GetWorkerDeploymentState_answered _ _ _ _ _ _ _ _ _ _ Ed Hrun)
      as (ig & vs & -> & Hvs).
  - left. destruct (GetWorkerDeploymentState_unanswered _ _ _ _ _ _ _ _ _ _ Ed Hrun) as [-> He].
    eauto.
Qed.

(** ** An unknown drain time *)

Lemma backoff_loop_failing {A} fuel deadline tick (fn : io A) lastErr l r l' :
  (forall l1, exists e l2, fn l1 = (Err e, l2) /\ error_kind_of e <> KNotFound) ->
  (forall e, lastErr = Some e -> error_kind_of e <> KNotFound) ->
  backoff_loop fuel deadline tick fn lastErr l = (r, l') ->
  r = Ok None \/ (exists e, r = Err e /\ error_kind_of e <> KNotFound) \/ is_Panic r.
Proof.
  intros Hfn. revert lastErr l. induction fuel as [|fuel IH]; intros lastErr l Hlast; simpl.
  - intros [= <- _]. right. right. by eexists.
  - rewrite io_bind_run. simpl. destruct (time_Before _ _).
    + rewrite io_bind_run. unfold try.
      destruct (Hfn (l ++ [EvNow])) as (e & l2 & -> & He). rewrite io_bind_run. simpl.
      apply IH. by intros e' [= <-].
    + destruct lastErr as [e|]; intros [= <- _]; [|by left]. right. left. eauto.
Qed.

(** While describing a drained version fails, for another reason than not being
    found, the version is reported as Drained without a drain time (or, had the
    clock jumped past the deadline before the first attempt, the query panics). *)
Lemma failing_description_hides_drain_time deployment ks h v l :
  (forall l1, exists e, w_DescribeVersion l1 deployment (wdv_BuildId v) = inr e /\
                        error_kind_of e <> KNotFound) ->
  (drainedVersion deployment ks h v l).1
  = Ok (newVersionInfo v VersionStatusDrained None false false) \/
  is_Panic (drainedVersion deployment ks h v l).1.
Proof.
  intros Hd. unfold drainedVersion. rewrite io_bind_run. unfold try.
  destruct (withBackoff _ _ _ _ l) as [r l'] eqn:Ew. rewrite withBackoff_unfold in Ew.
  apply backoff_loop_failing in Ew; [| |done].
  - destruct Ew as [->|[(e & -> & He)|[p ->]]]; [right; by eexists| |right; by eexists].
    left. unfold is_kind. by rewrite bool_decide_false.
  - intros l1. destruct (Hd l1) as (e & He & Hk). exists e, (l1 ++ [EvDescribeVersion deployment (wdv_BuildId v)]).
    split; [|done]. unfold describeVersionUntilDrainTime. rewrite io_bind_run.
    unfold DescribeVersion, call. by rewrite He.
Qed.
End WithWorld.
