(* ===== verification/StateMapper.v ===== *)
(** * internal/controller/state_mapper.go and genstatus.go

    From the states of Kubernetes and Temporal to the status of the custom
    resource.  Go visits the keys of a map in an arbitrary order: the order is
    the argument [order], a function from the map to a list of its keys
    ([KeyOrder]), so every theorem holds for every order. *)

From stdpp Require Import base gmap sets list strings.
From Stdlib Require Import ZArith Lia.
From S2P Require Import Prelude GoStd Api K8s Trace World Temporal.
Local Open Scope Z_scope.

(** ** Map iteration *)

Class KeyOrder := { key_order : gmap string ptr -> list string }.

Class KeyOrderLaws (O : KeyOrder) := {
  key_order_perm m : key_order m ≡ₚ (map_to_list m).*1;
}.

#[export] Instance demoOrder : KeyOrder := {| key_order m := (map_to_list m).*1 |}.

#[export] Instance demoOrder_laws : KeyOrderLaws demoOrder.
Proof. split. done. Qed.

(** ** The mapper *)

Record stateMapper := mkStateMapper {
  sm_k8sState : DeploymentState;
  sm_temporalState : TemporalWorkerState;
  sm_workerDeploymentName : string;
}.

Definition newStateMapper (k8sState : DeploymentState) (temporalState : TemporalWorkerState)
    (workerDeploymentName : string) : stateMapper :=
  mkStateMapper k8sState temporalState workerDeploymentName.

Section Mapper.
Context (h : Store) (m : stateMapper).

(** "Set deployment reference if it exists" and "Check deployment health". *)
Definition deploymentFields (buildID : string) : outcome (option RefPtr * option Time) :=
  match Deployments (sm_k8sState m) !! buildID with
  | Some p =>
      deployment ← load h p;
      r ← IsDeploymentHealthy deployment;
      Ok (DeploymentRefs (sm_k8sState m) !! buildID, if r.1 : bool then r.2 else None)
  | None => Ok (None, None)
  end.

Definition versionOf (buildID : string) : option VersionInfo :=
  ts_Versions (sm_temporalState m) !! buildID.

(** [version.Status] and [version.TaskQueues] from the Temporal state. *)
Definition statusOf (buildID : string) : VersionStatus :=
  match versionOf buildID with
  | Some v => vi_Status v
  | None => VersionStatusNotRegistered
  end.

Definition taskQueuesOf (buildID : string) : list TaskQueue :=
  match versionOf buildID with
  | Some v => vi_TaskQueues v
  | None => []
  end.

Definition baseVersion (buildID : string) : outcome BaseWorkerDeploymentVersion :=
  fields ← deploymentFields buildID;
  Ok (mkBaseWorkerDeploymentVersion buildID (statusOf buildID) fields.2 fields.1
        (taskQueuesOf buildID) EmptyString).

Definition mapCurrentWorkerDeploymentVersionByBuildID (buildID : string)
  : outcome (option CurrentWorkerDeploymentVersion) :=
  if decide (buildID = EmptyString) then Ok None
  else
    base ← baseVersion buildID;
    Ok (Some (mkCurrentWorkerDeploymentVersion base)).

Definition mapTargetWorkerDeploymentVersionByBuildID (buildID : string)
  : outcome TargetWorkerDeploymentVersion :=
  if decide (buildID = EmptyString) then
    Ok (mkTargetWorkerDeploymentVersion
          (mkBaseWorkerDeploymentVersion buildID VersionStatusNotRegistered None None []
             EmptyString)
          [] None None None)
  else
    base ← baseVersion buildID;
    let pct := ts_RampPercentage (sm_temporalState m) in
    match versionOf buildID with
    | Some v =>
        Ok (mkTargetWorkerDeploymentVersion base (vi_TestWorkflows v)
              (if bool_decide (vi_Status v = VersionStatusRamping)
                  && float32_gtb pct float32_zero
               then Some pct else None)
              None None)
    | None => Ok (mkTargetWorkerDeploymentVersion base [] None None None)
    end.

Definition mapDeprecatedWorkerDeploymentVersionByBuildID (buildID : string)
  : outcome (option DeprecatedWorkerDeploymentVersion) :=
  if decide (buildID = EmptyString) then Ok None
  else
    let eligibleForDeletion :=
      match versionOf buildID with
      | Some vInfo =>
          bool_decide (vi_Status vInfo = VersionStatusDrained)
          && vi_NoTaskQueuesHaveVersionedPoller vInfo
      | None => false
      end in
    base ← baseVersion buildID;
    Ok (Some (mkDeprecatedWorkerDeploymentVersion base
                (versionOf buildID ≫= vi_DrainedSince) eligibleForDeletion)).

(** One iteration of the loop over the Deployments. *)
Definition deprecatedBody (currentBuildID targetBuildID : string) (_ : nat)
    (buildID : string) (acc : list DeprecatedWorkerDeploymentVersion)
  : outcome (list DeprecatedWorkerDeploymentVersion) :=
  if bool_decide (buildID = currentBuildID) || bool_decide (buildID = targetBuildID)
  then Ok acc
  else
    versionStatus ← mapDeprecatedWorkerDeploymentVersionByBuildID buildID;
    match versionStatus with
    | Some v => Ok (acc ++ [v])
    | None => Ok acc
    end.

Definition mapToStatus `{KeyOrder} (targetBuildID : string)
  : outcome TemporalWorkerDeploymentStatus :=
  let ts := sm_temporalState m in
  let currentBuildID := ts_CurrentBuildID ts in
  let rampingBuildID := ts_RampingBuildID ts in
  current ← mapCurrentWorkerDeploymentVersionByBuildID currentBuildID;
  target ← mapTargetWorkerDeploymentVersionByBuildID targetBuildID;
  let target' :=
    if decide (rampingBuildID = targetBuildID) then
      mkTargetWorkerDeploymentVersion (tgt_base target) (TestWorkflows target)
        (Some (ts_RampPercentage ts)) (ts_RampingSince ts) (ts_RampLastModifiedAt ts)
    else target in
  deprecated ← range (deprecatedBody currentBuildID targetBuildID)
                 (key_order (Deployments (sm_k8sState m))) [];
  Ok (mkTemporalWorkerDeploymentStatus target' current deprecated
        (ts_VersionConflictToken ts) (ts_LastModifierIdentity ts)
        (int32 (Z.of_nat (size (ts_Versions ts))))).
End Mapper.

(** ** generateStatus *)

Section GenerateStatus.
Context `{K8sLib} `{World} `{KeyOrder}.

(** [temporalState] is shared with the caller, which plans with it afterwards:
    the updated state is returned beside the status. *)
Definition generateStatus (h : Store) (workerDeploy : TemporalWorkerDeployment)
    (temporalState : TemporalWorkerState) (k8sState : DeploymentState)
  : io (TemporalWorkerState * TemporalWorkerDeploymentStatus) :=
  let workerDeploymentName := ComputeWorkerDeploymentName workerDeploy in
  let targetBuildID := ComputeBuildID workerDeploy in
  temporalState' ←
    (if decide (targetBuildID = ts_CurrentBuildID temporalState) then mret temporalState
     else
       out ← GetTestWorkflowStatus workerDeploymentName targetBuildID temporalState;
       (* on an error the list of workflows is nil *)
       let testWorkflows := match out.2 with inl wfs => wfs | inr _ => [] end in
       mret (match ts_Versions out.1 !! targetBuildID with
             | Some versionInfo =>
                 ts_set_Versions
                   (<[targetBuildID :=
                       vi_set_TestWorkflows (vi_TestWorkflows versionInfo ++ testWorkflows)
                         versionInfo]> (ts_Versions out.1)) out.1
             | None => out.1
             end));
  status ← lift (mapToStatus h
                   (newStateMapper k8sState temporalState' workerDeploymentName)
                   targetBuildID);
  mret (temporalState', status).
End GenerateStatus.
