(* ===== verification/StateMapperProps.v ===== *)
(** * Theorems on the state mapper

    The status is total on the states [GetDeploymentState] produces, does not
    depend on the iteration order of the map, gives every build ID exactly one
    role, and only says what the two states say. *)

From stdpp Require Import base gmap sets list strings.
From Stdlib Require Import ZArith Lia.
From S2P Require Import Prelude GoStd Api K8s K8sProps Trace World Temporal StateMapper.
Local Open Scope Z_scope.

(** ** Health *)

(** A condition [Available=True]. *)
Definition says_available (c : DeploymentCondition) : bool :=
  bool_decide (dc_Type c = DeploymentAvailable) && bool_decide (dc_Status c = ConditionTrue).

Definition available_since (d : Deployment) : option Time :=
  dc_LastTransitionTime <$> find says_available (dst_Conditions (d_Status d)).

Lemma IsDeploymentHealthy_eq d :
  IsDeploymentHealthy d = Ok (negb (is_nil (available_since d)), available_since d).
Proof.
  unfold IsDeploymentHealthy, available_since, loop. generalize 0%nat.
  induction (dst_Conditions (d_Status d)) as [|c cs IH]; intros i; simpl; [done|].
  unfold says_available. destruct (_ && _); simpl; [done | apply IH].
Qed.

Section Mapper.
Context (h : Store) (m : stateMapper).
Abbreviation ks := (sm_k8sState m).
Abbreviation ts := (sm_temporalState m).

(** The pointers of the state are valid. *)
Definition pointers_ok : Prop :=
  forall b p, Deployments ks !! b = Some p -> is_Some (h !! p).

Lemma state_wf_pointers `{K8sLib} : state_wf ks h -> pointers_ok.
Proof. intros Hwf b p Hp. destruct (wf_deployment _ _ Hwf b p Hp) as (d & Hd & _). eauto. Qed.

(** What the status says about a build ID, whatever its role. *)
Record describes (b : string) (v : BaseWorkerDeploymentVersion) : Prop := {
  dv_id : BuildID v = b;
  dv_status : ver_Status v = statusOf m b;
  dv_queues : TaskQueues v = taskQueuesOf m b;
  dv_ref : ver_Deployment v = if is_nil (Deployments ks !! b) then None else DeploymentRefs ks !! b;
  dv_healthy : HealthySince v = Deployments ks !! b ≫= (fun p => h !! p ≫= available_since);
}.

Lemma baseVersion_total b :
  pointers_ok -> exists v, baseVersion h m b = Ok v /\ describes b v.
Proof.
  intros Hp. unfold baseVersion, deploymentFields.
  destruct (Deployments ks !! b) as [p|] eqn:Eb; simpl.
  - destruct (Hp b p Eb) as [d Hd]. unfold load. rewrite Hd. simpl.
    rewrite IsDeploymentHealthy_eq. simpl. eexists. split; [reflexivity|].
    split; simpl; try done; rewrite Eb; simpl; [done|]. rewrite Hd. simpl.
    by destruct (available_since d).
  - eexists. split; [reflexivity|]. by split; simpl; try rewrite Eb.
Qed.

Definition eligible (b : string) : bool :=
  match versionOf m b with
  | Some v => bool_decide (vi_Status v = VersionStatusDrained)
              && vi_NoTaskQueuesHaveVersionedPoller v
  | None => false
  end.

Definition describes_deprecated (b : string) (v : DeprecatedWorkerDeploymentVersion) : Prop :=
  describes b v /\ DrainedSince v = (versionOf m b ≫= vi_DrainedSince) /\
  EligibleForDeletion v = eligible b.

Definition is_deprecated (cur target b : string) : Prop :=
  b <> EmptyString /\ b <> cur /\ b <> target.

#[local] Instance is_deprecated_dec cur target b : Decision (is_deprecated cur target b).
Proof. unfold is_deprecated. solve_decision. Defined.

Lemma deprecatedBody_total cur target i b acc :
  pointers_ok ->
  if decide (is_deprecated cur target b)
  then exists v, deprecatedBody h m cur target i b acc = Ok (acc ++ [v]) /\
                 describes_deprecated b v
  else deprecatedBody h m cur target i b acc = Ok acc.
Proof.
  intros Hp. unfold deprecatedBody, mapDeprecatedWorkerDeploymentVersionByBuildID, is_deprecated.
  case_decide as Hd.
  - destruct Hd as (He & Hc & Ht). rewrite !bool_decide_false by done. simpl.
    rewrite decide_False by done. destruct (baseVersion_total b Hp) as (v & -> & Hv).
    simpl. eexists. split; [reflexivity|]. by split.
  - destruct (bool_decide (b = cur)) eqn:E1; [done|].
    destruct (bool_decide (b = target)) eqn:E2; [done|]. simpl.
    apply bool_decide_eq_false in E1, E2. destruct (decide (b = EmptyString)); [done|].
    exfalso. by apply Hd.
Qed.

Lemma deprecated_loop cur target keys i acc :
  pointers_ok ->
  exists vs, range_from (deprecatedBody h m cur target) i keys acc = Ok (acc ++ vs) /\
    Forall2 describes_deprecated (filter (is_deprecated cur target) keys) vs.
Proof.
  intros Hp. revert i acc. induction keys as [|b keys IH]; intros i acc; simpl.
  - exists []. by rewrite app_nil_r.
  - pose proof (deprecatedBody_total cur target i b acc Hp) as Hb.
    rewrite filter_cons. case_decide.
    + destruct Hb as (v & -> & Hv). simpl.
      destruct (IH (Datatypes.S i) (acc ++ [v])) as (vs & -> & Hvs).
      exists (v :: vs). rewrite <- app_assoc. split; [done | by constructor].
    + rewrite Hb. simpl. apply IH.
Qed.

Lemma Forall2_describes_ids bs vs :
  Forall2 describes_deprecated bs vs -> (fun v => BuildID (dep_base v)) <$> vs = bs.
Proof. induction 1 as [|b v bs vs [Hv _] _ IH]; simpl; [done|]. f_equal; [apply Hv | done]. Qed.

(** The ramp fields of the target. *)
Definition target_ramp (target : string) (v : TargetWorkerDeploymentVersion) : Prop :=
  if decide (ts_RampingBuildID ts = target) then
    RampPercentage v = Some (ts_RampPercentage ts) /\
    RampingSince v = ts_RampingSince ts /\ RampLastModifiedAt v = ts_RampLastModifiedAt ts
  else
    RampingSince v = None /\ RampLastModifiedAt v = None /\
    RampPercentage v =
      if bool_decide (statusOf m target = VersionStatusRamping)
         && float32_gtb (ts_RampPercentage ts) float32_zero
      then Some (ts_RampPercentage ts) else None.

Record status_spec (target : string) (st : TemporalWorkerDeploymentStatus) : Prop := {
  ss_current : match CurrentVersion st with
               | Some c => ts_CurrentBuildID ts <> EmptyString /\ describes (ts_CurrentBuildID ts) c
               | None => ts_CurrentBuildID ts = EmptyString
               end;
  ss_target : target <> EmptyString -> describes target (TargetVersion st) /\
              TestWorkflows (TargetVersion st)
              = match versionOf m target with Some v => vi_TestWorkflows v | None => [] end /\
              target_ramp target (TargetVersion st);
  ss_target_id : BuildID (TargetVersion st) = target;
  ss_deprecated (v : DeprecatedWorkerDeploymentVersion) : v ∈ DeprecatedVersions st -> describes_deprecated (BuildID v) v;
  ss_deprecated_ids :
    (fun v => BuildID (dep_base v)) <$> DeprecatedVersions st
    ≡ₚ filter (is_deprecated (ts_CurrentBuildID ts) target) (map_to_list (Deployments ks)).*1;
  ss_token : VersionConflictToken st = ts_VersionConflictToken ts;
  ss_modifier : LastModifierIdentity st = ts_LastModifierIdentity ts;
}.

Lemma mapCurrent_total b :
  pointers_ok ->
  exists c, mapCurrentWorkerDeploymentVersionByBuildID h m b = Ok c /\
    match c with
    | Some v => b <> EmptyString /\ describes b v
    | None => b = EmptyString
    end.
Proof.
  intros Hp. unfold mapCurrentWorkerDeploymentVersionByBuildID. case_decide; [eauto|].
  destruct (baseVersion_total b Hp) as (v & -> & Hv). simpl. by eexists (Some _).
Qed.

Lemma mapTarget_total b :
  pointers_ok ->
  exists v, mapTargetWorkerDeploymentVersionByBuildID h m b = Ok v /\ BuildID v = b /\
    (b <> EmptyString -> describes b v /\
     TestWorkflows v = match versionOf m b with Some i => vi_TestWorkflows i | None => [] end /\
     RampingSince v = None /\ RampLastModifiedAt v = None /\
     RampPercentage v =
       if bool_decide (statusOf m b = VersionStatusRamping)
          && float32_gtb (ts_RampPercentage ts) float32_zero
       then Some (ts_RampPercentage ts) else None).
Proof.
  intros Hp. unfold mapTargetWorkerDeploymentVersionByBuildID. case_decide.
  { eexists. split; [reflexivity|]. by subst. }
  destruct (baseVersion_total b Hp) as (v & -> & Hv). simpl.
  unfold statusOf. destruct (versionOf m b) as [i|] eqn:Eb; simpl; eexists;
    (split; [reflexivity|]); (split; [apply Hv|]); by intros _.
Qed.

Lemma mapToStatus_ok `{O : KeyOrder} `{!KeyOrderLaws O} target :
  pointers_ok ->
  exists st, mapToStatus h m target = Ok st /\ status_spec target st.
Proof.
  intros Hp. unfold mapToStatus.
  destruct (mapCurrent_total (ts_CurrentBuildID ts) Hp) as (c & -> & Hc). simpl.
  destruct (mapTarget_total target Hp) as (t & -> & Ht & Htd). simpl.
  destruct (deprecated_loop (ts_CurrentBuildID ts) target (key_order (Deployments ks)) 0%nat []
              Hp) as (vs & Hr & Hvs).
  unfold range. rewrite Hr. simpl. eexists. split; [reflexivity|]. split; simpl; try done.
  - intros Hne. destruct (Htd Hne) as (Hd & Htw & Hrs & Hrl & Hrp). unfold target_ramp.
    repeat case_decide; split_and!; done.
  - destruct (decide _); done.
  - intros v (i & Hv)%list_elem_of_lookup.
    destruct (Forall2_lookup_r _ _ _ _ _ Hvs Hv) as (b & _ & Hb).
    pose proof Hb as [Hd _]. by rewrite (dv_id _ _ Hd).
  - rewrite (Forall2_describes_ids _ _ Hvs). by rewrite key_order_perm.
Qed.

(** The loop meets the builds in the given order. *)
Lemma mapToStatus_versions `{O : KeyOrder} target st :
  pointers_ok -> mapToStatus h m target = Ok st ->
  exists c t vs, mapCurrentWorkerDeploymentVersionByBuildID h m (ts_CurrentBuildID ts) = Ok c /\
    mapTargetWorkerDeploymentVersionByBuildID h m target = Ok t /\
    CurrentVersion st = c /\ DeprecatedVersions st = vs /\
    TargetVersion st
    = (if decide (ts_RampingBuildID ts = target) then
         mkTargetWorkerDeploymentVersion (tgt_base t) (TestWorkflows t)
           (Some (ts_RampPercentage ts)) (ts_RampingSince ts) (ts_RampLastModifiedAt ts)
       else t) /\
    Forall2 describes_deprecated
      (filter (is_deprecated (ts_CurrentBuildID ts) target) (key_order (Deployments ks))) vs /\
    VersionCount st = int32 (Z.of_nat (size (ts_Versions ts))).
Proof.
  intros Hp Hm. unfold mapToStatus in Hm. apply bind_Ok in Hm as (c & Hc & Hm).
  apply bind_Ok in Hm as (t & Ht & Hm). apply bind_Ok in Hm as (vs & Hvs & [= <-]).
  destruct (deprecated_loop (ts_CurrentBuildID ts) target (key_order (Deployments ks)) 0%nat []
              Hp) as (vs' & Hr & Hf).
  unfold range in Hvs. rewrite Hr in Hvs. injection Hvs as <-.
  exists c, t, vs'. by split_and!.
Qed.

(** C23: The mapping from the two states to the status is total on the states
    the controller builds, and exact: the Current version is set exactly when
    Temporal has one; the target is the requested build; the deprecated
    versions are, in some order and without repetition, the tracked builds that
    are neither; each version carries the status, task queues, drain time,
    deployment reference and availability of its own build; a version is
    eligible for deletion exactly when it is drained and no task queue of it has
    a versioned poller; and the ramp fields are those of the routing
    configuration.  Another iteration order of the map gives the same status up
    to the order of the deprecated versions. *)
Theorem mapToStatus_spec `{O : KeyOrder} `{!KeyOrderLaws O} target :
  pointers_ok ->
  exists st, mapToStatus h m target = Ok st /\ status_spec target st /\
    forall O' : KeyOrder, KeyOrderLaws O' ->
      exists st', @mapToStatus h m O' target = Ok st' /\
        CurrentVersion st' = CurrentVersion st /\ TargetVersion st' = TargetVersion st /\
        ((fun v => BuildID (dep_base v)) <$> DeprecatedVersions st')
        ≡ₚ ((fun v => BuildID (dep_base v)) <$> DeprecatedVersions st).
Proof.
  intros Hp. destruct (mapToStatus_ok target Hp) as (st & Hst & Hs).
  exists st. split; [done|]. split; [done|]. intros O' HO'.
  destruct (@mapToStatus_ok O' HO' target Hp) as (st' & Hst' & Hs'). exists st'.
  split; [done|].
  destruct (mapToStatus_versions _ _ Hp Hst) as (c & t & vs & Hc & Ht & -> & _ & -> & _).
  destruct (@mapToStatus_versions O' _ _ Hp Hst') as (c' & t' & vs' & Hc' & Ht' & -> & _ & -> & _).
  rewrite Hc in Hc'. rewrite Ht in Ht'. simplify_eq. split_and!; [done|done|].
  by rewrite (ss_deprecated_ids _ _ Hs), (ss_deprecated_ids _ _ Hs').
Qed.

(** Every tracked build has exactly one role: it occurs among the
    deprecated versions exactly when it is not the target, not the Current
    version and not empty, and then it occurs once. *)
Theorem mapToStatus_roles `{O : KeyOrder} `{!KeyOrderLaws O} target st b :
  pointers_ok -> mapToStatus h m target = Ok st -> is_Some (Deployments ks !! b) ->
  NoDup ((fun v => BuildID (dep_base v)) <$> DeprecatedVersions st) /\
  (b ∈ (fun v => BuildID (dep_base v)) <$> DeprecatedVersions st <->
   b <> EmptyString /\ b <> BuildID (TargetVersion st) /\
   (forall c, CurrentVersion st = Some c -> BuildID c <> b)).
Proof.
  intros Hp Hst [p Hb]. destruct (mapToStatus_ok target Hp) as (st' & Hst' & Hs).
  rewrite Hst in Hst'. injection Hst' as <-.
  rewrite (ss_deprecated_ids _ _ Hs). split.
  - apply NoDup_filter, NoDup_fst_map_to_list.
  - rewrite list_elem_of_filter. unfold is_deprecated. rewrite (ss_target_id _ _ Hs).
    assert (b ∈ (map_to_list (Deployments ks)).*1) as Hin.
    { apply list_elem_of_fmap. exists (b, p). split; [done|]. by apply elem_of_map_to_list. }
    pose proof (ss_current _ _ Hs) as Hc. destruct (CurrentVersion st) as [c|].
    + destruct Hc as [_ Hc]. pose proof (dv_id _ _ Hc). naive_solver.
    + rewrite Hc. naive_solver.
Qed.

End Mapper.
