(* ===== verification/Planner.v ===== *)
(** * internal/planner/planner.go

    The plan computed from the status, the spec and the two states.

    The functions that mark Deployments as out of date write through the
    pointers of the [DeploymentState]: they take and return the [Store].  The
    functions that call [time.Now] or [time.Since] are [io] programs, one clock
    reading ([EvNow]) per call.  [ScaleDeployments] is a Go map keyed by
    pointers: the model keys it by the address of the reference. *)

From stdpp Require Import base gmap sets list strings.
From Stdlib Require Import ZArith Lia.
From S2P Require Import Prelude GoStd Api K8s Trace World Temporal.
Local Open Scope Z_scope.

(** ** Data *)

Record VersionConfig := mkVersionConfig {
  vc_ConflictToken : string;
  vc_BuildID : string;
  vc_SetCurrent : bool;
  vc_RampPercentage : Z;
}.

Record WorkflowConfig := mkWorkflowConfig {
  wc_WorkflowType : string;
  wc_WorkflowID : string;
  wc_BuildID : string;
  wc_TaskQueue : string;
  wc_GateInput : string;
  wc_IsInputSecret : bool;
}.

Record Config := mkConfig { cfg_RolloutStrategy : RolloutStrategy }.

(** The map from references to replica counts: the key's address leads to the
    reference it points to and the count. *)
Abbreviation ScaleMap := (gmap nat (ObjectReference * Z)).

Record Plan := mkPlan {
  pl_DeleteDeployments : list ptr;
  pl_ScaleDeployments : ScaleMap;
  pl_UpdateDeployments : list ptr;
  pl_ShouldCreateDeployment : bool;
  pl_VersionConfig : option VersionConfig;
  pl_TestWorkflows : list WorkflowConfig;
  pl_RemoveIgnoreLastModifierBuilds : list string;
}.

(** ** Updates of Deployments in place *)

(** [Volumes[i].Secret.SecretName = name] for the first matching volume. *)
Fixpoint set_tls_secret (name : string) (vs : list Volume) : list Volume :=
  match vs with
  | [] => []
  | volume :: vs' =>
      match v_Secret volume with
      | Some secret =>
          if decide (v_Name volume = "temporal-tls")
          then v_set_Secret (Some (svs_set_SecretName name secret)) volume :: vs'
          else volume :: set_tls_secret name vs'
      | None => volume :: set_tls_secret name vs'
      end
  end.

Definition set_address_env (hostPort : string) (env : EnvVar) : EnvVar :=
  if decide (env_Name env = "TEMPORAL_ADDRESS") then env_set_Value hostPort env else env.

Definition set_address (hostPort : string) (c : Container) : Container :=
  c_set_Env (set_address_env hostPort <$> c_Env c) c.

(** Writing to the nil map of annotations panics. *)
Definition updateDeploymentWithConnection (deployment : Deployment)
    (connection : TemporalConnectionSpec) : outcome Deployment :=
  let template := d_Template deployment in
  annotations ← gm_set (pts_Annotations template) ConnectionSpecHashAnnotation
                  (ComputeConnectionSpecHash connection);
  let podSpec := pts_Spec template in
  let volumes :=
    match MutualTLSSecretRef connection with
    | Some ref => set_tls_secret (sr_Name ref) (ps_Volumes podSpec)
    | None => ps_Volumes podSpec
    end in
  let podSpec' :=
    ps_set_Containers (set_address (HostPort connection) <$> ps_Containers podSpec)
      (ps_set_Volumes volumes podSpec) in
  Ok (d_set_Template (pts_set_Spec podSpec' (pts_set_Annotations annotations template))
        deployment).

Definition checkAndUpdateDeploymentConnectionSpec (buildID : string)
    (k8sState : DeploymentState) (connection : TemporalConnectionSpec) (h : Store)
  : outcome (option ptr * Store) :=
  match Deployments k8sState !! buildID with
  | None => Ok (None, h)
  | Some p =>
      existingDeployment ← load h p;
      let currentHash := ComputeConnectionSpecHash connection in
      if decide (currentHash = gm_get (pts_Annotations (d_Template existingDeployment))
                                 ConnectionSpecHashAnnotation)
      then Ok (None, h)
      else
        d' ← updateDeploymentWithConnection existingDeployment connection;
        Ok (Some p, <[p := d']> h)
  end.

(** The value of the last container scanned: the first non-empty one. *)
Definition env_deployment_name (env : list EnvVar) : option string :=
  env_Value <$> find (fun e => bool_decide (env_Name e = "TEMPORAL_DEPLOYMENT_NAME")) env.

Fixpoint findWorkerDeploymentName (acc : string) (cs : list Container) : string :=
  match cs with
  | [] => acc
  | container :: cs' =>
      let name := default acc (env_deployment_name (c_Env container)) in
      if decide (name = EmptyString) then findWorkerDeploymentName name cs' else name
  end.

Section WithLib.
Context `{K8sLib}.

Definition updateDeploymentWithPodTemplateSpec (deployment : Deployment)
    (spec : TemporalWorkerDeploymentSpec) (connection : TemporalConnectionSpec)
  : outcome Deployment :=
  let buildID := gm_get (om_Labels (d_ObjectMeta deployment)) BuildIDLabel in
  let workerDeploymentName :=
    findWorkerDeploymentName EmptyString
      (ps_Containers (pts_Spec (d_Template deployment))) in
  let podSpec :=
    ApplyControllerPodSpecModifications (pts_Spec (spec_Template spec)) connection
      (TemporalNamespace (spec_WorkerOptions spec)) workerDeploymentName buildID in
  let podAnnotations := podAnnotationsFor (spec_Template spec) connection in
  selector ← deref (ds_Selector (d_Spec deployment));
  let podLabels :=
    copy_into (gm_entries selector)
      (copy_into (gm_entries (pts_Labels (spec_Template spec))) ∅) in
  let template' :=
    pts_set_Spec podSpec
      (pts_set_Annotations (Some podAnnotations)
         (pts_set_Labels (Some podLabels) (d_Template deployment))) in
  Ok (d_set_Spec
        (ds_set_MinReadySeconds (spec_MinReadySeconds spec)
           (ds_set_Replicas (spec_Replicas spec)
              (ds_set_Template template' (d_Spec deployment)))) deployment).

Definition checkAndUpdateDeploymentPodTemplateSpec (buildID : string)
    (k8sState : DeploymentState) (spec : TemporalWorkerDeploymentSpec)
    (connection : TemporalConnectionSpec) (h : Store) : outcome (option ptr * Store) :=
  match Deployments k8sState !! buildID with
  | None => Ok (None, h)
  | Some p =>
      existingDeployment ← load h p;
      if decide (UnsafeCustomBuildID (spec_WorkerOptions spec) = EmptyString)
      then Ok (None, h)
      else
        let storedHash :=
          gm_get (pts_Annotations (d_Template existingDeployment))
            PodTemplateSpecHashAnnotation in
        if decide (storedHash = EmptyString) then Ok (None, h)
        else
          let currentHash := ComputePodTemplateSpecHash (spec_Template spec) in
          if decide (storedHash = currentHash) then Ok (None, h)
          else
            d' ← updateDeploymentWithPodTemplateSpec existingDeployment spec connection;
            Ok (Some p, <[p := d']> h)
  end.

(** The state of [getUpdateDeployments]: the slice to return, the set of build
    IDs already updated, and the store. *)
Record UpdateState := mkUpdateState {
  us_updateDeployments : list ptr;
  us_updatedBuildIDs : gset string;
  us_store : Store;
}.

(** [if deployment := check(...); deployment != nil { append; mark }] *)
Definition runCheck (check : Store -> outcome (option ptr * Store)) (buildID : string)
    (st : UpdateState) : outcome UpdateState :=
  r ← check (us_store st);
  Ok (match r.1 with
      | Some deployment =>
          mkUpdateState (us_updateDeployments st ++ [deployment])
            ({[buildID]} ∪ us_updatedBuildIDs st) r.2
      | None => mkUpdateState (us_updateDeployments st) (us_updatedBuildIDs st) r.2
      end).

(** A connection check of a version not updated yet. *)
Definition connectionCheck (k8sState : DeploymentState)
    (connection : TemporalConnectionSpec) (buildID : string) (st : UpdateState)
  : outcome UpdateState :=
  if decide (buildID ∈ us_updatedBuildIDs st) then Ok st
  else runCheck (checkAndUpdateDeploymentConnectionSpec buildID k8sState connection)
         buildID st.

Definition getUpdateDeployments (k8sState : DeploymentState)
    (status : TemporalWorkerDeploymentStatus) (spec : TemporalWorkerDeploymentSpec)
    (connection : TemporalConnectionSpec) (h : Store) : outcome (list ptr * Store) :=
  let target := BuildID (TargetVersion status) in
  let st0 := mkUpdateState [] ∅ h in
  st1 ← (if decide (target = EmptyString) then Ok st0
         else runCheck (checkAndUpdateDeploymentPodTemplateSpec target k8sState spec connection)
                target st0);
  st2 ← (if decide (target = EmptyString) then Ok st1
         else connectionCheck k8sState connection target st1);
  st3 ← match CurrentVersion status with
        | Some current =>
            if decide (BuildID current = EmptyString) then Ok st2
            else connectionCheck k8sState connection (BuildID current) st2
        | None => Ok st2
        end;
  st4 ← range (fun _ version => connectionCheck k8sState connection (BuildID version))
          (dep_base <$> DeprecatedVersions status) st3;
  Ok (us_updateDeployments st4, us_store st4).
End WithLib.

(** ** Deletion and scaling *)

Section WithWorld.
Context `{World}.

(** [time.Since(t)] *)
Definition time_since (t : Time) : io Duration :=
  now ← time_Now;
  mret (time_Since now t).

Section Sunset.
Context (k8sState : DeploymentState) (h : Store)
  (status : TemporalWorkerDeploymentStatus) (spec : TemporalWorkerDeploymentSpec).

Definition deleteBody (foundDeploymentInTemporal : bool) (_ : nat)
    (version : DeprecatedWorkerDeploymentVersion) (deleteDeployments : list ptr)
  : io (list ptr) :=
  if is_nil (ver_Deployment version) then mret deleteDeployments
  else
    match Deployments k8sState !! BuildID version with
    | None => mret deleteDeployments
    | Some p =>
        match ver_Status version with
        | VersionStatusDrained =>
            drainedSince ← lift (deref (DrainedSince version));
            since ← time_since drainedSince;
            deleteDelay ← lift (deref (DeleteDelay (spec_SunsetStrategy spec)));
            scaledownDelay ← lift (deref (ScaledownDelay (spec_SunsetStrategy spec)));
            if since >? duration_add deleteDelay scaledownDelay then
              d ← lift (load h p);
              replicas ← lift (deref (ds_Replicas (d_Spec d)));
              mret (if replicas =? 0 then deleteDeployments ++ [p] else deleteDeployments)
            else mret deleteDeployments
        | VersionStatusNotRegistered =>
            mret (if foundDeploymentInTemporal
                     && negb (bool_decide (BuildID (TargetVersion status) = BuildID version))
                  then deleteDeployments ++ [p] else deleteDeployments)
        | _ => mret deleteDeployments
        end
    end.

Definition getDeleteDeployments (foundDeploymentInTemporal : bool) : io (list ptr) :=
  io_range (deleteBody foundDeploymentInTemporal) (DeprecatedVersions status) [].

(** [scaleDeployments[ref] = n] *)
Definition set_scale (ref : RefPtr) (n : Z) (m : ScaleMap) : ScaleMap :=
  <[rp_addr ref := (rp_ref ref, n)]> m.

(** [d.Spec.Replicas != nil && *d.Spec.Replicas != n] *)
Definition replicas_differ (d : Deployment) (n : Z) : bool :=
  match ds_Replicas (d_Spec d) with
  | Some r => negb (r =? n)
  | None => false
  end.

Definition scaleBody (replicas : Z) (_ : nat) (version : DeprecatedWorkerDeploymentVersion)
    (scaleDeployments : ScaleMap) : io ScaleMap :=
  match ver_Deployment version with
  | None => mret scaleDeployments
  | Some ref =>
      match Deployments k8sState !! BuildID version with
      | None => mret scaleDeployments
      | Some p =>
          d ← lift (load h p);
          match ver_Status version with
          | VersionStatusInactive =>
              mret (if decide (BuildID (TargetVersion status) = BuildID version) then
                      if replicas_differ d replicas
                      then set_scale ref (uint32 replicas) scaleDeployments
                      else scaleDeployments
                    else if replicas_differ d 0 then set_scale ref 0 scaleDeployments
                    else scaleDeployments)
          | VersionStatusRamping | VersionStatusCurrent =>
              mret (if replicas_differ d replicas
                    then set_scale ref (uint32 replicas) scaleDeployments
                    else scaleDeployments)
          | VersionStatusDrained =>
              drainedSince ← lift (deref (DrainedSince version));
              since ← time_since drainedSince;
              scaledownDelay ← lift (deref (ScaledownDelay (spec_SunsetStrategy spec)));
              mret (if (since >? scaledownDelay) && replicas_differ d 0
                    then set_scale ref 0 scaleDeployments
                    else scaleDeployments)
          | _ => mret scaleDeployments
          end
      end
  end.

(** "Scale the current version if needed". *)
Definition scaleCurrent (replicas : Z) (m : ScaleMap) : outcome ScaleMap :=
  match CurrentVersion status with
  | Some current =>
      match ver_Deployment current, Deployments k8sState !! BuildID current with
      | Some ref, Some p =>
          d ← load h p;
          Ok (if replicas_differ d replicas then set_scale ref (uint32 replicas) m else m)
      | _, _ => Ok m
      end
  | None => Ok m
  end.

(** [status.CurrentVersion == nil || CurrentVersion.BuildID != Target.BuildID] *)
Definition target_not_current : bool :=
  match CurrentVersion status with
  | Some current =>
      negb (bool_decide (BuildID current = BuildID (TargetVersion status)))
  | None => true
  end.

(** "Scale the target version if it exists, and isn't current": here a nil
    [Replicas] counts as different. *)
Definition scaleTarget (replicas : Z) (m : ScaleMap) : outcome ScaleMap :=
  match ver_Deployment (TargetVersion status),
        Deployments k8sState !! BuildID (TargetVersion status) with
  | Some ref, Some p =>
      if target_not_current then
        d ← load h p;
        Ok (if is_nil (ds_Replicas (d_Spec d)) || replicas_differ d replicas
            then set_scale ref (uint32 replicas) m else m)
      else Ok m
  | _, _ => Ok m
  end.

Definition getScaleDeployments : io ScaleMap :=
  replicas ← lift (deref (spec_Replicas spec));
  m1 ← lift (scaleCurrent replicas ∅);
  m2 ← lift (scaleTarget replicas m1);
  io_range (scaleBody replicas) (DeprecatedVersions status) m2.
End Sunset.

(** ** Creation *)

Definition countIneligible (_ : nat) (v : DeprecatedWorkerDeploymentVersion) (count : Z)
  : outcome Z :=
  Ok (if EligibleForDeletion v then count else int32 (count + 1)).

Definition shouldCreateDeployment (status : TemporalWorkerDeploymentStatus)
    (maxVersionsIneligibleForDeletion : Z) : outcome bool :=
  if negb (is_nil (ver_Deployment (TargetVersion status))) then Ok false
  else
    versionCountIneligibleForDeletion ←
      range countIneligible (DeprecatedVersions status) 0;
    Ok (negb (versionCountIneligibleForDeletion >=? maxVersionsIneligibleForDeletion)).

(** ** Test workflows *)

(** [status.CurrentVersion != nil && CurrentVersion.BuildID == Target.BuildID] *)
Definition target_is_current (status : TemporalWorkerDeploymentStatus) : bool :=
  match CurrentVersion status with
  | Some current => bool_decide (BuildID current = BuildID (TargetVersion status))
  | None => false
  end.

Definition getTestWorkflows (status : TemporalWorkerDeploymentStatus) (config : Config)
    (workerDeploymentName : string) (gateInput : string) (isGateInputSecret : bool)
  : list WorkflowConfig :=
  let targetVersion := TargetVersion status in
  match rs_Gate (cfg_RolloutStrategy config) with
  | None => []
  | Some gate =>
      if target_is_current status
         || bool_decide (ver_Status targetVersion = VersionStatusNotRegistered)
      then []
      else
        let taskQueuesWithWorkflows : gset string :=
          list_to_set (wf_TaskQueue <$> TestWorkflows targetVersion) in
        let testWorkflow tq :=
          mkWorkflowConfig (gate_WorkflowType gate)
            (GetTestWorkflowID workerDeploymentName (BuildID targetVersion) (tq_Name tq))
            (BuildID targetVersion) (tq_Name tq) gateInput isGateInputSecret in
        testWorkflow <$>
          filter (fun tq => tq_Name tq ∉ taskQueuesWithWorkflows) (TaskQueues targetVersion)
  end.

(** ** Version configuration *)

(** The loop breaks at the first step whose percentage is above the target's. *)
Fixpoint currentStepFrom (i : nat) (steps : list RolloutStep) (pct : float32)
    (result : nat) : nat :=
  match steps with
  | [] => result
  | s :: steps' =>
      if float32_gtb (float32_of_Z (step_RampPercentage s)) pct then result
      else currentStepFrom (S i) steps' pct i
  end.

Definition getCurrentStepIndex (steps : list RolloutStep)
    (targetRampPercentage : option float32) : nat :=
  match targetRampPercentage with
  | None => 0%nat
  | Some pct => currentStepFrom 0 steps pct 0
  end.

Definition vc_set_RampPercentage (p : Z) (v : VersionConfig) : VersionConfig :=
  mkVersionConfig (vc_ConflictToken v) (vc_BuildID v) (vc_SetCurrent v) p.
Definition vc_set_SetCurrent (b : bool) (v : VersionConfig) : VersionConfig :=
  mkVersionConfig (vc_ConflictToken v) (vc_BuildID v) b (vc_RampPercentage v).

Definition handleProgressiveRollout (steps : list RolloutStep) (currentTime : Time)
    (rampLastModifiedAt : option Time) (targetRampPercentage : option float32)
    (vcfg : VersionConfig) : outcome (option VersionConfig) :=
  if (length steps =? 0)%nat then Ok None
  else
    let i := getCurrentStepIndex steps targetRampPercentage in
    currentStep ← index steps i;
    let ramp s := Some (vc_set_RampPercentage (int32 (step_RampPercentage s)) vcfg) in
    match targetRampPercentage with
    | None => Ok (ramp currentStep)
    | Some pct =>
        if negb (float32_eqb pct (float32_of_Z (step_RampPercentage currentStep)))
        then Ok (ramp currentStep)
        else
          match rampLastModifiedAt with
          | None => Ok None
          | Some modified =>
              if time_Before (time_Add modified (step_PauseDuration currentStep)) currentTime
              then
                if (i <? length steps - 1)%nat
                then next ← index steps (S i); Ok (ramp next)
                else Ok (Some (vc_set_SetCurrent true vcfg))
              else Ok None
          end
    end.

(** "Do nothing if the test workflows have not completed successfully". *)
Definition gate_passed (status : TemporalWorkerDeploymentStatus) (strategy : RolloutStrategy)
  : bool :=
  let target := TargetVersion status in
  match rs_Gate strategy with
  | None => true
  | Some _ =>
      negb (length (TaskQueues target) =? 0)%nat
      && negb (length (TestWorkflows target) <? length (TaskQueues target))%nat
      && forallb (fun wf => bool_decide (wf_Status wf = WorkflowExecutionStatusCompleted))
           (TestWorkflows target)
  end.

(** [temporalState.Versions[id].AllTaskQueuesHaveUnversionedPoller]: an absent
    build ID gives a nil [*VersionInfo]. *)
Definition targetHasUnversionedPollers (temporalState : option TemporalWorkerState)
    (buildID : string) : outcome bool :=
  ts ← deref temporalState;
  info ← deref (ts_Versions ts !! buildID);
  Ok (vi_AllTaskQueuesHaveUnversionedPoller info).

Definition getVersionConfigDiff (status : TemporalWorkerDeploymentStatus)
    (temporalState : option TemporalWorkerState) (config : Config)
  : io (option VersionConfig) :=
  let strategy := cfg_RolloutStrategy config in
  let target := TargetVersion status in
  if decide (rs_Strategy strategy = UpdateManual) then mret None
  else if is_nil (HealthySince target)
          || bool_decide (ver_Status target = VersionStatusNotRegistered)
  then mret None
  else if negb (gate_passed status strategy) then mret None
  else
    let vcfg := mkVersionConfig (VersionConflictToken status) (BuildID target) false 0 in
    promote ←
      (if is_nil (CurrentVersion status)
          && bool_decide (ver_Status target = VersionStatusInactive)
       then
         unversioned ← lift (targetHasUnversionedPollers temporalState (BuildID target));
         mret (negb unversioned)
       else mret false);
    if promote : bool then mret (Some (vc_set_SetCurrent true vcfg))
    else if target_is_current status then
      ts ← lift (deref temporalState);
      mret (if decide (ts_RampingBuildID ts = EmptyString) then None
            else Some (mkVersionConfig (VersionConflictToken status) EmptyString false 0))
    else
      match rs_Strategy strategy with
      | UpdateAllAtOnce => mret (Some (vc_set_SetCurrent true vcfg))
      | UpdateProgressive =>
          now ← time_Now;
          lift (handleProgressiveRollout (rs_Steps strategy) now (RampLastModifiedAt target)
                  (RampPercentage target) vcfg)
      | _ => mret None
      end.

(** ** The plan *)

Definition removeIgnoreBuilds (temporalState : option TemporalWorkerState)
    (vcfg : option VersionConfig) : list string :=
  match temporalState, vcfg with
  | Some ts, Some _ =>
      if ts_IgnoreLastModifier ts then
        (if decide (ts_RampingBuildID ts = EmptyString) then [] else [ts_RampingBuildID ts])
        ++ (if decide (ts_CurrentBuildID ts = EmptyString) then [] else [ts_CurrentBuildID ts])
      else []
  | _, _ => []
  end.

(** The plan and the store its pointers lead into, updates applied. *)
Definition GeneratePlan `{K8sLib} (k8sState : DeploymentState) (h : Store)
    (status : TemporalWorkerDeploymentStatus) (spec : TemporalWorkerDeploymentSpec)
    (temporalState : option TemporalWorkerState) (connection : TemporalConnectionSpec)
    (config : Config) (workerDeploymentName : string)
    (maxVersionsIneligibleForDeletion : Z) (gateInput : string) (isGateInputSecret : bool)
  : io (Plan * Store) :=
  let foundDeploymentInTemporal :=
    match temporalState with
    | Some ts => bool_decide (0 < size (ts_Versions ts))%nat
    | None => false
    end in
  deletes ← getDeleteDeployments k8sState h status spec foundDeploymentInTemporal;
  scales ← getScaleDeployments k8sState h status spec;
  create ← lift (shouldCreateDeployment status maxVersionsIneligibleForDeletion);
  updates ← lift (getUpdateDeployments k8sState status spec connection h);
  let testWorkflows :=
    getTestWorkflows status config workerDeploymentName gateInput isGateInputSecret in
  vcfg ← getVersionConfigDiff status temporalState config;
  mret (mkPlan deletes scales updates.1 create vcfg testWorkflows
          (removeIgnoreBuilds temporalState vcfg), updates.2).
End WithWorld.

(** ** Gate input *)

Definition validateGateInputConfig (gate : option GateWorkflowConfig) : outcome unit :=
  match gate with
  | None => Ok tt
  | Some g =>
      if negb (is_nil (gate_Input g)) && negb (is_nil (gate_InputFrom g)) then
        Err (errors_New
               "both spec.rollout.gate.input and spec.rollout.gate.inputFrom are set")
      else
        match gate_InputFrom g with
        | None => Ok tt
        | Some from =>
            let cmSet := negb (is_nil (ConfigMapKeyRef from)) in
            let secSet := negb (is_nil (SecretKeyRef from)) in
            if (cmSet && secSet) || (negb cmSet && negb secSet) then
              Err (errors_New "spec.rollout.gate.inputFrom must set exactly one of configMapKeyRef or secretKeyRef")
            else Ok tt
        end
  end.

(** Byte slices are strings; a nil result is the empty string. *)
Definition ResolveGateInput (gate : option GateWorkflowConfig) (namespace : string)
    (configMapData configMapBinaryData secretData : gomap string)
  : outcome (string * bool) :=
  match gate with
  | None => Ok (EmptyString, false)
  | Some g =>
      _ ← validateGateInputConfig (Some g);
      match gate_Input g, gate_InputFrom g with
      | Some raw, _ => Ok (raw, false)
      | None, None => Ok (EmptyString, false)
      | None, Some from =>
          match ConfigMapKeyRef from, SecretKeyRef from with
          | Some cmRef, _ =>
              match gm_lookup configMapData (ks_Key cmRef),
                    gm_lookup configMapBinaryData (ks_Key cmRef) with
              | Some val, _ => Ok (val, false)
              | None, Some bval => Ok (bval, false)
              | None, None =>
                  Err (Errorf "key %q not found in ConfigMap %s/%s"
                         [ks_Key cmRef; namespace; ks_Name cmRef])
              end
          | None, Some secRef =>
              match gm_lookup secretData (ks_Key secRef) with
              | Some bval => Ok (bval, true)
              | None =>
                  Err (Errorf "key %q not found in Secret %s/%s"
                         [ks_Key secRef; namespace; ks_Name secRef])
              end
          | None, None => Ok (EmptyString, false)
          end
      end
  end.
