(* ===== verification/SunsetProps.v ===== *)
(** * Theorems on the planner: deletion, scaling, creation

    Which Deployments [getDeleteDeployments] and [getScaleDeployments] choose,
    when [shouldCreateDeployment] allows a new one, and that nothing alive is
    deleted or scaled to zero. *)

From stdpp Require Import base gmap sets list strings.
From Stdlib Require Import ZArith Lia.
From S2P Require Import Prelude GoStd Api K8s K8sProps Trace World Temporal Planner.
Local Open Scope Z_scope.

Lemma time_Since_mono now now' t : now <= now' -> time_Since now t <= time_Since now' t.
Proof. intros. unfold time_Since, time_Sub, minDuration, maxDuration. lia. Qed.

Lemma gtb_lt a b : (a >? b) = true <-> b < a.
Proof. rewrite Z.gtb_lt. done. Qed.

Definition replicas_at (h : Store) (p : ptr) : option Z :=
  d ← h !! p; ds_Replicas (d_Spec d).

(** The versions a status speaks about. *)
Definition status_versions (st : TemporalWorkerDeploymentStatus)
  : list BaseWorkerDeploymentVersion :=
  (TargetVersion st : BaseWorkerDeploymentVersion) ::
  match CurrentVersion st with Some c => [c : BaseWorkerDeploymentVersion] | None => [] end ++
  (dep_base <$> DeprecatedVersions st).

(** Only one build's entries point to the same object reference. *)
Definition refs_unshared (st : TemporalWorkerDeploymentStatus) : Prop :=
  forall v v' ref ref', v ∈ status_versions st -> v' ∈ status_versions st ->
    ver_Deployment v = Some ref -> ver_Deployment v' = Some ref' ->
    rp_addr ref = rp_addr ref' -> BuildID v = BuildID v' /\ ref = ref'.

Section WithWorld.
Context `{W : World}.

Section Sunset.
Context (ks : DeploymentState) (h : Store)
  (status : TemporalWorkerDeploymentStatus) (spec : TemporalWorkerDeploymentSpec).

(** ** Deletion *)

(** The sunset delays are over at [now]. *)
Definition drained_longer_than (v : DeprecatedWorkerDeploymentVersion) (now : Time)
    (d : Duration) : Prop :=
  exists t, DrainedSince v = Some t /\ d < time_Since now t.

(** [d] is the sum of the two delays as the code computes it. *)
Definition deleteDelaySum (d : Duration) : Prop :=
  exists dd sd, DeleteDelay (spec_SunsetStrategy spec) = Some dd /\
    ScaledownDelay (spec_SunsetStrategy spec) = Some sd /\ d = duration_add dd sd.

Definition may_delete (found : bool) (v : DeprecatedWorkerDeploymentVersion) (now : Time)
    (p : ptr) : Prop :=
  is_Some (ver_Deployment v) /\ Deployments ks !! BuildID v = Some p /\
  ((ver_Status v = VersionStatusDrained /\ replicas_at h p = Some 0 /\
    exists d, deleteDelaySum d /\ drained_longer_than v now d) \/
   (ver_Status v = VersionStatusNotRegistered /\ found = true /\
    BuildID (TargetVersion status) <> BuildID v)).

Lemma may_delete_mono found v now now' p :
  now <= now' -> may_delete found v now p -> may_delete found v now' p.
Proof.
  intros Hle (Hd & Hp & [(Hs & Hr & d & Hsum & t & Ht & Hlt)|Hn]); split_and!; try done; [|by right].
  left. split_and!; try done. exists d. split; [done|]. exists t. split; [done|].
  pose proof (time_Since_mono now now' t Hle). lia.
Qed.

(** The iteration on [v] appends [p] or nothing. *)
Definition delete_events (v : DeprecatedWorkerDeploymentVersion) : Log :=
  if is_nil (ver_Deployment v) || is_nil (Deployments ks !! BuildID v) then []
  else if decide (ver_Status v = VersionStatusDrained) then [EvNow] else [].

#[local] Instance may_delete_dec found v now p : Decision (may_delete found v now p).
Proof.
  unfold may_delete, deleteDelaySum, drained_longer_than.
  destruct (ver_Deployment v); [|right; by intros ([? [=]] & _)].
  destruct (decide (Deployments ks !! BuildID v = Some p)); [|right; naive_solver].
  destruct (decide (ver_Status v = VersionStatusNotRegistered /\ found = true /\
                    BuildID (TargetVersion status) <> BuildID v)); [left; eauto|].
  destruct (decide (ver_Status v = VersionStatusDrained)); [|right; naive_solver].
  destruct (decide (replicas_at h p = Some 0)); [|right; naive_solver].
  destruct (DrainedSince v) as [t|], (DeleteDelay (spec_SunsetStrategy spec)) as [dd|],
    (ScaledownDelay (spec_SunsetStrategy spec)) as [sd|]; try (right; naive_solver).
  destruct (decide (duration_add dd sd < time_Since now t)); [left|right; naive_solver].
  split; [done|]. split; [done|]. left. naive_solver.
Defined.

Definition delete_choice (found : bool) (vl : DeprecatedWorkerDeploymentVersion * Log)
  : list ptr :=
  match Deployments ks !! BuildID vl.1 with
  | Some p => if decide (may_delete found vl.1 (w_Now vl.2) p) then [p] else []
  | None => []
  end.

Definition delete_step (found : bool) (v : DeprecatedWorkerDeploymentVersion) (l : Log)
    (acc : list ptr) : list ptr :=
  acc ++ delete_choice found (v, l).

Lemma deleteBody_run found i v acc l acc' l' :
  deleteBody ks h status spec found i v acc l = (Ok acc', l') ->
  acc' = delete_step found v l acc /\ l' = l ++ delete_events v.
Proof.
  unfold deleteBody, delete_step, delete_choice, delete_events. simpl.
  destruct (ver_Deployment v) as [ref|] eqn:Eref; simpl.
  2: { intros [= <- <-]. rewrite app_nil_r. split; [|done].
       destruct (Deployments ks !! BuildID v); [|by rewrite app_nil_r].
       rewrite decide_False; [by rewrite app_nil_r|]. unfold may_delete. rewrite Eref.
       by intros [[? [=]] _]. }
  destruct (Deployments ks !! BuildID v) as [p|] eqn:Ep; simpl.
  2: { intros [= <- <-]. by rewrite !app_nil_r. }
  destruct (ver_Status v) eqn:Es.
  2-5,7: intros [= <- <-]; rewrite app_nil_r; (rewrite decide_False; [by rewrite app_nil_r|]);
    intros (_ & _ & [(? & _)|(? & _)]); congruence.
  - intros [= <- <-]. rewrite app_nil_r. split; [|done].
    destruct found; simpl.
    + case_bool_decide as Ht; simpl.
      * rewrite decide_False; [by rewrite app_nil_r|].
        intros (_ & _ & [(? & _)|(_ & _ & ?)]); congruence.
      * rewrite decide_True; [done|]. split; [by rewrite Eref|]. split; [done|]. by right.
    + rewrite decide_False; [by rewrite app_nil_r|].
      intros (_ & _ & [(? & _)|(_ & ? & _)]); congruence.
  - intros (t & l1 & Ht & Hk)%io_bind_Ok. injection Ht as Ht <-. apply deref_Ok in Ht.
    apply io_bind_Ok in Hk as (since & l2 & Hs & Hk). injection Hs as <- <-.
    apply io_bind_Ok in Hk as (dd & l3 & Hdd & Hk). injection Hdd as Hdd <-.
    apply deref_Ok in Hdd.
    apply io_bind_Ok in Hk as (sd & l4 & Hsd & Hk). injection Hsd as Hsd <-.
    apply deref_Ok in Hsd.
    destruct (time_Since (w_Now l) t >? duration_add dd sd) eqn:Eg.
    + apply io_bind_Ok in Hk as (d & l5 & Hd & Hk). injection Hd as Hd <-.
      apply io_bind_Ok in Hk as (r & l6 & Hr & Hk). injection Hr as Hr <-.
      apply deref_Ok in Hd, Hr. injection Hk as <- <-. split; [|done].
      apply gtb_lt in Eg. destruct (Z.eqb_spec r 0) as [->|Hne].
      * rewrite decide_True; [done|]. split; [by rewrite Eref|]. split; [done|]. left.
        split; [done|]. split; [unfold replicas_at; by rewrite Hd|].
        exists (duration_add dd sd). split; [by exists dd, sd|]. by exists t.
      * rewrite decide_False; [by rewrite app_nil_r|].
        intros (_ & _ & [(_ & Hz & _)|(? & _)]); [|congruence].
        unfold replicas_at in Hz. rewrite Hd in Hz. simpl in Hz. congruence.
    + injection Hk as <- <-. split; [|done].
      rewrite decide_False; [by rewrite app_nil_r|].
      intros (_ & _ & [(_ & _ & d & (dd' & sd' & ? & ? & ->) & t' & ? & Hlt)|(? & _)]);
        [|congruence]. simplify_eq. apply gtb_lt in Hlt. congruence.
Qed.

Lemma getDeleteDeployments_run found l dels l' :
  getDeleteDeployments ks h status spec found l = (Ok dels, l') ->
  l' = l ++ concat (delete_events <$> DeprecatedVersions status) /\
  forall p, p ∈ dels <-> exists v lv,
    (v, lv) ∈ visited delete_events l (DeprecatedVersions status) /\
    may_delete found v (w_Now lv) p.
Proof.
  intros Hr. apply (io_range_visited _ delete_events (delete_step found)) in Hr as [-> ->].
  2: { intros i v acc l1 acc' l2 _. apply deleteBody_run. }
  split; [done|]. intros p. unfold delete_step.
  rewrite (foldl_append_ext (delete_choice found)) by (by intros t [v lv]). simpl.
  rewrite list_elem_of_In, in_concat. split.
  - intros (ps & Hps & Hin). apply list_elem_of_In in Hps, Hin.
    apply list_elem_of_fmap in Hps as ([v lv] & -> & Hv). unfold delete_choice in Hin. simpl in Hin.
    destruct (Deployments ks !! BuildID v) as [q|]; [|by apply not_elem_of_nil in Hin].
    destruct (decide _); [|by apply not_elem_of_nil in Hin].
    apply list_elem_of_singleton in Hin as ->. eauto.
  - intros (v & lv & Hv & Hm). eexists [p]. split; [|by left].
    apply list_elem_of_In, list_elem_of_fmap. exists (v, lv). split; [|done]. unfold delete_choice. simpl.
    pose proof Hm as (_ & -> & _). by rewrite decide_True.
Qed.

Lemma getDeleteDeployments_complete `{!WorldClock W} found l dels l' p v :
  getDeleteDeployments ks h status spec found l = (Ok dels, l') ->
  v ∈ DeprecatedVersions status -> may_delete found v (w_Now l) p -> p ∈ dels.
Proof.
  intros [_ Hin]%getDeleteDeployments_run Hv Hm. apply Hin.
  destruct (elem_of_visited delete_events l _ v Hv) as [lv Hlv].
  exists v, lv. split; [done|]. eapply may_delete_mono, Hm.
  apply visited_elem in Hlv as (_ & l1 & l2 & -> & _). apply clock_mono.
Qed.

(** C16: Deletion is sound and complete: a Deployment chosen for deletion is the
    tracked Deployment of a deprecated version that has a reference and is
    either drained for longer than [deleteDelay + scaledownDelay] by the end of
    the run and scaled to zero, or not registered although Temporal knows the
    worker deployment, and not the target; and every Deployment for which that
    holds when the run starts is chosen. *)
Theorem getDeleteDeployments_spec `{!WorldClock W} found l dels l' :
  getDeleteDeployments ks h status spec found l = (Ok dels, l') ->
  (forall p, p ∈ dels ->
     exists v, v ∈ DeprecatedVersions status /\ may_delete found v (w_Now l') p) /\
  (forall p v, v ∈ DeprecatedVersions status -> may_delete found v (w_Now l) p -> p ∈ dels).
Proof.
  intros Hrun. split; [|intros p v; by apply (getDeleteDeployments_complete _ _ _ _ _ _ Hrun)].
  apply getDeleteDeployments_run in Hrun as [-> Hin].
  intros p (v & lv & (Hv & l1 & l2 & -> & ->)%visited_elem & Hm)%Hin.
  exists v. split; [done|]. eapply may_delete_mono, Hm. apply clock_mono.
Qed.

(** ** Scaling *)

Definition replicas_ne (p : ptr) (n : Z) : Prop := exists r, replicas_at h p = Some r /\ r <> n.

Lemma replicas_differ_ne d p n :
  h !! p = Some d -> replicas_differ d n = true <-> replicas_ne p n.
Proof.
  intros Hd. unfold replicas_differ, replicas_ne, replicas_at. rewrite Hd. simpl.
  destruct (ds_Replicas (d_Spec d)) as [r|].
  - rewrite negb_true_iff, Z.eqb_neq. naive_solver.
  - split; [done|]. by intros (? & ? & _).
Qed.

(** Why version [v] has its Deployment scaled to [n] at [now]. *)
Definition deprecated_scale (replicas : Z) (v : DeprecatedWorkerDeploymentVersion)
    (now : Time) (p : ptr) (n : Z) : Prop :=
  match ver_Status v with
  | VersionStatusInactive =>
      if decide (BuildID (TargetVersion status) = BuildID v)
      then n = uint32 replicas /\ replicas_ne p replicas
      else n = 0 /\ replicas_ne p 0
  | VersionStatusRamping | VersionStatusCurrent => n = uint32 replicas /\ replicas_ne p replicas
  | VersionStatusDrained =>
      n = 0 /\ replicas_ne p 0 /\
      exists sd, ScaledownDelay (spec_SunsetStrategy spec) = Some sd /\
                 drained_longer_than v now sd
  | _ => False
  end.

Inductive scale_reason (replicas : Z) (now : Time)
  : BaseWorkerDeploymentVersion -> ptr -> Z -> Prop :=
  | scale_current c p :
      CurrentVersion status = Some c -> replicas_ne p replicas ->
      scale_reason replicas now c p (uint32 replicas)
  | scale_target p :
      target_not_current status = true ->
      replicas_at h p = None \/ replicas_ne p replicas ->
      scale_reason replicas now (TargetVersion status) p (uint32 replicas)
  | scale_deprecated v p n :
      v ∈ DeprecatedVersions status -> deprecated_scale replicas v now p n ->
      scale_reason replicas now v p n.

(** [v]'s reference is asked to be scaled to [n]. *)
Definition scale_wanted (replicas : Z) (now : Time) (v : BaseWorkerDeploymentVersion)
    (ref : RefPtr) (n : Z) : Prop :=
  ver_Deployment v = Some ref /\
  exists p, Deployments ks !! BuildID v = Some p /\ scale_reason replicas now v p n.

Lemma drained_longer_mono v now now' d :
  now <= now' -> drained_longer_than v now d -> drained_longer_than v now' d.
Proof.
  intros Hle (t & Ht & Hlt). exists t. split; [done|].
  pose proof (time_Since_mono now now' t Hle). lia.
Qed.

Lemma deprecated_scale_mono replicas v now now' p n :
  now <= now' -> deprecated_scale replicas v now p n -> deprecated_scale replicas v now' p n.
Proof.
  intros Hle. unfold deprecated_scale. destruct (ver_Status v); try done.
  intros (? & ? & sd & ? & ?). split_and!; try done. exists sd.
  split; [done|]. by eapply drained_longer_mono.
Qed.

Lemma scale_wanted_mono replicas now now' v ref n :
  now <= now' -> scale_wanted replicas now v ref n -> scale_wanted replicas now' v ref n.
Proof.
  intros Hle (Hr & p & Hp & Hs). split; [done|]. exists p. split; [done|].
  destruct Hs; [by constructor 1|by constructor 2|].
  constructor 3; [done|]. by eapply deprecated_scale_mono.
Qed.

Definition scale_events (v : DeprecatedWorkerDeploymentVersion) : Log :=
  delete_events v.

(** The relation between the maps before and after an iteration. *)
Definition scale_step (replicas : Z) (now : Time) (v : DeprecatedWorkerDeploymentVersion)
    (m m' : ScaleMap) : Prop :=
  match ver_Deployment v, Deployments ks !! BuildID v with
  | Some ref, Some p =>
      (exists n, deprecated_scale replicas v now p n /\ m' = set_scale ref n m) \/
      ((forall n, ~ deprecated_scale replicas v now p n) /\ m' = m)
  | _, _ => m' = m
  end.

Lemma scaleBody_run replicas i v m l m' l' :
  scaleBody ks h status spec replicas i v m l = (Ok m', l') ->
  scale_step replicas (w_Now l) v m m' /\ l' = l ++ scale_events v.
Proof.
  unfold scaleBody, scale_step, scale_events, delete_events.
  destruct (ver_Deployment v) as [ref|] eqn:Eref; simpl.
  2: { intros [= <- <-]. by rewrite app_nil_r. }
  destruct (Deployments ks !! BuildID v) as [p|] eqn:Ep; simpl.
  2: { intros [= <- <-]. by rewrite app_nil_r. }
  intros (d & l1 & Hd & Hk)%io_bind_Ok. injection Hd as Hd <-. apply deref_Ok in Hd.
  pose proof (fun n => replicas_differ_ne d p n Hd) as Hne. unfold deprecated_scale.
  destruct (ver_Status v) eqn:Es.
  1,5,7: injection Hk as <- <-; rewrite app_nil_r; split; [by right; split; [intros ? []|]|done].
  - injection Hk as <- <-. rewrite app_nil_r. split; [|done].
    case_decide; [destruct (replicas_differ d replicas) eqn:E|destruct (replicas_differ d 0) eqn:E];
      try (left; eexists; split; [split; [done|by apply Hne]|done]);
      right; (split; [|done]); intros n [_ Hn%Hne]; congruence.
  - injection Hk as <- <-. rewrite app_nil_r. split; [|done].
    destruct (replicas_differ d replicas) eqn:E;
      [left; eexists; split; [split; [done|by apply Hne]|done]|].
    right. split; [|done]. intros n [_ Hn%Hne]. congruence.
  - injection Hk as <- <-. rewrite app_nil_r. split; [|done].
    destruct (replicas_differ d replicas) eqn:E;
      [left; eexists; split; [split; [done|by apply Hne]|done]|].
    right. split; [|done]. intros n [_ Hn%Hne]. congruence.
  - apply io_bind_Ok in Hk as (t & l2 & Ht & Hk). injection Ht as Ht <-. apply deref_Ok in Ht.
    apply io_bind_Ok in Hk as (since & l3 & Hs & Hk). injection Hs as <- <-.
    apply io_bind_Ok in Hk as (sd & l4 & Hsd & Hk). injection Hsd as Hsd <-.
    apply deref_Ok in Hsd. injection Hk as <- <-. split; [|done].
    destruct (time_Since (w_Now l) t >? sd) eqn:Eg; [destruct (replicas_differ d 0) eqn:E|]; simpl.
    + left. eexists. split; [|done]. split_and!; [done|by apply Hne|]. exists sd.
      split; [done|]. exists t. split; [done|by apply gtb_lt].
    + right. split; [|done]. intros n (_ & Hn%Hne & _). congruence.
    + right. split; [|done]. intros n (_ & _ & sd' & ? & t' & ? & Hlt). simplify_eq.
      apply gtb_lt in Hlt. congruence.
Qed.

(** [m'] extends [m]: every new entry is wanted at [now'], and every version of
    [xs] that wants one at [now] has one. *)
Definition scale_extends (wanted : Time -> RefPtr -> Z -> Prop) (now now' : Time)
    (m m' : ScaleMap) : Prop :=
  (forall a r n, m' !! a = Some (r, n) ->
     m !! a = Some (r, n) \/ wanted now' (mkRefPtr a r) n) /\
  (forall a, is_Some (m !! a) -> is_Some (m' !! a)) /\
  (forall ref n, wanted now ref n -> is_Some (m' !! rp_addr ref)).

Lemma set_scale_extends (wanted : Time -> RefPtr -> Z -> Prop) now now' ref n m :
  wanted now' ref n -> (forall ref' n', wanted now ref' n' -> ref' = ref) ->
  scale_extends wanted now now' m (set_scale ref n m).
Proof.
  intros Hw Hu. unfold set_scale. split_and!.
  - intros a r k. rewrite lookup_insert. case_decide as Ha; [|by left].
    intros [= <- <-]. right. subst a. by destruct ref.
  - intros a Ha. rewrite lookup_insert. by case_decide.
  - intros ref' n' ->%Hu. rewrite lookup_insert_eq. eauto.
Qed.

Lemma same_extends (wanted : Time -> RefPtr -> Z -> Prop) now now' m :
  (forall ref n, ~ wanted now ref n) -> scale_extends wanted now now' m m.
Proof. intros Hn. split_and!; [by left|done|]. intros ref n Hw. by apply Hn in Hw. Qed.

Definition dep_wanted (replicas : Z) (v : DeprecatedWorkerDeploymentVersion) (now : Time)
    (ref : RefPtr) (n : Z) : Prop :=
  ver_Deployment v = Some ref /\
  exists p, Deployments ks !! BuildID v = Some p /\ deprecated_scale replicas v now p n.

Lemma dep_wanted_mono replicas v now now' ref n :
  now <= now' -> dep_wanted replicas v now ref n -> dep_wanted replicas v now' ref n.
Proof.
  intros Hle (Hr & p & Hp & Hs). split; [done|]. exists p. split; [done|].
  by eapply deprecated_scale_mono.
Qed.

Lemma scale_step_extends replicas now v m m' :
  scale_step replicas now v m m' -> scale_extends (dep_wanted replicas v) now now m m'.
Proof.
  unfold scale_step. destruct (ver_Deployment v) as [ref|] eqn:Eref.
  2: { intros ->. apply same_extends. intros ? ? [? _]. congruence. }
  destruct (Deployments ks !! BuildID v) as [p|] eqn:Ep.
  2: { intros ->. apply same_extends. intros ? ? (_ & ? & ? & _). congruence. }
  intros [(n & Hn & ->)|[Hn ->]].
  - apply set_scale_extends; [split; eauto|]. intros ? ? [? _]. congruence.
  - apply same_extends. intros ? ? (_ & ? & ? & ?). simplify_eq. by eapply Hn.
Qed.

Lemma scale_loop `{!WorldClock W} replicas xs i m l m' l' :
  io_range_from (scaleBody ks h status spec replicas) i xs m l = (Ok m', l') ->
  l' = l ++ concat (scale_events <$> xs) /\
  scale_extends (fun now ref n => exists v, v ∈ xs /\ dep_wanted replicas v now ref n)
    (w_Now l) (w_Now l') m m'.
Proof.
  revert i m l. induction xs as [|v xs IH]; intros i m l; simpl.
  - intros [= <- <-]. rewrite app_nil_r. split; [done|]. apply same_extends.
    by intros ? ? (? & ?%not_elem_of_nil & _).
  - intros (m1 & l1 & [Hs ->]%scaleBody_run & Hr)%io_bind_Ok.
    apply IH in Hr as [-> (IHs & IHk & IHc)]. rewrite <- app_assoc in *. split; [done|].
    apply scale_step_extends in Hs as (Hss & Hsk & Hsc).
    assert (w_Now l <= w_Now (l ++ scale_events v)) as Hle1 by apply clock_mono.
    assert (w_Now l <= w_Now (l ++ scale_events v ++ concat (scale_events <$> xs))) as Hle2
      by apply clock_mono.
    split_and!.
    + intros a r n [Hm1|(v' & Hv' & Hw)]%IHs.
      * apply Hss in Hm1 as [?|Hw]; [by left|]. right. exists v. split; [by left|].
        by eapply dep_wanted_mono.
      * right. exists v'. split; [by right|done].
    + intros a Ha. by apply IHk, Hsk.
    + intros ref n (v' & [->|Hv']%elem_of_cons & Hw).
      * apply IHk. by eapply Hsc.
      * eapply (IHc ref n). exists v'. split; [done|]. by eapply dep_wanted_mono.
Qed.

Lemma scaleCurrent_run replicas m m' now :
  scaleCurrent ks h status replicas m = Ok m' ->
  scale_extends (fun _ ref n => exists c, CurrentVersion status = Some c /\
                   ver_Deployment c = Some ref /\ n = uint32 replicas /\
                   exists p, Deployments ks !! BuildID c = Some p /\ replicas_ne p replicas)
    now now m m'.
Proof.
  unfold scaleCurrent. destruct (CurrentVersion status) as [c|].
  2: { intros [= <-]. apply same_extends. naive_solver. }
  destruct (ver_Deployment c) as [ref|] eqn:Eref.
  2: { intros [= <-]. apply same_extends. intros ? ? (? & [= <-] & ? & _). congruence. }
  destruct (Deployments ks !! BuildID c) as [p|] eqn:Ep.
  2: { intros [= <-]. apply same_extends. intros ? ? (? & [= <-] & _ & _ & ? & ? & _).
       congruence. }
  intros (d & Hd%deref_Ok & [= <-])%bind_Ok.
  pose proof (replicas_differ_ne d p replicas Hd) as Hne.
  destruct (replicas_differ d replicas) eqn:E.
  - apply set_scale_extends; [naive_solver|]. intros ? ? (? & [= <-] & ? & _). congruence.
  - apply same_extends. intros ? ? (? & [= <-] & _ & _ & ? & ? & Hn). simplify_eq.
    apply Hne in Hn. congruence.
Qed.

Lemma scaleTarget_run replicas m m' now :
  scaleTarget ks h status replicas m = Ok m' ->
  scale_extends (fun _ ref n => target_not_current status = true /\
                   ver_Deployment (TargetVersion status) = Some ref /\ n = uint32 replicas /\
                   exists p, Deployments ks !! BuildID (TargetVersion status) = Some p /\
                     (replicas_at h p = None \/ replicas_ne p replicas))
    now now m m'.
Proof.
  unfold scaleTarget. destruct (ver_Deployment (TargetVersion status)) as [ref|] eqn:Eref.
  2: { intros [= <-]. apply same_extends. intros ? ? (_ & ? & _). congruence. }
  destruct (Deployments ks !! BuildID (TargetVersion status)) as [p|] eqn:Ep.
  2: { intros [= <-]. apply same_extends. intros ? ? (_ & _ & _ & ? & ? & _). congruence. }
  destruct (target_not_current status).
  2: { intros [= <-]. apply same_extends. by intros ? ? (? & _). }
  intros (d & Hd%deref_Ok & [= <-])%bind_Ok.
  pose proof (replicas_differ_ne d p replicas Hd) as Hne.
  assert (is_nil (ds_Replicas (d_Spec d)) = true <-> replicas_at h p = None) as Hnil.
  { unfold replicas_at. rewrite Hd. simpl. by destruct (ds_Replicas _). }
  destruct (_ || _) eqn:E.
  - apply orb_true_iff in E. rewrite Hne, Hnil in E.
    apply set_scale_extends; [naive_solver|]. intros ? ? (_ & ? & _). congruence.
  - apply orb_false_iff in E as [E1 E2]. apply same_extends.
    intros ? ? (_ & _ & _ & ? & ? & Hor). simplify_eq.
    destruct Hor as [Hz%Hnil|Hz%Hne]; congruence.
Qed.

Lemma getScaleDeployments_run `{!WorldClock W} l scales l' :
  getScaleDeployments ks h status spec l = (Ok scales, l') ->
  exists replicas, spec_Replicas spec = Some replicas /\
    (forall a r n, scales !! a = Some (r, n) ->
       exists v, scale_wanted replicas (w_Now l') v (mkRefPtr a r) n) /\
    (forall v ref n, scale_wanted replicas (w_Now l) v ref n ->
       is_Some (scales !! rp_addr ref)).
Proof.
  unfold getScaleDeployments. intros (replicas & l0 & Hr & Hk)%io_bind_Ok.
  injection Hr as Hr <-. apply deref_Ok in Hr.
  apply io_bind_Ok in Hk as (m1 & l1 & Hm1 & Hk). injection Hm1 as Hm1 <-.
  apply io_bind_Ok in Hk as (m2 & l2 & Hm2 & Hk). injection Hm2 as Hm2 <-.
  apply scale_loop in Hk as [-> (Ls & Lk & Lc)].
  destruct (scaleCurrent_run _ _ _ (w_Now l) Hm1) as (Cs & Ck & Cc).
  destruct (scaleTarget_run _ _ _ (w_Now l) Hm2) as (Ts & Tk & Tc).
  exists replicas. split; [done|]. split.
  - intros a r n [Hm|(v & Hv & Hd & p & Hp & Hs)]%Ls.
    2: { exists v. split; [done|]. exists p. split; [done|]. by constructor 3. }
    apply Ts in Hm as [Hm|(Ht & Hd & -> & p & Hp & Hn)].
    + apply Cs in Hm as [Hm|(c & Hc & Hd & -> & p & Hp & Hn)];
        [by rewrite lookup_empty in Hm|].
      exists c. split; [done|]. exists p. split; [done|]. by constructor.
    + exists (TargetVersion status). split; [done|]. exists p. split; [done|]. by constructor.
  - intros v ref n (Hd & p & Hp & Hs). destruct Hs as [c p Hc Hn|p Ht Hn|v p n Hv Hs].
    + apply Lk, Tk. eapply Cc. naive_solver.
    + apply Lk. eapply Tc. naive_solver.
    + eapply (Lc ref n). exists v. split; [done|]. split; [done|]. eauto.
Qed.

Lemma getScaleDeployments_extends l scales l' :
  getScaleDeployments ks h status spec l = (Ok scales, l') -> l `prefix_of` l'.
Proof.
  assert (emits (fun _ => True) (getScaleDeployments ks h status spec)) as Hem
    by (unfold getScaleDeployments, scaleBody, time_since; emits_steps).
  intros Hr. destruct (Hem l) as (ext & He & _). rewrite Hr in He. by exists ext.
Qed.

(** ** Creation *)

Definition ineligible_count : Z :=
  Z.of_nat (length (filter (fun v => EligibleForDeletion v = false)
                      (DeprecatedVersions status))).

Lemma countIneligible_range vs i n :
  0 <= n -> n + Z.of_nat (length vs) < 2 ^ 31 ->
  range_from countIneligible i vs n
  = Ok (n + Z.of_nat (length (filter (fun v => EligibleForDeletion v = false) vs))).
Proof.
  revert i n. induction vs as [|v vs IH]; intros i n Hn Hlt; simpl; [f_equal; lia|].
  simpl in Hlt. rewrite filter_cons. destruct (EligibleForDeletion v) eqn:E; simpl.
  - rewrite IH by lia. done.
  - rewrite int32_small by (unfold in_int32; lia). rewrite IH by lia. simpl. f_equal. lia.
Qed.

(** The count decides, unless the target has a Deployment. *)
Lemma shouldCreateDeployment_value max :
  Z.of_nat (length (DeprecatedVersions status)) < 2 ^ 31 ->
  shouldCreateDeployment status max
  = Ok (is_nil (ver_Deployment (TargetVersion status)) && (ineligible_count <? max)).
Proof.
  intros Hlen. unfold shouldCreateDeployment.
  destruct (ver_Deployment (TargetVersion status)) as [ref|]; simpl; [done|].
  unfold range. rewrite countIneligible_range by lia. simpl. fold ineligible_count.
  by rewrite Z.geb_leb, Z.ltb_antisym.
Qed.

(** C27: A Deployment is created exactly when the target has none and fewer than
    the maximum of deprecated versions are ineligible for deletion; the count is
    a 32-bit one, which cannot wrap for fewer than 2^31 versions. *)
Theorem shouldCreateDeployment_spec max :
  Z.of_nat (length (DeprecatedVersions status)) < 2 ^ 31 ->
  exists b, shouldCreateDeployment status max = Ok b /\
    (b = true <-> ver_Deployment (TargetVersion status) = None /\ ineligible_count < max).
Proof.
  intros Hlen. rewrite shouldCreateDeployment_value by done. eexists. split; [reflexivity|].
  destruct (ver_Deployment (TargetVersion status)); simpl; rewrite ?Z.ltb_lt; naive_solver.
Qed.

(** ** Deletion and scaling together *)

(** The roles of the build IDs in a status. *)
Record roles_distinct : Prop := {
  rd_nodup : NoDup ((fun v => BuildID (dep_base v)) <$> DeprecatedVersions status);
  rd_target (v : DeprecatedWorkerDeploymentVersion) :
    v ∈ DeprecatedVersions status -> BuildID v <> BuildID (TargetVersion status);
  rd_current (v : DeprecatedWorkerDeploymentVersion) c :
    v ∈ DeprecatedVersions status -> CurrentVersion status = Some c -> BuildID v <> BuildID c;
}.

Lemma roles_same_version (v v' : DeprecatedWorkerDeploymentVersion) :
  roles_distinct -> v ∈ DeprecatedVersions status -> v' ∈ DeprecatedVersions status ->
  BuildID v = BuildID v' -> v = v'.
Proof.
  intros Hr (i & Hi)%list_elem_of_lookup (j & Hj)%list_elem_of_lookup Hb.
  assert (i = j) as ->; [|by simplify_eq].
  eapply NoDup_lookup; [apply (rd_nodup Hr)| |]; rewrite list_lookup_fmap.
  - by rewrite Hi.
  - rewrite Hj. simpl. by rewrite Hb.
Qed.

(** A reference belongs to one build of the status. *)
Definition refs_distinct : Prop :=
  forall v v' ref ref' now now' r n n',
    scale_wanted r now v ref n -> scale_wanted r now' v' ref' n' ->
    rp_addr ref = rp_addr ref' -> BuildID v = BuildID v' /\ ref = ref'.

(** The reasons of one build agree on the count. *)
Lemma scale_reason_fun replicas now v v' p n n' :
  roles_distinct -> BuildID v = BuildID v' ->
  scale_reason replicas now v p n -> scale_reason replicas now v' p n' -> n = n'.
Proof.
  intros Hr Hb H1 H2.
  assert (forall c, CurrentVersion status = Some c -> target_not_current status = true ->
            BuildID c <> BuildID (TargetVersion status)) as Hct.
  { intros c Hc. unfold target_not_current. rewrite Hc.
    by intros ?%negb_true_iff%bool_decide_eq_false. }
  destruct H1 as [c p Hc Hn|p Ht Hn|w p n Hw Hn], H2 as [c' p Hc' Hn'|p Ht' Hn'|w' p n' Hw' Hn'];
    try done.
  - by destruct (rd_current Hr w' c).
  - by destruct (rd_target Hr w').
  - by destruct (rd_current Hr w c').
  - by destruct (rd_target Hr w).
  - pose proof (roles_same_version w w' Hr Hw Hw' Hb) as <-. unfold deprecated_scale in *.
    destruct (ver_Status w); try done; try case_decide; naive_solver.
Qed.

Lemma getScaleDeployments_exact `{!WorldClock W} l scales l' replicas v ref n :
  roles_distinct -> refs_distinct ->
  getScaleDeployments ks h status spec l = (Ok scales, l') ->
  spec_Replicas spec = Some replicas -> scale_wanted replicas (w_Now l) v ref n ->
  scales !! rp_addr ref = Some (rp_ref ref, n).
Proof.
  intros Hroles Hrefs Hrun Hrep Hw.
  destruct (getScaleDeployments_run _ _ _ Hrun) as (replicas' & Hr & Hs & Hc). simplify_eq.
  destruct (Hc v ref n Hw) as [[r n'] Hlk]. rewrite Hlk.
  destruct (Hs _ _ _ Hlk) as [v' Hw'].
  destruct (Hrefs _ _ _ _ _ _ _ _ _ Hw Hw' eq_refl) as [Hb ->]. simpl. do 2 f_equal.
  assert (l `prefix_of` l') as [ext ->].
  { apply getScaleDeployments_extends in Hrun. done. }
  eapply (scale_wanted_mono replicas _ (w_Now (l ++ ext))) in Hw; [|apply clock_mono].
  destruct Hw as (_ & p & Hp & Hreason), Hw' as (_ & p' & Hp' & Hreason').
  rewrite Hb in Hp. simplify_eq. symmetry. by eapply scale_reason_fun.
Qed.

(** C17: Scaling is exact: every entry of the scale map belongs to a version that
    has a reference and a tracked Deployment, and is the spec's replica count
    for the Current version, for a target that is not Current and for routed or
    inactive-target versions, and zero for an inactive version that is not the
    target and for a version drained for longer than [scaledownDelay], each only
    where the count differs; and every version with such a reason when the run
    starts has its reference in the map with just that count. *)
Theorem getScaleDeployments_spec `{!WorldClock W} l scales l' :
  roles_distinct -> refs_distinct ->
  getScaleDeployments ks h status spec l = (Ok scales, l') ->
  exists replicas, spec_Replicas spec = Some replicas /\
    (forall a r n, scales !! a = Some (r, n) ->
       exists v, scale_wanted replicas (w_Now l') v (mkRefPtr a r) n) /\
    (forall v ref n, scale_wanted replicas (w_Now l) v ref n ->
       scales !! rp_addr ref = Some (rp_ref ref, n)).
Proof.
  intros Hroles Hrefs Hrun.
  destruct (getScaleDeployments_run _ _ _ Hrun) as (replicas & Hr & Hs & _).
  exists replicas. split_and!; [done|done|]. intros v ref n Hw.
  by apply (getScaleDeployments_exact _ _ _ _ _ _ _ Hroles Hrefs Hrun Hr Hw).
Qed.

Lemma scale_wanted_version replicas now v ref n :
  scale_wanted replicas now v ref n -> v ∈ status_versions status /\ ver_Deployment v = Some ref.
Proof.
  intros (Hr & p & _ & Hreason). split; [|done]. unfold status_versions.
  rewrite elem_of_cons, elem_of_app, list_elem_of_fmap.
  destruct Hreason as [c q Hc _|q _ _|d q n Hd _]; [|by left|].
  - right. left. rewrite Hc. by left.
  - right. right. by exists d.
Qed.

Lemma refs_unshared_distinct : refs_unshared status -> refs_distinct.
Proof.
  intros Hu v v' ref ref' now now' r n n' [Hv Hr]%scale_wanted_version
    [Hv' Hr']%scale_wanted_version. by apply (Hu v v').
Qed.

(** The Deployment of a scaled version is not one of those to delete. *)
Lemma scaled_not_deleted `{!WorldClock W} found l dels l1 replicas now v ref n q :
  state_wf ks h -> roles_distinct ->
  getDeleteDeployments ks h status spec found l = (Ok dels, l1) ->
  scale_wanted replicas now v ref n -> Deployments ks !! BuildID v = Some q -> q ∉ dels.
Proof.
  intros Hwf Hroles Hd (Href & q' & Hq' & Hreason) Hq Hin. simplify_eq.
  apply getDeleteDeployments_run in Hd as [_ Hd].
  apply Hd in Hin as (v0 & lv & [Hv0 _]%visited_elem & _ & Hlk & Hm).
  assert (BuildID v0 = BuildID v) as Hb by (by eapply (state_wf_inj ks h)).
  destruct Hreason as [c p Hc Hn|p Ht Hn|w p n Hw Hn].
  - by eapply (rd_current Hroles).
  - by eapply (rd_target Hroles).
  - pose proof (roles_same_version v0 w Hroles Hv0 Hw Hb) as <-.
    unfold deprecated_scale in Hn. destruct Hm as [(Hst & Hz & _)|(Hst & _)]; rewrite Hst in Hn.
    + destruct Hn as (_ & (z & Hz' & Hne) & _). congruence.
    + done.
Qed.

(** C18: No Deployment is deleted and scaled by the same plan, when no two builds
    of the status share a reference: every Deployment to delete is the tracked one
    of a version of the status, and the reference of such a version has no entry
    in the scale map; every entry of the scale map is the reference of a version
    of the status, whose tracked Deployment is not among the deleted ones. *)
Theorem delete_scale_disjoint `{!WorldClock W} found l dels l1 l2 scales l3 :
  state_wf ks h -> roles_distinct -> refs_unshared status ->
  getDeleteDeployments ks h status spec found l = (Ok dels, l1) ->
  getScaleDeployments ks h status spec l2 = (Ok scales, l3) ->
  (forall p, p ∈ dels -> exists v, v ∈ status_versions status /\
     is_Some (ver_Deployment v) /\ Deployments ks !! BuildID v = Some p) /\
  (forall v p ref, v ∈ status_versions status -> ver_Deployment v = Some ref ->
     Deployments ks !! BuildID v = Some p -> p ∈ dels -> scales !! rp_addr ref = None) /\
  (forall a r n, scales !! a = Some (r, n) -> exists v q, v ∈ status_versions status /\
     ver_Deployment v = Some (mkRefPtr a r) /\ Deployments ks !! BuildID v = Some q /\ q ∉ dels).
Proof.
  intros Hwf Hroles Hrefs Hd Hs.
  apply getScaleDeployments_run in Hs as (replicas & _ & Hs & _). split_and!.
  - intros p Hp. apply getDeleteDeployments_run in Hd as [_ Hd].
    apply Hd in Hp as (v & lv & [Hv _]%visited_elem & Href & Hlk & _).
    exists v. split_and!; [|done|done]. unfold status_versions.
    rewrite elem_of_cons, elem_of_app, list_elem_of_fmap. right. right. by exists v.
  - intros v p ref Hv Href Hp Hin. destruct (scales !! rp_addr ref) as [[r n]|] eqn:Ea; [|done].
    apply Hs in Ea as (v' & Hw). destruct (scale_wanted_version _ _ _ _ _ Hw) as [Hv' Href'].
    destruct (Hrefs _ _ _ _ Hv Hv' Href Href' eq_refl) as [Hb _].
    exfalso. rewrite Hb in Hp. by eapply scaled_not_deleted.
  - intros a r n Ha. apply Hs in Ha as (v & Hw).
    destruct (scale_wanted_version _ _ _ _ _ Hw) as [Hv Href].
    pose proof Hw as (_ & q & Hq & _). exists v, q. split_and!; [done..|].
    by eapply scaled_not_deleted.
Qed.

(** ** Panics *)

(** What the sunset code dereferences. *)
Record sunset_ready : Prop := {
  sr_replicas : is_Some (spec_Replicas spec);
  sr_delete : is_Some (DeleteDelay (spec_SunsetStrategy spec));
  sr_scaledown : is_Some (ScaledownDelay (spec_SunsetStrategy spec));
  sr_pointer b p : Deployments ks !! b = Some p -> exists d, h !! p = Some d /\
                                                 is_Some (ds_Replicas (d_Spec d));
  sr_drained (v : DeprecatedWorkerDeploymentVersion) :
    v ∈ DeprecatedVersions status -> ver_Status v = VersionStatusDrained ->
    is_Some (DrainedSince v);
}.

(** On a defaulted spec, with replica counts on the tracked Deployments and a
    known drain time on every drained version, deletion and scaling return. *)
Theorem sunset_total found l :
  sunset_ready ->
  (exists dels l', getDeleteDeployments ks h status spec found l = (Ok dels, l')) /\
  (exists scales l', getScaleDeployments ks h status spec l = (Ok scales, l')).
Proof.
  intros [[n Hn] [dd Hdd] [sd Hsd] Hptr Hdr]. split.
  - destruct (io_range_total (deleteBody ks h status spec found) (fun _ => True)
                (DeprecatedVersions status) [] l) as (dels & l' & Hr & _); [|done|eauto].
    intros i v acc l1 Hv _. unfold deleteBody.
    destruct (is_nil (ver_Deployment v)); [eauto|].
    destruct (Deployments ks !! BuildID v) as [p|] eqn:Ep; [|eauto].
    destruct (Hptr _ _ Ep) as (d & Hd & r & Hr).
    destruct (ver_Status v) eqn:Es; try (by eexists _, _).
    destruct (Hdr v Hv Es) as [t Ht]. rewrite Ht, Hdd, Hsd. io_run.
    destruct (_ >? _); [|eauto]. unfold load. rewrite Hd. io_run. rewrite Hr. io_run. eauto.
  - unfold getScaleDeployments. rewrite Hn, io_bind_run. simpl.
    assert (forall m, exists m', scaleCurrent ks h status n m = Ok m') as Hc.
    { intros m. unfold scaleCurrent. destruct (CurrentVersion status) as [c|]; [|eauto].
      destruct (ver_Deployment c); [|eauto].
      destruct (Deployments ks !! BuildID c) as [p|] eqn:Ep; [|eauto].
      destruct (Hptr _ _ Ep) as (d & Hd & _). unfold load. rewrite Hd. simpl. eauto. }
    assert (forall m, exists m', scaleTarget ks h status n m = Ok m') as Ht.
    { intros m. unfold scaleTarget. destruct (ver_Deployment (TargetVersion status)); [|eauto].
      destruct (Deployments ks !! BuildID (TargetVersion status)) as [p|] eqn:Ep; [|eauto].
      destruct (Hptr _ _ Ep) as (d & Hd & _). destruct (target_not_current status); [|eauto].
      unfold load. rewrite Hd. simpl. eauto. }
    rewrite io_bind_run. simpl. destruct (Hc ∅) as [m1 ->].
    rewrite io_bind_run. simpl. destruct (Ht m1) as [m2 ->].
    destruct (io_range_total (scaleBody ks h status spec n) (fun _ => True)
                (DeprecatedVersions status) m2 l) as (m3 & l' & Hr & _); [|done|eauto].
    intros i v acc l1 Hv _. unfold scaleBody. destruct (ver_Deployment v); [|eauto].
    destruct (Deployments ks !! BuildID v) as [p|] eqn:Ep; [|eauto].
    destruct (Hptr _ _ Ep) as (d & Hd & _). unfold load. rewrite Hd, io_bind_run. simpl.
    destruct (ver_Status v) eqn:Es; try (by eexists _, _).
    destruct (Hdr v Hv Es) as [t Ht']. rewrite Ht', Hsd. io_run. eauto.
Qed.

Lemma io_range_panics {A S} (body : nat -> A -> S -> io S) xs x s l :
  x ∈ xs -> (forall i t l1, is_Panic (body i x t l1).1) ->
  (forall i y t l1 e, (body i y t l1).1 <> Err e) -> is_Panic (io_range body xs s l).1.
Proof.
  intros Hx Hp He. unfold io_range. generalize 0%nat. revert s l.
  induction xs as [|y xs IH]; intros s l i; simpl; [by apply not_elem_of_nil in Hx|].
  rewrite io_bind_run. pose proof (He i y s l) as He'. apply elem_of_cons in Hx as [->|Hx].
  - specialize (Hp i s l). destruct (body i y s l) as [[t|e|p] l1]; simpl in *;
      [by destruct Hp as [? [=]] | by destruct (He' e) | done].
  - destruct (body i y s l) as [[t|e|p] l1]; simpl in *;
      [by apply IH | by destruct (He' e) | by eexists].
Qed.

Lemma deleteBody_no_error found i v acc l e : (deleteBody ks h status spec found i v acc l).1 <> Err e.
Proof.
  unfold deleteBody. destruct (is_nil (ver_Deployment v)); [done|].
  destruct (Deployments ks !! BuildID v) as [p|]; [|done].
  destruct (ver_Status v); try done.
  destruct (DrainedSince v) as [t|]; io_run; [|done].
  destruct (DeleteDelay (spec_SunsetStrategy spec)) as [dd|]; io_run; [|done].
  destruct (ScaledownDelay (spec_SunsetStrategy spec)) as [sd|]; io_run; [|done].
  io_run. destruct (_ >? _); [|done]. io_run.
  unfold load. destruct (h !! p) as [d|]; [|done]. io_run.
  by destruct (ds_Replicas (d_Spec d)).
Qed.

(** A tracked version that is Drained without a drain time - what the state
    of the worker deployment contains when describing the version fails -
    makes the planner panic, whatever the rest of its input: no Deployment of
    this resource is deleted, scaled, created or updated, and the routing does
    not change, until the description succeeds. *)
Theorem unknown_drain_time_panics `{K8sLib} (v : DeprecatedWorkerDeploymentVersion) ts c
    config name max input secret l :
  v ∈ DeprecatedVersions status -> is_Some (ver_Deployment v) ->
  is_Some (Deployments ks !! BuildID v) ->
  ver_Status v = VersionStatusDrained -> DrainedSince v = None ->
  is_Panic (GeneratePlan ks h status spec ts c config name max input secret l).1.
Proof.
  intros Hv [ref Href] [p Hp] Hs Hd. unfold GeneratePlan. rewrite io_bind_run.
  set (found := match ts with Some _ => _ | None => false end).
  assert (is_Panic (getDeleteDeployments ks h status spec found l).1) as [pn Hpn].
  { apply (io_range_panics _ _ v); [done| |apply deleteBody_no_error].
    intros i t l1. unfold deleteBody. rewrite Href, Hp, Hs, Hd. simpl. by eexists. }
  destruct (getDeleteDeployments _ _ _ _ _ _) as [r l1]. simpl in Hpn. subst. by eexists.
Qed.
End Sunset.
End WithWorld.
