(* ===== verification/UpdateProps.v ===== *)
(** * Theorems on the planner: updates of existing Deployments

    What a connection update and a pod-template update write, that they leave
    the rest alone, that one pass brings every version of the status up to date
    and a second pass finds nothing to do, and that a rolling update rebuilds
    the Deployment the controller would create. *)

From stdpp Require Import base gmap sets list strings.
From Stdlib Require Import ZArith Lia.
From S2P Require Import Prelude GoStd Api K8s K8sProps Trace World Temporal Planner.
Local Open Scope Z_scope.

(** ** Observations *)

Definition conn_hash (d : Deployment) : string :=
  gm_get (pts_Annotations (d_Template d)) ConnectionSpecHashAnnotation.
Definition template_hash (d : Deployment) : string :=
  gm_get (pts_Annotations (d_Template d)) PodTemplateSpecHashAnnotation.
Definition d_containers (d : Deployment) : list Container :=
  ps_Containers (pts_Spec (d_Template d)).
Definition d_volumes (d : Deployment) : list Volume := ps_Volumes (pts_Spec (d_Template d)).

(** Everything of a Deployment but the annotations, volumes and containers of
    its pods. *)
Definition d_frame (d : Deployment) : Deployment :=
  d_set_Template
    (pts_set_Spec (ps_set_Containers [] (ps_set_Volumes [] (pts_Spec (d_Template d))))
       (pts_set_Annotations None (d_Template d))) d.

Lemma annotation_keys_differ : PodTemplateSpecHashAnnotation <> ConnectionSpecHashAnnotation.
Proof. discriminate. Qed.

(** ** The connection update *)

(** The volume whose secret is replaced: the first one with the name and a secret. *)
Definition is_tls_volume (v : Volume) : Prop :=
  v_Name v = "temporal-tls" /\ is_Some (v_Secret v).

Lemma set_tls_secret_spec name vs :
  (Forall (fun v => ~ is_tls_volume v) vs /\ set_tls_secret name vs = vs) \/
  exists l v s r, vs = l ++ v :: r /\ Forall (fun v => ~ is_tls_volume v) l /\
    v_Name v = "temporal-tls" /\ v_Secret v = Some s /\
    set_tls_secret name vs = l ++ v_set_Secret (Some (svs_set_SecretName name s)) v :: r.
Proof.
  induction vs as [|v vs IH]; simpl; [by left|].
  destruct (v_Secret v) as [s|] eqn:Es.
  - case_decide as Hn.
    + right. by exists [], v, s, vs.
    + destruct IH as [[Hf ->]|(l & v' & s' & r & -> & Hl & Hn' & Hs' & ->)].
      * left. split; [|done]. constructor; [by intros [? _]|done].
      * right. exists (v :: l), v', s', r. split_and!; try done.
        constructor; [by intros [? _]|done].
  - destruct IH as [[Hf ->]|(l & v' & s' & r & -> & Hl & Hn' & Hs' & ->)].
    + left. split; [|done]. constructor; [|done]. intros [_ [? ?]]. congruence.
    + right. exists (v :: l), v', s', r. split_and!; try done.
      constructor; [|done]. intros [_ [? ?]]. congruence.
Qed.

(** A connection update panics exactly on a Deployment whose pods have no
    annotations at all (writing to the nil map); otherwise it records the hash
    of the connection, points every TEMPORAL_ADDRESS variable of every container
    to the new address and the TLS volume to the new secret, and changes nothing
    else: not the metadata, labels, selector, replicas, image, other variables
    or the order of any of them. *)
Theorem updateDeploymentWithConnection_spec d c :
  match pts_Annotations (d_Template d) with
  | None => updateDeploymentWithConnection d c = Panic NilMapWrite
  | Some annotations =>
      exists d', updateDeploymentWithConnection d c = Ok d' /\
        d_frame d' = d_frame d /\
        pts_Annotations (d_Template d')
        = Some (<[ConnectionSpecHashAnnotation := ComputeConnectionSpecHash c]> annotations) /\
        d_containers d' = set_address (HostPort c) <$> d_containers d /\
        d_volumes d' = match MutualTLSSecretRef c with
                       | Some ref => set_tls_secret (sr_Name ref) (d_volumes d)
                       | None => d_volumes d
                       end
  end.
Proof.
  unfold updateDeploymentWithConnection. destruct (pts_Annotations (d_Template d)); [|done].
  simpl. eexists. by split_and!.
Qed.

Lemma connection_update_hash d c d' :
  updateDeploymentWithConnection d c = Ok d' ->
  conn_hash d' = ComputeConnectionSpecHash c /\ template_hash d' = template_hash d.
Proof.
  unfold updateDeploymentWithConnection. intros (a & Ha & [= <-])%bind_Ok.
  unfold conn_hash, template_hash. simpl.
  rewrite !(gm_get_set _ _ _ _ _ Ha). rewrite decide_True by done.
  by rewrite decide_False by apply annotation_keys_differ.
Qed.

(** A connection update never rotates the API key: the variables keep the
    secret references they had, while the recorded hash becomes the one of the
    new connection, so the Deployment counts as up to date and the reference to
    the old secret stays. *)
Theorem connection_update_keeps_api_key b ks c h p d d' h' :
  Deployments ks !! b = Some p -> h !! p = Some d ->
  checkAndUpdateDeploymentConnectionSpec b ks c h = Ok (Some p, h') ->
  h' !! p = Some d' ->
  (fun k => env_ValueFrom <$> c_Env k) <$> d_containers d'
  = (fun k => env_ValueFrom <$> c_Env k) <$> d_containers d /\
  checkAndUpdateDeploymentConnectionSpec b ks c h' = Ok (None, h').
Proof.
  intros Hb Hp Hc Hp'. unfold checkAndUpdateDeploymentConnectionSpec, load in *.
  rewrite Hb, Hp in Hc. simpl in Hc. destruct (decide _) as [|Hne]; [discriminate|].
  apply bind_Ok in Hc as (d1 & Hd1 & [= <-]).
  rewrite list_lookup_insert_eq in Hp' by (by eapply lookup_lt_Some). simplify_eq.
  rewrite Hb, list_lookup_insert_eq by (by eapply lookup_lt_Some). simpl.
  destruct (connection_update_hash _ _ _ Hd1) as [Hh _]. unfold conn_hash in Hh.
  rewrite decide_True by done. split; [|done].
  unfold updateDeploymentWithConnection in Hd1. apply bind_Ok in Hd1 as (a & _ & [= <-]).
  unfold d_containers. simpl. rewrite <- list_fmap_compose.
  apply list_fmap_ext. intros _ k _. simpl. rewrite <- list_fmap_compose.
  apply list_fmap_ext. intros _ e _. simpl. unfold set_address_env. by case_decide.
Qed.

(** ** The pod-template update *)

Section WithLib.
Context `{L : K8sLib}.

Lemma podAnnotations_hashes t c :
  podAnnotationsFor t c !! ConnectionSpecHashAnnotation = Some (ComputeConnectionSpecHash c) /\
  podAnnotationsFor t c !! PodTemplateSpecHashAnnotation = Some (ComputePodTemplateSpecHash t).
Proof.
  unfold podAnnotationsFor. rewrite lookup_insert_eq.
  rewrite lookup_insert_ne by apply annotation_keys_differ. by rewrite lookup_insert_eq.
Qed.

Lemma template_update_hash d spec c d' :
  updateDeploymentWithPodTemplateSpec d spec c = Ok d' ->
  conn_hash d' = ComputeConnectionSpecHash c /\
  template_hash d' = ComputePodTemplateSpecHash (spec_Template spec).
Proof.
  unfold updateDeploymentWithPodTemplateSpec. intros (s & _ & [= <-])%bind_Ok.
  unfold conn_hash, template_hash, gm_get. simpl.
  destruct (podAnnotations_hashes (spec_Template spec) c) as [-> ->]. done.
Qed.

(** ** The rolling update rebuilds the Deployment *)

Definition has_env (name : string) (c : Container) : Prop :=
  exists e, e ∈ c_Env c /\ env_Name e = name.

Lemma find_app_none {A} (P : A -> bool) l1 l2 :
  (forall x, x ∈ l1 -> P x = false) -> find P (l1 ++ l2) = find P l2.
Proof.
  induction l1 as [|x l1 IH]; intros Hf; simpl; [done|].
  rewrite (Hf x) by (by left). apply IH. intros y Hy. apply Hf. by right.
Qed.

Lemma env_deployment_name_append c ns name b k ext :
  ~ has_env "TEMPORAL_DEPLOYMENT_NAME" k ->
  env_deployment_name (c_Env k ++ controllerEnv c ns name b ++ ext) = Some name.
Proof.
  intros Hk. unfold env_deployment_name. rewrite find_app_none; [done|].
  intros e He. apply bool_decide_eq_false. intros Hn. apply Hk. by exists e.
Qed.

Lemma modified_first_env podSpec c ns name b k cs :
  ps_Containers podSpec = k :: cs ->
  exists k' cs' ext,
    ps_Containers (ApplyControllerPodSpecModifications podSpec c ns name b) = k' :: cs' /\
    c_Env k' = c_Env k ++ controllerEnv c ns name b ++ ext.
Proof.
  intros Hk. unfold ApplyControllerPodSpecModifications.
  destruct (MutualTLSSecretRef c); [|destruct (APIKeySecretRef c)]; simpl; rewrite Hk; simpl;
    eexists _, _; [exists tlsEnv | eexists | exists []]; (split; [reflexivity|]); simpl;
    by rewrite <- ?app_assoc, ?app_nil_r.
Qed.

(** The name is read back from what was written. *)
Lemma modified_reads_name podSpec c ns name b k cs :
  ps_Containers podSpec = k :: cs -> ~ has_env "TEMPORAL_DEPLOYMENT_NAME" k ->
  name <> EmptyString ->
  findWorkerDeploymentName EmptyString
    (ps_Containers (ApplyControllerPodSpecModifications podSpec c ns name b)) = name.
Proof.
  intros Hk Henv Hname.
  destruct (modified_first_env podSpec c ns name b k cs Hk) as (k' & cs' & ext & -> & Hk').
  simpl. rewrite Hk', env_deployment_name_append by done. simpl. by rewrite decide_False.
Qed.

Lemma build_label_selector name b :
  (String.length b <= 63)%nat -> selectorLabelsFor name b !! BuildIDLabel = Some b.
Proof.
  intros Hb. unfold selectorLabelsFor. rewrite lookup_insert_ne by discriminate.
  rewrite lookup_singleton_eq. by rewrite TruncateString_id by lia.
Qed.

(** C25: A rolling update of a Deployment the controller created gives the
    specification the controller would create for the new spec and connection
    under the same build ID: pod template (labels, both hash annotations,
    environment, TLS mounts and volumes), replicas and minReadySeconds; its
    metadata stay.  The worker deployment's name is read back from the old
    container's environment, so this needs a user template that does not define
    TEMPORAL_DEPLOYMENT_NAME itself. *)
Theorem rolling_update_rebuilds tm om spec0 spec name b c0 c k cs :
  ps_Containers (pts_Spec (spec_Template spec0)) = k :: cs ->
  ~ has_env "TEMPORAL_DEPLOYMENT_NAME" k -> name <> EmptyString ->
  (String.length b <= 63)%nat ->
  let d := NewDeploymentWithOwnerRef tm om spec0 name b c0 in
  exists d', updateDeploymentWithPodTemplateSpec d spec c = Ok d' /\
    d_Spec d' = d_Spec (NewDeploymentWithOwnerRef tm om spec name b c) /\
    d_ObjectMeta d' = d_ObjectMeta d.
Proof.
  intros Hk Henv Hname Hb d. unfold updateDeploymentWithPodTemplateSpec.
  assert (findWorkerDeploymentName EmptyString (ps_Containers (pts_Spec (d_Template d))) = name)
    as ->.
  { unfold d, NewDeploymentWithOwnerRef, d_Template. simpl. by eapply modified_reads_name. }
  assert (gm_get (om_Labels (d_ObjectMeta d)) BuildIDLabel = b) as ->.
  { unfold d, gm_get. simpl. by rewrite build_label_selector. }
  unfold d. simpl. eexists. split; [reflexivity|]. by split.
Qed.

(** ** One pass over all versions *)

(** The API server takes a Deployment only when its selector picks the pods of
    its template. *)
Definition selects_pods (d : Deployment) : Prop :=
  exists selector, ds_Selector (d_Spec d) = Some selector /\
    gm_entries selector ⊆ gm_entries (pts_Labels (d_Template d)).

(** What no update writes: metadata, and the selector, which the API server does
    not allow to change. *)
Record keeps_identity (d d' : Deployment) : Prop := {
  ki_meta : d_ObjectMeta d' = d_ObjectMeta d;
  ki_selector : ds_Selector (d_Spec d') = ds_Selector (d_Spec d);
  ki_selects : selects_pods d -> selects_pods d';
}.

Section Pass.
Context (ks : DeploymentState) (spec : TemporalWorkerDeploymentSpec)
  (c : TemporalConnectionSpec).

Definition conn_ok (d : Deployment) : Prop := conn_hash d = ComputeConnectionSpecHash c.

(** No rolling update is due. *)
Definition template_ok (d : Deployment) : Prop :=
  UnsafeCustomBuildID (spec_WorkerOptions spec) = EmptyString \/
  template_hash d = EmptyString \/
  template_hash d = ComputePodTemplateSpecHash (spec_Template spec).

(** What the pass does to one Deployment: nothing, or it brings its connection
    up to date, keeps an up-to-date template so, and keeps what it is. *)
Definition refreshes (d d' : Deployment) : Prop :=
  conn_ok d' /\ (template_ok d -> template_ok d') /\ keeps_identity d d'.

Lemma connection_update_identity d d' :
  updateDeploymentWithConnection d c = Ok d' -> keeps_identity d d'.
Proof. by intros (a & _ & [= <-])%bind_Ok. Qed.

Lemma template_update_identity d d' :
  updateDeploymentWithPodTemplateSpec d spec c = Ok d' -> keeps_identity d d'.
Proof.
  intros (sel & Hsel%deref_Ok & [= <-])%bind_Ok. split; [done..|]. intros _. exists sel.
  split; [done|]. apply map_union_subseteq_l.
Qed.

(** The stores before and after a part of the pass, and the pointers updated. *)
Record pass_rel (h : Store) (ups : list ptr) (h' : Store) : Prop := {
  pr_length : length h' = length h;
  pr_nodup : NoDup ups;
  pr_same p : p ∉ ups -> h' !! p = h !! p;
  pr_updated p : p ∈ ups -> exists d d', h !! p = Some d /\ h' !! p = Some d' /\
                   refreshes d d' /\ ~ (conn_ok d /\ template_ok d);
}.

Lemma pass_refl h : pass_rel h [] h.
Proof. split; [done|constructor|done|]. intros p Hp. by apply not_elem_of_nil in Hp. Qed.

(** Each step of the pass is a [check] that returns either nothing or one
    updated Deployment that was out of date. *)
Definition check_result (h : Store) (r : option ptr * Store) : Prop :=
  match r.1 with
  | Some p => exists d d', h !! p = Some d /\ r.2 = <[p := d']> h /\ refreshes d d' /\
                           ~ (conn_ok d /\ template_ok d)
  | None => r.2 = h
  end.

(** [check] leaves the Deployment of [b] with the property [P]. *)
Definition at_build (P : Deployment -> Prop) (b : string) (h : Store) : Prop :=
  forall p d, Deployments ks !! b = Some p -> h !! p = Some d -> P d.

Lemma connection_check_result b h r :
  checkAndUpdateDeploymentConnectionSpec b ks c h = Ok r ->
  check_result h r /\ at_build conn_ok b r.2.
Proof.
  unfold checkAndUpdateDeploymentConnectionSpec, check_result, at_build.
  destruct (Deployments ks !! b) as [p|] eqn:Eb; [|by intros [= <-]].
  intros (d & Hd%deref_Ok & Hk)%bind_Ok. case_decide as Hc.
  - injection Hk as <-. split; [done|]. simpl. intros. simplify_eq. by symmetry.
  - apply bind_Ok in Hk as (d' & Hd' & [= <-]). simpl.
    destruct (connection_update_hash _ _ _ Hd') as [Hh Ht]. split.
    + exists d, d'. split_and!; [done|done| |].
      * split; [done|]. split; [unfold template_ok; by rewrite Ht|].
        by apply connection_update_identity.
      * intros [Hok _]. by apply Hc.
    + intros q d0 [= <-]. rewrite list_lookup_insert_eq by (by eapply lookup_lt_Some).
      by intros [= <-].
Qed.

Lemma template_check_result b h r :
  checkAndUpdateDeploymentPodTemplateSpec b ks spec c h = Ok r ->
  check_result h r /\ at_build template_ok b r.2 /\ (is_Some r.1 -> at_build conn_ok b r.2).
Proof.
  unfold checkAndUpdateDeploymentPodTemplateSpec, check_result, at_build.
  destruct (Deployments ks !! b) as [p|] eqn:Eb; [|by intros [= <-]].
  intros (d & Hd%deref_Ok & Hk)%bind_Ok.
  case_decide as H1; [|case_decide as H2; [|case_decide as H3]].
  1-3: injection Hk as <-; split; [done|]; split; [|by intros [? ?]];
    simpl; intros; simplify_eq; unfold template_ok; auto.
  apply bind_Ok in Hk as (d' & Hd' & [= <-]). simpl.
  destruct (template_update_hash _ _ _ _ Hd') as [Hc Ht]. split_and!.
  - exists d, d'. split_and!; [done|done| |].
    + split; [done|]. split; [intros _; right; by right|]. by apply template_update_identity.
    + intros [_ [?|[?|?]]]; done.
  - intros q d0 [= <-]. rewrite list_lookup_insert_eq by (by eapply lookup_lt_Some).
    intros [= <-]. right. by right.
  - intros _ q d0 [= <-]. rewrite list_lookup_insert_eq by (by eapply lookup_lt_Some).
    by intros [= <-].
Qed.

Lemma pass_step h ups h1 r :
  pass_rel h ups h1 -> check_result h1 r -> (forall p, r.1 = Some p -> p ∉ ups) ->
  pass_rel h (ups ++ option_list r.1) r.2.
Proof.
  intros [Hl Hnd Hs Hu] Hr Hn. unfold check_result in Hr. destruct r as [[p|] h2]; simpl in *.
  2: { subst. rewrite app_nil_r. by split. }
  destruct Hr as (d & d' & Hd & -> & Href & Hold). specialize (Hn p eq_refl). split.
  - by rewrite length_insert.
  - apply NoDup_app. split_and!; [done| |apply NoDup_singleton].
    by intros q Hq ->%list_elem_of_singleton.
  - intros q Hq. apply not_elem_of_app in Hq as [Hq Hq'].
    rewrite list_lookup_insert_ne; [by apply Hs|]. intros ->. apply Hq'. by left.
  - intros q [Hq|Hq%list_elem_of_singleton]%elem_of_app.
    + rewrite list_lookup_insert_ne by (by intros ->). by apply Hu.
    + subst q. exists d, d'. rewrite <- Hs by done.
      rewrite list_lookup_insert_eq by (by eapply lookup_lt_Some). done.
Qed.

(** Up-to-date builds stay so. *)
Lemma at_build_kept P b h ups h' :
  (forall d d', refreshes d d' -> P d -> P d') ->
  pass_rel h ups h' -> at_build P b h -> at_build P b h'.
Proof.
  intros HP [_ _ Hs Hu] Hb p d Hp Hd. destruct (decide (p ∈ ups)) as [Hin|Hin].
  - destruct (Hu p Hin) as (d0 & d' & Hd0 & Hd' & Href & _). simplify_eq.
    eapply HP; [done|]. by eapply Hb.
  - rewrite Hs in Hd by done. by eapply Hb.
Qed.

(** Every Deployment is what it was before. *)
Lemma pass_identity h ups h' p d' :
  pass_rel h ups h' -> h' !! p = Some d' -> exists d, h !! p = Some d /\ keeps_identity d d'.
Proof.
  intros [_ _ Hs Hu] Hd'. destruct (decide (p ∈ ups)) as [Hin|Hin].
  - destruct (Hu p Hin) as (d0 & d1 & Hd0 & Hd1 & (_ & _ & Hm) & _). simplify_eq. by exists d0.
  - rewrite Hs in Hd' by done. by exists d'.
Qed.

(** The invariant of [getUpdateDeployments]; [done] are the builds whose
    connection check was passed. *)
Record update_inv (h : Store) (tmpl done : string -> Prop) (st : UpdateState) : Prop := {
  ui_rel : pass_rel h (us_updateDeployments st) (us_store st);
  ui_marked b : b ∈ us_updatedBuildIDs st -> at_build conn_ok b (us_store st);
  ui_done b : done b -> at_build conn_ok b (us_store st);
  ui_tmpl b : tmpl b -> at_build template_ok b (us_store st);
}.

Lemma runCheck_inv check b h tmpl don P Q st st' :
  update_inv h tmpl don st ->
  (forall r, check (us_store st) = Ok r ->
     check_result (us_store st) r /\
     (forall p, r.1 = Some p -> p ∉ us_updateDeployments st) /\
     (is_Some r.1 -> at_build conn_ok b r.2) /\
     (P -> at_build conn_ok b r.2) /\ (Q -> at_build template_ok b r.2)) ->
  runCheck check b st = Ok st' ->
  update_inv h (fun b' => tmpl b' \/ (b' = b /\ Q)) (fun b' => don b' \/ (b' = b /\ P)) st'.
Proof.
  intros [Hrel Hm Hd Ht] Hc. unfold runCheck. intros (r & Hr & [= <-])%bind_Ok.
  destruct (Hc r Hr) as (Hcr & Hnew & Hsome & HP & HQ).
  pose proof (pass_step _ _ _ _ Hrel Hcr Hnew) as Hrel'.
  assert (pass_rel (us_store st) (option_list r.1) r.2) as Hone.
  { apply (pass_step _ [] _ _ (pass_refl _) Hcr). intros p _. apply not_elem_of_nil. }
  assert (forall b', at_build conn_ok b' (us_store st) -> at_build conn_ok b' r.2) as Hkc.
  { intros b'. eapply at_build_kept; [|done]. by intros d d' [? _]. }
  assert (forall b', at_build template_ok b' (us_store st) -> at_build template_ok b' r.2) as Hkt.
  { intros b'. eapply at_build_kept; [|done]. by intros d d' (_ & ? & _). }
  destruct r as [[p|] h2]; simpl in *; [|rewrite app_nil_r in Hrel'];
    (split; simpl; [done| | |]).
  - intros b' [->%elem_of_singleton|Hb']%elem_of_union; [by apply Hsome|by apply Hkc, Hm].
  - intros b' [Hb'|[-> HPt]]; [by apply Hkc, Hd|by apply HP].
  - intros b' [Hb'|[-> HQt]]; [by apply Hkt, Ht|by apply HQ].
  - intros b' Hb'. by apply Hkc, Hm.
  - intros b' [Hb'|[-> HPt]]; [by apply Hkc, Hd|by apply HP].
  - intros b' [Hb'|[-> HQt]]; [by apply Hkt, Ht|by apply HQ].
Qed.

Lemma update_inv_weaken h tmpl don tmpl' don' st :
  update_inv h tmpl don st -> (forall b, tmpl' b -> tmpl b) -> (forall b, don' b -> don b) ->
  update_inv h tmpl' don' st.
Proof. intros [] Ht Hd. split; eauto. Qed.

Lemma connectionCheck_inv b h tmpl don st st' :
  update_inv h tmpl don st -> connectionCheck ks c b st = Ok st' ->
  update_inv h tmpl (fun b' => don b' \/ b' = b) st'.
Proof.
  intros Hinv. unfold connectionCheck. case_decide as Hb.
  - intros [= <-]. destruct Hinv as [? Hm Hd ?]. split; try done.
    intros b' [?| ->]; [by apply Hd|by apply Hm].
  - intros Hr. eapply update_inv_weaken.
    + eapply (runCheck_inv _ b h tmpl don True False); [exact Hinv| |exact Hr].
      intros r Hcr. destruct (connection_check_result _ _ _ Hcr) as [Hres Hat].
      split_and!; [done| |done|done|done].
      intros p Hp Hin. unfold check_result in Hres. rewrite Hp in Hres.
      destruct Hres as (d & d' & Hd & _).
      destruct (pr_updated _ _ _ (ui_rel _ _ _ _ Hinv) p Hin) as (d0 & d1 & _ & Hd1 & [Hok _] & _).
      unfold checkAndUpdateDeploymentConnectionSpec in Hcr.
      destruct (Deployments ks !! b) as [q|]; [|by injection Hcr as <-].
      apply bind_Ok in Hcr as (d2 & Hd2%deref_Ok & Hk). case_decide as Hc.
      * injection Hk as <-. discriminate.
      * apply bind_Ok in Hk as (d3 & _ & [= <-]). by simplify_eq/=.
    + intros b' ?. by left.
    + intros b' [?| ->]; [by left|by right].
Qed.

(** The builds a status names. *)
Definition named_build (status : TemporalWorkerDeploymentStatus) (b : string) : Prop :=
  (b = BuildID (TargetVersion status) /\ b <> EmptyString) \/
  (exists v, CurrentVersion status = Some v /\ b = BuildID v /\ b <> EmptyString) \/
  (exists v, v ∈ DeprecatedVersions status /\ b = BuildID (dep_base v)).

Lemma connectionCheck_range vs i h tmpl don st st' :
  update_inv h tmpl don st ->
  range_from (fun _ version => connectionCheck ks c (BuildID version)) i vs st = Ok st' ->
  update_inv h tmpl (fun b => don b \/ b ∈ (BuildID <$> vs)) st'.
Proof.
  revert i don st. induction vs as [|v vs IH]; intros i don st Hinv; simpl.
  - intros [= <-]. eapply update_inv_weaken; [done|auto|].
    intros b [?|?%not_elem_of_nil]; done.
  - intros (st1 & H1 & Hr)%bind_Ok. eapply update_inv_weaken.
    + eapply IH; [|exact Hr]. eapply connectionCheck_inv; [exact Hinv|exact H1].
    + done.
    + intros b [?|[->|?]%elem_of_cons]; [by left; left|by left; right|by right].
Qed.

Lemma getUpdateDeployments_pass status h ups h' :
  getUpdateDeployments ks status spec c h = Ok (ups, h') ->
  pass_rel h ups h' /\
  (forall b, named_build status b -> at_build conn_ok b h') /\
  (BuildID (TargetVersion status) <> EmptyString ->
   at_build template_ok (BuildID (TargetVersion status)) h').
Proof.
  unfold getUpdateDeployments. intros (st1 & H1 & Hk)%bind_Ok.
  apply bind_Ok in Hk as (st2 & H2 & Hk). apply bind_Ok in Hk as (st3 & H3 & Hk).
  apply bind_Ok in Hk as (st4 & H4 & [= <- <-]).
  set (target := BuildID (TargetVersion status)) in *.
  assert (update_inv h (fun b => b = target /\ target <> EmptyString) (fun _ => False) st1) as I1.
  { assert (update_inv h (fun _ => False) (fun _ => False) (mkUpdateState [] ∅ h)) as I0.
    { split; [apply pass_refl| |done|done]. intros b Hb. by apply not_elem_of_empty in Hb. }
    case_decide as Ht; [injection H1 as <-; eapply update_inv_weaken; [done| |]; naive_solver|].
    eapply update_inv_weaken.
    - eapply (runCheck_inv _ target h _ _ False True); [exact I0| |exact H1].
      intros r Hr. destruct (template_check_result _ _ _ Hr) as (? & ? & ?).
      split_and!; try done. intros p _. apply not_elem_of_nil.
    - naive_solver.
    - naive_solver. }
  assert (update_inv h (fun b => b = target /\ target <> EmptyString)
            (fun b => b = target /\ b <> EmptyString) st2) as I2.
  { case_decide; [injection H2 as <-|apply (connectionCheck_inv _ _ _ _ _ _ I1) in H2];
      (eapply update_inv_weaken; [done| |]); naive_solver. }
  assert (update_inv h (fun b => b = target /\ target <> EmptyString)
            (fun b => (b = target /\ b <> EmptyString) \/
               (exists v, CurrentVersion status = Some v /\ b = BuildID v /\ b <> EmptyString))
            st3) as I3.
  { destruct (CurrentVersion status) as [v|].
    - case_decide; [injection H3 as <-|apply (connectionCheck_inv _ _ _ _ _ _ I2) in H3];
        (eapply update_inv_weaken; [done| |]); naive_solver.
    - injection H3 as <-. eapply update_inv_weaken; [done| |]; naive_solver. }
  apply (connectionCheck_range _ _ _ _ _ _ _ I3) in H4. split_and!.
  - apply H4.
  - intros b Hb. apply (ui_done _ _ _ _ H4). destruct Hb as [?|[?|(v & Hv & ->)]]; [auto..|].
    right. apply list_elem_of_fmap. exists (dep_base v). split; [done|].
    by apply list_elem_of_fmap_2.
  - intros Ht. by apply (ui_tmpl _ _ _ _ H4).
Qed.

(** ** The second pass *)

Lemma connectionCheck_idle b st :
  at_build conn_ok b (us_store st) ->
  (forall p, Deployments ks !! b = Some p -> is_Some (us_store st !! p)) ->
  connectionCheck ks c b st = Ok st.
Proof.
  intros Hok Hp. unfold connectionCheck. case_decide; [done|].
  unfold runCheck, checkAndUpdateDeploymentConnectionSpec, load.
  destruct (Deployments ks !! b) as [p|] eqn:Eb; [|by destruct st].
  destruct (Hp p eq_refl) as [d Hd]. rewrite Hd. simpl. rewrite decide_True; [by destruct st|].
  symmetry. by eapply Hok.
Qed.

Lemma templateCheck_idle b st :
  at_build template_ok b (us_store st) ->
  (forall p, Deployments ks !! b = Some p -> is_Some (us_store st !! p)) ->
  runCheck (checkAndUpdateDeploymentPodTemplateSpec b ks spec c) b st = Ok st.
Proof.
  intros Hok Hp. unfold runCheck, checkAndUpdateDeploymentPodTemplateSpec, load.
  destruct (Deployments ks !! b) as [p|] eqn:Eb; [|by destruct st].
  destruct (Hp p eq_refl) as [d Hd]. rewrite Hd. simpl. unfold template_ok in Hok.
  specialize (Hok p d Eb Hd). unfold template_hash in Hok.
  destruct (decide (UnsafeCustomBuildID _ = _)); [by destruct st|].
  destruct (decide (gm_get _ _ = EmptyString)); [by destruct st|].
  rewrite decide_True; [by destruct st|]. naive_solver.
Qed.

Lemma getUpdateDeployments_idle status h ups h' :
  (forall b p, Deployments ks !! b = Some p -> is_Some (h !! p)) ->
  getUpdateDeployments ks status spec c h = Ok (ups, h') ->
  getUpdateDeployments ks status spec c h' = Ok ([], h').
Proof.
  intros Hp Hr. destruct (getUpdateDeployments_pass _ _ _ _ Hr) as (Hrel & Hc & Ht).
  assert (forall b p, Deployments ks !! b = Some p -> is_Some (h' !! p)) as Hp'.
  { intros b p Hb. apply lookup_lt_is_Some. rewrite (pr_length _ _ _ Hrel).
    apply lookup_lt_is_Some. by eapply Hp. }
  unfold getUpdateDeployments. set (st := mkUpdateState [] ∅ h').
  assert (forall b, named_build status b -> connectionCheck ks c b st = Ok st) as Hidle.
  { intros b Hb. apply connectionCheck_idle; [by apply Hc|apply Hp']. }
  assert ((if decide (BuildID (TargetVersion status) = EmptyString) then Ok st
           else runCheck (checkAndUpdateDeploymentPodTemplateSpec
                            (BuildID (TargetVersion status)) ks spec c)
                  (BuildID (TargetVersion status)) st) = Ok st) as ->.
  { case_decide; [done|]. apply templateCheck_idle; [by apply Ht|apply Hp']. }
  simpl.
  assert ((if decide (BuildID (TargetVersion status) = EmptyString) then Ok st
           else connectionCheck ks c (BuildID (TargetVersion status)) st) = Ok st) as ->.
  { case_decide; [done|]. apply Hidle. by left. }
  simpl.
  assert (match CurrentVersion status with
          | Some current =>
              if decide (BuildID current = EmptyString) then Ok st
              else connectionCheck ks c (BuildID current) st
          | None => Ok st
          end = Ok st) as ->.
  { destruct (CurrentVersion status) as [v|] eqn:Ev; [|done]. case_decide; [done|].
    apply Hidle. right. left. by exists v. }
  simpl.
  destruct (range_total (fun _ version => connectionCheck ks c (BuildID version))
              (fun st' => st' = st) (dep_base <$> DeprecatedVersions status) st)
    as (st' & Hst & ->); [|done|].
  - intros j x t (v & -> & Hv)%list_elem_of_fmap ->. exists st. split; [|done].
    apply Hidle. right. right. by exists v.
  - by rewrite Hst.
Qed.

(** C24: One pass brings everything up to date, and a second one has nothing to
    do.  [getUpdateDeployments] returns each updated Deployment once, updates
    only Deployments whose connection hash or (for a user-chosen build ID)
    template hash was stale, never touches their metadata or selector, keeps the
    labels the selector asks for, and leaves every other Deployment of the store
    as it was; afterwards the Deployment of every version named by the status
    carries the hash of the connection and the target's needs no rolling update;
    and run again on that store, with the same status, spec and connection, it
    updates nothing. *)
Theorem getUpdateDeployments_spec status h ups h' :
  (forall b p, Deployments ks !! b = Some p -> is_Some (h !! p)) ->
  getUpdateDeployments ks status spec c h = Ok (ups, h') ->
  pass_rel h ups h' /\
  (forall b, named_build status b -> at_build conn_ok b h') /\
  (BuildID (TargetVersion status) <> EmptyString ->
   at_build template_ok (BuildID (TargetVersion status)) h') /\
  getUpdateDeployments ks status spec c h' = Ok ([], h').
Proof.
  intros Hp Hr. destruct (getUpdateDeployments_pass _ _ _ _ Hr) as (? & ? & ?).
  split_and!; [done..|]. by eapply getUpdateDeployments_idle.
Qed.
End Pass.
End WithLib.
