(* ===== verification/IdentityProps.v ===== *)
(** * Theorems on identities: names, and what the workers are told to be

    Distinct resources manage distinct worker deployments; when the name of a
    versioned Deployment is a valid object name; and the round trip through the
    environment: the worker deployment and build ID written into the pods of a
    new Deployment are what every later update of it reads back and writes
    again. *)

From stdpp Require Import base gmap sets list strings.
From Stdlib Require Import ZArith Lia Ascii.
From S2P Require Import Prelude GoStd Api K8s K8sProps Trace World Worker TestHelpers.
From S2P Require Import Temporal Planner UpdateProps.
Local Open Scope Z_scope.

(** ** Names of worker deployments *)

Definition no_separator (s : string) : Prop := Forall (fun a => a <> "/"%char) (chars s).

Lemma split_at_separator (a : ascii) l1 l2 r1 r2 :
  Forall (fun x => x <> a) l1 -> Forall (fun x => x <> a) l2 ->
  l1 ++ a :: r1 = l2 ++ a :: r2 -> l1 = l2 /\ r1 = r2.
Proof.
  intros H1. revert l2. induction H1 as [|x l1 Hx _ IH]; intros l2 H2 Heq.
  - destruct H2 as [|y l2 Hy _]; simpl in Heq; [by injection Heq|]. by injection Heq as <- _.
  - destruct H2 as [|y l2 Hy H2]; simpl in Heq; [by injection Heq as <- _|].
    injection Heq as <- Heq. by destruct (IH l2 H2 Heq) as [-> ->].
Qed.

(** Two resources with the same worker deployment are the same resource: the
    namespace cannot contain the separator. *)
Lemma worker_deployments_distinct w1 w2 :
  no_separator (om_Namespace (twd_ObjectMeta w1)) ->
  no_separator (om_Namespace (twd_ObjectMeta w2)) ->
  ComputeWorkerDeploymentName w1 = ComputeWorkerDeploymentName w2 ->
  om_Namespace (twd_ObjectMeta w1) = om_Namespace (twd_ObjectMeta w2) /\
  om_Name (twd_ObjectMeta w1) = om_Name (twd_ObjectMeta w2).
Proof.
  unfold ComputeWorkerDeploymentName. intros H1 H2 Heq%(f_equal chars).
  rewrite !list_of_append in Heq. change (chars WorkerDeploymentNameSeparator) with ["/"%char] in Heq.
  apply split_at_separator in Heq as [Hn Hm]; [|done..].
  split; by apply string_eq_list.
Qed.

(** ** Names of versioned Deployments *)

Definition is_upper (a : ascii) : bool :=
  let n := nat_of_ascii a in (65 <=? n)%nat && (n <=? 90)%nat.

(** The names Kubernetes accepts: lower-case letters, digits, dashes and dots,
    with alphanumeric ends, at most 253 characters. *)
Definition valid_object_name (s : string) : bool :=
  let l := chars s in
  negb (bool_decide (l = [])) && (length l <=? 253)%nat
  && forallb (fun a => (dns_char a || bool_decide (a = "."%char)) && negb (is_upper a)) l
  && ends_ok (head l) && ends_ok (last l).

Definition lower_case (s : string) : bool := forallb (fun a => negb (is_upper a)) (chars s).

Lemma replace_runs_head ok a l : ok a = true -> head (replace_runs ok false (a :: l)) = Some a.
Proof. simpl. by intros ->. Qed.

Lemma replace_runs_last ok a l b : ok a = true -> last (replace_runs ok b (l ++ [a])) = Some a.
Proof.
  intros Ha. rewrite (replace_runs_break ok b l a [] Ha). apply last_snoc.
Qed.

(** Replacing puts dashes where characters were, and keeps the others. *)
Lemma replace_runs_elem ok b l a :
  a ∈ replace_runs ok b l -> a = "-"%char \/ a ∈ l /\ ok a = true.
Proof.
  revert b. induction l as [|c l IH]; intros b; simpl; [by intros ?%not_elem_of_nil|].
  destruct (ok c) eqn:Ec; [|destruct b]; rewrite ?elem_of_cons; intros H.
  - destruct H as [->|H]; [right; split; [by left|done]|].
    destruct (IH _ H) as [?|[? ?]]; [by left|right; split; [by right|done]].
  - destruct (IH _ H) as [?|[? ?]]; [by left|right; split; [by right|done]].
  - destruct H as [->|H]; [by left|].
    destruct (IH _ H) as [?|[? ?]]; [by left|right; split; [by right|done]].
Qed.

Lemma replace_runs_keeps ok b l a : a ∈ l -> ok a = true -> a ∈ replace_runs ok b l.
Proof.
  intros Hin Ha. revert b.
  induction l as [|c l IH]; intros b; [by apply not_elem_of_nil in Hin|]. simpl.
  apply elem_of_cons in Hin as [->|Hin]; [rewrite Ha; by left|].
  destruct (ok c); [right; by apply IH|]. destruct b; [by apply IH|right; by apply IH].
Qed.

Lemma is_upper_dns a : is_upper a = true -> dns_char a = true.
Proof.
  assert (forall a, implb (is_upper a) (dns_char a) = true) as H
    by (apply ascii_forall; vm_compute; reflexivity).
  intros Hu. specialize (H a). by rewrite Hu in H.
Qed.

(** The upper-case letters of a cleaned string are those of the original. *)
Lemma CleanStringForDNS_lower s : lower_case (CleanStringForDNS s) = lower_case s.
Proof.
  unfold CleanStringForDNS, ReplaceAllString, lower_case. rewrite chars_string.
  apply eq_bool_prop_intro. rewrite !Is_true_true, !forallb_forall.
  split; intros H a; rewrite <- list_elem_of_In; intros Ha.
  - destruct (is_upper a) eqn:Eu; [|done]. specialize (H a). rewrite Eu in H.
    apply H, list_elem_of_In, replace_runs_keeps; [done|by apply is_upper_dns].
  - apply replace_runs_elem in Ha as [->|[Ha _]]; [done|]. by apply H, list_elem_of_In.
Qed.

Lemma CleanStringForDNS_length s : (String.length (CleanStringForDNS s) <= String.length s)%nat.
Proof.
  unfold CleanStringForDNS, ReplaceAllString.
  rewrite string_of_list_length, string_length_list. apply replace_runs_length.
Qed.

Lemma is_alnum_dns a : is_alnum a = true -> dns_char a = true.
Proof. unfold dns_char. by intros ->. Qed.

Lemma CleanStringForDNS_head s a :
  head (chars s) = Some a -> is_alnum a = true -> head (chars (CleanStringForDNS s)) = Some a.
Proof.
  unfold CleanStringForDNS, ReplaceAllString. rewrite chars_string.
  destruct (chars s) as [|a' l]; [done|]. intros [= ->] Ha.
  by apply replace_runs_head, is_alnum_dns.
Qed.

Lemma CleanStringForDNS_last s a :
  last (chars s) = Some a -> is_alnum a = true -> last (chars (CleanStringForDNS s)) = Some a.
Proof.
  unfold CleanStringForDNS, ReplaceAllString. rewrite chars_string.
  intros (l & ->)%last_Some Ha. by apply replace_runs_last, is_alnum_dns.
Qed.

(** The characters of a cleaned string are allowed, but for their case. *)
Lemma CleanStringForDNS_name_chars s :
  forallb (fun a => (dns_char a || bool_decide (a = "."%char)) && negb (is_upper a))
    (chars (CleanStringForDNS s)) = lower_case (CleanStringForDNS s).
Proof.
  pose proof (CleanStringForDNS_chars s) as Hall. unfold Forall_chars, lower_case in *.
  induction Hall as [|x l Hx _ IH]; simpl; [done|]. by rewrite Hx, IH.
Qed.

(** C30: The name of a versioned Deployment is a valid object name exactly when
    the build ID has no upper-case letter: for a valid resource name of at most
    63 characters and a build ID that is a valid label value, cleaning leaves
    only characters that are allowed but keeps the case, so an image tag such as
    RC1 gives a Deployment the API server cannot accept. *)
Theorem versioned_name_valid base b :
  valid_object_name base = true -> (String.length base <= 63)%nat ->
  valid_label b = true -> b <> EmptyString ->
  valid_object_name (ComputeVersionedDeploymentName base b) = lower_case b.
Proof.
  intros Hbase Hlen Hb Hne. rewrite <- (CleanStringForDNS_lower b).
  unfold valid_object_name in Hbase. rewrite !andb_true_iff in Hbase.
  destruct Hbase as [[[[Hbne _] Hbc] Hbh] _].
  unfold valid_label in Hb. rewrite !andb_true_iff in Hb. destruct Hb as [[[Hbl _] _] Hbe].
  apply Nat.leb_le in Hbl. rewrite <- string_length_list in Hbl.
  assert (lower_case (CleanStringForDNS base) = true) as Hlow.
  { rewrite CleanStringForDNS_lower. unfold lower_case. rewrite forallb_forall in Hbc |- *.
    intros a Ha. specialize (Hbc a Ha). by apply andb_true_iff in Hbc as [_ ?]. }
  rewrite ComputeVersionedDeploymentName_app. unfold valid_object_name.
  rewrite !list_of_append. change (chars "-") with ["-"%char]. simpl app.
  set (cb := chars (CleanStringForDNS base)). set (cc := chars (CleanStringForDNS b)).
  assert (exists a, head (cb ++ "-"%char :: cc) = Some a /\ is_alnum a = true) as (a & -> & Ha).
  { destruct (head (chars base)) as [a|] eqn:Ea; [|destruct (chars base); done].
    exists a. split; [|exact Hbh]. pose proof (CleanStringForDNS_head _ _ Ea Hbh) as Hh.
    fold cb in Hh. destruct cb; [done|exact Hh]. }
  assert (exists a, last (cb ++ "-"%char :: cc) = Some a /\ is_alnum a = true) as (z & -> & Hz).
  { destruct (last (chars b)) as [z|] eqn:Ez.
    - exists z. split; [|exact Hbe]. pose proof (CleanStringForDNS_last _ _ Ez Hbe) as Hl.
      fold cc in Hl. rewrite last_app, last_cons, Hl. done.
    - apply last_None in Ez. destruct Hne. by apply string_eq_list. }
  simpl. rewrite Ha, Hz, !andb_true_r.
  assert (bool_decide (cb ++ "-"%char :: cc = []) = false) as ->.
  { apply bool_decide_eq_false. intros H. by apply app_eq_nil in H as [_ ?]. }
  assert ((length (cb ++ "-"%char :: cc) <=? 253)%nat = true) as ->.
  { apply Nat.leb_le. rewrite length_app. simpl. unfold cb, cc.
    rewrite <- !string_length_list.
    pose proof (CleanStringForDNS_length base). pose proof (CleanStringForDNS_length b). lia. }
  simpl. rewrite forallb_app. simpl. unfold cb, cc.
  by rewrite !CleanStringForDNS_name_chars, Hlow.
Qed.

(** An image tag in capitals. *)
Lemma versioned_name_valid_witness :
  valid_object_name (ComputeVersionedDeploymentName "foo" "rc1-abcd") = true /\
  valid_object_name (ComputeVersionedDeploymentName "foo" "RC1-abcd") = false.
Proof.
  split; rewrite versioned_name_valid; try (vm_compute; reflexivity); try discriminate;
    vm_compute; lia.
Defined.

(** ** What the workers are told to be *)

(** The last definition of a variable in a container is the plain value [v]. *)
Definition defines (x v : string) (k : Container) : Prop :=
  exists e, last (filter (fun e => env_Name e = x) (c_Env k)) = Some e /\
    env_Value e = v /\ env_ValueFrom e = None.

(** The environment in which Kubernetes starts a container: of several
    definitions of a variable the last one counts.  (Kubernetes also expands
    [$(VAR)] in values; object names and cleaned build IDs have no dollar sign.) *)
Class Kubelet := { process_env : Container -> environ }.

Class KubeletLaws (K : Kubelet) := {
  process_env_last k x v : defines x v k -> process_env k x = Some v;
}.

Definition nameVar : string := "TEMPORAL_DEPLOYMENT_NAME".
Definition buildVar : string := "TEMPORAL_WORKER_BUILD_ID".

(** The pods of [d] run workers of the version [b] of [name]: every container
    gets both variables, and [findWorkerDeploymentName] finds the name. *)
Record identified (name b : string) (d : Deployment) : Prop := {
  id_read : findWorkerDeploymentName EmptyString (d_containers d) = name;
  id_label : gm_get (om_Labels (d_ObjectMeta d)) BuildIDLabel = b;
  id_name k : k ∈ d_containers d -> defines nameVar name k;
  id_build k : k ∈ d_containers d -> defines buildVar b k;
}.

(** A pod template whose first container leaves the name to the controller. *)
Definition leaves_name (template : PodTemplateSpec) : Prop :=
  exists k cs, ps_Containers (pts_Spec template) = k :: cs /\ ~ has_env nameVar k.

Section Identity.
Context `{L : K8sLib}.

(** The variables the controller appends, whatever the authentication. *)
Definition appended_env (c : TemporalConnectionSpec) (ns name b : string) : list EnvVar :=
  controllerEnv c ns name b
  ++ match MutualTLSSecretRef c, APIKeySecretRef c with
     | Some _, _ => tlsEnv
     | None, Some ref => apiKeyEnv ref
     | None, None => []
     end.

Lemma modified_env podSpec c ns name b :
  c_Env <$> ps_Containers (ApplyControllerPodSpecModifications podSpec c ns name b)
  = (fun k => c_Env k ++ appended_env c ns name b) <$> ps_Containers podSpec.
Proof.
  unfold ApplyControllerPodSpecModifications, appended_env.
  destruct (MutualTLSSecretRef c); [|destruct (APIKeySecretRef c)]; simpl;
    rewrite <- !list_fmap_compose; apply list_fmap_ext; intros _ x _; simpl;
    by rewrite <- ?app_assoc, ?app_nil_r.
Qed.

Lemma modified_elem podSpec c ns name b k :
  k ∈ ps_Containers (ApplyControllerPodSpecModifications podSpec c ns name b) ->
  exists own, c_Env k = own ++ appended_env c ns name b.
Proof.
  intros Hk. apply (list_elem_of_fmap_2 c_Env) in Hk. rewrite modified_env in Hk.
  apply list_elem_of_fmap in Hk as (k0 & Heq & _). by exists (c_Env k0).
Qed.

Lemma appended_value own c ns name b k :
  c_Env k = own ++ appended_env c ns name b ->
  defines nameVar name k /\ defines buildVar b k.
Proof.
  intros Heq. unfold defines. rewrite Heq, !filter_app, !last_app. unfold appended_env.
  destruct (MutualTLSSecretRef c), (APIKeySecretRef c); simpl; split; by eexists.
Qed.

Lemma find_app_some {A} (P : A -> bool) l1 l2 x :
  find P l1 = Some x -> find P (l1 ++ l2) = Some x.
Proof. induction l1 as [|y l1 IH]; simpl; [done|]. by destruct (P y). Qed.

Lemma modified_reads_user podSpec c ns name b k cs user :
  ps_Containers podSpec = k :: cs -> env_deployment_name (c_Env k) = Some user ->
  user <> EmptyString ->
  findWorkerDeploymentName EmptyString
    (ps_Containers (ApplyControllerPodSpecModifications podSpec c ns name b)) = user.
Proof.
  intros Hk Henv Huser.
  destruct (modified_first_env podSpec c ns name b k cs Hk) as (k' & cs' & ext & -> & Hk').
  simpl. rewrite Hk'. unfold env_deployment_name in *.
  destruct (find _ (c_Env k)) as [e|] eqn:Ef; [|done]. rewrite (find_app_some _ _ _ _ Ef).
  injection Henv as <-. simpl. by rewrite decide_False.
Qed.

Lemma created_identified tm om spec name b c :
  leaves_name (spec_Template spec) -> name <> EmptyString -> (String.length b <= 63)%nat ->
  identified name b (NewDeploymentWithOwnerRef tm om spec name b c).
Proof.
  intros (k & cs & Hk & Henv) Hname Hb. split.
  - by eapply modified_reads_name.
  - unfold gm_get. simpl. by rewrite build_label_selector.
  - intros k' (own & Heq)%modified_elem. by eapply appended_value.
  - intros k' (own & Heq)%modified_elem. by eapply appended_value.
Qed.

(** A rolling update writes what it read. *)
Lemma template_update_identified name b d spec c d' :
  leaves_name (spec_Template spec) -> name <> EmptyString -> identified name b d ->
  updateDeploymentWithPodTemplateSpec d spec c = Ok d' -> identified name b d'.
Proof.
  intros (k & cs & Hk & Henv) Hname [Hr Hl _ _] (sel & _ & [= <-])%bind_Ok.
  unfold d_containers in Hr. split; simpl; rewrite ?Hr, ?Hl.
  - unfold d_containers. simpl. by eapply modified_reads_name.
  - done.
  - intros k' (own & Heq)%modified_elem. by eapply appended_value.
  - intros k' (own & Heq)%modified_elem. by eapply appended_value.
Qed.

Lemma set_address_env_name hp e : env_Name (set_address_env hp e) = env_Name e.
Proof. unfold set_address_env. by case_decide. Qed.

(** A connection update leaves both variables alone. *)
Lemma set_address_defines x v hp k :
  x <> "TEMPORAL_ADDRESS" -> defines x v k -> defines x v (set_address hp k).
Proof.
  intros Hx (e & He & Hv). exists e. split; [|done]. unfold set_address. simpl. rewrite <- He.
  clear e He Hv. induction (c_Env k) as [|e env IH] using rev_ind; [done|].
  rewrite fmap_app, !filter_app, !last_app. simpl. rewrite !filter_cons.
  destruct (decide (env_Name e = x)) as [He|He].
  - assert (set_address_env hp e = e) as -> by (unfold set_address_env; rewrite decide_False; [done|by rewrite He]).
    by rewrite decide_True.
  - rewrite decide_False by (by rewrite set_address_env_name). exact IH.
Qed.

Lemma set_address_reads hp acc cs :
  findWorkerDeploymentName acc (set_address hp <$> cs) = findWorkerDeploymentName acc cs.
Proof.
  assert (forall env, env_deployment_name (set_address_env hp <$> env)
                      = env_deployment_name env) as Henv.
  { unfold env_deployment_name. induction env as [|e env IH]; simpl; [done|].
    rewrite set_address_env_name. case_bool_decide as He; [|exact IH]. simpl.
    unfold set_address_env. by rewrite He. }
  revert acc. induction cs as [|k cs IH]; intros acc; simpl; [done|].
  rewrite Henv. by case_decide.
Qed.

Lemma connection_update_identified name b d c d' :
  identified name b d -> updateDeploymentWithConnection d c = Ok d' -> identified name b d'.
Proof.
  intros [Hr Hl Hn Hb] (a & _ & [= <-])%bind_Ok. split; unfold d_containers in *; simpl.
  - by rewrite set_address_reads.
  - done.
  - intros k (k0 & -> & Hk)%list_elem_of_fmap. apply set_address_defines; [done|by apply Hn].
  - intros k (k0 & -> & Hk)%list_elem_of_fmap. apply set_address_defines; [done|by apply Hb].
Qed.

(** Any sequence of updates. *)
Inductive updated (d : Deployment) : Deployment -> Prop :=
  | updated_none : updated d d
  | updated_template d1 spec c d2 :
      updated d d1 -> leaves_name (spec_Template spec) ->
      updateDeploymentWithPodTemplateSpec d1 spec c = Ok d2 -> updated d d2
  | updated_connection d1 c d2 :
      updated d d1 -> updateDeploymentWithConnection d1 c = Ok d2 -> updated d d2.

(** A worker process in a pod of an identified Deployment. *)
Lemma identified_workers `{K : Kubelet} `{!KubeletLaws K} `{WorkerLib} name b d k l o evs w :
  identified name b d -> k ∈ d_containers d ->
  main (process_env k) l = (o, l ++ evs) -> WoNew w ∈ evs ->
  wk_DeploymentOptions w
  = mkDeploymentOptions true (mkWorkerDeploymentVersion name b) VersioningBehaviorPinned.
Proof.
  intros [_ _ Hn Hb] Hk Hrun Hw.
  pose proof (main_workers _ _ _ _ Hrun) as Hall. rewrite Forall_forall in Hall.
  destruct (Hall _ Hw) as (name' & b' & _ & Hn' & Hb' & ->).
  pose proof (process_env_last _ _ _ (Hn k Hk)) as Hn2. unfold nameVar in Hn2.
  pose proof (process_env_last _ _ _ (Hb k Hk)) as Hb2. unfold buildVar in Hb2.
  by simplify_eq.
Qed.

(** C8: The identity of the workers survives every update, end to end: the
    worker deployment and build ID are kept in the pods' environment alone, from
    where each rolling update reads the name back and writes it again; so after
    any sequence of rolling updates and connection updates, of any templates whose
    first container leaves the name to the controller, the Deployment is still
    labelled with the build ID of its creation, and every worker that a demo
    worker process creates in one of its containers is a pinned worker of exactly
    that worker deployment and build ID. *)
Theorem worker_identity_roundtrip `{K : Kubelet} `{!KubeletLaws K} `{WorkerLib} tm om spec name b c d :
  leaves_name (spec_Template spec) -> name <> EmptyString -> (String.length b <= 63)%nat ->
  updated (NewDeploymentWithOwnerRef tm om spec name b c) d ->
  gm_get (om_Labels (d_ObjectMeta d)) BuildIDLabel = b /\
  forall k l o evs w, k ∈ d_containers d ->
    main (process_env k) l = (o, l ++ evs) -> WoNew w ∈ evs ->
    wk_DeploymentOptions w
    = mkDeploymentOptions true (mkWorkerDeploymentVersion name b) VersioningBehaviorPinned.
Proof.
  intros Hl Hname Hb Hup.
  assert (identified name b d) as Hid.
  { induction Hup as [|d1 spec1 c1 d2 _ IH Hl1 Hd2|d1 c1 d2 _ IH Hd2].
    - by apply created_identified.
    - by eapply template_update_identified.
    - by eapply connection_update_identified. }
  split; [apply (id_label _ _ _ Hid)|]. intros k l o evs w. by apply identified_workers.
Qed.

(** A template that defines the variable itself takes the name over at the first
    rolling update: until then the controller's later definition wins. *)
Theorem user_name_taken_over tm om spec0 spec name b c0 c k cs user :
  ps_Containers (pts_Spec (spec_Template spec0)) = k :: cs ->
  env_deployment_name (c_Env k) = Some user -> user <> EmptyString ->
  let d := NewDeploymentWithOwnerRef tm om spec0 name b c0 in
  (forall k', k' ∈ d_containers d -> defines nameVar name k') /\
  exists d', updateDeploymentWithPodTemplateSpec d spec c = Ok d' /\
    forall k', k' ∈ d_containers d' -> defines nameVar user k'.
Proof.
  intros Hk Henv Huser d. split.
  - intros k' (own & Heq)%modified_elem. by eapply appended_value.
  - unfold updateDeploymentWithPodTemplateSpec. simpl. eexists. split; [reflexivity|].
    intros k' (own & Heq)%modified_elem.
    rewrite (modified_reads_user _ _ _ _ _ _ _ _ Hk Henv Huser) in Heq.
    by eapply appended_value.
Qed.
(** ** The workers of the integration tests *)

Lemma getEnv_Ok template k cs x v :
  ps_Containers (pts_Spec template) = k :: cs ->
  getEnv template x = Ok v <->
  exists e, find (fun e => bool_decide (env_Name e = x)) (c_Env k) = Some e /\ env_Value e = v.
Proof.
  intros Hk. unfold getEnv, index. rewrite Hk. simpl.
  destruct (find _ (c_Env k)) as [e|]; split; [intros [= <-]; by exists e| |done|].
  - by intros (e' & [= <-] & <-).
  - by intros (e' & ? & _).
Qed.

(** The test worker reads back what the controller wrote: started from the pods
    of a Deployment the controller creates, it connects to the connection's
    address and the resource's Temporal namespace, polls the task queue of the
    user's template, and is a pinned worker of the worker deployment and build ID
    of that Deployment - provided the template's first container names its task
    queue and leaves the four variables to the controller. *)
Theorem test_worker_of_created `{WorkerLib} tm om spec name b c k cs tq l :
  ps_Containers (pts_Spec (spec_Template spec)) = k :: cs ->
  (forall x, x ∈ [nameVar; buildVar; "TEMPORAL_ADDRESS"; "TEMPORAL_NAMESPACE"] -> ~ has_env x k) ->
  getEnv (spec_Template spec) taskQueueEnvKey = Ok tq ->
  newVersionedWorker (d_Template (NewDeploymentWithOwnerRef tm om spec name b c)) l
  = NewWorker name b tq (HostPort c) (TemporalNamespace (spec_WorkerOptions spec)) true l.
Proof.
  intros Hk Hfree Htq.
  destruct (modified_first_env (pts_Spec (spec_Template spec)) c
              (TemporalNamespace (spec_WorkerOptions spec)) name b k cs Hk)
    as (k' & cs' & ext & Hcs & Hk').
  set (t := d_Template (NewDeploymentWithOwnerRef tm om spec name b c)).
  assert (ps_Containers (pts_Spec t) = k' :: cs') as Ht by exact Hcs.
  assert (forall x v, x ∈ [nameVar; buildVar; "TEMPORAL_ADDRESS"; "TEMPORAL_NAMESPACE"] ->
            find (fun e => bool_decide (env_Name e = x))
              (controllerEnv c (TemporalNamespace (spec_WorkerOptions spec)) name b ++ ext)
            = Some (plainEnv x v) -> getEnv t x = Ok v) as Hget.
  { intros x v Hx Hf. apply (getEnv_Ok t k' cs' x v Ht). exists (plainEnv x v).
    split; [|done]. rewrite Hk', find_app_none; [exact Hf|].
    intros e He. apply bool_decide_eq_false. intros Hn. apply (Hfree x Hx). by exists e. }
  assert (getEnv t taskQueueEnvKey = Ok tq) as Hq.
  { apply (getEnv_Ok _ k cs _ _ Hk) in Htq as (e & He & Hv).
    apply (getEnv_Ok t k' cs' _ _ Ht). exists e. split; [|done].
    rewrite Hk'. by apply find_app_some. }
  unfold newVersionedWorker.
  rewrite (Hget "TEMPORAL_DEPLOYMENT_NAME" name), (Hget "TEMPORAL_WORKER_BUILD_ID" b), Hq,
    (Hget "TEMPORAL_ADDRESS" (HostPort c)),
    (Hget "TEMPORAL_NAMESPACE" (TemporalNamespace (spec_WorkerOptions spec)));
    try reflexivity; unfold nameVar, buildVar; set_solver.
Qed.
End Identity.

Lemma demo_leaves_name image : leaves_name (demo_template image).
Proof.
  eexists _, []. split; [reflexivity|]. intros (e & He & _). by apply not_elem_of_nil in He.
Qed.

Definition demo_created : Deployment :=
  let w := demo_twd "v1" "app:v1" in
  NewDeploymentWithOwnerRef (twd_TypeMeta w) (twd_ObjectMeta w) (twd_Spec w) "ns/foo" "v1"
    (mkTemporalConnectionSpec "temporal:7233" None None).

Definition demo_address (hostPort : string) : TemporalConnectionSpec :=
  mkTemporalConnectionSpec hostPort None None.

(** A new image, then a new address. *)
Definition demo_final : Deployment :=
  match (d ← updateDeploymentWithPodTemplateSpec demo_created (twd_Spec (demo_twd "v1" "app:v2"))
               (demo_address "temporal:7233");
         updateDeploymentWithConnection d (demo_address "elsewhere:7233")) with
  | Ok d => d
  | _ => demo_created
  end.

Lemma demo_final_updated : updated demo_created demo_final.
Proof.
  eapply updated_connection with (c := demo_address "elsewhere:7233").
  - eapply updated_template with (spec := twd_Spec (demo_twd "v1" "app:v2"))
      (c := demo_address "temporal:7233"); [apply updated_none|apply demo_leaves_name|reflexivity].
  - reflexivity.
Qed.

(** A kubelet for containers whose image names a task queue and whose
    environment refers to no secret, and an SDK that always answers. *)
#[export] Instance demoKubelet : Kubelet := {|
  process_env k x :=
    match last (filter (fun e => env_Name e = x) (c_Env k)) with
    | Some e => Some (env_Value e)
    | None => if decide (x = "TEMPORAL_TASK_QUEUE") then Some "q" else None
    end;
|}.

#[export] Instance demoKubelet_laws : KubeletLaws demoKubelet.
Proof. split. intros k x v (e & He & <- & _). simpl. by rewrite He. Qed.

#[export] Instance demoWorkerLib : WorkerLib := {|
  prometheus_New := inl tt;
  envconfig_LoadDefaultClientOptions env :=
    inl (mkClientOptions EmptyString (os_Getenv_of env "TEMPORAL_ADDRESS")
           (os_Getenv_of env "TEMPORAL_NAMESPACE"));
  wl_Dial _ _ := inl 3%nat;
  wl_CheckHealth _ _ := inl tt;
  wl_ListWorkflow _ _ := inl tt;
  wl_Run _ _ := inl tt;
|}.

(** The process of the first container creates one worker. *)
Definition demo_container : Container :=
  default (mkContainer EmptyString EmptyString [] [] EmptyString) (head (d_containers demo_final)).

Definition demo_worker_log : list WorkerEvent := (main (process_env demo_container) []).2.

Lemma demo_worker_run :
  main (process_env demo_container) []
  = ((main (process_env demo_container) []).1, [] ++ demo_worker_log).
Proof. apply surjective_pairing. Qed.

Lemma worker_identity_roundtrip_witness :
  c_Image demo_container = "app:v2" /\
  exists w, WoNew w ∈ demo_worker_log /\
    wk_DeploymentOptions w
    = mkDeploymentOptions true (mkWorkerDeploymentVersion "ns/foo" "v1")
        VersioningBehaviorPinned.
Proof.
  split; [reflexivity|].
  assert (exists w, WoNew w ∈ demo_worker_log) as [w Hw].
  { eexists. vm_compute. do 4 right. left. }
  exists w. split; [exact Hw|].
  refine (proj2 (worker_identity_roundtrip _ _ _ _ _ _ demo_final _ _ _ demo_final_updated)
            demo_container [] _ demo_worker_log w _ demo_worker_run Hw).
  - apply demo_leaves_name.
  - discriminate.
  - vm_compute; lia.
  - left.
Defined.
