(* ===== verification/RolloutProps.v ===== *)
(** * Theorems on the progressive rollout

    [handleProgressiveRollout] on the steps the webhook accepts; then the
    rollout as a transition system - time passes, the controller polls, the
    server records ramps - with its safety (no step skipped or cut short before
    promotion) and its progress. *)

From stdpp Require Import base gmap sets list strings relations.
From Stdlib Require Import ZArith Lia.
From S2P Require Import Prelude GoStd Api Trace World Temporal Planner Webhook.
Local Open Scope Z_scope.

(** Steps the API accepts: growing ramps from 1 to 100, each a pause. *)
Definition rollout_steps (steps : list RolloutStep) : Prop :=
  valid_steps steps /\ Forall (fun s => step_RampPercentage s <= 100) steps.

(** ** The active step *)

Lemma ramps_above_lookup a steps i s :
  ramps_above a steps -> steps !! i = Some s -> a < step_RampPercentage s.
Proof.
  revert a i. induction steps as [|s0 steps IH]; intros a i; simpl; [done|].
  intros [Ha Hr]. destruct i as [|i]; simpl; [by intros [= <-]|].
  intros Hi. pose proof (IH _ _ Hr Hi). lia.
Qed.

Lemma ramps_above_mono a steps i j s s' :
  ramps_above a steps -> (i < j)%nat -> steps !! i = Some s -> steps !! j = Some s' ->
  step_RampPercentage s < step_RampPercentage s'.
Proof.
  revert a i j. induction steps as [|s0 steps IH]; intros a i j; simpl; [done|].
  intros [Ha Hr] Hij. destruct j as [|j]; [lia|]. destruct i as [|i]; simpl.
  - intros [= <-] Hj. by eapply ramps_above_lookup.
  - apply (IH _ _ _ Hr). lia.
Qed.

Lemma rollout_ramp steps i s :
  rollout_steps steps -> steps !! i = Some s -> 1 <= step_RampPercentage s <= 100.
Proof.
  intros [(_ & Hr & _) Hle] Hi. pose proof (ramps_above_lookup _ _ _ _ Hr Hi).
  rewrite Forall_lookup in Hle. pose proof (Hle _ _ Hi). simpl in *. lia.
Qed.

Lemma rollout_pause steps i s :
  rollout_steps steps -> steps !! i = Some s -> 30 * Second <= step_PauseDuration s.
Proof. intros [(_ & _ & Hp) _] Hi. rewrite Forall_lookup in Hp. by apply (Hp i). Qed.

(** The loop returns the last step before the first one above [q]. *)
Lemma currentStepFrom_spec i steps q r :
  0 <= q <= 100 -> Forall (fun s => 0 <= step_RampPercentage s <= 100) steps ->
  exists n, (n <= length steps)%nat /\
    currentStepFrom i steps (float32_of_Z q) r = (if n =? 0 then r else i + n - 1)%nat /\
    (forall k s, (k < n)%nat -> steps !! k = Some s -> step_RampPercentage s <= q) /\
    (forall s, steps !! n = Some s -> q < step_RampPercentage s).
Proof.
  intros Hq. revert i r. induction steps as [|s steps IH]; intros i r Hf; simpl.
  - exists 0%nat. split_and!; [done|done|intros; lia|done].
  - apply Forall_cons in Hf as [Hs Hf]. rewrite float32_gtb_percents by done.
    destruct (Z.ltb_spec q (step_RampPercentage s)) as [Hlt|Hge].
    + exists 0%nat. split_and!; [lia|done|intros; lia|]. by intros s' [= <-].
    + destruct (IH (S i) i Hf) as (n & Hn & -> & Hbefore & Hafter).
      exists (S n). split_and!; [lia| | |exact Hafter].
      * destruct n; simpl; [lia|]. lia.
      * intros [|k] s' Hk; simpl; [by intros [= <-]|]. apply Hbefore. lia.
Qed.

Lemma rollout_percents steps :
  rollout_steps steps -> Forall (fun s => 0 <= step_RampPercentage s <= 100) steps.
Proof.
  intros Hs. apply Forall_lookup. intros i s Hi. pose proof (rollout_ramp _ _ _ Hs Hi). lia.
Qed.

Lemma getCurrentStepIndex_spec steps q :
  rollout_steps steps -> 0 <= q <= 100 ->
  exists i s, getCurrentStepIndex steps (Some (float32_of_Z q)) = i /\ steps !! i = Some s /\
    (i = 0%nat \/ step_RampPercentage s <= q) /\
    (forall s', steps !! S i = Some s' -> q < step_RampPercentage s').
Proof.
  intros Hs Hq. unfold getCurrentStepIndex.
  destruct (currentStepFrom_spec 0 steps q 0 Hq (rollout_percents _ Hs))
    as (n & Hn & -> & Hb & Ha).
  destruct Hs as [(Hne & Hr & _) _].
  assert (0 < length steps)%nat by (destruct steps; [done|simpl; lia]).
  destruct n as [|n]; simpl.
  - destruct (lookup_lt_is_Some_2 steps 0) as [s Hs0]; [done|].
    exists 0%nat, s. split_and!; [done|done|by left|]. intros s' Hs'.
    pose proof (Ha _ Hs0). pose proof (ramps_above_mono _ _ 0 1 _ _ Hr ltac:(lia) Hs0 Hs'). lia.
  - rewrite Nat.sub_0_r. destruct (lookup_lt_is_Some_2 steps n) as [s Hsn]; [lia|].
    exists n, s. split_and!; [done|done| |apply Ha]. right. by apply (Hb n); [lia|].
Qed.

(** On a percentage of a step, that step is the active one. *)
Lemma active_unique steps i j s s' :
  rollout_steps steps -> steps !! i = Some s -> steps !! j = Some s' ->
  j = 0%nat \/ step_RampPercentage s' <= step_RampPercentage s ->
  (forall s2, steps !! S j = Some s2 -> step_RampPercentage s < step_RampPercentage s2) ->
  j = i.
Proof.
  intros [(_ & Hr & _) _] Hi Hj Hle Hnext.
  destruct (Nat.lt_trichotomy i j) as [Hlt|[->|Hgt]]; [|done|].
  - pose proof (ramps_above_mono _ _ _ _ _ _ Hr Hlt Hi Hj). destruct Hle; lia.
  - destruct (lookup_lt_is_Some_2 steps (S j)) as [s2 Hs2];
      [apply lookup_lt_Some in Hi; lia|].
    pose proof (Hnext _ Hs2). destruct (decide (i = S j)) as [->|Hne]; [simplify_eq; lia|].
    pose proof (ramps_above_mono _ _ (S j) i _ _ Hr ltac:(lia) Hs2 Hi). lia.
Qed.

(** ** One poll *)

(** What a poll wants: a ramp percentage or the promotion. *)
Definition ramp_to (vcfg : VersionConfig) (s : RolloutStep) : option VersionConfig :=
  Some (vc_set_RampPercentage (step_RampPercentage s) vcfg).
Definition promote (vcfg : VersionConfig) : option VersionConfig :=
  Some (vc_set_SetCurrent true vcfg).

(** The decision at the active step [s] with next step [next]. *)
Definition step_decision (now : Time) (modified : option Time) (q : Z) (s : RolloutStep)
    (next : option RolloutStep) (vcfg : VersionConfig) : option VersionConfig :=
  if decide (step_RampPercentage s = q) then
    match modified with
    | Some m =>
        if decide (m + step_PauseDuration s < now) then
          match next with
          | Some s' => ramp_to vcfg s'
          | None => promote vcfg
          end
        else None
    | None => None
    end
  else ramp_to vcfg s.

Lemma ramp_int32 steps i s :
  rollout_steps steps -> steps !! i = Some s ->
  int32 (step_RampPercentage s) = step_RampPercentage s.
Proof.
  intros Hs Hi. pose proof (rollout_ramp _ _ _ Hs Hi).
  apply int32_small. unfold in_int32. lia.
Qed.

Lemma rollout_nonempty steps : rollout_steps steps -> (length steps =? 0)%nat = false.
Proof. intros [(Hne & _) _]. by destruct steps. Qed.

(** The first poll. *)
Lemma handle_first steps now modified vcfg :
  rollout_steps steps ->
  exists s, steps !! 0%nat = Some s /\
    handleProgressiveRollout steps now modified None vcfg = Ok (ramp_to vcfg s).
Proof.
  intros Hs. pose proof (rollout_nonempty _ Hs) as Hne. unfold handleProgressiveRollout.
  rewrite Hne. apply Nat.eqb_neq in Hne.
  destruct (lookup_lt_is_Some_2 steps 0) as [s Hs0]; [lia|]. exists s. split; [done|].
  unfold index. simpl. rewrite Hs0. simpl. by rewrite (ramp_int32 steps 0 s).
Qed.

(** A poll while the target has a percentage. *)
Lemma handle_active steps now modified vcfg q :
  rollout_steps steps -> 0 <= q <= 100 ->
  exists i s, steps !! i = Some s /\
    (i = 0%nat \/ step_RampPercentage s <= q) /\
    (forall s', steps !! S i = Some s' -> q < step_RampPercentage s') /\
    handleProgressiveRollout steps now modified (Some (float32_of_Z q)) vcfg
    = Ok (step_decision now modified q s (steps !! S i) vcfg).
Proof.
  intros Hs Hq. pose proof (rollout_nonempty _ Hs) as Hne. unfold handleProgressiveRollout.
  rewrite Hne. apply Nat.eqb_neq in Hne.
  destruct (getCurrentStepIndex_spec steps q Hs Hq) as (i & s & Hidx & Hi & Hle & Hn).
  exists i, s. split_and!; [done..|]. rewrite Hidx. unfold index. rewrite Hi. simpl.
  pose proof (rollout_ramp _ _ _ Hs Hi). rewrite float32_eqb_percents by lia.
  unfold step_decision. rewrite (ramp_int32 steps i s) by done.
  destruct (Z.eqb_spec q (step_RampPercentage s)) as [->|Hnq]; simpl.
  2: { by rewrite decide_False. }
  rewrite decide_True by done. destruct modified as [m|]; [|done].
  unfold time_Before, time_Add. destruct (Z.ltb_spec (m + step_PauseDuration s) now) as [Hlt|Hge].
  2: { rewrite decide_False by lia. done. }
  rewrite decide_True by done. destruct (Nat.ltb_spec i (length steps - 1)) as [Hi'|Hi'].
  - destruct (lookup_lt_is_Some_2 steps (S i)) as [s' Hs']; [lia|]. rewrite Hs'. simpl.
    by rewrite (ramp_int32 steps (S i) s').
  - by rewrite lookup_ge_None_2 by lia.
Qed.

(** C15: The step logic on accepted steps, on every branch: without a ramp it
    starts the first step; otherwise the active step is the last one not above
    the current percentage (the first if all are above); a percentage that is
    not the active step's is reset to it; at the active step's percentage the
    next step, or after the last one the promotion, comes exactly when more than
    the step's pause has passed since the ramp was last modified. It never
    panics, and without steps it does nothing. *)
Theorem handleProgressiveRollout_spec steps now modified vcfg :
  rollout_steps steps ->
  (exists s, steps !! 0%nat = Some s /\
     handleProgressiveRollout steps now modified None vcfg = Ok (ramp_to vcfg s)) /\
  (forall q, 0 <= q <= 100 ->
     exists i s, steps !! i = Some s /\
       (i = 0%nat \/ step_RampPercentage s <= q) /\
       (forall s', steps !! S i = Some s' -> q < step_RampPercentage s') /\
       handleProgressiveRollout steps now modified (Some (float32_of_Z q)) vcfg
       = Ok (step_decision now modified q s (steps !! S i) vcfg)) /\
  (forall target, handleProgressiveRollout [] now modified target vcfg = Ok None).
Proof.
  intros Hs. split_and!; [by apply handle_first|intros q; by apply handle_active|done].
Qed.

(** Whatever the steps, a change promotes or ramps to the percentage of a step. *)
Lemma handle_result steps now modified target vcfg v :
  handleProgressiveRollout steps now modified target vcfg = Ok (Some v) ->
  v = vc_set_SetCurrent true vcfg \/
  exists s, s ∈ steps /\ v = vc_set_RampPercentage (int32 (step_RampPercentage s)) vcfg.
Proof.
  unfold handleProgressiveRollout. destruct (length steps =? 0)%nat; [done|].
  intros (s & Hs & Hk)%bind_Ok. unfold index in *.
  destruct (steps !! _) as [s0|] eqn:Es in Hs; [|done]. injection Hs as <-.
  apply list_elem_of_lookup_2 in Es.
  destruct target as [pct|]; [|injection Hk as <-; right; by exists s0].
  destruct (negb _); [injection Hk as <-; right; by exists s0|].
  destruct modified as [m|]; [|done]. destruct (time_Before _ _); [|done].
  destruct (_ <? _)%nat; [|injection Hk as <-; by left].
  apply bind_Ok in Hk as (s1 & Hs1 & [= <-]). right. exists s1. split; [|done].
  destruct (steps !! _) eqn:E1 in Hs1; [|done]. injection Hs1 as <-.
  by eapply list_elem_of_lookup_2.
Qed.

(** ** The rollout as a transition system *)

(** What Temporal knows of the target: the ramp and when it was last modified,
    or that it became Current; [ro_history] lists the ramps applied. *)
Record RolloutState := mkRolloutState {
  ro_now : Time;
  ro_ramp : option (Z * Time);
  ro_current : bool;
  ro_history : list (Z * Time);
}.

(** The controller's decision at [now], from the ramp it sees. *)
Definition poll (steps : list RolloutStep) (vcfg : VersionConfig) (now : Time)
    (seen : option (Z * Time)) : outcome (option VersionConfig) :=
  handleProgressiveRollout steps now (snd <$> seen)
    ((fun r => float32_of_Z (fst r)) <$> seen) vcfg.

(** The controller sees the percentage as it is, and a time of modification that
    is at most [slack] too early (rounding, and clocks that differ). *)
Definition seen_ramp (slack : Duration) (actual seen : option (Z * Time)) : Prop :=
  match actual, seen with
  | None, None => True
  | Some a, Some b => b.1 = a.1 /\ a.2 - slack <= b.2
  | _, _ => False
  end.

(** Time passes; the controller polls and waits; or it polls and the server
    records the change, [d] after the decision. *)
Inductive rollout_step (slack : Duration) (steps : list RolloutStep)
  : RolloutState -> RolloutState -> Prop :=
  | rollout_tick st d :
      0 <= d ->
      rollout_step slack steps st
        (mkRolloutState (ro_now st + d) (ro_ramp st) (ro_current st) (ro_history st))
  | rollout_wait st seen vcfg :
      ro_current st = false -> seen_ramp slack (ro_ramp st) seen ->
      poll steps vcfg (ro_now st) seen = Ok None ->
      rollout_step slack steps st st
  | rollout_ramp_set st seen vcfg v d :
      ro_current st = false -> seen_ramp slack (ro_ramp st) seen ->
      vc_SetCurrent vcfg = false -> poll steps vcfg (ro_now st) seen = Ok (Some v) ->
      vc_SetCurrent v = false -> 0 <= d ->
      rollout_step slack steps st
        (mkRolloutState (ro_now st + d) (Some (vc_RampPercentage v, ro_now st + d)) false
           (ro_history st ++ [(vc_RampPercentage v, ro_now st + d)]))
  | rollout_promote st seen vcfg v d :
      ro_current st = false -> seen_ramp slack (ro_ramp st) seen ->
      vc_SetCurrent vcfg = false -> poll steps vcfg (ro_now st) seen = Ok (Some v) ->
      vc_SetCurrent v = true -> 0 <= d ->
      rollout_step slack steps st (mkRolloutState (ro_now st + d) None true (ro_history st)).

Definition rollout_start (t0 : Time) : RolloutState := mkRolloutState t0 None false [].

Definition total_pause (steps : list RolloutStep) : Duration :=
  foldr (fun s acc => step_PauseDuration s + acc) 0 steps.

Lemma total_pause_app a b : total_pause (a ++ b) = total_pause a + total_pause b.
Proof. induction a as [|s a IH]; simpl; [done|]. rewrite IH. lia. Qed.

(** The least time the pauses of the first [n] steps take. *)
Definition pause_before (slack : Duration) (steps : list RolloutStep) (n : nat) : Duration :=
  total_pause (take n steps) - Z.of_nat n * slack.

Lemma pause_before_S slack steps n s :
  steps !! n = Some s ->
  pause_before slack steps (S n) = pause_before slack steps n + step_PauseDuration s - slack.
Proof.
  intros Hn. unfold pause_before. rewrite (take_S_r _ _ _ Hn), total_pause_app. simpl. lia.
Qed.

(** The invariant: the ramps applied are those of a prefix of the steps, in
    order, and each has been held for its pause before the next. *)
Record rollout_inv (slack : Duration) (steps : list RolloutStep) (t0 : Time) (st : RolloutState)
  : Prop := {
  ri_history : fst <$> ro_history st = step_RampPercentage <$> take (length (ro_history st)) steps;
  ri_length : (length (ro_history st) <= length steps)%nat;
  ri_ramp : ro_current st = false -> ro_ramp st = last (ro_history st);
  ri_time n p t : ro_history st !! n = Some (p, t) ->
    t0 + pause_before slack steps n <= t <= ro_now st;
  ri_start : t0 <= ro_now st;
  ri_held n (x y : Z * Time) s : ro_history st !! n = Some x -> ro_history st !! S n = Some y ->
    steps !! n = Some s -> x.2 + step_PauseDuration s - slack < y.2;
  ri_current : ro_current st = true ->
    length (ro_history st) = length steps /\
    t0 + pause_before slack steps (length steps) < ro_now st /\
    forall (x : Z * Time) s, last (ro_history st) = Some x -> last steps = Some s ->
      x.2 + step_PauseDuration s - slack < ro_now st;
}.

Lemma rollout_inv_init slack steps t0 : rollout_inv slack steps t0 (rollout_start t0).
Proof. split; simpl; try done; lia. Qed.

(** The decision in a state that satisfies the invariant. *)
Lemma poll_inv slack steps vcfg t0 st seen :
  rollout_steps steps -> rollout_inv slack steps t0 st -> ro_current st = false ->
  seen_ramp slack (ro_ramp st) seen ->
  let n := length (ro_history st) in
  match n with
  | O => exists s, steps !! 0%nat = Some s /\
           poll steps vcfg (ro_now st) seen = Ok (ramp_to vcfg s)
  | S i =>
      exists s t t', steps !! i = Some s /\
        last (ro_history st) = Some (step_RampPercentage s, t) /\ t - slack <= t' /\
        poll steps vcfg (ro_now st) seen
        = Ok (step_decision (ro_now st) (Some t') (step_RampPercentage s) s (steps !! n) vcfg)
  end.
Proof.
  intros Hs [Hh Hl Hr _ _ _ _] Hc Hsn n. unfold poll. rewrite (Hr Hc) in Hsn.
  destruct n as [|i] eqn:En; unfold n in En.
  - apply length_zero_iff_nil in En. rewrite En in Hsn. destruct seen; [done|]. simpl.
    by apply handle_first.
  - rewrite last_lookup, En in Hsn |- *. simpl in *.
    destruct (lookup_lt_is_Some_2 (ro_history st) i) as [[p t] Hi]; [lia|].
    rewrite Hi in Hsn |- *. destruct seen as [[p' t']|]; [|done].
    destruct Hsn as [Hp Ht]. simpl in Hp, Ht. subst p'.
    assert (exists s, steps !! i = Some s /\ p = step_RampPercentage s) as (s & Hsi & ->).
    { assert ((fst <$> ro_history st) !! i = Some p) as Hp by (by rewrite list_lookup_fmap, Hi).
      rewrite Hh, list_lookup_fmap, lookup_take_lt in Hp by lia.
      destruct (steps !! i) as [s|]; [|done]. injection Hp as <-. eauto. }
    exists s, t, t'. split_and!; [done|done|done|]. simpl.
    pose proof (rollout_ramp _ _ _ Hs Hsi).
    destruct (handle_active steps (ro_now st) (Some t') vcfg (step_RampPercentage s) Hs ltac:(lia))
      as (j & s' & Hj & Hle & Hnext & ->).
    assert (j = i) as -> by (by eapply active_unique).
    by simplify_eq.
Qed.

Lemma history_nth_time slack steps t0 st i p t :
  rollout_inv slack steps t0 st -> last (ro_history st) = Some (p, t) ->
  length (ro_history st) = S i -> t0 + pause_before slack steps i <= t <= ro_now st.
Proof.
  intros Hinv Hl Hn. apply (ri_time _ _ _ _ Hinv i p). by rewrite last_lookup, Hn in Hl.
Qed.

Lemma rollout_inv_append slack steps t0 st s now :
  rollout_inv slack steps t0 st -> steps !! length (ro_history st) = Some s ->
  ro_now st <= now -> t0 + pause_before slack steps (length (ro_history st)) <= now ->
  (forall i (x : Z * Time) s', length (ro_history st) = S i -> ro_history st !! i = Some x ->
     steps !! i = Some s' -> x.2 + step_PauseDuration s' - slack < now) ->
  rollout_inv slack steps t0
    (mkRolloutState now (Some (step_RampPercentage s, now)) false
       (ro_history st ++ [(step_RampPercentage s, now)])).
Proof.
  intros [Hh Hl _ Ht Hst Hheld _] Hs Hnow Hp Hlast. split; simpl; try done; [| | | |lia|].
  - rewrite fmap_app, length_app, Nat.add_1_r, (take_S_r _ _ _ Hs), fmap_app. simpl.
    by rewrite Hh.
  - rewrite length_app. simpl. apply lookup_lt_Some in Hs. lia.
  - intros _. by rewrite last_snoc.
  - intros n p t [Hn|[Hn [Hz Hx]%list_lookup_singleton_Some]]%lookup_app_Some.
    + pose proof (Ht n p t Hn). lia.
    + assert (n = length (ro_history st)) as ->
        by (apply Nat.le_antisymm; [by apply Nat.sub_0_le|done]). injection Hx as _ <-. lia.
  - intros n x y s0 Hx Hy Hs0. pose proof (lookup_lt_Some _ _ _ Hy) as Hlt.
    rewrite length_app in Hlt. simpl in Hlt. rewrite lookup_app_l in Hx by lia.
    destruct (decide (S n = length (ro_history st))) as [He|Hne].
    + rewrite He, list_lookup_middle in Hy by done. injection Hy as <-.
      by apply (Hlast n x s0).
    + rewrite lookup_app_l in Hy by lia. by apply (Hheld n x y s0).
Qed.

Lemma rollout_step_inv slack steps t0 st st' :
  rollout_steps steps ->
  rollout_inv slack steps t0 st -> rollout_step slack steps st st' ->
  rollout_inv slack steps t0 st'.
Proof.
  intros Hs Hinv Hstep.
  destruct Hstep as [st d Hd|st seen vcfg Hc Hsn Hp|st seen vcfg v d Hc Hsn Hv Hp Hcur Hd
                    |st seen vcfg v d Hc Hsn Hv Hp Hcur Hd].
  - destruct Hinv as [Hh Hl Hr Ht Hst Hheld Hcu]. split; simpl; try done; [|lia|].
    + intros n p t Hn. pose proof (Ht n p t Hn). lia.
    + intros Hc. destruct (Hcu Hc) as (Hlen & Htot & Hend). split_and!; [done|lia|].
      intros x s Hx Hls. pose proof (Hend x s Hx Hls). lia.
  - done.
  - pose proof (poll_inv _ _ vcfg _ _ _ Hs Hinv Hc Hsn) as Hpoll. simpl in Hpoll.
    pose proof (ri_start _ _ _ _ Hinv) as Hst.
    destruct (length (ro_history st)) as [|i] eqn:En.
    + destruct Hpoll as (s & Hs0 & Heq). rewrite Heq in Hp. injection Hp as <-. simpl.
      apply rollout_inv_append; [done|by rewrite En|lia| |].
      * rewrite En. unfold pause_before. simpl. lia.
      * rewrite En. done.
    + destruct Hpoll as (s & t & t' & Hsi & Hlast & Ht' & Heq). rewrite Heq in Hp.
      injection Hp as Hp.
      unfold step_decision in Hp. rewrite decide_True in Hp by done.
      destruct (decide (t' + step_PauseDuration s < ro_now st)) as [Hlt|]; [|done].
      destruct (steps !! S i) as [s'|] eqn:Es'; [|by injection Hp as <-].
      injection Hp as <-. simpl. apply rollout_inv_append; [done|by rewrite En|lia| |].
      * rewrite En, (pause_before_S _ _ _ _ Hsi).
        pose proof (history_nth_time _ _ _ _ _ _ _ Hinv Hlast En). lia.
      * intros i' x s0 Hi' Hx Hs0. rewrite En in Hi'. injection Hi' as <-.
        rewrite last_lookup, En in Hlast. simpl in Hlast. rewrite Hlast in Hx.
        simplify_eq/=. lia.
  - pose proof (poll_inv _ _ vcfg _ _ _ Hs Hinv Hc Hsn) as Hpoll. simpl in Hpoll.
    destruct (length (ro_history st)) as [|i] eqn:En.
    + destruct Hpoll as (s & Hs0 & Heq). rewrite Heq in Hp. injection Hp as <-.
      simpl in Hcur. congruence.
    + destruct Hpoll as (s & t & t' & Hsi & Hlast & Ht' & Heq). rewrite Heq in Hp.
      injection Hp as Hp.
      unfold step_decision in Hp. rewrite decide_True in Hp by done.
      destruct (decide (t' + step_PauseDuration s < ro_now st)) as [Hlt|]; [|done].
      destruct (steps !! S i) as [s'|] eqn:Es'; [injection Hp as <-; simpl in Hcur; congruence|].
      pose proof (history_nth_time _ _ _ _ _ _ _ Hinv Hlast En) as Ht.
      assert (length steps = S i) as Hlen.
      { apply lookup_ge_None in Es'. pose proof (ri_length _ _ _ _ Hinv). lia. }
      destruct Hinv as [Hh Hl _ Htm Hst Hheld _]. split; simpl; try done; [|lia|].
      { intros n p0 t1 Hn. pose proof (Htm n p0 t1 Hn). lia. }
      intros _. rewrite Hlen, (pause_before_S _ _ _ _ Hsi). split_and!; [lia|lia|].
      intros x s0 Hx Hs0. rewrite last_lookup, Hlen in Hs0. simpl in Hs0. simplify_eq/=. lia.
Qed.

Lemma rollout_reachable_inv slack steps t0 st :
  rollout_steps steps -> rtc (rollout_step slack steps) (rollout_start t0) st ->
  rollout_inv slack steps t0 st.
Proof.
  intros Hs Hr. pose proof (rollout_inv_init slack steps t0) as H0.
  induction Hr as [|x y z Hxy _ IH]; [done|]. apply IH. by eapply rollout_step_inv.
Qed.

(** The invariant in terms of the whole list of steps. *)
Definition rollout_respected (slack : Duration) (steps : list RolloutStep) (t0 : Time)
    (st : RolloutState) : Prop :=
  (fst <$> ro_history st) `prefix_of` (step_RampPercentage <$> steps) /\
  (forall n (x y : Z * Time) s, ro_history st !! n = Some x -> ro_history st !! S n = Some y ->
     steps !! n = Some s -> x.2 + step_PauseDuration s - slack < y.2) /\
  (ro_current st = true ->
   fst <$> ro_history st = step_RampPercentage <$> steps /\
   (forall (x : Z * Time) s, last (ro_history st) = Some x -> last steps = Some s ->
      x.2 + step_PauseDuration s - slack < ro_now st) /\
   total_pause steps - Z.of_nat (length steps) * slack < ro_now st - t0).

Lemma rollout_inv_respected slack steps t0 st :
  rollout_inv slack steps t0 st -> rollout_respected slack steps t0 st.
Proof.
  intros Hinv. unfold rollout_respected. rewrite (ri_history _ _ _ _ Hinv). split_and!.
  - exists (step_RampPercentage <$> drop (length (ro_history st)) steps).
    by rewrite <- fmap_app, take_drop.
  - apply (ri_held _ _ _ _ Hinv).
  - intros Hc. destruct (ri_current _ _ _ _ Hinv Hc) as (Hlen & Ht & Hend).
    unfold pause_before in Ht. rewrite take_ge in Ht by lia.
    rewrite Hlen, take_ge by lia. split_and!; [done|exact Hend|lia].
Qed.

(** C12: Rollout safety: on accepted steps, however long the controller waits and
    however often it polls, the ramps applied are always those of a prefix of
    the steps in their order, and each was held for more than its step's pause,
    less the imprecision of the times the controller sees, before the next one
    was applied; and when the target becomes Current, every step has been
    applied, the last one too was held, and more time has passed since the start
    than all the pauses, less that imprecision, take together. *)
Theorem rollout_safe slack steps t0 st :
  rollout_steps steps ->
  rtc (rollout_step slack steps) (rollout_start t0) st ->
  rollout_respected slack steps t0 st.
Proof. intros Hs Hr. by apply rollout_inv_respected, rollout_reachable_inv. Qed.

(** ** Progress *)

(** One poll of the controller at time [now], and the server's reaction. *)
Definition poll_at (steps : list RolloutStep) (vcfg : VersionConfig) (st : RolloutState)
    (now : Time) : RolloutState :=
  let st' := mkRolloutState now (ro_ramp st) (ro_current st) (ro_history st) in
  if ro_current st then st'
  else
    match poll steps vcfg now (ro_ramp st) with
    | Ok (Some v) =>
        if vc_SetCurrent v then mkRolloutState now None true (ro_history st)
        else mkRolloutState now (Some (vc_RampPercentage v, now)) false
               (ro_history st ++ [(vc_RampPercentage v, now)])
    | _ => st'
    end.

(** Polls are paced when each comes after the pause of any step. *)
Fixpoint paced (gap : Duration) (t : Time) (times : list Time) : Prop :=
  match times with
  | [] => True
  | t' :: times' => t + gap < t' /\ paced gap t' times'
  end.

Lemma poll_at_current steps vcfg times st :
  ro_current st = true -> ro_current (foldl (poll_at steps vcfg) st times) = true.
Proof.
  revert st. induction times as [|t times IH]; intros st Hc; simpl; [done|].
  apply IH. unfold poll_at. by rewrite Hc.
Qed.

(** Polls are transitions of the system. *)
Lemma poll_at_steps steps vcfg st now :
  ro_now st <= now -> vc_SetCurrent vcfg = false ->
  is_Ok (poll steps vcfg now (ro_ramp st)) ->
  rtc (rollout_step 0 steps) st (poll_at steps vcfg st now).
Proof.
  intros Hle Hvc [o Ho]. set (st' := mkRolloutState now (ro_ramp st) (ro_current st) (ro_history st)).
  assert (rollout_step 0 steps st st') as Htick.
  { pose proof (rollout_tick 0 steps st (now - ro_now st) ltac:(lia)) as H.
    by replace (ro_now st + (now - ro_now st)) with now in H by lia. }
  assert (seen_ramp 0 (ro_ramp st') (ro_ramp st)) as Hsn.
  { unfold st', seen_ramp. simpl. destruct (ro_ramp st); [|done]. split; [done|lia]. }
  eapply rtc_l; [exact Htick|]. unfold poll_at.
  destruct (ro_current st) eqn:Ec; [apply rtc_refl|].
  rewrite Ho. destruct o as [v|]; [|apply rtc_refl].
  assert (ro_current st' = false) as Hc' by done.
  destruct (vc_SetCurrent v) eqn:Ev; apply rtc_once.
  - pose proof (rollout_promote 0 steps st' _ vcfg v 0 Hc' Hsn Hvc Ho Ev ltac:(lia)) as H.
    simpl in H. by rewrite Z.add_0_r in H.
  - pose proof (rollout_ramp_set 0 steps st' _ vcfg v 0 Hc' Hsn Hvc Ho Ev ltac:(lia)) as H.
    simpl in H. by rewrite Z.add_0_r in H.
Qed.

(** From a step's own percentage each paced poll moves one step on. *)
Lemma paced_from_step steps vcfg gap i s t times c h :
  rollout_steps steps -> vc_SetCurrent vcfg = false ->
  Forall (fun s => step_PauseDuration s <= gap) steps ->
  steps !! i = Some s -> paced gap t times -> length times = (length steps - i)%nat ->
  ro_current (foldl (poll_at steps vcfg)
    (mkRolloutState c (Some (step_RampPercentage s, t)) false h) times) = true.
Proof.
  intros Hs Hv Hgap. revert i s t c h. induction times as [|t' times IH];
    intros i s t c h Hi Hp Hlen; simpl in Hlen; pose proof (lookup_lt_Some _ _ _ Hi); [lia|].
  destruct Hp as [Ht Hp]. simpl. unfold poll_at at 2. simpl.
  pose proof (rollout_ramp _ _ _ Hs Hi).
  destruct (handle_active steps t' (Some t) vcfg (step_RampPercentage s) Hs ltac:(lia))
    as (j & s' & Hj & Hle & Hnext & Heq).
  assert (j = i) as -> by (by eapply active_unique). simplify_eq.
  unfold poll. simpl. rewrite Heq. unfold step_decision. rewrite decide_True by done.
  rewrite Forall_lookup in Hgap. pose proof (Hgap _ _ Hi) as Hg. simpl in Hg.
  rewrite decide_True by lia. destruct (steps !! S i) as [s2|] eqn:E2; simpl.
  - rewrite Hv. apply (IH (S i)); [done|done|]. lia.
  - by apply poll_at_current.
Qed.

(** Rollout progress: from the start, and equally from any recorded ramp
    (one a user set, or one whose step was edited away), polls paced by the
    longest pause promote the target after at most one poll more than there are
    steps. *)
Theorem rollout_completes steps vcfg gap t times ramp c h :
  rollout_steps steps -> vc_SetCurrent vcfg = false ->
  Forall (fun s => step_PauseDuration s <= gap) steps ->
  paced gap t times -> (length steps + 1 <= length times)%nat ->
  (forall q m, ramp = Some (q, m) -> 0 <= q <= 100 /\ m <= t) ->
  ro_current (foldl (poll_at steps vcfg) (mkRolloutState c ramp false h) times) = true.
Proof.
  intros Hs Hv Hgap Hp Hlen Hramp. destruct times as [|t1 times]; [simpl in Hlen; lia|].
  destruct Hp as [Ht1 Hp]. simpl in Hlen.
  assert (forall i s h', steps !! i = Some s ->
    ro_current (foldl (poll_at steps vcfg)
      (mkRolloutState t1 (Some (step_RampPercentage s, t1)) false h') times) = true) as Hrest.
  { intros i s h' Hi. pose proof (lookup_lt_Some _ _ _ Hi).
    rewrite <- (take_drop (length steps - i) times), foldl_app.
    apply poll_at_current. eapply paced_from_step; [done..| |].
    - clear -Hp. revert t1 times Hp. generalize (length steps - i)%nat.
      induction n as [|n IH]; intros t1 [|t2 times]; simpl; try done.
      intros [? ?]. split; [done|]. by apply IH.
    - rewrite length_take. lia. }
  simpl. unfold poll_at at 2, poll. simpl. destruct ramp as [[q m]|]; simpl.
  - destruct (Hramp q m eq_refl) as [Hq Hm].
    destruct (handle_active steps t1 (Some m) vcfg q Hs Hq) as (i & s & Hi & _ & _ & Heq). unfold Time in *.
    rewrite Heq. unfold step_decision.
    case_decide as Hqs; simpl.
    + rewrite Forall_lookup in Hgap. pose proof (Hgap _ _ Hi) as Hg. simpl in Hg.
      rewrite decide_True by lia. destruct (steps !! S i) as [s'|] eqn:Es'; simpl.
      * rewrite Hv. by apply (Hrest (S i)).
      * by apply poll_at_current.
    + rewrite Hv. by apply (Hrest i).
  - destruct (handle_first steps t1 None vcfg Hs) as (s & Hs0 & ->).
    simpl. rewrite Hv. by apply (Hrest 0%nat).
Qed.
