(* ===== verification/GateProps.v ===== *)
(** * Theorems on the gate and on version configuration

    Which test workflows are started, what a passed gate means in terms of the
    server's answers, when the plan changes the version configuration, and the
    resolution of the gate's input. *)

From stdpp Require Import base gmap sets list strings.
From Stdlib Require Import ZArith Lia.
From S2P Require Import Prelude GoStd Api K8s K8sProps Trace World Temporal TemporalProps.
From S2P Require Import Planner Webhook StateMapper StateMapperProps RolloutProps.
Local Open Scope Z_scope.

(** ** Starting test workflows *)

Lemma append_inj (p s t : string) : p +:+ s = p +:+ t -> s = t.
Proof. by intros ?%(inj (String.append p)). Qed.

#[export] Instance GetTestWorkflowID_inj d b : Inj (=) (=) (GetTestWorkflowID d b).
Proof. intros q q' H. unfold GetTestWorkflowID in H. by repeat apply append_inj in H. Qed.

(** Test workflows are planned exactly when a gate is configured and the
    target is registered and not Current, one for each task queue of the target
    no test workflow runs on, pinned to the target's build; on distinct task
    queues their workflow IDs are distinct. *)
Theorem getTestWorkflows_spec status config name input secret :
  let target := TargetVersion status in
  (rs_Gate (cfg_RolloutStrategy config) = None \/ target_is_current status = true \/
   ver_Status target = VersionStatusNotRegistered ->
   getTestWorkflows status config name input secret = []) /\
  (forall gate, rs_Gate (cfg_RolloutStrategy config) = Some gate ->
   target_is_current status = false -> ver_Status target <> VersionStatusNotRegistered ->
   (forall wc, wc ∈ getTestWorkflows status config name input secret <->
      exists tq, tq ∈ TaskQueues target /\
        ~ (tq_Name tq ∈ wf_TaskQueue <$> TestWorkflows target) /\
        wc = mkWorkflowConfig (gate_WorkflowType gate)
               (GetTestWorkflowID name (BuildID target) (tq_Name tq)) (BuildID target)
               (tq_Name tq) input secret)) /\
  (NoDup (tq_Name <$> TaskQueues target) ->
   NoDup (wc_WorkflowID <$> getTestWorkflows status config name input secret)).
Proof.
  intros target. unfold getTestWorkflows. fold target. split_and!.
  - intros Hor. destruct (rs_Gate (cfg_RolloutStrategy config)); [|done].
    destruct Hor as [?|[Hc|Hn]]; [done|by rewrite Hc|].
    rewrite bool_decide_true by done. by rewrite orb_true_r.
  - intros gate -> -> Hr wc. rewrite bool_decide_false by done. simpl.
    rewrite list_elem_of_fmap. setoid_rewrite list_elem_of_filter.
    setoid_rewrite elem_of_list_to_set. naive_solver.
  - intros Hnd. destruct (rs_Gate (cfg_RolloutStrategy config)); [|constructor].
    destruct (_ || _); [constructor|]. rewrite <- list_fmap_compose.
    set (P := fun tq => tq_Name tq ∉ _).
    assert (NoDup (tq_Name <$> filter P (TaskQueues target))) as Hf.
    { eapply sublist_NoDup; [exact Hnd|]. apply fmap_sublist, sublist_filter. }
    apply (NoDup_fmap_2 (GetTestWorkflowID name (BuildID target))) in Hf.
    by rewrite <- list_fmap_compose in Hf.
Qed.

Section WithWorld.
Context `{W : World}.

(** ** The status of the test workflows *)

Definition wf_queues (tqs : list TaskQueueInfo) : list TaskQueueInfo :=
  filter (fun tq => tqi_Type tq = TaskQueueTypeWorkflow) tqs.

Definition test_id (vi : VersionInfo) (tq : TaskQueueInfo) : string :=
  GetTestWorkflowID (vi_DeploymentName vi) (vi_BuildID vi) (tqi_Name tq).

(** During the run the server described the test workflow of [tq] as [o], or did
    not find it. *)
Definition answered (la lb : Log) (vi : VersionInfo) (tq : TaskQueueInfo)
    (o : option WorkflowExecution) : Prop :=
  exists l, during la lb l /\
    match o with
    | Some wf => exists info, w_DescribeWorkflowExecution l (test_id vi tq) = inl info /\
                   wf_Status wf = mapWorkflowStatus (wei_Status info)
    | None => exists e, w_DescribeWorkflowExecution l (test_id vi tq) = inr e /\
                strings_Contains (error_text e) "workflow not found" = true
    end.

Lemma answered_mono la lb la' lb' vi tq o :
  answered la lb vi tq o -> la' `prefix_of` la -> lb `prefix_of` lb' ->
  answered la' lb' vi tq o.
Proof. intros (l & Hl & Ho) Ha Hb. exists l. split; [by eapply during_mono|done]. Qed.

Lemma testWorkflowOf_Ok vi tq l wfs l' :
  testWorkflowOf vi tq l = (Ok wfs, l') -> exists o, answered l l' vi tq o /\ wfs = option_list o.
Proof.
  unfold testWorkflowOf. intros (r & l1 & Hr & Hk)%io_bind_Ok.
  unfold try, DescribeWorkflowExecution, call, answer in Hr.
  destruct (w_DescribeWorkflowExecution l _) as [info|e] eqn:E; injection Hr as <- <-.
  - injection Hk as <- <-. eexists (Some _). split; [|done]. exists l.
    split; [split; [done|by eexists]|]. exists info. by split.
  - destruct (strings_Contains _ _) eqn:Ec; [|discriminate]. injection Hk as <- <-.
    exists None. split; [|done]. exists l. split; [split; [done|by eexists]|]. by exists e.
Qed.

Lemma testWorkflows_loop_Ok vi tqs names acc l names' wfs l' :
  testWorkflows_loop vi tqs names acc l = (Ok (names', inl wfs), l') ->
  names' = names ++ ((fun tq => mkTaskQueue (tqi_Name tq)) <$> wf_queues tqs) /\
  exists outs, Forall2 (answered l l' vi) (wf_queues tqs) outs /\ wfs = acc ++ omap id outs.
Proof.
  revert names acc l. induction tqs as [|tq tqs IH]; intros names acc l; simpl.
  - intros [= <- <- _]. split; [by rewrite app_nil_r|]. exists []. by rewrite app_nil_r.
  - unfold wf_queues. rewrite filter_cons. case_decide as Ht; [|apply IH].
    intros (r & l1 & Hr & Hk)%io_bind_Ok. unfold try in Hr.
    destruct (testWorkflowOf vi tq l) as [[new|e|p] l2] eqn:Et; [| |done].
    + injection Hr as <- <-.
      pose proof (extends_prefix _ _ _ _ (emits_extends _ _ (testWorkflows_loop_reads _ _ _ _)) Hk)
        as Hl2.
      apply testWorkflowOf_Ok in Et as (o & Ho & ->).
      assert (l `prefix_of` l2) as Hl1 by (destruct Ho as (lo & [? ?] & _); by etrans).
      apply IH in Hk as [-> (outs & Hf & ->)]. split; [by rewrite <- app_assoc|].
      exists (o :: outs). split.
      * constructor; [by apply (answered_mono _ _ _ _ _ _ _ Ho)|].
        eapply Forall2_impl; [exact Hf|]. intros ? ? Ha. by apply (answered_mono _ _ _ _ _ _ _ Ha).
      * rewrite <- app_assoc. by destruct o.
    + injection Hr as <- <-. discriminate.
Qed.

Lemma omap_id_length {A} (outs : list (option A)) :
  (length (omap id outs) <= length outs)%nat /\
  (length (omap id outs) = length outs -> exists xs, outs = Some <$> xs).
Proof.
  induction outs as [|o outs [IH1 IH2]]; [by split; [|exists []]|].
  destruct o as [x|]; cbn.
  - split; [by apply le_n_S|]. intros [= Hl]. destruct (IH2 Hl) as [xs ->]. by exists (x :: xs).
  - split; [by apply le_S|]. intros Hl. exfalso. apply (Nat.nle_succ_diag_l (length outs)).
    by rewrite <- Hl at 1.
Qed.

Lemma Forall2_fmap_Some {A B} (P : A -> option B -> Prop) xs ys :
  Forall2 P xs (Some <$> ys) -> Forall2 (fun a b => P a (Some b)) xs ys.
Proof. rewrite Forall2_fmap_r. done. Qed.

Lemma omap_fmap_Some {A} (xs : list A) : omap id (Some <$> xs) = xs.
Proof. induction xs as [|x xs IH]; simpl; [done|]. f_equal. exact IH. Qed.

(** During the run the server called the test workflow of [tq] completed. *)
Definition test_completed (la lb : Log) (vi : VersionInfo) (tq : TaskQueueInfo) : Prop :=
  exists l info, during la lb l /\ w_DescribeWorkflowExecution l (test_id vi tq) = inl info /\
    wei_Status info = WORKFLOW_EXECUTION_STATUS_COMPLETED.

Lemma mapWorkflowStatus_completed s :
  mapWorkflowStatus s = WorkflowExecutionStatusCompleted ->
  s = WORKFLOW_EXECUTION_STATUS_COMPLETED.
Proof. by destruct s. Qed.

(** As many results as queues, all completed: every queue's own workflow is. *)
Lemma all_queues_completed la lb vi tqs outs :
  Forall2 (answered la lb vi) tqs outs -> (length tqs <= length (omap id outs))%nat ->
  Forall (fun wf => wf_Status wf = WorkflowExecutionStatusCompleted) (omap id outs) ->
  Forall (test_completed la lb vi) tqs.
Proof.
  intros Hf Hl Hc. pose proof (Forall2_length _ _ _ Hf) as Hlen.
  destruct (omap_id_length outs) as [H1 H2]. destruct H2 as [xs ->]; [lia|].
  apply Forall2_fmap_Some in Hf. rewrite omap_fmap_Some in Hc. clear -Hf Hc.
  induction Hf as [|tq wf tqs wfs (l & Hl & info & Hd & Hs) _ IH]; [constructor|].
  apply Forall_cons in Hc as [Hwf Hc]. constructor; [|by apply IH].
  exists l, info. split_and!; [done|done|]. apply mapWorkflowStatus_completed. congruence.
Qed.

(** ** The states as the planner finds them *)

(** What [GetTestWorkflowStatus] and [generateStatus] may change of a version. *)
Definition vi_erase (vi : VersionInfo) : VersionInfo :=
  vi_set_TestWorkflows [] (vi_set_TaskQueues [] vi).

Record same_but_tests (ts ts' : TemporalWorkerState) : Prop := {
  sbt_versions : vi_erase <$> ts_Versions ts' = vi_erase <$> ts_Versions ts;
  sbt_current : ts_CurrentBuildID ts' = ts_CurrentBuildID ts;
  sbt_ramping : ts_RampingBuildID ts' = ts_RampingBuildID ts;
  sbt_percentage : ts_RampPercentage ts' = ts_RampPercentage ts;
  sbt_since : ts_RampingSince ts' = ts_RampingSince ts;
  sbt_modified : ts_RampLastModifiedAt ts' = ts_RampLastModifiedAt ts;
  sbt_token : ts_VersionConflictToken ts' = ts_VersionConflictToken ts;
  sbt_modifier : ts_LastModifierIdentity ts' = ts_LastModifierIdentity ts;
  sbt_ignore : ts_IgnoreLastModifier ts' = ts_IgnoreLastModifier ts;
}.

Lemma same_but_tests_refl ts : same_but_tests ts ts.
Proof. by split. Qed.

Lemma same_but_tests_trans ts1 ts2 ts3 :
  same_but_tests ts1 ts2 -> same_but_tests ts2 ts3 -> same_but_tests ts1 ts3.
Proof. intros [] []. split; congruence. Qed.

Lemma same_but_tests_insert ts b vi vi' :
  ts_Versions ts !! b = Some vi -> vi_erase vi' = vi_erase vi ->
  same_but_tests ts (ts_set_Versions (<[b := vi']> (ts_Versions ts)) ts).
Proof.
  intros Hb He. split; try done. simpl. rewrite fmap_insert, He.
  apply insert_id. by rewrite lookup_fmap, Hb.
Qed.

Lemma same_but_tests_lookup ts ts' b vi' :
  same_but_tests ts ts' -> ts_Versions ts' !! b = Some vi' ->
  exists vi, ts_Versions ts !! b = Some vi /\ vi_erase vi' = vi_erase vi.
Proof.
  intros Hs Hb. pose proof (f_equal (lookup b) (sbt_versions _ _ Hs)) as H.
  rewrite !lookup_fmap, Hb in H. simpl in H.
  destruct (ts_Versions ts !! b) as [vi|]; [|done]. apply (inj Some) in H. eauto.
Qed.

Lemma GetTestWorkflowStatus_frame name b ts l ts' r l' :
  GetTestWorkflowStatus name b ts l = (Ok (ts', r), l') -> same_but_tests ts ts'.
Proof.
  unfold GetTestWorkflowStatus. destruct (ts_Versions ts !! b) as [vi|] eqn:Eb.
  2: { intros [= <- _ _]. apply same_but_tests_refl. }
  intros (d & l1 & _ & Hk)%io_bind_Ok. destruct d as [desc|e].
  - apply io_bind_Ok in Hk as (out & l2 & _ & [= <- _ _]).
    by eapply same_but_tests_insert.
  - destruct (is_kind KNotFound e); injection Hk as <- _ _; apply same_but_tests_refl.
Qed.

(** What the test-workflow query leaves in a version nothing was known of. *)
Lemma GetTestWorkflowStatus_fresh name b ts l ts' r l' vi :
  GetTestWorkflowStatus name b ts l = (Ok (ts', r), l') ->
  ts_Versions ts !! b = Some vi -> vi_TaskQueues vi = [] ->
  exists vi', ts_Versions ts' !! b = Some vi' /\ vi_erase vi' = vi_erase vi /\
    vi_TestWorkflows vi' = vi_TestWorkflows vi /\
    match r with
    | inr _ => True
    | inl wfs =>
        (wfs = [] /\ vi_TaskQueues vi' = []) \/
        exists desc outs, w_DescribeVersion l name (vi_BuildID vi) = inl desc /\
          vi_TaskQueues vi' = (fun tq => mkTaskQueue (tqi_Name tq))
                                <$> wf_queues (vd_TaskQueuesInfos desc) /\
          Forall2 (answered l l' vi) (wf_queues (vd_TaskQueuesInfos desc)) outs /\
          wfs = omap id outs
    end.
Proof.
  unfold GetTestWorkflowStatus. intros Hr Hb Hq. rewrite Hb in Hr.
  apply io_bind_Ok in Hr as (d & l1 & Hd & Hk).
  unfold try, DescribeVersion, call, answer in Hd.
  destruct (w_DescribeVersion l name (vi_BuildID vi)) as [desc|e] eqn:E; injection Hd as <- <-.
  - apply io_bind_Ok in Hk as ([names out] & l2 & Hloop & [= <- <- <-]). simpl.
    exists (vi_set_TaskQueues names vi). rewrite lookup_insert_eq. split_and!; try done.
    destruct out as [wfs|e]; [|done]. right.
    apply testWorkflows_loop_Ok in Hloop as [-> (outs & Hf & ->)].
    exists desc, outs. rewrite Hq. split_and!; [done|done| |done].
    eapply Forall2_impl; [exact Hf|]. intros ? ? Ha.
    apply (answered_mono _ _ _ _ _ _ _ Ha); [by eexists|done].
  - exists vi. destruct (is_kind KNotFound e); injection Hk as <- <- _;
      split_and!; try done. by left.
Qed.
End WithWorld.

Section Status.
Context `{L : K8sLib} `{W : World} `{O : KeyOrder}.

(** ** generateStatus *)

Lemma generateStatus_Ok h w ts ks l ts' st l' :
  generateStatus h w ts ks l = (Ok (ts', st), l') ->
  same_but_tests ts ts' /\
  mapToStatus h (newStateMapper ks ts' (ComputeWorkerDeploymentName w)) (ComputeBuildID w) = Ok st.
Proof.
  unfold generateStatus. intros (ts1 & l1 & H1 & Hk)%io_bind_Ok.
  apply io_bind_Ok in Hk as (st1 & l2 & Hst & [= <- <- _]). injection Hst as Hst _.
  split; [|done]. case_decide; [injection H1 as <- _; apply same_but_tests_refl|].
  apply io_bind_Ok in H1 as ([ts2 r] & l3 & Hg & [= <- _]).
  apply GetTestWorkflowStatus_frame in Hg. simpl.
  destruct (ts_Versions ts2 !! ComputeBuildID w) as [vi|] eqn:Eb; [|done].
  eapply same_but_tests_trans; [exact Hg|]. by eapply same_but_tests_insert.
Qed.

(** The versions as [GetWorkerDeploymentState] returns them. *)
Definition fresh_versions (ts : TemporalWorkerState) : Prop :=
  forall b vi, ts_Versions ts !! b = Some vi -> vi_TaskQueues vi = [] /\ vi_TestWorkflows vi = [].

(** The Current version's test workflows are not queried. *)
Lemma generateStatus_current h w ts ks l ts' st l' name :
  fresh_versions ts -> ComputeBuildID w = ts_CurrentBuildID ts ->
  generateStatus h w ts ks l = (Ok (ts', st), l') ->
  taskQueuesOf (newStateMapper ks ts' name) (ComputeBuildID w) = [].
Proof.
  intros Hfresh Hcur Hg. unfold generateStatus in Hg. rewrite decide_True in Hg by done.
  apply io_bind_Ok in Hg as (t1 & ? & [= <- _] & Hk).
  apply io_bind_Ok in Hk as (? & ? & _ & [= <- _ _]).
  unfold taskQueuesOf, versionOf. simpl.
  destruct (ts_Versions ts !! ComputeBuildID w) as [vi|] eqn:Eb; [|done].
  by apply (Hfresh _ _ Eb).
Qed.

(** The target of the status carries what the query found. *)
Lemma generateStatus_target h w ts ks l ts' st l' :
  let target := ComputeBuildID w in
  let name := ComputeWorkerDeploymentName w in
  generateStatus h w ts ks l = (Ok (ts', st), l') ->
  fresh_versions ts -> target <> ts_CurrentBuildID ts ->
  taskQueuesOf (newStateMapper ks ts' name) target <> [] ->
  exists vi vi', ts_Versions ts !! target = Some vi /\ ts_Versions ts' !! target = Some vi' /\
    (vi_TestWorkflows vi' = [] \/
     exists desc outs, w_DescribeVersion l name (vi_BuildID vi) = inl desc /\
       vi_TaskQueues vi' = (fun tq => mkTaskQueue (tqi_Name tq))
                             <$> wf_queues (vd_TaskQueuesInfos desc) /\
       Forall2 (answered l l' vi) (wf_queues (vd_TaskQueuesInfos desc)) outs /\
       vi_TestWorkflows vi' = omap id outs).
Proof.
  intros target name Hg Hfresh Hne Hq. unfold generateStatus in Hg. fold target name in Hg.
  rewrite decide_False in Hg by done.
  apply io_bind_Ok in Hg as (ts1 & l1 & H1 & Hk).
  apply io_bind_Ok in Hk as (st1 & l2 & Hst1 & [= <- _ <-]). injection Hst1 as _ <-.
  apply io_bind_Ok in H1 as ([ts2 r] & l3 & Hg & [= Hts1 <-]). simpl in Hts1.
  destruct (ts_Versions ts !! target) as [vi|] eqn:Eb.
  2: { exfalso. apply Hq. unfold GetTestWorkflowStatus in Hg. rewrite Eb in Hg.
       injection Hg as <- _ _. rewrite Eb in Hts1. subst ts1.
       unfold taskQueuesOf, versionOf. simpl. by rewrite Eb. }
  destruct (Hfresh _ _ Eb) as [Hvq Hvt].
  destruct (GetTestWorkflowStatus_fresh _ _ _ _ _ _ _ _ Hg Eb Hvq) as (vi2 & Eb2 & _ & Ht2 & Hr).
  rewrite Eb2 in Hts1. subst ts1. eexists vi, _. split; [done|]. simpl.
  rewrite lookup_insert_eq. split; [reflexivity|]. simpl. rewrite Ht2, Hvt. simpl.
  unfold taskQueuesOf, versionOf in Hq. simpl in Hq. rewrite lookup_insert_eq in Hq. simpl in Hq.
  destruct r as [wfs|e]; [|by left].
  destruct Hr as [[-> Hz]|(desc & outs & Hd & Hqs & Hf & ->)]; [by left|].
  right. exists desc, outs. by split_and!.
Qed.

(** ** The guards of a version change *)

Lemma getVersionConfigDiff_Some status ts config l v l' :
  getVersionConfigDiff status ts config l = (Ok (Some v), l') ->
  let target := TargetVersion status in
  rs_Strategy (cfg_RolloutStrategy config) <> UpdateManual /\
  is_Some (HealthySince target) /\ ver_Status target <> VersionStatusNotRegistered /\
  gate_passed status (cfg_RolloutStrategy config) = true.
Proof.
  unfold getVersionConfigDiff. case_decide as Hm; [discriminate|].
  destruct (HealthySince (TargetVersion status)) as [t|] eqn:Eh; [|discriminate]. simpl.
  case_bool_decide as Hn; [discriminate|]. simpl.
  destruct (gate_passed _ _) eqn:Eg; [|discriminate]. intros _. by split_and!.
Qed.

Lemma gate_passed_Some status strategy gate :
  rs_Gate strategy = Some gate -> gate_passed status strategy = true ->
  TaskQueues (TargetVersion status) <> [] /\
  (length (TaskQueues (TargetVersion status)) <= length (TestWorkflows (TargetVersion status)))%nat /\
  Forall (fun wf => wf_Status wf = WorkflowExecutionStatusCompleted)
    (TestWorkflows (TargetVersion status)).
Proof.
  unfold gate_passed. intros ->. rewrite !andb_true_iff, !negb_true_iff, Nat.eqb_neq, Nat.ltb_ge.
  intros [[Hne Hle] Hall]. split_and!; [by intros Hz; rewrite Hz in Hne|done|].
  apply Forall_forall. intros wf Hwf. rewrite forallb_forall in Hall.
  apply list_elem_of_In in Hwf. apply Hall in Hwf. by apply bool_decide_eq_true in Hwf.
Qed.

(** What a passed gate is evidence of. *)
Lemma gate_evidence `{!KeyOrderLaws O} h w ts ks l ts' st l1 strategy gate :
  let target := ComputeBuildID w in
  let name := ComputeWorkerDeploymentName w in
  fresh_versions ts ->
  pointers_ok h (newStateMapper ks ts' name) -> target <> EmptyString ->
  generateStatus h w ts ks l = (Ok (ts', st), l1) ->
  rs_Gate strategy = Some gate -> gate_passed st strategy = true ->
  target <> ts_CurrentBuildID ts /\
  exists vi desc, ts_Versions ts !! target = Some vi /\
    w_DescribeVersion l name (vi_BuildID vi) = inl desc /\
    wf_queues (vd_TaskQueuesInfos desc) <> [] /\
    Forall (test_completed l l1 vi) (wf_queues (vd_TaskQueuesInfos desc)).
Proof.
  intros target name Hfresh Hp Hne Hg Hgate Hpass.
  destruct (gate_passed_Some _ _ _ Hgate Hpass) as (Hq & Hle & Hall).
  destruct (generateStatus_Ok _ _ _ _ _ _ _ _ Hg) as [Hsame Hst].
  destruct (mapToStatus_ok h _ target Hp) as (st' & Hst' & Hspec).
  unfold target, name in Hst'. rewrite Hst in Hst'. injection Hst' as <-.
  destruct (ss_target _ _ _ _ Hspec Hne) as (Hd & Htw & _).
  rewrite (dv_queues _ _ _ _ Hd) in Hq, Hle. rewrite Htw in Hle, Hall.
  assert (target <> ts_CurrentBuildID ts) as Hcur.
  { intros Heq. apply Hq. by eapply generateStatus_current. }
  split; [done|].
  destruct (generateStatus_target _ _ _ _ _ _ _ _ Hg Hfresh Hcur Hq) as (vi & vi' & Eb & Eb' & Hor).
  fold target in Eb'. unfold taskQueuesOf, versionOf in Hq, Hle, Hall. simpl in Hq, Hle, Hall.
  rewrite Eb' in Hq, Hle, Hall.
  destruct Hor as [Hz|(desc & outs & Hdesc & Hqs & Hf & Hwfs)].
  { rewrite Hz in Hle. destruct (vi_TaskQueues vi'); [done|simpl in Hle; lia]. }
  exists vi, desc. rewrite Hqs in Hq, Hle. rewrite Hwfs in Hle, Hall. rewrite length_fmap in Hle.
  split_and!; [done|done| |by eapply all_queues_completed].
  intros Hz. apply Hq. by rewrite Hz.
Qed.

(** C13: The gate is sound against the server: with a gate configured, the plan
    changes the version configuration only if the server lists at least one
    workflow task queue for the target version and described, while the status
    was computed, the test workflow of every listed one as completed - a
    workflow that runs, failed, was not found or could not be described blocks
    the change. *)
Theorem gate_sound `{!KeyOrderLaws O} h w ts ks l ts' st l1 config gate l2 v l3 :
  let target := ComputeBuildID w in
  let name := ComputeWorkerDeploymentName w in
  fresh_versions ts ->
  pointers_ok h (newStateMapper ks ts' name) -> target <> EmptyString ->
  generateStatus h w ts ks l = (Ok (ts', st), l1) ->
  rs_Gate (cfg_RolloutStrategy config) = Some gate ->
  getVersionConfigDiff st (Some ts') config l2 = (Ok (Some v), l3) ->
  target <> ts_CurrentBuildID ts /\
  exists vi desc, ts_Versions ts !! target = Some vi /\
    w_DescribeVersion l name (vi_BuildID vi) = inl desc /\
    wf_queues (vd_TaskQueuesInfos desc) <> [] /\
    Forall (test_completed l l1 vi) (wf_queues (vd_TaskQueuesInfos desc)).
Proof.
  intros target name Hfresh Hp Hne Hg Hgate (_ & _ & _ & Hpass)%getVersionConfigDiff_Some.
  by apply (gate_evidence h w ts ks l ts' st l1 (cfg_RolloutStrategy config) gate).
Qed.

(** With a gate configured, a rolled-back ramp is never reset: when the
    target is the Current version its test workflows are not queried, so its
    task queues are unknown, the gate does not pass, and the plan leaves the
    other version ramping, although this is the case for which the code has a
    reset. *)
Theorem gate_blocks_ramp_reset `{!KeyOrderLaws O} h w ts ks l ts' st l1 config gate l2 :
  let target := ComputeBuildID w in
  fresh_versions ts ->
  pointers_ok h (newStateMapper ks ts' (ComputeWorkerDeploymentName w)) ->
  target <> EmptyString -> target = ts_CurrentBuildID ts ->
  generateStatus h w ts ks l = (Ok (ts', st), l1) ->
  rs_Gate (cfg_RolloutStrategy config) = Some gate ->
  getVersionConfigDiff st (Some ts') config l2 = (Ok None, l2).
Proof.
  intros target Hfresh Hp Hne Hcur Hg Hgate.
  unfold getVersionConfigDiff. case_decide; [done|].
  destruct (_ || _); [done|].
  destruct (gate_passed st (cfg_RolloutStrategy config)) eqn:Epass; [|done]. exfalso.
  destruct (gate_passed_Some _ _ _ Hgate Epass) as (Hq & _).
  destruct (generateStatus_Ok _ _ _ _ _ _ _ _ Hg) as [_ Hst].
  destruct (mapToStatus_ok h _ target Hp) as (st' & Hst' & Hspec).
  unfold target in Hst'. rewrite Hst in Hst'. injection Hst' as <-.
  destruct (ss_target _ _ _ _ Hspec Hne) as (Hd & _). rewrite (dv_queues _ _ _ _ Hd) in Hq.
  apply Hq. by eapply generateStatus_current.
Qed.
End Status.

(** ** Version configuration, branch by branch *)

Section VersionConfig.
Context `{W : World}.

Definition ready (status : TemporalWorkerDeploymentStatus) (config : Config) : Prop :=
  rs_Strategy (cfg_RolloutStrategy config) <> UpdateManual /\
  is_Some (HealthySince (TargetVersion status)) /\
  ver_Status (TargetVersion status) <> VersionStatusNotRegistered /\
  gate_passed status (cfg_RolloutStrategy config) = true.

(** The version configuration without a change yet. *)
Definition base_config (status : TemporalWorkerDeploymentStatus) : VersionConfig :=
  mkVersionConfig (VersionConflictToken status) (BuildID (TargetVersion status)) false 0.

(** First rollout: no Current version, target registered but not routed to. *)
Definition first_rollout (status : TemporalWorkerDeploymentStatus) : bool :=
  is_nil (CurrentVersion status)
  && bool_decide (ver_Status (TargetVersion status) = VersionStatusInactive).

(** A change resets the ramp beside a Current target, or is about the target. *)
Lemma getVersionConfigDiff_cases status ts config l v l' :
  let strategy := cfg_RolloutStrategy config in
  getVersionConfigDiff status (Some ts) config l = (Ok (Some v), l') ->
  (target_is_current status = true /\ ts_RampingBuildID ts <> EmptyString /\
   v = mkVersionConfig (VersionConflictToken status) EmptyString false 0) \/
  (target_is_current status = false /\
   (v = vc_set_SetCurrent true (base_config status) \/
    rs_Strategy strategy = UpdateProgressive /\
    exists s, s ∈ rs_Steps strategy /\
      v = vc_set_RampPercentage (int32 (step_RampPercentage s)) (base_config status)) /\
   (is_Some (CurrentVersion status) -> rs_Strategy strategy = UpdateProgressive ->
    handleProgressiveRollout (rs_Steps strategy) (w_Now l)
      (RampLastModifiedAt (TargetVersion status)) (RampPercentage (TargetVersion status))
      (base_config status) = Ok (Some v))).
Proof.
  intros strategy. unfold getVersionConfigDiff. fold strategy.
  case_decide; [done|]. destruct (_ || _); [done|]. destruct (negb _); [done|].
  intros (promote & l1 & Hp & Hk)%io_bind_Ok. destruct promote.
  - right. destruct (CurrentVersion status) as [cur|] eqn:Ec; [by injection Hp|].
    injection Hk as <- _. unfold target_is_current. rewrite Ec.
    split_and!; [done|by left|by intros [? [=]]].
  - assert (l1 = l) as ->.
    { destruct (_ && _); [|by injection Hp].
      apply io_bind_Ok in Hp as (u & l2 & Hu & [= _ <-]). by injection Hu. }
    destruct (target_is_current status) eqn:Et.
    + left. apply io_bind_Ok in Hk as (ts' & l2 & Hts & Hk). injection Hts as <- <-.
      injection Hk as Hk _. case_decide; [done|]. injection Hk as <-. done.
    + right. split; [done|]. destruct (rs_Strategy strategy) eqn:Es; try done.
      * injection Hk as <- _. split; [by left|done].
      * apply io_bind_Ok in Hk as (now & l2 & Hn & Hk). injection Hn as <- <-.
        injection Hk as Hk _. split; [|done].
        apply handle_result in Hk as [->|(s & Hs & ->)]; [by left|right].
        split; [done|]. by exists s.
Qed.

(** A ready target that is neither the first version nor Current yet follows the
    strategy. *)
Lemma getVersionConfigDiff_follows status ts config l :
  let strategy := cfg_RolloutStrategy config in
  let vcfg := base_config status in
  ready status config ->
  (exists vi, ts_Versions ts !! BuildID (TargetVersion status) = Some vi /\
     vi_AllTaskQueuesHaveUnversionedPoller vi = true) \/ first_rollout status = false ->
  target_is_current status = false ->
  (rs_Strategy strategy = UpdateAllAtOnce ->
   getVersionConfigDiff status (Some ts) config l = (Ok (promote vcfg), l)) /\
  (rs_Strategy strategy = UpdateProgressive ->
   getVersionConfigDiff status (Some ts) config l
   = (handleProgressiveRollout (rs_Steps strategy) (w_Now l)
        (RampLastModifiedAt (TargetVersion status)) (RampPercentage (TargetVersion status)) vcfg,
      l ++ [EvNow])).
Proof.
  intros strategy vcfg (Hm & [t Ht] & Hr & Hg) Hor Hc. fold strategy in Hm, Hg.
  unfold getVersionConfigDiff. fold strategy.
  rewrite decide_False by done. rewrite Ht, (bool_decide_false _ Hr), Hg. simpl.
  assert (forall (k : bool -> io (option VersionConfig)),
    (p ← (if is_nil (CurrentVersion status)
             && bool_decide (ver_Status (TargetVersion status) = VersionStatusInactive)
          then unversioned ← lift (targetHasUnversionedPollers (Some ts)
                                     (BuildID (TargetVersion status)));
               mret (negb unversioned)
          else mret false); k p) l = k false l) as Hfirst.
  { intros k. destruct Hor as [(vi & Hvi & Hu)|Hf].
    - unfold targetHasUnversionedPollers. simpl. rewrite Hvi. simpl.
      destruct (_ && _); io_run; [|done]. by rewrite Hu.
    - unfold first_rollout in Hf. by rewrite Hf. }
  split; intros Hst; rewrite Hfirst, Hc, Hst; [done|]. io_run. done.
Qed.

(** C14: When the version configuration changes, on every branch.  Not ready -
    Manual strategy, unhealthy or unregistered target, gate not passed - means
    no change.  Ready, the target is promoted at once if it would be the first
    Current version and not all its task queues have unversioned pollers; if it
    already is Current, a ramp of another version is removed and otherwise
    nothing happens; else AllAtOnce promotes it and Progressive follows the
    steps.  The conflict token of the status goes with every change. *)
Theorem getVersionConfigDiff_spec status ts config l :
  let strategy := cfg_RolloutStrategy config in
  let vcfg := base_config status in
  (~ ready status config -> getVersionConfigDiff status (Some ts) config l = (Ok None, l)) /\
  (ready status config ->
   (first_rollout status = true ->
    forall vi, ts_Versions ts !! BuildID (TargetVersion status) = Some vi ->
    vi_AllTaskQueuesHaveUnversionedPoller vi = false ->
    getVersionConfigDiff status (Some ts) config l = (Ok (promote vcfg), l)) /\
   (target_is_current status = true ->
    getVersionConfigDiff status (Some ts) config l
    = (Ok (if decide (ts_RampingBuildID ts = EmptyString) then None
           else Some (mkVersionConfig (VersionConflictToken status) EmptyString false 0)), l)) /\
   ((exists vi, ts_Versions ts !! BuildID (TargetVersion status) = Some vi /\
      vi_AllTaskQueuesHaveUnversionedPoller vi = true) \/ first_rollout status = false ->
    target_is_current status = false ->
    (rs_Strategy strategy = UpdateAllAtOnce ->
     getVersionConfigDiff status (Some ts) config l = (Ok (promote vcfg), l)) /\
    (rs_Strategy strategy = UpdateProgressive ->
     getVersionConfigDiff status (Some ts) config l
     = (handleProgressiveRollout (rs_Steps strategy) (w_Now l)
          (RampLastModifiedAt (TargetVersion status)) (RampPercentage (TargetVersion status)) vcfg,
        l ++ [EvNow])))).
Proof.
  intros strategy vcfg. split; [|intros Hready; split_and!; [| |by apply getVersionConfigDiff_follows]];
    unfold getVersionConfigDiff; fold strategy.
  - intros Hn. case_decide as Hm; [done|].
    destruct (HealthySince (TargetVersion status)) as [t|] eqn:Eh; [|done]. simpl.
    case_bool_decide as Hr; [done|]. simpl.
    destruct (gate_passed status strategy) eqn:Eg; [|done]. exfalso. apply Hn.
    unfold ready. rewrite Eh. by split_and!.
  - destruct Hready as (Hm & [t Ht] & Hr & Hg). fold strategy in Hm, Hg.
    rewrite decide_False by done. rewrite Ht, (bool_decide_false _ Hr), Hg. simpl.
    unfold first_rollout. intros -> vi Hvi Hu. unfold targetHasUnversionedPollers. simpl.
    rewrite Hvi. simpl. io_run. by rewrite Hu.
  - destruct Hready as (Hm & [t Ht] & Hr & Hg). fold strategy in Hm, Hg.
    rewrite decide_False by done. rewrite Ht, (bool_decide_false _ Hr), Hg. simpl.
    intros Hc. unfold target_is_current in Hc.
    destruct (CurrentVersion status) as [cur|] eqn:Ec; [|done]. simpl. io_run.
    unfold target_is_current. rewrite Ec, Hc. simpl. io_run. done.
Qed.
End VersionConfig.

(** ** The gate's input *)

(** The planner's check agrees with the webhook's. *)
Lemma validateGateInputConfig_spec gate :
  (validateGateInputConfig (Some gate) = Ok tt <-> valid_gate gate) /\
  (~ valid_gate gate -> exists e, validateGateInputConfig (Some gate) = Err e).
Proof.
  unfold validateGateInputConfig, valid_gate. destruct gate as [t input from]; simpl.
  destruct from as [[cm sec]|], input; simpl; try destruct cm, sec; simpl;
    split; try split; intros; try done; try naive_solver; eauto.
Qed.

(** The gate input is resolved from exactly the configured source: the
    inline value, the ConfigMap's data and then its binary data, or the Secret;
    it is marked secret exactly when it came from the Secret; a missing key and
    a configuration the webhook would reject are errors. *)
Theorem ResolveGateInput_spec gate ns data binary secret :
  match ResolveGateInput (Some gate) ns data binary secret with
  | Ok (input, is_secret) =>
      valid_gate gate /\
      match gate_Input gate, gate_InputFrom gate with
      | Some raw, _ => input = raw /\ is_secret = false
      | None, None => input = EmptyString /\ is_secret = false
      | None, Some from =>
          (exists ref, ConfigMapKeyRef from = Some ref /\ is_secret = false /\
             (gm_lookup data (ks_Key ref) = Some input \/
              gm_lookup data (ks_Key ref) = None /\
              gm_lookup binary (ks_Key ref) = Some input)) \/
          (exists ref, SecretKeyRef from = Some ref /\ is_secret = true /\
             gm_lookup secret (ks_Key ref) = Some input)
      end
  | Err _ =>
      ~ valid_gate gate \/
      exists from, gate_InputFrom gate = Some from /\
        ((exists ref, ConfigMapKeyRef from = Some ref /\ gm_lookup data (ks_Key ref) = None /\
            gm_lookup binary (ks_Key ref) = None) \/
         (exists ref, SecretKeyRef from = Some ref /\ gm_lookup secret (ks_Key ref) = None))
  | Panic _ => False
  end.
Proof.
  unfold ResolveGateInput. destruct (validateGateInputConfig_spec gate) as [Hok Herr].
  destruct (validateGateInputConfig (Some gate)) as [[]|e|p] eqn:Ev; simpl.
  2: { left. intros Hv. by apply Hok in Hv. }
  2: { unfold validateGateInputConfig in Ev. by repeat case_match. }
  assert (valid_gate gate) as Hv by (by apply Hok). clear Hok Herr Ev.
  unfold valid_gate in *. destruct gate as [t input from]; simpl in *.
  destruct input as [raw|], from as [[cm sec]|]; simpl in *; try done.
  destruct cm as [cm|], sec as [sec|]; simpl in *; try naive_solver.
  - destruct (gm_lookup data (ks_Key cm)) eqn:E1; [naive_solver|].
    destruct (gm_lookup binary (ks_Key cm)) eqn:E2; naive_solver.
  - destruct (gm_lookup secret (ks_Key sec)) eqn:E1; naive_solver.
Qed.
