(* ===== verification/Servers.v ===== *)
(** * What the development relies on of the servers

    Documented behaviour of the Temporal server and of the Kubernetes API
    server, as classes over a [World]: answers of [Describe] are consistent, a
    status update returns the object as stored, and the routing changes only by
    the writes that change it.  The concrete worlds of Scenario.v and
    LoopScenario.v are instances. *)

From stdpp Require Import base gmap sets list strings.
From Stdlib Require Import ZArith Lia.
From S2P Require Import Prelude GoStd Api K8s Trace World Temporal Webhook Planner SunsetProps.
Local Open Scope Z_scope.

(** ** Descriptions *)

(** What Temporal documents of a description: the routed versions are listed,
    and a build ID is listed once. *)
Record consistent_response (resp : DescribeResponse) : Prop := {
  cr_listed v :
    rc_CurrentVersion (wdi_RoutingConfig (dr_Info resp)) = Some v \/
    rc_RampingVersion (wdi_RoutingConfig (dr_Info resp)) = Some v ->
    exists s, s ∈ wdi_VersionSummaries (dr_Info resp) /\ vs_Version s = v;
  cr_unique s s' :
    s ∈ wdi_VersionSummaries (dr_Info resp) -> s' ∈ wdi_VersionSummaries (dr_Info resp) ->
    wdv_BuildId (vs_Version s) = wdv_BuildId (vs_Version s') -> s = s';
}.

Class DescribeServer (W : World) := {
  describe_consistent l name resp : w_Describe l name = inl resp -> consistent_response resp;
}.

(** ** Status updates *)

(** [metav1.Time] is written with whole seconds. *)
Definition stored_time (sent stored : option Time) : Prop :=
  match sent, stored with
  | None, None => True
  | Some t, Some t' => t' <= t < t' + Second
  | _, _ => False
  end.

Record version_stored (sent stored : BaseWorkerDeploymentVersion) : Prop := {
  vst_build : BuildID stored = BuildID sent;
  vst_status : ver_Status stored = ver_Status sent;
  vst_queues : TaskQueues stored = TaskQueues sent;
  vst_ref : rp_ref <$> ver_Deployment stored = rp_ref <$> ver_Deployment sent;
  vst_healthy : stored_time (HealthySince sent) (HealthySince stored);
}.

Record deprecated_stored (sent stored : DeprecatedWorkerDeploymentVersion) : Prop := {
  dst_base : version_stored sent stored;
  dst_drained : stored_time (DrainedSince sent) (DrainedSince stored);
  dst_eligible : EligibleForDeletion stored = EligibleForDeletion sent;
}.

(** The status as the API server returns it: a round trip through JSON. *)
Record status_stored (sent stored : TemporalWorkerDeploymentStatus) : Prop := {
  sts_target : version_stored (TargetVersion sent) (TargetVersion stored);
  sts_tests : TestWorkflows (TargetVersion stored) = TestWorkflows (TargetVersion sent);
  sts_percentage : RampPercentage (TargetVersion stored) = RampPercentage (TargetVersion sent);
  sts_since : stored_time (RampingSince (TargetVersion sent)) (RampingSince (TargetVersion stored));
  sts_modified : stored_time (RampLastModifiedAt (TargetVersion sent))
                   (RampLastModifiedAt (TargetVersion stored));
  sts_current : match CurrentVersion sent, CurrentVersion stored with
                | None, None => True
                | Some c, Some c' => version_stored c c'
                | _, _ => False
                end;
  sts_deprecated : Forall2 deprecated_stored (DeprecatedVersions sent) (DeprecatedVersions stored);
  sts_token : VersionConflictToken stored = VersionConflictToken sent;
  sts_modifier : LastModifierIdentity stored = LastModifierIdentity sent;
  sts_count : VersionCount stored = VersionCount sent;
}.

(** A resource is returned under the name it was asked for. *)
Class NamedObjects (W : World) := {
  get_named l ns n fetched : w_GetTWD l ns n = inl fetched ->
    om_Namespace (twd_ObjectMeta fetched) = ns /\ om_Name (twd_ObjectMeta fetched) = n;
}.

(** The API server ignores the spec in a status update and accepts it only for
    the object that was read; what it returns has the status that was sent. *)
Class StatusServer (W : World) := {
  update_keeps_status l w stored :
    w_UpdateStatus l w = inl stored -> status_stored (twd_Status w) (twd_Status stored);
  update_keeps_object l0 ns n fetched w l st stored w' :
    l0 `prefix_of` l -> w_GetTWD l0 ns n = inl fetched -> TWD_Default (ObjTWD fetched) = Ok w ->
    w_UpdateStatus l (twd_set_Status st w) = inl stored -> TWD_Default (ObjTWD stored) = Ok w' ->
    twd_Spec w' = twd_Spec w /\ twd_ObjectMeta w' = twd_ObjectMeta w;
}.

Lemma stored_time_refl t : stored_time t t.
Proof. destruct t; simpl; [unfold Second, Nanosecond; lia|done]. Qed.

Lemma version_stored_refl v : version_stored v v.
Proof. split; try done. apply stored_time_refl. Qed.

Lemma deprecated_stored_refl v : deprecated_stored v v.
Proof. split; [apply version_stored_refl|apply stored_time_refl|done]. Qed.

Lemma status_stored_refl st : status_stored st st.
Proof.
  split; try done; try apply version_stored_refl; try apply stored_time_refl.
  - destruct (CurrentVersion st); [apply version_stored_refl|done].
  - induction (DeprecatedVersions st); constructor; [apply deprecated_stored_refl|done].
Qed.

(** A stored deprecated version was sent. *)
Lemma stored_deprecated_sent sent stored (v : DeprecatedWorkerDeploymentVersion) :
  status_stored sent stored -> v ∈ DeprecatedVersions stored ->
  exists v0 : DeprecatedWorkerDeploymentVersion,
    v0 ∈ DeprecatedVersions sent /\ deprecated_stored v0 v.
Proof.
  intros Hst (i & Hi)%list_elem_of_lookup.
  destruct (Forall2_lookup_r _ _ _ _ _ (sts_deprecated _ _ Hst) Hi) as (v0 & Hv0 & Hd).
  exists v0. split; [by eapply list_elem_of_lookup_2|done].
Qed.

(** Decoding the answer to a status update shares no references that were not
    shared before. *)
Class DecodingClient (W : World) := {
  update_unshared l w stored :
    w_UpdateStatus l w = inl stored -> refs_unshared (twd_Status w) ->
    refs_unshared (twd_Status stored);
}.

(** ** Routing *)

Definition version_of (name b : string) : option WorkerDeploymentVersion :=
  if decide (b = EmptyString) then None else Some (mkWorkerDeploymentVersion name b).

(** What a write does to the routing of the worker deployment [name], stamped
    with the server's time [t]. *)
Definition routing_change (name : string) (ev : Event) (t : Time) (rc rc' : RoutingConfig)
  : Prop :=
  match ev with
  | EvSetCurrentVersion n opts =>
      n = name /\ rc_CurrentVersion rc' = version_of name (scv_BuildID opts) /\
      rc_RampingVersion rc' =
        (if decide (buildIdOf (rc_RampingVersion rc) = scv_BuildID opts) then None
         else rc_RampingVersion rc)
  | EvSetRampingVersion n opts =>
      n = name /\ rc_CurrentVersion rc' = rc_CurrentVersion rc /\
      rc_RampingVersion rc' = version_of name (srv_BuildID opts) /\
      rc_RampingVersionPercentage rc' = srv_Percentage opts /\
      rc_RampingVersionPercentageChangedTime rc' = t
  | _ => False
  end.

(** The events that change a routing at all. *)
Definition is_routing (ev : Event) : bool :=
  match ev with
  | EvSetCurrentVersion _ _ | EvSetRampingVersion _ _ => true
  | _ => false
  end.

(** The routing is a function of what happened; [Describe] tells it.  A write
    that is answered with an error may or may not have been applied; the server
    stamps a change with its own clock, which is at most [skew] behind. *)
Class RoutingServer (W : World) (skew : Duration) := {
  sv_routing : Log -> string -> RoutingConfig;
  sv_skew : 0 <= skew;
  sv_describe l name resp :
    w_Describe l name = inl resp -> wdi_RoutingConfig (dr_Info resp) = sv_routing l name;
  sv_event l ev name :
    sv_routing (l ++ [ev]) name = sv_routing l name \/
    exists t, w_Now l - skew <= t /\
      routing_change name ev t (sv_routing l name) (sv_routing (l ++ [ev]) name);
}.

Section Routing.
Context `{W : World} {skew : Duration} `{RS : !RoutingServer W skew}.

(** Events that are not about the routing of [name]. *)
Definition foreign_event (name : string) (ev : Event) : Prop :=
  match ev with
  | EvSetCurrentVersion n _ | EvSetRampingVersion n _ => n <> name
  | _ => True
  end.

Lemma routing_foreign l evs name :
  Forall (foreign_event name) evs -> sv_routing (l ++ evs) name = sv_routing l name.
Proof.
  revert l. induction evs as [|ev evs IH]; intros l Hq; [by rewrite app_nil_r|].
  apply Forall_cons in Hq as [Hev Hq]. rewrite cons_middle, app_assoc, IH by done.
  destruct (sv_event l ev name) as [?|(t & _ & Hch)]; [done|].
  destruct ev; simpl in *; naive_solver.
Qed.

Lemma quiet_foreign name evs :
  Forall (fun ev => is_routing ev = false) evs -> Forall (foreign_event name) evs.
Proof. intros H. eapply Forall_impl; [exact H|]. by intros []. Qed.

Lemma routing_quiet l evs name :
  Forall (fun ev => is_routing ev = false) evs ->
  sv_routing (l ++ evs) name = sv_routing l name.
Proof. intros H. by apply routing_foreign, quiet_foreign. Qed.
End Routing.

(** A write of the routing that is answered with success has been applied. *)
Class ObeyingServer (W : World) (skew : Duration) {RS : RoutingServer W skew} := {
  sv_obeys l ev name :
    is_routing ev = true -> ~ foreign_event name ev -> w_Write l ev = inl tt ->
    exists t, w_Now l - skew <= t /\
      routing_change name ev t (sv_routing l name) (sv_routing (l ++ [ev]) name);
}.
