(* ===== verification/Safety.v ===== *)
(** * End to end: what the server says and what the plan removes

    The theorems of the components composed: the answer of [Describe] goes
    through [GetWorkerDeploymentState], [generateStatus] and the planner. *)

From stdpp Require Import base gmap sets list strings.
From Stdlib Require Import ZArith Lia.
From S2P Require Import Prelude GoStd Api K8s K8sProps Trace World Temporal TemporalProps.
From S2P Require Import Planner StateMapper StateMapperProps SunsetProps UpdateProps.
From S2P Require Import GateProps Servers.
Local Open Scope Z_scope.

(** New workflows go to [b], or pinned ones may still run on it. *)
Definition routed (resp : DescribeResponse) (b : string) : Prop :=
  exists v, wdv_BuildId v = b /\
    (rc_CurrentVersion (wdi_RoutingConfig (dr_Info resp)) = Some v \/
     rc_RampingVersion (wdi_RoutingConfig (dr_Info resp)) = Some v).

Definition draining (resp : DescribeResponse) (b : string) : Prop :=
  exists s, s ∈ wdi_VersionSummaries (dr_Info resp) /\ wdv_BuildId (vs_Version s) = b /\
    vs_DrainageStatus s = DrainageStatusDraining.

Lemma same_version_refl v : same_version v (Some v) = true.
Proof. unfold same_version. by rewrite !bool_decide_true. Qed.

Section EndToEnd.
Context `{W : World} `{L : K8sLib} `{O : KeyOrder} `{!KeyOrderLaws O}.

(** The status the state gives a listed build. *)
Lemma statusOf_listed la lb name target strategy resp ts ts' m s :
  versions_describe la lb name target strategy (wdi_RoutingConfig (dr_Info resp))
    (wdi_VersionSummaries (dr_Info resp)) (ts_Versions ts) ->
  consistent_response resp -> same_but_tests ts ts' -> sm_temporalState m = ts' ->
  s ∈ wdi_VersionSummaries (dr_Info resp) ->
  status_ok (wdi_RoutingConfig (dr_Info resp)) s (statusOf m (wdv_BuildId (vs_Version s))).
Proof.
  intros [Hdesc Hall] Hcr Hsame Hm Hs. destruct (Hall s Hs) as [vi Hvi].
  destruct (Hdesc _ _ Hvi) as (s' & Hs' & Hb & Hok).
  assert (s' = s) as -> by (by apply (cr_unique _ Hcr)).
  unfold statusOf, versionOf. rewrite Hm.
  destruct (ts_Versions ts' !! wdv_BuildId (vs_Version s)) as [vi'|] eqn:Evi'.
  - destruct (same_but_tests_lookup _ _ _ _ Hsame Evi') as (vi0 & Hvi0 & He).
    rewrite Hvi in Hvi0. injection Hvi0 as <-.
    assert (vi_Status vi' = vi_Status vi) as -> by (by apply (f_equal vi_Status) in He).
    apply (vio_status _ _ _ _ _ _ _ _ Hok).
  - pose proof (f_equal (lookup (wdv_BuildId (vs_Version s))) (sbt_versions _ _ Hsame)) as H.
    rewrite !lookup_fmap, Evi', Hvi in H. discriminate.
Qed.

(** A build with one of these statuses neither gets new workflows nor drains. *)
Definition gone (status : VersionStatus) : Prop :=
  status = VersionStatusDrained \/ status = VersionStatusNotRegistered \/
  status = VersionStatusInactive.

Lemma gone_not_live la lb name target strategy resp ts ts' m b :
  versions_describe la lb name target strategy (wdi_RoutingConfig (dr_Info resp))
    (wdi_VersionSummaries (dr_Info resp)) (ts_Versions ts) ->
  consistent_response resp -> same_but_tests ts ts' -> sm_temporalState m = ts' ->
  gone (statusOf m b) -> ~ routed resp b /\ ~ draining resp b.
Proof.
  intros Hd Hcr Hsame Hm Hgone. split.
  - intros (v & <- & Hv). destruct (cr_listed _ Hcr v Hv) as (s & Hs & <-).
    pose proof (statusOf_listed _ _ _ _ _ _ _ _ _ _ Hd Hcr Hsame Hm Hs) as Hok.
    unfold status_ok in Hok. destruct Hv as [Hv|Hv]; rewrite Hv, same_version_refl in Hok.
    + rewrite Hok in Hgone. by destruct Hgone as [|[|]].
    + destruct (same_version _ _); rewrite Hok in Hgone; by destruct Hgone as [|[|]].
  - intros (s & Hs & <- & Hdr).
    pose proof (statusOf_listed _ _ _ _ _ _ _ _ _ _ Hd Hcr Hsame Hm Hs) as Hok.
    unfold status_ok in Hok. rewrite Hdr in Hok.
    destruct (same_version _ _); [|destruct (same_version _ _)]; rewrite Hok in Hgone;
      by destruct Hgone as [|[|]].
Qed.

(** The run from the server's answer to the status. *)
Record observed (h0 : Store) (ks0 : DeploymentState) (w : TemporalWorkerDeployment)
    (strategy : DefaultVersionUpdateStrategy) (identity : string) (resp : DescribeResponse)
    (st : TemporalWorkerDeploymentStatus) (l0 l2 : Log) : Prop := {
  ob_wf : state_wf ks0 h0;
  ob_target : ComputeBuildID w <> EmptyString;
  ob_answer : w_Describe l0 (ComputeWorkerDeploymentName w) = inl resp;
  ob_resp : consistent_response resp;
  ob_run : (ts ← GetWorkerDeploymentState (ComputeWorkerDeploymentName w) (Deployments ks0) h0
                   (ComputeBuildID w) strategy identity;
            r ← generateStatus h0 w ts ks0;
            mret r.2) l0 = (Ok st, l2);
}.

Lemma observed_spec h0 ks0 w strategy identity resp st l0 l2 :
  observed h0 ks0 w strategy identity resp st l0 l2 ->
  exists m, status_spec h0 m (ComputeBuildID w) st /\
    forall b, gone (statusOf m b) -> ~ routed resp b /\ ~ draining resp b.
Proof.
  intros [Hwf Htarget Hans Hcr Hrun].
  apply io_bind_Ok in Hrun as (ts & l1 & Hts & Hk).
  apply io_bind_Ok in Hk as ([ts' st'] & l3 & Hg & [= <- _]). simpl.
  apply generateStatus_Ok in Hg as [Hsame Hst].
  set (m := newStateMapper ks0 ts' (ComputeWorkerDeploymentName w)) in *.
  assert (pointers_ok h0 m) as Hp by exact (state_wf_pointers h0 m Hwf).
  destruct (mapToStatus_ok h0 m (ComputeBuildID w) Hp) as (st2 & Hst2 & Hspec).
  rewrite Hst in Hst2. injection Hst2 as <-. exists m. split; [done|].
  intros b Hgone.
  pose proof (GetWorkerDeploymentState_versions _ _ _ _ _ _ _ _ _ _ Hans Hts) as Hdesc.
  exact (gone_not_live _ _ _ _ _ resp ts ts' m b Hdesc Hcr Hsame eq_refl Hgone).
Qed.

Lemma deprecated_build h0 m target st (v : DeprecatedWorkerDeploymentVersion) :
  status_spec h0 m target st -> v ∈ DeprecatedVersions st ->
  ver_Status v = statusOf m (BuildID v) /\ BuildID v <> target.
Proof.
  intros Hspec Hv. pose proof (ss_deprecated _ _ _ _ Hspec v Hv) as [Hd _].
  split; [apply (dv_status _ _ _ _ Hd)|].
  assert (BuildID v ∈ (fun v => BuildID (dep_base v)) <$> DeprecatedVersions st) as Hin.
  { apply list_elem_of_fmap. by exists v. }
  rewrite (ss_deprecated_ids _ _ _ _ Hspec) in Hin.
  apply list_elem_of_filter in Hin as [(_ & _ & Ht) _]. done.
Qed.

(** What a plan on the stored status [st'] removes belongs to a build that is
    gone. *)
Lemma deleted_gone h0 m target st st' h ks spec found l dels l' p :
  status_spec h0 m target st -> status_stored st st' -> state_wf ks h ->
  getDeleteDeployments ks h st' spec found l = (Ok dels, l') -> p ∈ dels ->
  exists d b, h !! p = Some d /\ build_label d = Some b /\ b <> target /\
    (statusOf m b = VersionStatusDrained \/
     statusOf m b = VersionStatusNotRegistered /\ found = true).
Proof.
  intros Hspec Hsto Hwf Hdel Hp. apply getDeleteDeployments_run in Hdel as [_ Hdel].
  apply Hdel in Hp as (v & lv & [Hv _]%visited_elem & _ & Hlk & Hm).
  destruct (wf_deployment _ _ Hwf _ _ Hlk) as (d & Hd & Hb).
  destruct (stored_deprecated_sent _ _ _ Hsto Hv) as (v0 & Hv0 & [Hbase _ _]).
  destruct (deprecated_build _ _ _ _ _ Hspec Hv0) as [Hst Ht].
  rewrite <- (vst_build _ _ Hbase) in Hst, Ht. rewrite <- (vst_status _ _ Hbase) in Hst.
  exists d, (BuildID v). split_and!; try done. rewrite <- Hst.
  destruct Hm as [[-> _]|(-> & -> & _)]; auto.
Qed.

Lemma scaled_down_gone `{!WorldClock W} h0 m target st st' h ks spec replicas l scales l' a r :
  status_spec h0 m target st -> status_stored st st' ->
  spec_Replicas spec = Some replicas -> uint32 replicas <> 0 ->
  getScaleDeployments ks h st' spec l = (Ok scales, l') -> scales !! a = Some (r, 0) ->
  exists v0 v : DeprecatedWorkerDeploymentVersion,
    v0 ∈ DeprecatedVersions st /\ deprecated_stored v0 v /\
    ver_Deployment v = Some (mkRefPtr a r) /\ BuildID v <> target /\
    (statusOf m (BuildID v) = VersionStatusDrained \/
     statusOf m (BuildID v) = VersionStatusInactive).
Proof.
  intros Hspec Hsto Hrep Hnz Hs Ha.
  destruct (getScaleDeployments_run _ _ _ _ _ _ _ Hs) as (replicas' & Hrep' & Hsound & _).
  simplify_eq. apply Hsound in Ha as (v1 & Href & p & _ & Hreason).
  inversion Hreason as [c q Hc Hn Hv Hq Hz|q Hc Hn Hv Hq Hz|v q n Hv Hn Hv0 Hq Hz];
    [done..|]. subst.
  destruct (stored_deprecated_sent _ _ _ Hsto Hv) as (v0 & Hv0 & Hst0).
  destruct (deprecated_build _ _ _ _ _ Hspec Hv0) as [Hst Ht].
  pose proof (dst_base _ _ Hst0) as Hbase.
  rewrite <- (vst_build _ _ Hbase) in Hst, Ht. rewrite <- (vst_status _ _ Hbase) in Hst.
  exists v0, v. split_and!; try done. rewrite <- Hst. unfold deprecated_scale in Hn.
  destruct (ver_Status v); try done; [by right|by destruct Hn as [Hn _]..|by left].
Qed.

(** Deletion never hits a live version: a Deployment the plan deletes
    carries a build ID that is not the target, to which - by the answer the run
    started from - the server routes no new workflow, neither as Current nor as
    Ramping version, and which the server does not call draining.  The
    Deployments may have been listed again in between, and the status may have
    been written to the API server and read back. *)
Theorem deletion_spares_live_versions h0 ks0 w strategy identity resp st l0 l2
    st' h ks spec found l3 dels l4 p :
  observed h0 ks0 w strategy identity resp st l0 l2 -> status_stored st st' ->
  state_wf ks h ->
  getDeleteDeployments ks h st' spec found l3 = (Ok dels, l4) -> p ∈ dels ->
  exists d b, h !! p = Some d /\ build_label d = Some b /\
    b <> ComputeBuildID w /\ ~ routed resp b /\ ~ draining resp b.
Proof.
  intros (m & Hspec & Hlive)%observed_spec Hsto Hwf Hdel Hp.
  destruct (deleted_gone _ _ _ _ _ _ _ _ _ _ _ _ _ Hspec Hsto Hwf Hdel Hp)
    as (d & b & Hd & Hb & Ht & Hg).
  exists d, b. split_and!; try done; apply Hlive; unfold gone; naive_solver.
Qed.

(** Nothing live is scaled to zero: unless the spec itself asks for zero
    replicas, an entry of the scale map that is zero belongs to a version that
    is not the target, to which the server routes no new workflow and which it
    does not call draining. *)
Theorem scale_down_spares_live_versions `{!WorldClock W} h0 ks0 w strategy identity resp st l0 l2
    st' h ks spec replicas l3 scales l4 a r :
  observed h0 ks0 w strategy identity resp st l0 l2 -> status_stored st st' ->
  spec_Replicas spec = Some replicas -> uint32 replicas <> 0 ->
  getScaleDeployments ks h st' spec l3 = (Ok scales, l4) -> scales !! a = Some (r, 0) ->
  exists v, ver_Deployment v = Some (mkRefPtr a r) /\ BuildID v <> ComputeBuildID w /\
    ~ routed resp (BuildID v) /\ ~ draining resp (BuildID v).
Proof.
  intros (m & Hspec & Hlive)%observed_spec Hsto Hrep Hnz Hs Ha.
  destruct (scaled_down_gone _ _ _ _ _ _ _ _ _ _ _ _ _ _ Hspec Hsto Hrep Hnz Hs Ha)
    as (v0 & v & _ & _ & Href & Ht & Hg).
  exists v. split_and!; try done; apply Hlive; unfold gone; naive_solver.
Qed.
End EndToEnd.

(** ** Creation *)

Section Creation.
Context `{L : K8sLib} `{!K8sLibLaws L}.

Lemma created_label w c d :
  NewDeploymentWithControllerRef w (ComputeBuildID w) c = Ok d ->
  build_label d = Some (ComputeBuildID w).
Proof.
  unfold NewDeploymentWithControllerRef. intros Hd.
  destruct (SetControllerReference_frame _ _ _ Hd) as [refs ->]. unfold build_label. simpl.
  by apply build_label_selector, ComputeBuildID_length.
Qed.

(** A created Deployment is settled: its selector is contained in the labels
    of its pods (which the API requires, and user labels cannot break), it has
    the replicas of the spec, and it is up to date with the connection and the
    template it was created from, so the next plan does not update it. *)
Theorem created_deployment_settled w c d :
  NewDeploymentWithControllerRef w (ComputeBuildID w) c = Ok d ->
  (exists selector labels,
     ds_Selector (d_Spec d) = Some (Some selector) /\
     pts_Labels (d_Template d) = Some labels /\ selector ⊆ labels) /\
  ds_Replicas (d_Spec d) = spec_Replicas (twd_Spec w) /\
  conn_ok c d /\ template_ok (twd_Spec w) d.
Proof.
  unfold NewDeploymentWithControllerRef. intros Hd.
  destruct (SetControllerReference_frame _ _ _ Hd) as [refs ->]. split_and!.
  - eexists _, _. split; [reflexivity|]. split; [reflexivity|]. apply map_union_subseteq_l.
  - done.
  - unfold conn_ok, conn_hash, gm_get. simpl.
    by rewrite (proj1 (podAnnotations_hashes _ _)).
  - right. right. unfold template_hash, gm_get. simpl.
    by rewrite (proj2 (podAnnotations_hashes _ _)).
Qed.

(** C26: A Deployment is created once: when the created Deployment is among the
    children listed later - whatever the server added to it, as long as it kept
    the labels - the state tracks the target build and no further Deployment is
    created for it. *)
Theorem creation_is_not_repeated `{O : KeyOrder} `{!KeyOrderLaws O} w c d items stored ts max :
  NewDeploymentWithControllerRef w (ComputeBuildID w) c = Ok d ->
  om_Labels (d_ObjectMeta stored) = om_Labels (d_ObjectMeta d) -> stored ∈ items ->
  exists ks h st, GetDeploymentState (Ok items) = Ok (ks, h) /\
    is_Some (Deployments ks !! ComputeBuildID w) /\
    mapToStatus h (newStateMapper ks ts (ComputeWorkerDeploymentName w)) (ComputeBuildID w)
    = Ok st /\
    shouldCreateDeployment st max = Ok false.
Proof.
  intros Hd Hlab Hin.
  assert (build_label stored = Some (ComputeBuildID w)) as Hb.
  { rewrite <- (created_label _ _ _ Hd). unfold build_label. by rewrite Hlab. }
  destruct (GetDeploymentState_tracked items) as (ks & h & Hks & Hwf & Htr).
  exists ks, h. assert (is_Some (Deployments ks !! ComputeBuildID w)) as [p Hp]
    by (apply Htr; eauto).
  set (m := newStateMapper ks ts (ComputeWorkerDeploymentName w)).
  destruct (mapToStatus_ok h m (ComputeBuildID w) (state_wf_pointers h m Hwf)) as (st & Hst & Hspec).
  exists st. split_and!; [done|by eexists|done|].
  destruct (ss_target _ _ _ _ Hspec (ComputeBuildID_nonempty w)) as (Hdv & _).
  unfold shouldCreateDeployment. rewrite (dv_ref _ _ _ _ Hdv). simpl. rewrite Hp. simpl.
  rewrite (wf_ref _ _ Hwf), Hp. simpl. destruct (wf_deployment _ _ Hwf _ _ Hp) as (d0 & Hd0 & _).
  unfold ref_at. by rewrite Hd0.
Qed.
End Creation.
