(* ===== verification/ClientPool.v ===== *)
(** * internal/controller/clientpool/clientpool.go

    The pool of Temporal clients: a map from connection parameters to connected
    clients, and the certificate checks.  The functions take the map and return
    the updated one.  The second half models the pool's read-write mutex: which
    operation holds which lock while it touches the map. *)

From stdpp Require Import base gmap sets list strings relations.
From Stdlib Require Import ZArith Lia.
From S2P Require Import Prelude GoStd Api Trace World.
Local Open Scope Z_scope.

(** ** Data *)

(** [AuthMode] is a string type. *)
Definition AuthModeTLS : string := "TLS".
Definition AuthModeAPIKey : string := "API_KEY".
Definition AuthModeNoCredentials : string := "NO_CREDENTIALS".

Definition SecretTypeTLS : string := "kubernetes.io/tls".
Definition SecretTypeOpaque : string := "Opaque".

Record ClientPoolKey := mkClientPoolKey {
  cpk_HostPort : string;
  cpk_Namespace : string;
  cpk_SecretName : string;
  cpk_AuthMode : string;
}.

#[export] Instance ClientPoolKey_eq_dec : EqDecision ClientPoolKey.
Proof. solve_decision. Defined.

#[export] Instance ClientPoolKey_countable : Countable ClientPoolKey.
Proof.
  refine (inj_countable'
    (fun k => (cpk_HostPort k, cpk_Namespace k, cpk_SecretName k, cpk_AuthMode k))
    (fun '(h, n, s, m) => mkClientPoolKey h n s m) _).
  by intros [].
Defined.

(** [tlsConfig] holds the certificate. *)
Record MTLSAuth := mkMTLSAuth {
  mtls_tlsConfig : string;
  mtls_expiryTime : Time;
}.

Record ClientAuth := mkClientAuth {
  auth_mode : string;
  auth_mTLS : option MTLSAuth;
}.

Record ClientInfo := mkClientInfo {
  ci_client : sdkClient;
  ci_auth : ClientAuth;
}.

(** The map of the pool. *)
Abbreviation ClientPool := (gmap ClientPoolKey ClientInfo).

Definition New : ClientPool := ∅.

Record NewClientOptions := mkNewClientOptions {
  nco_TemporalNamespace : string;
  nco_K8sNamespace : string;
  nco_Spec : TemporalConnectionSpec;
}.

(** Decoding of certificates: the PEM block, the [NotAfter] of the parsed
    certificate, and whether certificate and key belong together. *)
Class CertLib := {
  pem_Decode : string -> option string;
  x509_ParseCertificate : string -> Time + gerror;
  tls_X509KeyPair : string -> string -> unit + gerror;
}.

Section WithWorld.
Context `{World} `{CertLib}.

(** ** Certificates *)

Definition calculateCertificateExpirationTime (certBytes : string) (bufferTime : Duration)
  : outcome Time :=
  if decide (certBytes = EmptyString) then Err (Errorf "no certificate bytes provided" [])
  else
    match pem_Decode certBytes with
    | None => Err (Errorf "failed to decode PEM block" [])
    | Some block =>
        match x509_ParseCertificate block with
        | inr err => Err (Errorf "failed to parse certificate: %v" [error_text err])
        | inl notAfter => Ok (time_Add notAfter (- bufferTime))
        end
    end.

Definition isCertificateExpired (expiryTime : Time) : io bool :=
  now ← time_Now;
  mret (time_After now expiryTime).

(** ** Looking clients up *)

Definition GetSDKClient (cp : ClientPool) (key : ClientPoolKey) : io (option sdkClient) :=
  match cp !! key with
  | None => mret None
  | Some info =>
      if decide (cpk_AuthMode key = AuthModeTLS) then
        mTLS ← lift (deref (auth_mTLS (ci_auth info)));
        expired ← isCertificateExpired (mtls_expiryTime mTLS);
        mret (if expired : bool then None else Some (ci_client info))
      else mret (Some (ci_client info))
  end.

(** ** Creating clients *)

Definition expiration_error (err : gerror) : gerror :=
  errors_New ("failed to check certificate expiration: " +:+ error_text err).

Definition fetchClientUsingMTLSSecret (cp : ClientPool) (secret : Secret)
    (opts : NewClientOptions) : io (ClientPool * sdkClient) :=
  let pemCert := gm_get (sec_Data secret) "tls.crt" in
  let pemKey := gm_get (sec_Data secret) "tls.key" in
  exp ← wrap_error expiration_error
          (lift (calculateCertificateExpirationTime pemCert (5 * Minute)));
  expired ← isCertificateExpired exp;
  if expired : bool then
    io_throw (errors_New "certificate is expired or is going to expire soon")
  else
    _ ← lift (answer (tls_X509KeyPair pemCert pemKey));
    c ← Dial (mkDialOptions (HostPort (nco_Spec opts)) (nco_TemporalNamespace opts)
                (ClientCertificate pemCert pemKey));
    health ← try (CheckHealth c);
    match health with
    | inr err => lift (Panic (ExplicitPanic err))
    | inl _ =>
        ref ← lift (deref (MutualTLSSecretRef (nco_Spec opts)));
        let key := mkClientPoolKey (HostPort (nco_Spec opts)) (nco_TemporalNamespace opts)
                     (sr_Name ref) AuthModeTLS in
        mret (<[key := mkClientInfo c
                         (mkClientAuth AuthModeTLS (Some (mkMTLSAuth pemCert exp)))]> cp, c)
    end.

Definition fetchClientUsingAPIKeySecret (cp : ClientPool) (secret : Secret)
    (opts : NewClientOptions) : io (ClientPool * sdkClient) :=
  (* the closure that reads the key dereferences the reference when it is called *)
  let keyName := match APIKeySecretRef (nco_Spec opts) with
                 | Some ref => ks_Key ref
                 | None => EmptyString
                 end in
  c ← Dial (mkDialOptions (HostPort (nco_Spec opts)) (nco_TemporalNamespace opts)
              (APIKeyFrom secret keyName));
  ref ← lift (deref (APIKeySecretRef (nco_Spec opts)));
  let key := mkClientPoolKey (HostPort (nco_Spec opts)) (nco_TemporalNamespace opts)
               (ks_Name ref) AuthModeAPIKey in
  mret (<[key := mkClientInfo c (mkClientAuth AuthModeAPIKey None)]> cp, c).

Definition fetchClientUsingNoCredentials (cp : ClientPool) (opts : NewClientOptions)
  : io (ClientPool * sdkClient) :=
  c ← Dial (mkDialOptions (HostPort (nco_Spec opts)) (nco_TemporalNamespace opts)
              NoCredentials);
  let key := mkClientPoolKey (HostPort (nco_Spec opts)) (nco_TemporalNamespace opts)
               EmptyString AuthModeNoCredentials in
  mret (<[key := mkClientInfo c (mkClientAuth AuthModeNoCredentials None)]> cp, c).

Definition UpsertClient (cp : ClientPool) (secretName authMode : string)
    (opts : NewClientOptions) : io (ClientPool * sdkClient) :=
  secret ← (if decide (secretName = EmptyString)
            then mret (mkSecret EmptyString EmptyString None)
            else GetSecret (nco_K8sNamespace opts) secretName);
  if decide (authMode = AuthModeTLS) then
    if decide (sec_Type secret = SecretTypeTLS)
    then fetchClientUsingMTLSSecret cp secret opts
    else io_throw (Errorf "secret %s must be of type kubernetes.io/tls" [sec_Name secret])
  else if decide (authMode = AuthModeAPIKey) then
    if decide (sec_Type secret = SecretTypeOpaque)
    then fetchClientUsingAPIKeySecret cp secret opts
    else io_throw (Errorf "secret %s must be of type kubernetes.io/opaque" [sec_Name secret])
  else if decide (authMode = AuthModeNoCredentials) then fetchClientUsingNoCredentials cp opts
  else io_throw (Errorf "invalid auth mode: %s" [authMode]).

(** Go visits the clients in an arbitrary order; each is closed. *)
Definition Close (cp : ClientPool) : io ClientPool :=
  _ ← io_range (fun _ info _ => CloseClient (ci_client info)) (map_to_list cp).*2 tt;
  mret New.
End WithWorld.

(** ** The mutex

    Each call runs in its own goroutine.  [OpGet] is [GetSDKClient] (RLock),
    [OpInsertLocked] the insertions with TLS and with an API key, [OpClose]
    [Close] (both Lock), [OpInsertUnlocked] the insertion without credentials,
    which takes no lock. *)

Inductive pool_op := OpGet | OpInsertLocked | OpInsertUnlocked | OpClose.

(** Where a call is: before the lock, holding it, touching the map, after. *)
Inductive stage := Waiting | Holding | Touching | Releasing.

Definition op_writes (op : pool_op) : bool :=
  match op with
  | OpGet => false
  | OpInsertLocked | OpInsertUnlocked | OpClose => true
  end.

(** The calls in progress by goroutine, and the mutex: the goroutine holding it
    for writing, those holding it for reading. *)
Record LockState := mkLockState {
  lk_calls : gmap nat (pool_op * stage);
  lk_writer : option nat;
  lk_readers : gset nat;
}.

Definition idle : LockState := mkLockState ∅ None ∅.

(** How an operation gets from one stage to the next. *)
Inductive lock_step : LockState -> LockState -> Prop :=
  | ls_start calls w rs t op :
      calls !! t = None ->
      lock_step (mkLockState calls w rs) (mkLockState (<[t := (op, Waiting)]> calls) w rs)
  | ls_rlock calls rs t :
      calls !! t = Some (OpGet, Waiting) ->
      lock_step (mkLockState calls None rs)
        (mkLockState (<[t := (OpGet, Holding)]> calls) None ({[t]} ∪ rs))
  | ls_lock calls t op :
      calls !! t = Some (op, Waiting) -> op = OpInsertLocked \/ op = OpClose ->
      lock_step (mkLockState calls None ∅)
        (mkLockState (<[t := (op, Holding)]> calls) (Some t) ∅)
  | ls_unlocked calls w rs t :
      calls !! t = Some (OpInsertUnlocked, Waiting) ->
      lock_step (mkLockState calls w rs)
        (mkLockState (<[t := (OpInsertUnlocked, Holding)]> calls) w rs)
  | ls_touch calls w rs t op :
      calls !! t = Some (op, Holding) ->
      lock_step (mkLockState calls w rs) (mkLockState (<[t := (op, Touching)]> calls) w rs)
  | ls_touched calls w rs t op :
      calls !! t = Some (op, Touching) ->
      lock_step (mkLockState calls w rs) (mkLockState (<[t := (op, Releasing)]> calls) w rs)
  | ls_runlock calls w rs t :
      calls !! t = Some (OpGet, Releasing) ->
      lock_step (mkLockState calls w rs) (mkLockState (delete t calls) w (rs ∖ {[t]}))
  | ls_unlock calls w rs t op :
      calls !! t = Some (op, Releasing) -> op = OpInsertLocked \/ op = OpClose ->
      lock_step (mkLockState calls w rs) (mkLockState (delete t calls) None rs)
  | ls_return calls w rs t :
      calls !! t = Some (OpInsertUnlocked, Releasing) ->
      lock_step (mkLockState calls w rs) (mkLockState (delete t calls) w rs).

(** Two goroutines touch the map at once and one of them writes. *)
Definition race (st : LockState) : Prop :=
  exists t1 t2 op1 op2, t1 <> t2 /\
    lk_calls st !! t1 = Some (op1, Touching) /\ lk_calls st !! t2 = Some (op2, Touching) /\
    op_writes op1 = true.
