(* ===== verification/ClientPoolProps.v ===== *)
(** * Theorems on the client pool

    Well-formedness of the pool, the certificates of its entries, what
    an insertion makes available, and the mutual exclusion of the map. *)

From stdpp Require Import base gmap sets list strings relations.
From Stdlib Require Import ZArith Lia.
From S2P Require Import Prelude GoStd Api Trace World ClientPool.
Local Open Scope Z_scope.

Section WithWorld.
Context `{W : World} `{C : CertLib}.

(** TLS entries have their certificate's data, with the expiry of that very
    certificate, five minutes early. *)
Definition info_ok (key : ClientPoolKey) (info : ClientInfo) : Prop :=
  auth_mode (ci_auth info) = cpk_AuthMode key /\
  (cpk_AuthMode key = AuthModeTLS ->
   exists m block notAfter, auth_mTLS (ci_auth info) = Some m /\
     pem_Decode (mtls_tlsConfig m) = Some block /\
     x509_ParseCertificate block = inl notAfter /\ mtls_expiryTime m = notAfter - 5 * Minute).

Definition pool_wf (cp : ClientPool) : Prop := map_Forall info_ok cp.

Lemma pool_wf_insert cp key info : pool_wf cp -> info_ok key info -> pool_wf (<[key := info]> cp).
Proof. intros. by apply map_Forall_insert_2. Qed.

Lemma expiration_Ok cert d exp :
  calculateCertificateExpirationTime cert d = Ok exp ->
  exists block notAfter, pem_Decode cert = Some block /\
    x509_ParseCertificate block = inl notAfter /\ exp = notAfter - d.
Proof.
  unfold calculateCertificateExpirationTime. case_decide; [done|].
  destruct (pem_Decode cert) as [block|]; [|done].
  destruct (x509_ParseCertificate block) as [t|] eqn:E; [|done].
  intros [= <-]. exists block, t. unfold time_Add. split_and!; [done..|lia].
Qed.

(** The key the operation stores under, by authentication mode. *)
Definition pool_key (opts : NewClientOptions) (secretName authMode : string) : ClientPoolKey :=
  mkClientPoolKey (HostPort (nco_Spec opts)) (nco_TemporalNamespace opts) secretName authMode.

(** The names agree with the connection, as [resolveAuthSecretName] returns them. *)
Definition names_agree (spec : TemporalConnectionSpec) (secretName authMode : string) : Prop :=
  (authMode = AuthModeTLS /\ exists r, MutualTLSSecretRef spec = Some r /\ sr_Name r = secretName) \/
  (authMode = AuthModeAPIKey /\ exists r, APIKeySecretRef spec = Some r /\ ks_Name r = secretName) \/
  (authMode = AuthModeNoCredentials /\ secretName = EmptyString).

Lemma fetchMTLS_Ok cp secret opts l cp' c l' :
  fetchClientUsingMTLSSecret cp secret opts l = (Ok (cp', c), l') ->
  exists r info, MutualTLSSecretRef (nco_Spec opts) = Some r /\
    cp' = <[pool_key opts (sr_Name r) AuthModeTLS := info]> cp /\ ci_client info = c /\
    info_ok (pool_key opts (sr_Name r) AuthModeTLS) info /\
    exists m, auth_mTLS (ci_auth info) = Some m /\ w_Now l <= mtls_expiryTime m.
Proof.
  unfold fetchClientUsingMTLSSecret. intros (exp & l1 & Hexp & Hk)%io_bind_Ok.
  unfold wrap_error, lift in Hexp.
  destruct (calculateCertificateExpirationTime _ _) as [e|e|p] eqn:Ee; [|done..].
  injection Hexp as -> ->. apply expiration_Ok in Ee as (block & notAfter & Hb & Hc & ->).
  apply io_bind_Ok in Hk as (expired & l2 & Hx & Hk). injection Hx as <- <-.
  destruct (time_After _ _) eqn:Ea; [discriminate|].
  apply io_bind_Ok in Hk as (u & l3 & _ & Hk). apply io_bind_Ok in Hk as (c' & l4 & _ & Hk).
  apply io_bind_Ok in Hk as ([ok|err] & l5 & _ & Hk); [|discriminate].
  apply io_bind_Ok in Hk as (r & l6 & Hr & Hk). injection Hr as Hr _. apply deref_Ok in Hr.
  injection Hk as <- <- _. eexists r, _. split_and!; [done|reflexivity|done| |].
  - split; [done|]. intros _. eexists _, block, notAfter. by split_and!.
  - eexists. split; [reflexivity|]. simpl. unfold time_After in Ea. apply Z.ltb_ge in Ea. lia.
Qed.

Lemma UpsertClient_inserts cp secretName authMode opts l cp' c l' :
  names_agree (nco_Spec opts) secretName authMode ->
  UpsertClient cp secretName authMode opts l = (Ok (cp', c), l') ->
  exists info, cp' = <[pool_key opts secretName authMode := info]> cp /\ ci_client info = c /\
    info_ok (pool_key opts secretName authMode) info.
Proof.
  intros Hnames Hu. unfold UpsertClient in Hu. apply io_bind_Ok in Hu as (secret & l1 & _ & Hk).
  destruct Hnames as [[-> (r & Hr & Hn)]|[[-> (r & Hr & Hn)]|[-> Hn]]]; simpl in Hk.
  - case_decide; [|discriminate].
    apply fetchMTLS_Ok in Hk as (r' & info & Hr' & -> & Hc & Hok & _). simplify_eq.
    by exists info.
  - case_decide; [|discriminate]. unfold fetchClientUsingAPIKeySecret in Hk.
    apply io_bind_Ok in Hk as (c' & l2 & _ & Hk).
    apply io_bind_Ok in Hk as (r' & l3 & Hr' & Hk). injection Hr' as Hr' _.
    apply deref_Ok in Hr'. injection Hk as <- <- _. simplify_eq.
    eexists. split_and!; [reflexivity|done|]. by split.
  - unfold fetchClientUsingNoCredentials in Hk.
    apply io_bind_Ok in Hk as (c' & l2 & _ & [= <- <- _]). subst.
    eexists. split_and!; [reflexivity|done|]. by split.
Qed.

(** C38: A successful insertion makes the client available: for names resolved
    from the connection, the pool afterwards maps the key the reconciler looks
    up to the new client, leaves every other entry alone and stays well formed;
    and the lookup returns that client - under TLS, while its certificate is at
    least five minutes from expiry. *)
Theorem UpsertClient_spec cp secretName authMode opts l cp' c l' :
  pool_wf cp -> names_agree (nco_Spec opts) secretName authMode ->
  UpsertClient cp secretName authMode opts l = (Ok (cp', c), l') ->
  let key := pool_key opts secretName authMode in
  pool_wf cp' /\
  (forall key', key' <> key -> cp' !! key' = cp !! key') /\
  exists info, cp' !! key = Some info /\ ci_client info = c /\
    forall l2, (authMode = AuthModeTLS ->
                forall m, auth_mTLS (ci_auth info) = Some m -> w_Now l2 <= mtls_expiryTime m) ->
      (GetSDKClient cp' key l2).1 = Ok (Some c).
Proof.
  intros Hwf Hnames Hu key.
  destruct (UpsertClient_inserts _ _ _ _ _ _ _ _ Hnames Hu) as (info & -> & Hc & Hok).
  fold key in Hok |- *.
  split_and!.
  - by apply pool_wf_insert.
  - intros key' Hne. by rewrite lookup_insert_ne.
  - exists info. rewrite lookup_insert_eq. split_and!; [done|done|]. intros l2 Hexp.
    unfold GetSDKClient. rewrite lookup_insert_eq. subst c.
    destruct (decide (cpk_AuthMode key = AuthModeTLS)) as [Ht|]; [|done].
    destruct Hok as [_ Hm]. destruct (Hm Ht) as (m & block & t & Hmt & _).
    rewrite Hmt. io_run. unfold isCertificateExpired. io_run.
    unfold time_After. destruct (Z.ltb_spec (mtls_expiryTime m) (w_Now l2)); [|done].
    pose proof (Hexp Ht m Hmt). lia.
Qed.

Lemma Close_spec cp l : exists l', Close cp l = (Ok New, l').
Proof.
  unfold Close. destruct (io_range_total (fun _ info _ => CloseClient (ci_client info))
    (fun _ => True) (map_to_list cp).*2 tt l) as (u & l' & Hr & _); [|done|].
  - intros i x t l1 _ _. by eexists tt, _.
  - rewrite io_bind_run, Hr. by eexists.
Qed.
End WithWorld.

(** ** Mutual exclusion *)

(** [t] holds no lock. *)
Definition holds_none (st : LockState) (t : nat) : Prop :=
  (t ∉ lk_readers st) /\ lk_writer st <> Some t.

(** The lock discipline: which lock a call holds where. *)
Definition lock_held (st : LockState) (t : nat) (op : pool_op) (s : stage) : Prop :=
  match op, s with
  | _, Waiting | OpInsertUnlocked, _ => holds_none st t
  | OpGet, _ => t ∈ lk_readers st
  | OpInsertLocked, _ | OpClose, _ => lk_writer st = Some t
  end.

Record lock_inv (st : LockState) : Prop := {
  li_held t op s : lk_calls st !! t = Some (op, s) -> lock_held st t op s;
  li_idle t : lk_calls st !! t = None -> holds_none st t;
  li_excl t : lk_writer st = Some t -> lk_readers st = ∅;
}.

Lemma lock_inv_idle : lock_inv idle.
Proof. split; simpl; [done| |done]. intros t _. split; simpl; [set_solver|done]. Qed.

(** A step of [t] that keeps the locks of the others keeps the invariant. *)
Lemma lock_inv_update st t calls' w' rs' :
  lock_inv st ->
  (forall t', t' <> t -> calls' !! t' = lk_calls st !! t') ->
  (forall t', t' <> t -> (t' ∈ rs' <-> t' ∈ lk_readers st) /\
                         (w' = Some t' <-> lk_writer st = Some t')) ->
  (forall op s, calls' !! t = Some (op, s) -> lock_held (mkLockState calls' w' rs') t op s) ->
  (calls' !! t = None -> holds_none (mkLockState calls' w' rs') t) ->
  (forall t', w' = Some t' -> rs' = ∅) ->
  lock_inv (mkLockState calls' w' rs').
Proof.
  intros [Hheld Hidle _] Hcalls Hlocks Ht Htn Hex. split; simpl; [| |done].
  - intros t' op s Hc. destruct (decide (t' = t)) as [->|Hne]; [by apply Ht|].
    rewrite Hcalls in Hc by done. pose proof (Hheld _ _ _ Hc) as Hh.
    destruct (Hlocks t' Hne) as [Hr Hw]. unfold lock_held, holds_none in *. simpl in *.
    destruct op, s; rewrite ?Hr, ?Hw; done.
  - intros t' Hc. destruct (decide (t' = t)) as [->|Hne]; [by apply Htn|].
    rewrite Hcalls in Hc by done. pose proof (Hidle _ Hc) as Hh.
    destruct (Hlocks t' Hne) as [Hr Hw]. unfold holds_none in *. simpl in *.
    by rewrite Hr, Hw.
Qed.

Lemma lock_step_inv st st' : lock_inv st -> lock_step st st' -> lock_inv st'.
Proof.
  intros Hinv Hstep. pose proof Hinv as [Hheld Hidle Hex].
  destruct Hstep as [calls w rs t op Hc|calls rs t Hc|calls t op Hc Hop|calls w rs t Hc
    |calls w rs t op Hc|calls w rs t op Hc|calls w rs t Hc|calls w rs t op Hc Hop|calls w rs t Hc];
    match type of Hinv with lock_inv ?s => apply (lock_inv_update s t); [exact Hinv|..] end;
    simpl in *;
    try (intros t' Hne; simpl; by rewrite ?lookup_insert_ne, ?lookup_delete_ne by done);
    try (intros t' Hne; simpl; set_solver);
    try (rewrite lookup_insert_eq; done); try (rewrite lookup_delete_eq; done);
    try done.
  - rewrite lookup_insert_eq. intros op' s [= <- <-]. destruct op; by apply Hidle.
  - rewrite lookup_insert_eq. intros op' s [= <- <-]. simpl. set_solver.
  - rewrite lookup_insert_eq. intros op' s [= <- <-]. by destruct Hop as [-> | ->].
  - rewrite lookup_insert_eq. intros op' s [= <- <-]. by apply (Hheld _ _ _ Hc).
  - rewrite lookup_insert_eq. intros op' s [= <- <-]. pose proof (Hheld _ _ _ Hc). by destruct op.
  - rewrite lookup_insert_eq. intros op' s [= <- <-]. pose proof (Hheld _ _ _ Hc). by destruct op.
  - intros _. pose proof (Hheld _ _ _ Hc) as Hr. simpl in Hr. split; simpl; [set_solver|].
    intros ->. rewrite (Hex t eq_refl) in Hr. set_solver.
  - intros _. split; [|done]. simpl. pose proof (Hheld _ _ _ Hc) as Hw.
    assert (w = Some t) as -> by (by destruct Hop as [-> | ->]).
    rewrite (Hex t eq_refl). set_solver.
  - intros _. by apply (Hheld _ _ _ Hc).
Qed.

(** No goroutine runs the insertion without credentials. *)
Definition all_locked (st : LockState) : Prop :=
  forall t s, lk_calls st !! t <> Some (OpInsertUnlocked, s).

Lemma race_free st :
  lock_inv st -> all_locked st -> ~ race st.
Proof.
  intros [Hheld _ Hex] Hall (t1 & t2 & op1 & op2 & Hne & H1 & H2 & Hw).
  pose proof (Hheld _ _ _ H1) as L1. pose proof (Hheld _ _ _ H2) as L2.
  assert (lk_writer st = Some t1) as Hw1.
  { destruct op1; simpl in *; try done. by destruct (Hall t1 Touching). }
  destruct op2; simpl in *.
  - rewrite (Hex _ Hw1) in L2. set_solver.
  - congruence.
  - by destruct (Hall t2 Touching).
  - congruence.
Qed.

(** C39: The pool's mutex and its gap.  In every state that goroutines calling
    the pool can reach, no two of them touch the map at once with one writing,
    provided none of the calls in progress is an insertion without credentials;
    that insertion takes no lock, and a state is reachable in which it writes the
    map while a lookup reads it. *)
Theorem pool_mutual_exclusion :
  (forall st, rtc lock_step idle st -> all_locked st -> ~ race st) /\
  (exists st, rtc lock_step idle st /\ race st).
Proof.
  split.
  - intros st Hr Hall. apply race_free; [|done]. clear Hall.
    pose proof lock_inv_idle as Hi. induction Hr as [|x y z Hxy _ IH]; [done|].
    apply IH. by eapply lock_step_inv.
  - eexists. split.
    + eapply rtc_l; [apply (ls_start _ _ _ 0%nat OpGet); done|].
      eapply rtc_l; [apply (ls_start _ _ _ 1%nat OpInsertUnlocked); done|].
      eapply rtc_l; [apply (ls_rlock _ _ 0%nat); done|].
      eapply rtc_l; [apply (ls_unlocked _ _ _ 1%nat); done|].
      eapply rtc_l; [apply (ls_touch _ _ _ 0%nat OpGet); done|].
      apply rtc_once, (ls_touch _ _ _ 1%nat OpInsertUnlocked). done.
    + by exists 1%nat, 0%nat, OpInsertUnlocked, OpGet.
Qed.
