(* ===== verification/Controller.v ===== *)
(** * internal/controller: util.go, genplan.go, execplan.go, worker_controller.go

    The reconciler.  Its state beyond the cluster and the server is the client
    pool, threaded through [Reconcile]. *)

From stdpp Require Import base gmap sets list strings.
From Stdlib Require Import ZArith Lia.
From S2P Require Import Prelude GoStd Api K8s Trace World Temporal Planner Webhook StateMapper.
From S2P Require Import ClientPool.
Local Open Scope Z_scope.

(** ** util.go *)

Definition controllerIdentityMetadataKey : string := "temporal.io/controller".
Definition controllerVersionMetadataKey : string := "temporal.io/controller-version".
Definition controllerVersionEnvKey : string := "CONTROLLER_VERSION".
Definition controllerIdentityEnvKey : string := "CONTROLLER_IDENTITY".
Definition ControllerMaxDeploymentVersionsIneligibleForDeletionEnvKey : string :=
  "CONTROLLER_MAX_DEPLOYMENT_VERSIONS_INELIGIBLE_FOR_DELETION".
Definition serverDeleteVersionIdentity : string := "try-delete-for-add-version".

(** The process: its environment and the version set at build time. *)
Class Env := {
  os_Getenv : string -> string;
  Version : string;
}.

(** The order in which Go visits the scale map. *)
Class ScaleOrder := { scale_order : ScaleMap -> list (ObjectReference * Z) }.

Class ScaleOrderLaws (O : ScaleOrder) := {
  scale_order_perm m : scale_order m ≡ₚ (map_to_list m).*2;
}.

(** [metav1.GetControllerOf]. *)
Class OwnerLib := { metav1_GetControllerOf : Deployment -> option OwnerReference }.

Section Util.
Context `{Env}.

Definition getControllerVersion : string :=
  if decide (Version <> EmptyString /\ Version <> "unknown") then Version
  else if decide (os_Getenv controllerVersionEnvKey <> EmptyString)
  then os_Getenv controllerVersionEnvKey
  else "unknown".

Definition getControllerIdentity : string :=
  if decide (os_Getenv controllerIdentityEnvKey <> EmptyString)
  then os_Getenv controllerIdentityEnvKey
  else defaults_ControllerIdentity.

(** [int32(i)] of a 64-bit [strconv.Atoi] wraps. *)
Definition GetControllerMaxDeploymentVersionsIneligibleForDeletion : Z :=
  let maxStr := os_Getenv ControllerMaxDeploymentVersionsIneligibleForDeletionEnvKey in
  match strconv_Atoi maxStr with
  | Some i => int32 i
  | None => MaxVersionsIneligibleForDeletion
  end.
End Util.

(** ** genplan.go *)

Record startWorkflowConfig := mkStartWorkflowConfig {
  sw_workflowType : string;
  sw_workflowID : string;
  sw_buildID : string;
  sw_taskQueue : string;
  sw_input : string;
  sw_isInputSecret : bool;
}.

(** [p_store] is where the pointers to Deployments lead. *)
Record plan := mk_plan {
  p_TemporalNamespace : string;
  p_WorkerDeploymentName : string;
  p_DeleteDeployments : list ptr;
  p_CreateDeployment : option Deployment;
  p_ScaleDeployments : ScaleMap;
  p_UpdateDeployments : list ptr;
  p_UpdateVersionConfig : option VersionConfig;
  p_startTestWorkflows : list startWorkflowConfig;
  p_RemoveIgnoreLastModifierBuilds : list string;
  p_store : Store;
}.

Section Reconciler.
Context `{Env} `{World} `{K8sLib} `{KeyOrder} `{ScaleOrder} `{CertLib}.

(** The field [MaxDeploymentVersionsIneligibleForDeletion] of the reconciler. *)
Context (maxVersionsIneligible : Z).

Definition newDeployment (w : TemporalWorkerDeployment) (buildID : string)
    (connection : TemporalConnectionSpec) : outcome Deployment :=
  NewDeploymentWithControllerRef w buildID connection.

(** [k8s.GetDeploymentState] on the answer of the API server. *)
Definition fetchDeploymentState (namespace name : string) : io (DeploymentState * Store) :=
  listed ← try (ListDeployments namespace name);
  lift (GetDeploymentState (answer listed)).

(** The strategy in force: Manual after a change by somebody else. *)
Definition effectiveStrategy (w : TemporalWorkerDeployment) (temporalState : TemporalWorkerState)
  : RolloutStrategy :=
  let s := spec_RolloutStrategy (twd_Spec w) in
  let lastModifier := LastModifierIdentity (twd_Status w) in
  if negb (bool_decide (lastModifier = getControllerIdentity))
     && negb (bool_decide (lastModifier = serverDeleteVersionIdentity))
     && negb (bool_decide (lastModifier = EmptyString))
     && negb (ts_IgnoreLastModifier temporalState)
  then mkRolloutStrategy UpdateManual (rs_Gate s) (rs_Steps s)
  else s.

(** "Resolve gate input if gate is configured". *)
Definition fetchGateInput (namespace : string) (gate : option GateWorkflowConfig)
  : io (string * bool) :=
  match gate with
  | None => mret (EmptyString, false)
  | Some g =>
      let cmRef := gate_InputFrom g ≫= ConfigMapKeyRef in
      let secRef := gate_InputFrom g ≫= SecretKeyRef in
      cm ← match cmRef with
           | Some ref =>
               wrap_error (ErrWrap "failed to get ConfigMap %s/%s: %w" [namespace; ks_Name ref])
                 (GetConfigMap namespace (ks_Name ref))
           | None => mret (mkConfigMap None None)
           end;
      secretData ← match secRef with
                   | Some ref =>
                       sec ← wrap_error
                               (ErrWrap "failed to get Secret %s/%s: %w" [namespace; ks_Name ref])
                               (GetSecret namespace (ks_Name ref));
                       mret (sec_Data sec)
                   | None => mret None
                   end;
      wrap_error (ErrWrap "unable to resolve gate input: %w" [])
        (lift (ResolveGateInput (Some g) namespace (cm_Data cm) (cm_BinaryData cm) secretData))
  end.

Definition convertWorkflow (wf : WorkflowConfig) : startWorkflowConfig :=
  mkStartWorkflowConfig (wc_WorkflowType wf) (wc_WorkflowID wf) (wc_BuildID wf)
    (wc_TaskQueue wf) (wc_GateInput wf) (wc_IsInputSecret wf).

Definition generatePlan (w : TemporalWorkerDeployment) (connection : TemporalConnectionSpec)
    (temporalState : TemporalWorkerState) : io plan :=
  let workerDeploymentName := ComputeWorkerDeploymentName w in
  let targetBuildID := ComputeBuildID w in
  ksh ← wrap_error (ErrWrap "unable to get Kubernetes deployment state: %w" [])
          (fetchDeploymentState (om_Namespace (twd_ObjectMeta w)) (om_Name (twd_ObjectMeta w)));
  let rolloutStrategy := effectiveStrategy w temporalState in
  gateInput ← fetchGateInput (om_Namespace (twd_ObjectMeta w)) (rs_Gate rolloutStrategy);
  result ← wrap_error (ErrWrap "error generating plan: %w" [])
             (GeneratePlan ksh.1 ksh.2 (twd_Status w) (twd_Spec w) (Some temporalState)
                connection (mkConfig rolloutStrategy) workerDeploymentName
                maxVersionsIneligible gateInput.1 gateInput.2);
  let planResult := result.1 in
  create ← (if pl_ShouldCreateDeployment planResult
            then d ← lift (newDeployment w targetBuildID connection); mret (Some d)
            else mret None);
  mret (mk_plan (TemporalNamespace (spec_WorkerOptions (twd_Spec w))) workerDeploymentName
          (pl_DeleteDeployments planResult) create (pl_ScaleDeployments planResult)
          (pl_UpdateDeployments planResult) (pl_VersionConfig planResult)
          (convertWorkflow <$> pl_TestWorkflows planResult)
          (pl_RemoveIgnoreLastModifierBuilds planResult) result.2).

(** ** execplan.go *)

(** [for _, x := range xs { if err := f(x); err != nil { return err } }] *)
Definition for_each {A} (f : A -> io unit) (xs : list A) : io unit :=
  io_range (fun _ x _ => f x) xs tt.

Definition createStep (p : plan) : io unit :=
  match p_CreateDeployment p with
  | Some d => write (EvCreate d)
  | None => mret tt
  end.

Definition deleteStep (p : plan) (d : ptr) : io unit :=
  obj ← lift (load (p_store p) d);
  write (EvDelete obj).

(** The [autoscaling/v1] subresource update; the counts are [uint32]s. *)
Definition scaleStep (entry : ObjectReference * Z) : io unit :=
  wrap_error (ErrWrap "unable to scale deployment: %w" [])
    (write (EvScale (ref_Namespace entry.1) (ref_Name entry.1) (ref_ResourceVersion entry.1)
              (ref_UID entry.1) (int32 entry.2))).

Definition updateStep (p : plan) (d : ptr) : io unit :=
  obj ← lift (load (p_store p) d);
  wrap_error (ErrWrap "unable to update deployment: %w" []) (write (EvUpdate obj)).

Definition startWorkflowOptions (p : plan) (wf : startWorkflowConfig) : StartWorkflowOptions :=
  mkStartWorkflowOptions (sw_workflowID wf) (sw_taskQueue wf) (1 * Hour) true true
    (mkWorkerDeploymentVersion (p_WorkerDeploymentName p) (sw_buildID wf)).

(** Without input the workflow is started without arguments. *)
Definition workflowStep (p : plan) (wf : startWorkflowConfig) : io unit :=
  wrap_error (ErrWrap "unable to start test workflow execution: %w" [])
    (write (EvExecuteWorkflow (startWorkflowOptions p wf) (sw_workflowType wf)
              (if decide (sw_input wf = EmptyString) then None else Some (sw_input wf)))).

Definition controllerMetadata : gmap string string :=
  <[controllerIdentityMetadataKey := getControllerIdentity]>
    {[controllerVersionMetadataKey := getControllerVersion]}.

Definition versionConfigStep (p : plan) (vcfg : VersionConfig) : io unit :=
  _ ← (if vc_SetCurrent vcfg then
         wrap_error (ErrWrap "unable to set current deployment version: %w" [])
           (write (EvSetCurrentVersion (p_WorkerDeploymentName p)
                     (mkSetCurrentVersionOptions (vc_BuildID vcfg) (vc_ConflictToken vcfg)
                        getControllerIdentity)))
       else
         wrap_error (ErrWrap "unable to set ramping deployment version: %w" [])
           (write (EvSetRampingVersion (p_WorkerDeploymentName p)
                     (mkSetRampingVersionOptions (vc_BuildID vcfg)
                        (float32_of_Z (vc_RampPercentage vcfg)) (vc_ConflictToken vcfg)
                        getControllerIdentity))));
  wrap_error (ErrWrap "unable to update metadata after setting current deployment: %w" [])
    (write (EvUpdateVersionMetadata (p_WorkerDeploymentName p)
              (mkUpdateVersionMetadataOptions
                 (mkWorkerDeploymentVersion (p_WorkerDeploymentName p) (vc_BuildID vcfg))
                 controllerMetadata []))).

Definition removeIgnoreStep (p : plan) (buildId : string) : io unit :=
  wrap_error (ErrWrap "unable to update metadata to remove %s deployment: %w"
                [IgnoreLastModifierKey])
    (write (EvUpdateVersionMetadata (p_WorkerDeploymentName p)
              (mkUpdateVersionMetadataOptions
                 (mkWorkerDeploymentVersion (p_WorkerDeploymentName p) buildId)
                 ∅ [IgnoreLastModifierKey]))).

Definition executePlan (p : plan) : io unit :=
  _ ← createStep p;
  _ ← for_each (deleteStep p) (p_DeleteDeployments p);
  _ ← for_each scaleStep (scale_order (p_ScaleDeployments p));
  _ ← for_each (updateStep p) (p_UpdateDeployments p);
  _ ← for_each (workflowStep p) (p_startTestWorkflows p);
  _ ← match p_UpdateVersionConfig p with
      | Some vcfg => versionConfigStep p vcfg
      | None => mret tt
      end;
  for_each (removeIgnoreStep p) (p_RemoveIgnoreLastModifierBuilds p).

(** ** worker_controller.go *)

Definition getAPIKeySecretName (secretRef : option KeySelector) : outcome string :=
  match secretRef with
  | Some ref => Ok (ks_Name ref)
  | None => Err (errors_New "API key secret name is not set")
  end.

Definition getTLSSecretName (secretRef : option SecretReference) : outcome string :=
  match secretRef with
  | Some ref => Ok (sr_Name ref)
  | None => Err (errors_New "TLS secret name is not set")
  end.

Definition resolveAuthSecretName (tc : TemporalConnectionSpec) : outcome (string * string) :=
  if negb (is_nil (MutualTLSSecretRef tc)) then
    name ← getTLSSecretName (MutualTLSSecretRef tc); Ok (AuthModeTLS, name)
  else if negb (is_nil (APIKeySecretRef tc)) then
    name ← getAPIKeySecretName (APIKeySecretRef tc); Ok (AuthModeAPIKey, name)
  else Ok (AuthModeNoCredentials, EmptyString).

(** [ctrl.Request] and [ctrl.Result]. *)
Record Request := mkRequest { req_Namespace : string; req_Name : string }.
Record Result := mkResult { res_Requeue : bool; res_RequeueAfter : Duration }.

Definition emptyResult : Result := mkResult false 0.

(** "Get or update temporal client for connection". *)
Definition getClient (cp : ClientPool) (workerDeploy : TemporalWorkerDeployment)
    (connection : TemporalConnectionSpec) : io (ClientPool * sdkClient) :=
  auth ← lift (resolveAuthSecretName connection);
  let temporalNamespace := TemporalNamespace (spec_WorkerOptions (twd_Spec workerDeploy)) in
  found ← GetSDKClient cp
            (mkClientPoolKey (HostPort connection) temporalNamespace auth.2 auth.1);
  match found with
  | Some c => mret (cp, c)
  | None =>
      UpsertClient cp auth.2 auth.1
        (mkNewClientOptions temporalNamespace (om_Namespace (twd_ObjectMeta workerDeploy))
           connection)
  end.

(** From the client on; [workerDeploy] is defaulted and valid. *)
Definition reconcileWith (req : Request) (workerDeploy : TemporalWorkerDeployment)
    (connection : TemporalConnectionSpec) : io Result :=
  let workerDeploymentName := ComputeWorkerDeploymentName workerDeploy in
  let targetBuildID := ComputeBuildID workerDeploy in
  ksh ← wrap_error (ErrWrap "unable to get Kubernetes deployment state: %w" [])
          (fetchDeploymentState (req_Namespace req) (req_Name req));
  temporalState ← wrap_error (ErrWrap "unable to get Temporal worker deployment state: %w" [])
    (GetWorkerDeploymentState workerDeploymentName (Deployments ksh.1) ksh.2 targetBuildID
       (rs_Strategy (spec_RolloutStrategy (twd_Spec workerDeploy))) getControllerIdentity);
  st ← generateStatus ksh.2 workerDeploy temporalState ksh.1;
  updated ← try (UpdateStatus (twd_set_Status st.2 workerDeploy));
  match updated with
  | inr err =>
      if is_kind KApiConflict err then mret (mkResult true (1 * Second))
      else io_throw err
  | inl stored =>
      workerDeploy' ← lift (TWD_Default (ObjTWD stored));
      p ← generatePlan workerDeploy' connection st.1;
      _ ← executePlan p;
      mret (mkResult true (10 * Second))
  end.

(** The pool and the results of [Reconcile]. *)
Definition Reconcile (cp : ClientPool) (req : Request) : io (ClientPool * (Result + gerror)) :=
  got ← try (GetTWD (req_Namespace req) (req_Name req));
  match got with
  | inr err =>
      (* client.IgnoreNotFound *)
      mret (cp, if is_kind KApiNotFound err then inl emptyResult else inr err)
  | inl fetched =>
      defaulted ← try (lift (TWD_Default (ObjTWD fetched)));
      match defaulted with
      | inr err => mret (cp, inr err)
      | inl workerDeploy =>
          valid ← try (lift (ValidateCreate (ObjTWD workerDeploy)));
          match valid with
          | inr _ => mret (cp, inl (mkResult true (5 * Minute)))
          | inl _ =>
              conn ← try (GetConnection (om_Namespace (twd_ObjectMeta workerDeploy))
                            (TemporalConnectionRef (spec_WorkerOptions (twd_Spec workerDeploy))));
              match conn with
              | inr err => mret (cp, inr err)
              | inl connection =>
                  client ← try (getClient cp workerDeploy connection);
                  match client with
                  | inr err => mret (cp, inr err)
                  | inl (cp', c) =>
                      _ ← UseClient c;
                      res ← try (reconcileWith req workerDeploy connection);
                      mret (cp', res)
                  end
              end
          end
      end
  end.

(** [findTWDsUsingConnection]: a failed listing gives no requests. *)
Definition findTWDsUsingConnection (tcNamespace tcName : string) : io (list Request) :=
  listed ← try (ListTWDs tcNamespace);
  mret (match listed with
        | inr _ => []
        | inl twds =>
            (fun twd => mkRequest (om_Namespace (twd_ObjectMeta twd)) (om_Name (twd_ObjectMeta twd)))
              <$> filter (fun twd =>
                    TemporalConnectionRef (spec_WorkerOptions (twd_Spec twd)) = tcName) twds
        end).
End Reconciler.

(** The index [deployOwnerKey] registered by [SetupWithManager]; [apiGVStr] is
    the group and version of the API. *)
Definition apiGVStr : string := "temporal.io/v1alpha1".

Definition deployOwnerIndex `{OwnerLib} (deploy : Deployment) : list string :=
  match metav1_GetControllerOf deploy with
  | None => []
  | Some owner =>
      if decide (or_APIVersion owner <> apiGVStr \/ or_Kind owner <> "TemporalWorkerDeployment")
      then []
      else [or_Name owner]
  end.
