(* ===== verification/Startup.v ===== *)
(** * cmd/main.go and SetupWithManager: the controller's process

    The start-up sequence: flags, manager, reconciler, health checks, start.
    controller-runtime is the class [ManagerLib], which answers each call; a
    failed call ends the process with exit status 1.  The watches that lead to
    reconciliations are the configuration [SetupWithManager] builds. *)

From stdpp Require Import base gmap sets list strings.
From Stdlib Require Import ZArith Lia.
From S2P Require Import Prelude GoStd Api K8s Trace World Temporal Planner Webhook StateMapper.
From S2P Require Import SunsetProps ClientPool Controller.
Local Open Scope Z_scope.

(** ** Data *)

(** The variables of the flags. *)
Record Flags := mkFlags {
  metricsAddr : string;
  probeAddr : string;
  enableLeaderElection : bool;
}.

(** [ctrl.Options] *)
Record ManagerOptions := mkManagerOptions {
  mo_MetricsBindAddress : string;
  mo_HealthProbeBindAddress : string;
  mo_LeaderElection : bool;
  mo_LeaderElectionID : string;
}.

(** The fields of the reconciler besides its clients; its pool starts empty. *)
Record TemporalWorkerDeploymentReconciler := mkTemporalWorkerDeploymentReconciler {
  r_TemporalClientPool : ClientPool;
  r_DisableRecoverPanic : bool;
  r_MaxDeploymentVersionsIneligibleForDeletion : Z;
}.

(** What the builder is told: the kinds watched and the options. *)
Inductive Watch :=
  | ForTWD
  | OwnsDeployment
  | WatchesConnection.

Record ControllerOptions := mkControllerOptions {
  ctl_Watches : list Watch;
  ctl_MaxConcurrentReconciles : Z;
  ctl_RecoverPanic : bool;
}.

Inductive SetupEvent :=
  | SuAddToScheme (types : string)
  | SuGetConfig
  | SuNewManager (opts : ManagerOptions)
  | SuIndexField (key : string)
  | SuComplete (opts : ControllerOptions)
  | SuAddHealthzCheck (name : string)
  | SuAddReadyzCheck (name : string)
  | SuStart.

Abbreviation setup := (traced SetupEvent).

(** controller-runtime: the error of each call. *)
Class ManagerLib := { mgr_answer : SetupEvent -> unit + gerror }.

(** The command line as the flag package parsed it. *)
Class CommandLine := {
  flag_string : string -> option string;
  flag_bool : string -> option bool;
}.

Definition deployOwnerKey : string := ".metadata.controller".

Section Process.
Context `{Ev : Env} `{ManagerLib} `{CommandLine}.

Definition parseFlags : Flags :=
  mkFlags (default ":8080" (flag_string "metrics-bind-address"))
    (default ":8081" (flag_string "health-probe-bind-address"))
    (default false (flag_bool "leader-elect")).

Definition mgr_call (ev : SetupEvent) : setup unit := call ev (fun _ => mgr_answer ev).

(** [utilruntime.Must] *)
Definition Must (m : setup unit) : setup unit :=
  r ← try m;
  match r with
  | inl _ => mret tt
  | inr err => lift (Panic (ExplicitPanic err))
  end.

(** ** internal/controller/worker_controller.go *)

Definition SetupWithManager (r : TemporalWorkerDeploymentReconciler) : setup unit :=
  _ ← mgr_call (SuIndexField deployOwnerKey);
  let recoverPanic := negb (r_DisableRecoverPanic r) in
  mgr_call (SuComplete (mkControllerOptions [ForTWD; OwnsDeployment; WatchesConnection]
                          100 recoverPanic)).

(** ** cmd/main.go *)

Definition managerOptions (flags : Flags) : ManagerOptions :=
  mkManagerOptions (metricsAddr flags) (probeAddr flags) (enableLeaderElection flags)
    "98e39f52.temporal.io".

Definition newReconciler : TemporalWorkerDeploymentReconciler :=
  mkTemporalWorkerDeploymentReconciler New false
    GetControllerMaxDeploymentVersionsIneligibleForDeletion.

(** The package's [init]. *)
Definition init : setup unit :=
  _ ← Must (mgr_call (SuAddToScheme "client-go"));
  Must (mgr_call (SuAddToScheme "temporal.io/v1alpha1")).

(** [Err e] stands for [os.Exit(1)] after logging [e]; so does
    [ctrl.GetConfigOrDie]. *)
Definition main : setup unit :=
  let flags := parseFlags in
  _ ← mgr_call SuGetConfig;
  _ ← mgr_call (SuNewManager (managerOptions flags));
  _ ← SetupWithManager newReconciler;
  _ ← mgr_call (SuAddHealthzCheck "healthz");
  _ ← mgr_call (SuAddReadyzCheck "readyz");
  mgr_call SuStart.

(** The whole process. *)
Definition process : setup unit := _ ← init; main.
End Process.

(** ** Theorems *)

Section Startup.
Context `{Ev : Env} `{ML : ManagerLib} `{CL : CommandLine}.

(** The calls of a start-up, in order. *)
Definition startup_calls : list SetupEvent :=
  [SuAddToScheme "client-go"; SuAddToScheme "temporal.io/v1alpha1"; SuGetConfig;
   SuNewManager (managerOptions parseFlags); SuIndexField deployOwnerKey;
   SuComplete (mkControllerOptions [ForTWD; OwnsDeployment; WatchesConnection] 100 true);
   SuAddHealthzCheck "healthz"; SuAddReadyzCheck "readyz"; SuStart].

(** How the process ends when a call fails. *)
Definition failure (ev : SetupEvent) (e : gerror) : outcome unit :=
  match ev with
  | SuAddToScheme _ => Panic (ExplicitPanic e)
  | _ => Err e
  end.

(** Calls one after another, up to the first that fails. *)
Fixpoint calls_run (evs : list SetupEvent) : setup unit :=
  match evs with
  | [] => mret tt
  | ev :: evs => fun l =>
      match mgr_answer ev with
      | inl _ => calls_run evs (l ++ [ev])
      | inr e => (failure ev e, l ++ [ev])
      end
  end.

Lemma process_calls l : process l = calls_run startup_calls l.
Proof.
  unfold process, init, main, SetupWithManager, startup_calls, calls_run, Must, try, mgr_call, call,
    mbind, io_bind.
  repeat (destruct (mgr_answer _) as [[]|e]; [simpl|done]). done.
Qed.

Lemma calls_run_cases evs l :
  (calls_run evs l = (Ok tt, l ++ evs) /\ forall ev, ev ∈ evs -> mgr_answer ev = inl tt) \/
  (exists pre ev post e, evs = pre ++ ev :: post /\ mgr_answer ev = inr e /\
     (forall ev', ev' ∈ pre -> mgr_answer ev' = inl tt) /\
     calls_run evs l = (failure ev e, l ++ pre ++ [ev])).
Proof.
  revert l. induction evs as [|ev evs IH]; intros l; simpl.
  - left. split; [by rewrite app_nil_r|]. by intros ev ?%not_elem_of_nil.
  - destruct (mgr_answer ev) as [[]|e] eqn:Eev.
    + destruct (IH (l ++ [ev])) as [[-> Hall]|(pre & ev' & post & e & -> & He & Hpre & ->)].
      * left. split; [by rewrite <- app_assoc|]. by intros ev' [->|?]%elem_of_cons; [|apply Hall].
      * right. exists (ev :: pre), ev', post, e. split_and!; [done|done| |by rewrite <- app_assoc].
        by intros x [->|?]%elem_of_cons; [|apply Hpre].
    + right. exists [], ev, evs, e. split_and!; try done. by intros x ?%not_elem_of_nil.
Qed.

(** The controller starts completely or not at all: the process registers its
    types, creates the manager with the flags' addresses, registers the owner
    index, builds the controller - with all three watches, 100 concurrent
    reconciliations and recovery from panics - and its health checks, and only
    then starts the manager; it ends normally exactly when every call succeeded,
    and otherwise stops at the first one that failed: with a panic while the types
    are registered, with its error and exit status 1 later. *)
Theorem process_starts_in_order :
  (process [] = (Ok tt, startup_calls) /\
   forall ev, ev ∈ startup_calls -> mgr_answer ev = inl tt) \/
  (exists pre ev post e, startup_calls = pre ++ ev :: post /\ mgr_answer ev = inr e /\
     (forall ev', ev' ∈ pre -> mgr_answer ev' = inl tt) /\
     process [] = (failure ev e, pre ++ [ev])).
Proof. rewrite process_calls. apply (calls_run_cases startup_calls []). Qed.

(** C31: The limit on versions is the one configured, if it fits: a decimal number
    of the environment variable below 2^31 is the reconciler's limit, however it
    is padded; a larger one below 2^63 is silently reduced modulo 2^32 to a limit that is
    another number, possibly zero or negative; and with a limit that is not
    positive no Deployment is ever created. *)
Theorem version_limit_roundtrip w z :
  (0 < w)%nat -> 0 <= z < 10 ^ Z.of_nat w -> z < 2 ^ 63 ->
  os_Getenv ControllerMaxDeploymentVersionsIneligibleForDeletionEnvKey
  = String.string_of_list_ascii (pad_decimal w z) ->
  let limit := r_MaxDeploymentVersionsIneligibleForDeletion newReconciler in
  in_int32 limit /\ (z < 2 ^ 31 <-> limit = z) /\ (limit - z) mod 2 ^ 32 = 0 /\
  (limit <= 0 -> forall st, Z.of_nat (length (DeprecatedVersions st)) < 2 ^ 31 ->
     shouldCreateDeployment st limit = Ok false).
Proof.
  intros Hw Hz Hlt Henv limit.
  assert (limit = int32 z) as ->.
  { unfold limit, newReconciler. simpl.
    unfold GetControllerMaxDeploymentVersionsIneligibleForDeletion.
    by rewrite Henv, (Atoi_pad_decimal w z). }
  pose proof (int32_range z) as Hr. split; [done|split; [|split]].
  - split; [intros Hs; apply int32_small; unfold in_int32; lia|].
    intros Heq. rewrite Heq in Hr. unfold in_int32 in Hr. lia.
  - apply int32_mod.
  - intros Hle st Hst. rewrite shouldCreateDeployment_value by done.
    assert ((ineligible_count st <? int32 z) = false) as ->
      by (apply Z.ltb_ge; unfold ineligible_count; lia).
    by rewrite andb_false_r.
Qed.

(** The default. *)
Lemma version_limit_default :
  strconv_Atoi (os_Getenv ControllerMaxDeploymentVersionsIneligibleForDeletionEnvKey) = None ->
  r_MaxDeploymentVersionsIneligibleForDeletion newReconciler = 75.
Proof.
  intros H. simpl. unfold GetControllerMaxDeploymentVersionsIneligibleForDeletion. by rewrite H.
Qed.
End Startup.
