(* ===== verification/ControllerProps.v ===== *)
(** * Theorems on the reconciler

    The trace of [executePlan], what a foreign change freezes, the order of
    effects of [Reconcile], and the requests a changed connection makes. *)

From stdpp Require Import base gmap sets list strings.
From Stdlib Require Import ZArith Lia.
From S2P Require Import Prelude GoStd Api K8s K8sProps Trace World Temporal TemporalProps.
From S2P Require Import Planner SunsetProps UpdateProps Webhook StateMapper.
From S2P Require Import StateMapperProps GateProps ClientPool ClientPoolProps Controller.
Local Open Scope Z_scope.

(** ** Executing a plan *)

(** The reference executor: the writes in order, stopping at the first error,
    which is returned wrapped. *)
Section Executor.
Context `{W : World}.

Fixpoint run_writes (todo : list (Event * (gerror -> gerror))) : io unit :=
  match todo with
  | [] => mret tt
  | (ev, wrap) :: todo' => _ ← wrap_error wrap (write ev); run_writes todo'
  end.

Lemma run_writes_app a b l :
  run_writes (a ++ b) l = (_ ← run_writes a; run_writes b) l.
Proof.
  revert l. induction a as [|[ev wrap] a IH]; intros l; [done|]. simpl.
  rewrite !io_bind_run. destruct (wrap_error wrap (write ev) l) as [[[]|e|p] l'];
    [by rewrite IH, io_bind_run|done..].
Qed.

(** A run of the executor: what was attempted is a prefix of the writes, every
    attempt but a failing last one succeeded. *)
Record stopped_run (evs : list Event) (l : Log) (r : outcome unit) (attempted : list Event)
  : Prop := {
  sr_prefix : attempted `prefix_of` evs;
  sr_ok : r = Ok tt -> attempted = evs;
  sr_panic p : r <> Panic p;
  sr_err e : r = Err e -> exists front ev cause, attempted = front ++ [ev] /\
               w_Write (l ++ front) ev = inr cause /\ error_kind_of e = error_kind_of cause;
  sr_before front ev back : attempted = front ++ ev :: back ->
               back <> [] \/ r = Ok tt -> w_Write (l ++ front) ev = inl tt;
}.

(** Wrapping keeps the kind of an error. *)
Definition keeps_kind (wrap : gerror -> gerror) : Prop :=
  forall e, error_kind_of (wrap e) = error_kind_of e.

Lemma stopped_cons ev evs l r attempted :
  w_Write l ev = inl tt -> stopped_run evs (l ++ [ev]) r attempted ->
  stopped_run (ev :: evs) l r (ev :: attempted).
Proof.
  intros Hev [Hp Ho Hpan He Hb]. split.
  - by apply prefix_cons.
  - intros Hr. by rewrite (Ho Hr).
  - done.
  - intros e Hr. destruct (He e Hr) as (front & ev' & cause & -> & Hc & Hk).
    exists (ev :: front), ev', cause. by rewrite <- app_assoc in Hc.
  - intros [|ev0 front] ev' back; simpl; intros [= -> Hat] Hor.
    + by rewrite app_nil_r.
    + specialize (Hb front ev' back Hat Hor). by rewrite <- app_assoc in Hb.
Qed.

Lemma run_writes_stopped todo l :
  Forall (fun x => keeps_kind x.2) todo ->
  exists r attempted, run_writes todo l = (r, l ++ attempted) /\
    stopped_run todo.*1 l r attempted.
Proof.
  revert l. induction todo as [|[ev wrap] todo IH]; intros l Hk; simpl.
  - exists (Ok tt), []. rewrite app_nil_r. split; [done|]. split; [done|done|done|done|].
    intros front ev back Hat. by destruct front.
  - apply Forall_cons in Hk as [Hw Hk]. rewrite io_bind_run.
    unfold wrap_error, write, call, answer.
    destruct (w_Write l ev) as [[]|cause] eqn:Ew.
    + destruct (IH (l ++ [ev]) Hk) as (r & attempted & -> & Hrun).
      exists r, (ev :: attempted). rewrite <- app_assoc. split; [done|].
      by apply stopped_cons.
    + exists (Err (wrap cause)), [ev]. split; [done|]. split; try done.
      * exists todo.*1. done.
      * intros e [= <-]. exists [], ev, cause. rewrite app_nil_r. by split_and!.
      * intros front ev' back Hat [Hb|Hr]; [|done].
        destruct front as [|? [|? ?]]; simplify_eq/=.
Qed.

(** A loop of writes is the executor on their list. *)
Lemma for_each_writes {A} (f : A -> io unit) (g : A -> Event * (gerror -> gerror)) xs l :
  (forall x l1, x ∈ xs -> f x l1 = wrap_error (g x).2 (write (g x).1) l1) ->
  for_each f xs l = run_writes (g <$> xs) l.
Proof.
  unfold for_each, io_range. generalize 0%nat. revert l.
  induction xs as [|x xs IH]; intros l i Hf; [done|]. simpl.
  rewrite io_bind_run, (Hf x l) by (by left). destruct (g x) as [ev wrap] eqn:Eg. simpl.
  rewrite io_bind_run. destruct (wrap_error wrap (write ev) l) as [[[]|e|p] l']; [|done..].
  apply IH. intros y l1 Hy. apply Hf. by right.
Qed.
End Executor.

Section Reconciler.
Context `{Ev : Env} `{W : World} `{L : K8sLib} `{KO : KeyOrder} `{SO : ScaleOrder} `{C : CertLib}.
Context (maxVersions : Z).

(** The writes of a plan, in order, each with how its error is wrapped. *)
Definition store_objects (p : plan) (ps : list ptr) : list Deployment :=
  omap (fun q => p_store p !! q) ps.

Definition version_config_writes (p : plan) : list (Event * (gerror -> gerror)) :=
  let name := p_WorkerDeploymentName p in
  match p_UpdateVersionConfig p with
  | None => []
  | Some vcfg =>
      [if vc_SetCurrent vcfg
       then (EvSetCurrentVersion name
               (mkSetCurrentVersionOptions (vc_BuildID vcfg) (vc_ConflictToken vcfg)
                  getControllerIdentity),
             ErrWrap "unable to set current deployment version: %w" [])
       else (EvSetRampingVersion name
               (mkSetRampingVersionOptions (vc_BuildID vcfg)
                  (float32_of_Z (vc_RampPercentage vcfg)) (vc_ConflictToken vcfg)
                  getControllerIdentity),
             ErrWrap "unable to set ramping deployment version: %w" []);
       (EvUpdateVersionMetadata name
          (mkUpdateVersionMetadataOptions (mkWorkerDeploymentVersion name (vc_BuildID vcfg))
             controllerMetadata []),
        ErrWrap "unable to update metadata after setting current deployment: %w" [])]
  end.

Definition plan_writes (p : plan) : list (Event * (gerror -> gerror)) :=
  let name := p_WorkerDeploymentName p in
  ((fun d => (EvCreate d, id)) <$> option_list (p_CreateDeployment p)) ++
  ((fun d => (EvDelete d, id)) <$> store_objects p (p_DeleteDeployments p)) ++
  ((fun e => (EvScale (ref_Namespace e.1) (ref_Name e.1) (ref_ResourceVersion e.1)
                (ref_UID e.1) (int32 e.2),
              ErrWrap "unable to scale deployment: %w" []))
     <$> scale_order (p_ScaleDeployments p)) ++
  ((fun d => (EvUpdate d, ErrWrap "unable to update deployment: %w" []))
     <$> store_objects p (p_UpdateDeployments p)) ++
  ((fun wf => (EvExecuteWorkflow (startWorkflowOptions p wf) (sw_workflowType wf)
                 (if decide (sw_input wf = EmptyString) then None else Some (sw_input wf)),
               ErrWrap "unable to start test workflow execution: %w" []))
     <$> p_startTestWorkflows p) ++
  version_config_writes p ++
  ((fun b => (EvUpdateVersionMetadata name
                (mkUpdateVersionMetadataOptions (mkWorkerDeploymentVersion name b) ∅
                   [IgnoreLastModifierKey]),
              ErrWrap "unable to update metadata to remove %s deployment: %w"
                [IgnoreLastModifierKey])) <$> p_RemoveIgnoreLastModifierBuilds p).

(** The pointers of the plan are valid. *)
Definition plan_ok (p : plan) : Prop :=
  Forall (fun q => is_Some (p_store p !! q)) (p_DeleteDeployments p ++ p_UpdateDeployments p).

Lemma for_each_objects p ps wrap (ev : Deployment -> Event) f l :
  Forall (fun q => is_Some (p_store p !! q)) ps ->
  (forall q d l1, p_store p !! q = Some d -> f q l1 = wrap_error wrap (write (ev d)) l1) ->
  for_each f ps l = run_writes ((fun d => (ev d, wrap)) <$> store_objects p ps) l.
Proof.
  intros Hps Hf. unfold for_each, io_range. generalize 0%nat. revert l.
  induction Hps as [|q ps [d Hd] _ IH]; intros l i; [done|]. unfold store_objects. simpl.
  rewrite Hd. simpl. rewrite !io_bind_run, (Hf q d l Hd).
  destruct (wrap_error wrap (write (ev d)) l) as [[[]|e|pn] l']; [|done..].
  rewrite IH. done.
Qed.

Lemma wrap_id {A} (m : io A) l : wrap_error id m l = m l.
Proof. unfold wrap_error. by destruct (m l) as [[?|?|?] ?]. Qed.

Lemma bind_ext {A B} (m m' : io A) (f g : A -> io B) l :
  (forall l, m l = m' l) -> (forall a l, f a l = g a l) -> (x ← m; f x) l = (x ← m'; g x) l.
Proof. intros Hm Hf. rewrite !io_bind_run, Hm. by destruct (m' l) as [[?|?|?] ?]. Qed.

(** The code runs the executor. *)
Lemma executePlan_writes p l :
  plan_ok p -> executePlan p l = run_writes (plan_writes p) l.
Proof.
  intros [Hdel Hupd]%Forall_app. unfold executePlan, plan_writes.
  rewrite run_writes_app. apply bind_ext.
  { intros l1. unfold createStep. destruct (p_CreateDeployment p) as [d|]; [|done]. simpl.
    rewrite io_bind_run, wrap_id. by destruct (write (EvCreate d) l1) as [[[]|?|?] ?]. }
  intros _ l1. rewrite run_writes_app. apply bind_ext.
  { intros l2. apply (for_each_objects p); [done|]. intros q d l3 Hq. unfold deleteStep, load.
    rewrite Hq, wrap_id. done. }
  intros _ l2. rewrite run_writes_app. apply bind_ext.
  { intros l3. by apply (for_each_writes _ (fun e => (EvScale _ _ _ _ _, _))). }
  intros _ l3. rewrite run_writes_app. apply bind_ext.
  { intros l4. apply (for_each_objects p); [done|]. intros q d l5 Hq. unfold updateStep, load.
    by rewrite Hq. }
  intros _ l4. rewrite run_writes_app. apply bind_ext.
  { intros l5. by apply (for_each_writes _ (fun wf => (EvExecuteWorkflow _ _ _, _))). }
  intros _ l5. rewrite run_writes_app. apply bind_ext.
  { intros l6. unfold version_config_writes. destruct (p_UpdateVersionConfig p) as [v|]; [|done].
    unfold versionConfigStep. simpl. destruct (vc_SetCurrent v); simpl; apply bind_ext; try done;
      intros _ l7; rewrite io_bind_run;
      destruct (wrap_error _ _ l7) as [[[]|?|?] ?]; done. }
  intros _ l6. by apply (for_each_writes _ (fun b => (EvUpdateVersionMetadata _ _, _))).
Qed.

Lemma plan_writes_keep_kind p : Forall (fun x => keeps_kind x.2) (plan_writes p).
Proof.
  unfold plan_writes, version_config_writes.
  repeat (apply Forall_app; split); try (apply Forall_fmap, Forall_true; by intros ? ?).
  destruct (p_UpdateVersionConfig p) as [v|]; [|constructor].
  repeat constructor; destruct (vc_SetCurrent v); by intros ?.
Qed.

(** C19: Executing a plan performs exactly its writes, in this order: the
    creation, the deletions, the scalings, the updates, the test workflows, the
    version change with its metadata, and the removals of the ignore mark.  It
    stops at the first write that fails and returns that error, classified as it
    was; everything before succeeded, nothing after is attempted; and it
    succeeds only when all writes did. *)
Theorem executePlan_trace p l :
  plan_ok p ->
  exists r attempted, executePlan p l = (r, l ++ attempted) /\
    stopped_run (plan_writes p).*1 l r attempted.
Proof.
  intros Hp. rewrite executePlan_writes by done.
  apply run_writes_stopped, plan_writes_keep_kind.
Qed.

(** ** Planning and looking up clients never write *)

Lemma getDeleteDeployments_reads ks h st spec found :
  reads_only (getDeleteDeployments ks h st spec found).
Proof. unfold reads_only, getDeleteDeployments, deleteBody, time_since. emits_steps. Qed.

Lemma getScaleDeployments_reads ks h st spec : reads_only (getScaleDeployments ks h st spec).
Proof. unfold reads_only, getScaleDeployments, scaleBody, time_since. emits_steps. Qed.

Lemma getVersionConfigDiff_reads st ts config : reads_only (getVersionConfigDiff st ts config).
Proof. unfold reads_only, getVersionConfigDiff. emits_steps. Qed.

#[local] Hint Unfold reads_only : emits.
#[local] Hint Resolve getDeleteDeployments_reads getScaleDeployments_reads
  getVersionConfigDiff_reads : emits.

Lemma GeneratePlan_reads ks h st spec ts c config name max input secret :
  reads_only (GeneratePlan ks h st spec ts c config name max input secret).
Proof.
  unfold reads_only, GeneratePlan. emits_steps;
    [apply getDeleteDeployments_reads | apply getScaleDeployments_reads
    | apply getVersionConfigDiff_reads].
Qed.

Lemma fetchDeploymentState_reads ns name : reads_only (fetchDeploymentState ns name).
Proof. unfold reads_only, fetchDeploymentState. emits_steps. Qed.

Lemma fetchGateInput_reads ns gate : reads_only (fetchGateInput ns gate).
Proof. unfold reads_only, fetchGateInput. emits_steps. Qed.

Lemma generatePlan_reads w c ts : reads_only (generatePlan maxVersions w c ts).
Proof.
  unfold reads_only, generatePlan. emits_steps;
    [apply fetchDeploymentState_reads | apply fetchGateInput_reads | apply GeneratePlan_reads].
Qed.

Lemma generateStatus_reads h w ts ks : reads_only (generateStatus h w ts ks).
Proof.
  unfold reads_only, generateStatus. emits_steps. apply GetTestWorkflowStatus_reads.
Qed.

Lemma UpsertClient_reads cp name mode opts : reads_only (UpsertClient cp name mode opts).
Proof.
  unfold reads_only, UpsertClient, fetchClientUsingMTLSSecret, fetchClientUsingAPIKeySecret,
    fetchClientUsingNoCredentials, isCertificateExpired. emits_steps.
Qed.

Lemma GetSDKClient_reads cp key : reads_only (GetSDKClient cp key).
Proof. unfold reads_only, GetSDKClient, isCertificateExpired. emits_steps. Qed.

Lemma getClient_reads cp w c : reads_only (getClient cp w c).
Proof.
  unfold reads_only, getClient. emits_steps; [apply GetSDKClient_reads | apply UpsertClient_reads].
Qed.

(** ** The order of effects of a reconciliation *)

(** The run starts with reads; its first write, if any, is a status update, and
    when that fails nothing follows. *)
Definition status_first {A} (m : io A) : Prop :=
  forall l, exists pre post, (m l).2 = l ++ pre ++ post /\
    Forall (fun ev => is_write ev = false) pre /\
    (post = [] \/ exists w post', post = EvUpdateStatus w :: post' /\
       forall e, w_UpdateStatus (l ++ pre) w = inr e -> post' = []).

Lemma status_first_reads {A} (m : io A) : reads_only m -> status_first m.
Proof.
  intros Hm l. destruct (Hm l) as (pre & -> & Hpre). exists pre, [].
  rewrite app_nil_r. split_and!; auto.
Qed.

Lemma status_first_bind {A B} (m : io A) (f : A -> io B) :
  reads_only m -> (forall a, status_first (f a)) -> status_first (x ← m; f x).
Proof.
  intros Hm Hf l. rewrite io_bind_run. destruct (Hm l) as (pre & Hl & Hpre).
  destruct (m l) as [[a|e|p] l1]; simpl in *; subst.
  - destruct (Hf a (l ++ pre)) as (pre' & post & -> & Hpre' & Hpost).
    exists (pre ++ pre'), post. split_and!; [by rewrite !app_assoc|by apply Forall_app|].
    destruct Hpost as [?|(w & post' & ? & Hp)]; [by left|right]. exists w, post'.
    split; [done|]. by rewrite app_assoc.
  - exists pre, []. rewrite app_nil_r. split_and!; auto.
  - exists pre, []. rewrite app_nil_r. split_and!; auto.
Qed.

Lemma status_first_bind_last {A B} (m : io A) (f : A -> io B) :
  status_first m -> (forall a l, exists r, f a l = (r, l)) -> status_first (x ← m; f x).
Proof.
  intros Hm Hf l. rewrite io_bind_run. destruct (Hm l) as (pre & post & Hl & H).
  exists pre, post. destruct (m l) as [[a|e|p] l1]; simpl in *; [|done..].
  destruct (Hf a l1) as [r ->]. done.
Qed.

Lemma status_first_try {A} (m : io A) : status_first m -> status_first (try m).
Proof.
  intros Hm l. destruct (Hm l) as (pre & post & Hl & H). exists pre, post. unfold try.
  destruct (m l) as [[a|e|p] l1]; simpl in *; done.
Qed.

Lemma executePlan_extends p : emits (fun _ => True) (executePlan p).
Proof.
  unfold executePlan, createStep, for_each, deleteStep, scaleStep, updateStep, workflowStep,
    versionConfigStep, removeIgnoreStep. emits_steps.
Qed.

Lemma actions_extend stored c ts' :
  emits (fun _ => True)
    (w' ← lift (TWD_Default (ObjTWD stored));
     p ← generatePlan maxVersions w' c ts';
     _ ← executePlan p;
     mret (mkResult true (10 * Second))).
Proof.
  apply emits_bind; [apply emits_lift|]. intros w'.
  apply emits_bind; [eapply emits_extends, generatePlan_reads|]. intros p.
  apply emits_bind; [apply executePlan_extends|]. intros []. apply emits_ret.
Qed.

Lemma reconcileWith_status_first req w c : status_first (reconcileWith maxVersions req w c).
Proof.
  unfold reconcileWith. apply status_first_bind.
  { apply emits_wrap, fetchDeploymentState_reads. }
  intros [ks h]. apply status_first_bind.
  { apply emits_wrap, GetWorkerDeploymentState_reads. }
  intros ts. apply status_first_bind; [apply generateStatus_reads|].
  intros [ts' st] l. rewrite io_bind_run. unfold try, UpdateStatus, call, answer. simpl.
  destruct (w_UpdateStatus l (twd_set_Status st w)) as [stored|e] eqn:E.
  - destruct (actions_extend stored c ts' (l ++ [EvUpdateStatus (twd_set_Status st w)]))
      as (post & Hpost & _).
    exists [], (EvUpdateStatus (twd_set_Status st w) :: post). split_and!; [|constructor|].
    + etransitivity; [exact Hpost|]. by rewrite <- app_assoc.
    + right. eexists _, _. split; [done|]. rewrite app_nil_r. intros e He. congruence.
  - exists [], [EvUpdateStatus (twd_set_Status st w)]. split_and!; [|constructor|].
    + by destruct (is_kind KApiConflict e).
    + right. by eexists _, [].
Qed.

(** C20: Reconciliation publishes the status before it acts: in every run, on
    every path, all events before the first write are reads, the first write is
    the status update, and when that update fails - a conflict included -
    nothing is written at all. *)
Theorem Reconcile_status_first cp req : status_first (Reconcile maxVersions cp req).
Proof.
  unfold Reconcile. apply status_first_bind; [apply emits_try, emits_GetTWD; reflexivity|].
  intros [fetched|e]; [|apply status_first_reads, emits_ret].
  apply status_first_bind; [apply emits_try, emits_lift|].
  intros [w|e]; [|apply status_first_reads, emits_ret].
  apply status_first_bind; [apply emits_try, emits_lift|].
  intros [u|e]; [|apply status_first_reads, emits_ret].
  apply status_first_bind; [apply emits_try, emits_GetConnection; reflexivity|].
  intros [c|e]; [|apply status_first_reads, emits_ret].
  apply status_first_bind; [apply emits_try, getClient_reads|].
  intros [[cp' client]|e]; [|apply status_first_reads, emits_ret].
  apply status_first_bind; [apply emits_UseClient; reflexivity|]. intros _.
  apply status_first_bind_last; [apply status_first_try, reconcileWith_status_first|].
  intros r l. by eexists.
Qed.

(** Planning is read-only: querying Temporal, computing the status, resolving
    the gate's input, generating the plan and finding the client change neither
    Kubernetes nor Temporal, on any branch, errors and panics included; only
    [executePlan] and the status update write. *)
Theorem planning_read_only w c ts h ks cp name target strategy identity st :
  reads_only (GetWorkerDeploymentState name (Deployments ks) h target strategy identity) /\
  reads_only (GetTestWorkflowStatus name target st) /\
  reads_only (generateStatus h w ts ks) /\
  reads_only (generatePlan maxVersions w c ts) /\
  reads_only (getClient cp w c).
Proof.
  split_and!; [apply GetWorkerDeploymentState_reads|apply GetTestWorkflowStatus_reads
    |apply generateStatus_reads|apply generatePlan_reads|apply getClient_reads].
Qed.

(** ** Whole reconciliations *)

Lemma answer_Err {A} (r : A + gerror) e : answer r = Err e -> r = inr e.
Proof. destruct r; simpl; congruence. Qed.

Lemma try_Ok {A} (m : io A) l r l' :
  try m l = (Ok r, l') -> exists o, m l = (o, l') /\ (forall a, r = inl a -> o = Ok a) /\
                                    (forall e, r = inr e -> o = Err e).
Proof.
  unfold try. destruct (m l) as [[a|e|p] l1]; intros [= <- <-];
    eexists; (split; [reflexivity|]); split; intros; by simplify_eq.
Qed.

(** The pointers of a plan lead into its store: no plan makes [executePlan]
    dereference a bad pointer. *)
Lemma GeneratePlan_pointers ks h st spec ts c config name max input secret l r l' :
  (forall b q, Deployments ks !! b = Some q -> is_Some (h !! q)) ->
  GeneratePlan ks h st spec ts c config name max input secret l = (Ok r, l') ->
  Forall (fun q => is_Some (r.2 !! q)) (pl_DeleteDeployments r.1 ++ pl_UpdateDeployments r.1).
Proof.
  intros Hptr. unfold GeneratePlan. intros (dels & l1 & Hd & Hk)%io_bind_Ok.
  apply io_bind_Ok in Hk as (sc & l2 & _ & Hk). apply io_bind_Ok in Hk as (cr & l3 & _ & Hk).
  apply io_bind_Ok in Hk as ([ups h'] & l4 & Hu & Hk).
  apply io_bind_Ok in Hk as (v & l5 & _ & [= <- _]). simpl. injection Hu as Hu _.
  apply getUpdateDeployments_pass in Hu as [[Hlen _ _ Hup] _].
  apply getDeleteDeployments_run in Hd as [_ Hd].
  apply Forall_app. split; apply Forall_forall; intros q Hq.
  - apply Hd in Hq as (v' & lv & _ & _ & Hq & _). apply Hptr in Hq.
    apply lookup_lt_is_Some in Hq. apply lookup_lt_is_Some. by rewrite Hlen.
  - destruct (Hup q Hq) as (d & d' & _ & Hd' & _). by exists d'.
Qed.

Lemma fetchDeploymentState_Ok ns name l ksh l' :
  fetchDeploymentState ns name l = (Ok ksh, l') -> state_wf ksh.1 ksh.2.
Proof.
  unfold fetchDeploymentState. intros (listed & l1 & _ & Hk)%io_bind_Ok.
  injection Hk as Hk _. destruct listed as [items|e]; [|discriminate].
  change (answer (inl items)) with (Ok items) in Hk.
  destruct (GetDeploymentState_tracked items) as (ks & h & Hg & Hwf & _).
  rewrite Hg in Hk. by injection Hk as <-.
Qed.

Lemma generatePlan_ok w c ts l p l' :
  generatePlan maxVersions w c ts l = (Ok p, l') -> plan_ok p.
Proof.
  unfold generatePlan. intros (ksh & l1 & Hf%wrap_error_Ok & Hk)%io_bind_Ok.
  apply fetchDeploymentState_Ok in Hf.
  apply io_bind_Ok in Hk as (gi & l2 & _ & Hk).
  apply io_bind_Ok in Hk as (r & l3 & Hr%wrap_error_Ok & Hk).
  apply io_bind_Ok in Hk as (cr & l4 & _ & [= <- _]). unfold plan_ok. simpl.
  eapply GeneratePlan_pointers; [|exact Hr]. intros b q Hb.
  destruct (wf_deployment _ _ Hf b q Hb) as (d & Hd & _). by exists d.
Qed.

(** All writes of the plan succeeded in turn, from the log [l]. *)
Definition plan_done (p : plan) (l : Log) : Prop :=
  forall front ev back, (plan_writes p).*1 = front ++ ev :: back ->
    w_Write (l ++ front) ev = inl tt.

Lemma executePlan_Ok w c ts l0 p l l' :
  generatePlan maxVersions w c ts l0 = (Ok p, l) -> executePlan p l = (Ok tt, l') ->
  l' = l ++ (plan_writes p).*1 /\ plan_done p l.
Proof.
  intros Hp%generatePlan_ok He. rewrite executePlan_writes in He by done.
  destruct (run_writes_stopped (plan_writes p) l (plan_writes_keep_kind p))
    as (r & attempted & Hr & Hrun).
  rewrite Hr in He. injection He as -> <-.
  pose proof (sr_ok _ _ _ _ Hrun eq_refl) as ->. split; [done|].
  intros front ev back Hw. eapply (sr_before _ _ _ _ Hrun); [exact Hw|by right].
Qed.

(** What a result of [reconcileWith] from the log [l0] on tells. *)
Inductive reconciled (w : TemporalWorkerDeployment) (c : TemporalConnectionSpec)
    : Result -> Log -> Prop :=
  | reconciled_conflict st e l :
      w_UpdateStatus l (twd_set_Status st w) = inr e -> error_kind_of e = KApiConflict ->
      reconciled w c (mkResult true (1 * Second)) (l ++ [EvUpdateStatus (twd_set_Status st w)])
  | reconciled_done st stored w' ts p l l2 :
      w_UpdateStatus l (twd_set_Status st w) = inl stored ->
      TWD_Default (ObjTWD stored) = Ok w' ->
      generatePlan maxVersions w' c ts (l ++ [EvUpdateStatus (twd_set_Status st w)])
        = (Ok p, l2) ->
      plan_done p l2 ->
      reconciled w c (mkResult true (10 * Second)) (l2 ++ (plan_writes p).*1).

Lemma reconcileWith_Ok req w c l r l' :
  reconcileWith maxVersions req w c l = (Ok r, l') -> reconciled w c r l'.
Proof.
  unfold reconcileWith. intros (ksh & l1 & _ & Hk)%io_bind_Ok.
  apply io_bind_Ok in Hk as (ts & l2 & _ & Hk). apply io_bind_Ok in Hk as (st & l3 & _ & Hk).
  apply io_bind_Ok in Hk as (updated & l4 & Hu & Hk).
  apply try_Ok in Hu as (o & Hu & Hl & Hr). injection Hu as <- <-.
  destruct updated as [stored|e].
  - pose proof (answer_Ok _ _ (Hl _ eq_refl)) as Hs.
    apply io_bind_Ok in Hk as (w' & l5 & [Hd ->]%lift_Ok & Hk).
    apply io_bind_Ok in Hk as (p & l6 & Hp & Hk).
    apply io_bind_Ok in Hk as ([] & l7 & He & [= <- <-]).
    destruct (executePlan_Ok _ _ _ _ _ _ _ Hp He) as [-> Hdone].
    by eapply reconciled_done.
  - pose proof (answer_Err _ _ (Hr _ eq_refl)) as Hs. unfold is_kind in Hk.
    case_bool_decide as Hkind; [|discriminate].
    injection Hk as <- <-. by eapply reconciled_conflict.
Qed.

(** C21: What a reconciliation that returns no error has done, by its result.  The
    empty result: the resource is gone, and nothing was read or done after that.
    Five minutes: the defaulted resource is invalid, and nothing happened after
    reading it.  One second: writing the status of a valid resource met a
    conflict, and that was the last event.  Ten seconds: the status was written,
    a plan was generated from the stored resource, and every write of that plan,
    in order, was made and succeeded.  There is no other result. *)
Theorem Reconcile_results cp req l cp' r l' :
  Reconcile maxVersions cp req l = (Ok (cp', inl r), l') ->
  let got := EvGetTWD (req_Namespace req) (req_Name req) in
  (r = emptyResult /\ l' = l ++ [got] /\
   exists e, w_GetTWD l (req_Namespace req) (req_Name req) = inr e /\
             error_kind_of e = KApiNotFound) \/
  exists fetched w, w_GetTWD l (req_Namespace req) (req_Name req) = inl fetched /\
    TWD_Default (ObjTWD fetched) = Ok w /\
    ((r = mkResult true (5 * Minute) /\ l' = l ++ [got] /\ ~ valid_deployment w) \/
     (valid_deployment w /\ exists c,
        w_GetConnection (l ++ [got]) (om_Namespace (twd_ObjectMeta w))
          (TemporalConnectionRef (spec_WorkerOptions (twd_Spec w))) = inl c /\
        reconciled w c r l')).
Proof.
  unfold Reconcile. intros (g & l1 & Hg & Hk)%io_bind_Ok.
  apply try_Ok in Hg as (o & Hg & Hgl & Hgr). injection Hg as <- <-.
  destruct g as [fetched|e].
  2: { left. pose proof (answer_Err _ _ (Hgr _ eq_refl)) as He. unfold is_kind in Hk.
       case_bool_decide as Hkind; [|discriminate]. injection Hk as _ <- <-.
       split_and!; [done|done|]. by exists e. }
  right. exists fetched. pose proof (answer_Ok _ _ (Hgl _ eq_refl)) as Hf.
  apply io_bind_Ok in Hk as (df & l2 & Hd & Hk).
  apply try_Ok in Hd as (o1 & Hd & Hdl & _). destruct df as [w|e]; [|discriminate].
  rewrite (Hdl _ eq_refl) in Hd. apply lift_Ok in Hd as [Hd ->].
  exists w. split_and!; [done|done|].
  apply io_bind_Ok in Hk as (v & l3 & Hv & Hk). apply try_Ok in Hv as (o2 & Hv & Hvl & Hvr).
  assert (o2 = ValidateCreate (ObjTWD w) /\ l3 = l ++ [EvGetTWD (req_Namespace req) (req_Name req)])
    as [-> ->] by (unfold lift in Hv; by inversion Hv).
  destruct (validate_cases w) as [[Hval Hok]|[Hval Hbad]].
  2: { destruct v as [[]|e]; [pose proof (Hvl _ eq_refl); congruence|].
       injection Hk as _ <- <-. by left. }
  destruct v as [[]|e]; [|pose proof (Hvr _ eq_refl); congruence]. right. split; [done|].
  apply io_bind_Ok in Hk as (co & l4 & Hc & Hk). apply try_Ok in Hc as (o3 & Hc & Hcl & _).
  injection Hc as <- <-. destruct co as [c|e]; [|discriminate].
  exists c.
  split; [exact (answer_Ok _ _ (Hcl _ eq_refl))|].
  apply io_bind_Ok in Hk as (cl & l5 & _ & Hk). destruct cl as [[cp1 c1]|e]; [|discriminate].
  apply io_bind_Ok in Hk as (u & l6 & _ & Hk). apply io_bind_Ok in Hk as (res & l7 & Hr & Hk).
  apply try_Ok in Hr as (o4 & Hr & Hrl & _). injection Hk as <- -> <-.
  rewrite (Hrl _ eq_refl) in Hr. by eapply reconcileWith_Ok.
Qed.

(** ** Changes by somebody else *)

(** Somebody other than this controller changed the worker deployment last. *)
Definition foreign_modifier (w : TemporalWorkerDeployment) : Prop :=
  let m := LastModifierIdentity (twd_Status w) in
  m <> getControllerIdentity /\ m <> serverDeleteVersionIdentity /\ m <> EmptyString.

Lemma effectiveStrategy_manual w ts :
  foreign_modifier w -> ts_IgnoreLastModifier ts = false ->
  rs_Strategy (effectiveStrategy w ts) = UpdateManual.
Proof.
  intros (H1 & H2 & H3) Hi. unfold effectiveStrategy.
  rewrite !bool_decide_false by done. by rewrite Hi.
Qed.

Lemma effectiveStrategy_own w ts :
  ~ foreign_modifier w \/ ts_IgnoreLastModifier ts = true ->
  effectiveStrategy w ts = spec_RolloutStrategy (twd_Spec w).
Proof.
  intros Hor. unfold effectiveStrategy, foreign_modifier in *.
  destruct Hor as [Hn | ->]; [|by rewrite !andb_false_r].
  repeat case_bool_decide; try done. exfalso. by apply Hn.
Qed.

Lemma effectiveStrategy_active w ts :
  rs_Strategy (effectiveStrategy w ts) <> UpdateManual ->
  effectiveStrategy w ts = spec_RolloutStrategy (twd_Spec w).
Proof. unfold effectiveStrategy. by destruct (_ && _). Qed.

Lemma GeneratePlan_config ks h st spec ts c config name max input secret l r l' :
  GeneratePlan ks h st spec ts c config name max input secret l = (Ok r, l') ->
  pl_RemoveIgnoreLastModifierBuilds r.1 = removeIgnoreBuilds ts (pl_VersionConfig r.1) /\
  exists l1 l2, getVersionConfigDiff st ts config l1 = (Ok (pl_VersionConfig r.1), l2).
Proof.
  unfold GeneratePlan. intros (d & l1 & _ & Hk)%io_bind_Ok.
  apply io_bind_Ok in Hk as (s & l2 & _ & Hk). apply io_bind_Ok in Hk as (cr & l3 & _ & Hk).
  apply io_bind_Ok in Hk as (u & l4 & _ & Hk).
  apply io_bind_Ok in Hk as (v & l5 & Hv & [= <- _]). simpl. eauto.
Qed.

Lemma generatePlan_config w c ts l p l' :
  generatePlan maxVersions w c ts l = (Ok p, l') ->
  p_RemoveIgnoreLastModifierBuilds p
  = removeIgnoreBuilds (Some ts) (p_UpdateVersionConfig p) /\
  exists l1 l2, getVersionConfigDiff (twd_Status w) (Some ts) (mkConfig (effectiveStrategy w ts)) l1
                = (Ok (p_UpdateVersionConfig p), l2).
Proof.
  unfold generatePlan. intros (ksh & l1 & _ & Hk)%io_bind_Ok.
  apply io_bind_Ok in Hk as (gi & l2 & _ & Hk).
  apply io_bind_Ok in Hk as (r & l3 & Hr%wrap_error_Ok & Hk).
  apply io_bind_Ok in Hk as (cr & l4 & _ & [= <- _]). simpl.
  by apply GeneratePlan_config in Hr.
Qed.

(** C40: A change by somebody else freezes the routing: while the last modifier
    of the worker deployment is neither this controller nor the server's version
    clean-up and no ignore mark was found, a plan changes no version
    configuration and removes no mark; and in any plan the mark is removed only
    together with a version change, from the Ramping and the Current version. *)
Theorem foreign_modifier_freezes_routing w c ts l p l' :
  generatePlan maxVersions w c ts l = (Ok p, l') ->
  (foreign_modifier w -> ts_IgnoreLastModifier ts = false ->
   p_UpdateVersionConfig p = None /\ p_RemoveIgnoreLastModifierBuilds p = []) /\
  (forall b, b ∈ p_RemoveIgnoreLastModifierBuilds p ->
   is_Some (p_UpdateVersionConfig p) /\ ts_IgnoreLastModifier ts = true /\
   b <> EmptyString /\ (b = ts_RampingBuildID ts \/ b = ts_CurrentBuildID ts)).
Proof.
  intros [Hrem (l1 & l2 & Hv)]%generatePlan_config. rewrite Hrem. split.
  - intros Hf Hi. assert (p_UpdateVersionConfig p = None) as ->; [|done].
    destruct (p_UpdateVersionConfig p) as [v|]; [|done].
    apply getVersionConfigDiff_Some in Hv as [Hs _]. simpl in Hs.
    by rewrite effectiveStrategy_manual in Hs.
  - intros b Hb. unfold removeIgnoreBuilds in Hb.
    destruct (p_UpdateVersionConfig p) as [v|]; [|by apply not_elem_of_nil in Hb].
    destruct (ts_IgnoreLastModifier ts); [|by apply not_elem_of_nil in Hb].
    split_and!; [done|done|..]; apply elem_of_app in Hb as [Hb|Hb]; case_decide;
      (try by apply not_elem_of_nil in Hb); apply list_elem_of_singleton in Hb; subst; auto.
Qed.

(** ** Clients *)

Lemma resolveAuthSecretName_agrees tc :
  exists mode name, resolveAuthSecretName tc = Ok (mode, name) /\ names_agree tc name mode.
Proof.
  unfold resolveAuthSecretName, names_agree.
  destruct (MutualTLSSecretRef tc) as [r|] eqn:Et; simpl; [eexists _, _; eauto 6|].
  destruct (APIKeySecretRef tc) as [r|] eqn:Ea; simpl; eexists _, _; eauto 7.
Qed.

(** ** Changed connections *)

(** A changed connection wakes up exactly the resources of its namespace that
    refer to it; if they cannot be listed it wakes up none. *)
Theorem findTWDsUsingConnection_spec ns name l :
  exists reqs, findTWDsUsingConnection ns name l = (Ok reqs, l ++ [EvListTWDs ns]) /\
    forall r, r ∈ reqs <-> exists twds w, w_ListTWDs l ns = inl twds /\ w ∈ twds /\
      TemporalConnectionRef (spec_WorkerOptions (twd_Spec w)) = name /\
      r = mkRequest (om_Namespace (twd_ObjectMeta w)) (om_Name (twd_ObjectMeta w)).
Proof.
  unfold findTWDsUsingConnection. rewrite io_bind_run. unfold try, ListTWDs, call, answer.
  destruct (w_ListTWDs l ns) as [twds|e]; simpl; eexists; (split; [reflexivity|]); intros r.
  - rewrite list_elem_of_fmap. setoid_rewrite list_elem_of_filter. split.
    + intros (w & -> & Hc & Hw). by exists twds, w.
    + intros (twds' & w & [= <-] & Hw & Hc & ->). by exists w.
  - split; [by intros ?%not_elem_of_nil|]. by intros (? & ? & [=] & _).
Qed.
End Reconciler.
