(* ===== verification/RunProps.v ===== *)
(** * The structure of a reconciliation's run

    Whatever its outcome, a run of [Reconcile] reads, and then possibly writes a
    status, plans, and executes a prefix of the writes of that plan.  [acted]
    keeps the stages of such a run, for the theorems that follow an event back to
    the answers it was decided on. *)

From stdpp Require Import base gmap sets list strings.
From Stdlib Require Import ZArith Lia.
From S2P Require Import Prelude GoStd Api K8s K8sProps Trace World Temporal TemporalProps.
From S2P Require Import Planner SunsetProps UpdateProps Webhook StateMapper GateProps Servers.
From S2P Require Import ClientPool Controller ControllerProps.
Local Open Scope Z_scope.

(** The events of a plan's execution: all writes but the status update. *)
Definition is_action (ev : Event) : bool :=
  match ev with
  | EvUpdateStatus _ => false
  | _ => is_write ev
  end.

Definition idle (evs : Log) : Prop := Forall (fun ev => is_action ev = false) evs.

(** No event that changes a routing. *)
Abbreviation quiet := (Forall (fun ev => is_routing ev = false)).

Lemma reads_idle evs : Forall (fun ev => is_write ev = false) evs -> idle evs.
Proof. intros H. eapply Forall_impl; [exact H|]. by intros []. Qed.

Lemma idle_app a b : idle a -> idle b -> idle (a ++ b).
Proof. intros. by apply Forall_app. Qed.

Lemma idle_quiet evs : idle evs -> quiet evs.
Proof. intros H. eapply Forall_impl; [exact H|]. by intros []. Qed.

(** The two ways a bind runs. *)
Lemma io_bind_cases {A B} (m : io A) (f : A -> io B) l o l' :
  (x ← m; f x) l = (o, l') ->
  (exists a l1, m l = (Ok a, l1) /\ f a l1 = (o, l')) \/ (m l).2 = l'.
Proof.
  rewrite io_bind_run. destruct (m l) as [[a|e|p] l1]; simpl.
  - left. eauto.
  - intros [= _ <-]. by right.
  - intros [= _ <-]. by right.
Qed.

(** A log adds only events with [P] to another. *)
Definition adds (P : Event -> Prop) (l l' : Log) : Prop :=
  exists evs, l' = l ++ evs /\ Forall P evs.

Lemma adds_refl P l : adds P l l.
Proof. exists []. rewrite app_nil_r. by split. Qed.

Lemma adds_trans P l1 l2 l3 : adds P l1 l2 -> adds P l2 l3 -> adds P l1 l3.
Proof.
  intros (a & -> & Ha) (b & -> & Hb). exists (a ++ b). rewrite app_assoc.
  split; [done|by apply Forall_app].
Qed.

Lemma adds_snoc (P : Event -> Prop) l ev : P ev -> adds P l (l ++ [ev]).
Proof. intros H. exists [ev]. split; [done|by constructor]. Qed.

Lemma adds_weaken (P Q : Event -> Prop) l l' :
  (forall ev, P ev -> Q ev) -> adds P l l' -> adds Q l l'.
Proof. intros H (evs & -> & He). exists evs. split; [done|]. by eapply Forall_impl. Qed.

Lemma adds_prefix P l l' : adds P l l' -> l `prefix_of` l'.
Proof. intros (evs & -> & _). by exists evs. Qed.

Lemma emits_adds {A} P (m : io A) l o l' : emits P m -> m l = (o, l') -> adds P l l'.
Proof. intros Hm Hr. pose proof (Hm l) as H. by rewrite Hr in H. Qed.

(** Only reads, or no action, between two logs. *)
Definition reads_extension : Log -> Log -> Prop := adds (fun ev => is_write ev = false).
Definition idle_extension : Log -> Log -> Prop := adds (fun ev => is_action ev = false).

Lemma reads_snoc l ev : is_write ev = false -> reads_extension l (l ++ [ev]).
Proof. apply (adds_snoc (fun ev => is_write ev = false)). Qed.

Lemma reads_idle_extension l l' : reads_extension l l' -> idle_extension l l'.
Proof. apply adds_weaken. by intros []. Qed.

Lemma idle_extension_refl l : idle_extension l l.
Proof. apply adds_refl. Qed.

Lemma idle_extension_trans l1 l2 l3 :
  idle_extension l1 l2 -> idle_extension l2 l3 -> idle_extension l1 l3.
Proof. apply adds_trans. Qed.

Lemma idle_extension_snoc l ev : is_action ev = false -> idle_extension l (l ++ [ev]).
Proof. apply (adds_snoc (fun ev => is_action ev = false)). Qed.

Lemma idle_extension_prefix l l' : idle_extension l l' -> l `prefix_of` l'.
Proof. apply adds_prefix. Qed.

(** Chains the stages from one log to a later one. *)
Ltac idle_chain :=
  subst; repeat first [eassumption | eapply idle_extension_trans; [eassumption|]];
  try apply idle_extension_refl.

(** A stage that only reads. *)
Lemma reads_extend {A} (m : io A) l : reads_only m -> idle_extension l (m l).2.
Proof.
  intros Hm. destruct (Hm l) as (evs & Hl & H). exists evs. split; [done|by apply reads_idle].
Qed.

Lemma reads_extend_Ok {A} (m : io A) l a l' :
  reads_only m -> m l = (Ok a, l') -> idle_extension l l'.
Proof. intros Hm Hr. pose proof (reads_extend m l Hm) as H. by rewrite Hr in H. Qed.

Section Reconciler.
Context `{Ev : Env} `{W : World} `{L : K8sLib} `{KO : KeyOrder} `{SO : ScaleOrder} `{C : CertLib}.
Context (maxVersions : Z).

(** ** The parts of a plan *)

(** Where the fields of a plan come from. *)
Record plan_parts (w : TemporalWorkerDeployment) (c : TemporalConnectionSpec)
    (ts : TemporalWorkerState) (l l' : Log) (p : plan) (ks : DeploymentState) (h : Store)
    : Prop := {
  pp_wf : state_wf ks h;
  pp_listed : exists items, h ≡ₚ items /\
    w_ListDeployments l (om_Namespace (twd_ObjectMeta w)) (om_Name (twd_ObjectMeta w)) = inl items /\
    GetDeploymentState (Ok items) = Ok (ks, h);
  pp_deletes : exists l1 l2, during l l' l1 /\
    getDeleteDeployments ks h (twd_Status w) (twd_Spec w)
      (bool_decide (0 < size (ts_Versions ts))%nat) l1 = (Ok (p_DeleteDeployments p), l2);
  pp_scales : exists l1 l2, during l l' l1 /\
    getScaleDeployments ks h (twd_Status w) (twd_Spec w) l1 = (Ok (p_ScaleDeployments p), l2);
  pp_updates : getUpdateDeployments ks (twd_Status w) (twd_Spec w) c h
               = Ok (p_UpdateDeployments p, p_store p);
  pp_config : exists l1 l2, during l l' l1 /\
    getVersionConfigDiff (twd_Status w) (Some ts) (mkConfig (effectiveStrategy w ts)) l1
    = (Ok (p_UpdateVersionConfig p), l2);
  pp_create d : p_CreateDeployment p = Some d ->
    NewDeploymentWithControllerRef w (ComputeBuildID w) c = Ok d /\
    shouldCreateDeployment (twd_Status w) maxVersions = Ok true;
  pp_workflows : exists input secret,
    p_startTestWorkflows p
    = convertWorkflow <$> getTestWorkflows (twd_Status w) (mkConfig (effectiveStrategy w ts))
                            (ComputeWorkerDeploymentName w) input secret;
  pp_name : p_WorkerDeploymentName p = ComputeWorkerDeploymentName w;
}.

Lemma fetchDeploymentState_run ns n l ks h l' :
  fetchDeploymentState ns n l = (Ok (ks, h), l') ->
  exists items, w_ListDeployments l ns n = inl items /\ GetDeploymentState (Ok items) = Ok (ks, h).
Proof.
  unfold fetchDeploymentState. intros (listed & l1 & Hl & Hk)%io_bind_Ok.
  injection Hk as Hk _. unfold try, ListDeployments, call, answer in Hl.
  destruct (w_ListDeployments l ns n) as [items|e]; injection Hl as <- _; [|discriminate].
  by exists items.
Qed.

Lemma fetchDeploymentState_listed ns name l ksh l' :
  fetchDeploymentState ns name l = (Ok ksh, l') ->
  exists items, w_ListDeployments l ns name = inl items /\ ksh.2 ≡ₚ items.
Proof.
  destruct ksh as [ks h]. intros (items & Hl & Hg)%fetchDeploymentState_run.
  exists items. split; [done|].
  destruct (GetDeploymentState_inv _ _ _ Hg) as (-> & _). apply SliceStable_perm.
Qed.

Lemma generatePlan_parts w c ts l p l' :
  generatePlan maxVersions w c ts l = (Ok p, l') ->
  exists ks h, plan_parts w c ts l l' p ks h.
Proof.
  unfold generatePlan. intros (ksh & l1 & Hf%wrap_error_Ok & Hk)%io_bind_Ok.
  pose proof (reads_extend_Ok _ _ _ _ (fetchDeploymentState_reads _ _) Hf) as I1.
  pose proof (fetchDeploymentState_Ok _ _ _ _ _ Hf) as Hwf.
  destruct ksh as [ks h]. simpl in *.
  destruct (fetchDeploymentState_run _ _ _ _ _ _ Hf) as (items & Hitems & Hg).
  destruct (fetchDeploymentState_listed _ _ _ _ _ Hf) as (items' & Hitems' & Hperm).
  rewrite Hitems in Hitems'. injection Hitems' as <-.
  apply io_bind_Ok in Hk as (gi & l2 & Hgi & Hk).
  pose proof (reads_extend_Ok _ _ _ _ (fetchGateInput_reads _ _) Hgi) as I2.
  apply io_bind_Ok in Hk as (r & l3 & Hr%wrap_error_Ok & Hk).
  apply io_bind_Ok in Hk as (cr & l4 & Hcr & [= <- <-]).
  assert (l3 = l4 /\ forall d, cr = Some d ->
    NewDeploymentWithControllerRef w (ComputeBuildID w) c = Ok d /\
    pl_ShouldCreateDeployment r.1 = true) as [-> Hcreate].
  { destruct (pl_ShouldCreateDeployment r.1); [|by injection Hcr as <- <-].
    apply io_bind_Ok in Hcr as (d & l5 & [Hd ->]%lift_Ok & [= <- <-]).
    split; [done|]. by intros d' [= <-]. }
  unfold GeneratePlan in Hr. apply io_bind_Ok in Hr as (dels & la & Hdel & Hr).
  pose proof (reads_extend_Ok _ _ _ _ (getDeleteDeployments_reads _ _ _ _ _) Hdel) as I3.
  apply io_bind_Ok in Hr as (scales & lb & Hsc & Hr).
  pose proof (reads_extend_Ok _ _ _ _ (getScaleDeployments_reads _ _ _ _) Hsc) as I4.
  apply io_bind_Ok in Hr as (create & lc & [Hc ->]%lift_Ok & Hr).
  apply io_bind_Ok in Hr as (ups & ld & [Hu ->]%lift_Ok & Hr).
  apply io_bind_Ok in Hr as (v & le & Hv & [= <- <-]).
  pose proof (reads_extend_Ok _ _ _ _ (getVersionConfigDiff_reads _ _ _) Hv) as I5.
  exists ks, h. split; simpl in *; try done; [by exists items|exists l2, la|exists la, lb| | | |by eauto].
  1,2: split; [split; apply idle_extension_prefix; idle_chain|done].
  - by destruct ups.
  - exists lb, le. split; [|done].
    split; apply idle_extension_prefix; idle_chain.
  - intros d Hd. destruct (Hcreate d Hd) as [? ->]. done.
Qed.

(** The write of a plan that changes the routing. *)
Definition version_write (p : plan) (v : VersionConfig) : Event :=
  if vc_SetCurrent v
  then EvSetCurrentVersion (p_WorkerDeploymentName p)
         (mkSetCurrentVersionOptions (vc_BuildID v) (vc_ConflictToken v) getControllerIdentity)
  else EvSetRampingVersion (p_WorkerDeploymentName p)
         (mkSetRampingVersionOptions (vc_BuildID v) (float32_of_Z (vc_RampPercentage v))
            (vc_ConflictToken v) getControllerIdentity).

(** The writes of a plan, by their kinds. *)
Inductive plan_write (p : plan) : Event -> Prop :=
  | pw_create d : p_CreateDeployment p = Some d -> plan_write p (EvCreate d)
  | pw_delete q d :
      q ∈ p_DeleteDeployments p -> p_store p !! q = Some d -> plan_write p (EvDelete d)
  | pw_scale a r n :
      p_ScaleDeployments p !! a = Some (r, n) ->
      plan_write p (EvScale (ref_Namespace r) (ref_Name r) (ref_ResourceVersion r) (ref_UID r)
                      (int32 n))
  | pw_update q d :
      q ∈ p_UpdateDeployments p -> p_store p !! q = Some d -> plan_write p (EvUpdate d)
  | pw_workflow wf :
      wf ∈ p_startTestWorkflows p ->
      plan_write p (EvExecuteWorkflow (startWorkflowOptions p wf) (sw_workflowType wf)
                      (if decide (sw_input wf = EmptyString) then None else Some (sw_input wf)))
  | pw_version v : p_UpdateVersionConfig p = Some v -> plan_write p (version_write p v)
  | pw_metadata b upserts removes :
      plan_write p (EvUpdateVersionMetadata (p_WorkerDeploymentName p)
                      (mkUpdateVersionMetadataOptions
                         (mkWorkerDeploymentVersion (p_WorkerDeploymentName p) b)
                         upserts removes)).

Lemma plan_writes_inv `{!ScaleOrderLaws SO} p ev :
  ev ∈ (plan_writes p).*1 -> plan_write p ev.
Proof.
  unfold plan_writes, version_config_writes. rewrite !fmap_app.
  rewrite !elem_of_app, <- !list_fmap_compose.
  intros [H|[H|[H|[H|[H|[H|H]]]]]]; try apply list_elem_of_fmap in H as (x & -> & H).
  - destruct (p_CreateDeployment p) as [d|] eqn:E; simpl in H;
      [apply list_elem_of_singleton in H as ->|by apply not_elem_of_nil in H]. by constructor.
  - apply list_elem_of_omap in H as (q & Hq & Hd). by apply (pw_delete p q).
  - rewrite scale_order_perm in H. apply list_elem_of_fmap in H as ([a [r n]] & -> & H).
    apply elem_of_map_to_list in H. by apply (pw_scale p a).
  - apply list_elem_of_omap in H as (q & Hq & Hd). by apply (pw_update p q).
  - by constructor.
  - destruct (p_UpdateVersionConfig p) as [v|] eqn:E; [|by apply not_elem_of_nil in H].
    simpl in H. apply elem_of_cons in H as [->|H]; [|apply elem_of_cons in H as [->|H]].
    + pose proof (pw_version p v E) as Hv. unfold version_write in Hv.
      by destruct (vc_SetCurrent v).
    + constructor.
    + by apply not_elem_of_nil in H.
  - constructor.
Qed.

(** At most one changes the routing. *)
Lemma plan_writes_routing p :
  (p_UpdateVersionConfig p = None /\ quiet (plan_writes p).*1) \/
  exists v pre post, p_UpdateVersionConfig p = Some v /\
    (plan_writes p).*1 = pre ++ version_write p v :: post /\ quiet pre /\ quiet post.
Proof.
  unfold plan_writes, version_config_writes. rewrite !fmap_app, <- !list_fmap_compose.
  set (c := _ <$> option_list _). set (d := _ <$> store_objects _ _). set (s := _ <$> scale_order _).
  set (u := _ <$> store_objects _ _). set (wf := _ <$> p_startTestWorkflows p).
  set (rm := _ <$> p_RemoveIgnoreLastModifierBuilds p).
  assert (quiet c /\ quiet d /\ quiet s /\ quiet u /\ quiet wf /\ quiet rm)
    as (Hc & Hd & Hs & Hu & Hw & Hr)
    by (split_and!; apply Forall_forall; intros ev (x & -> & _)%list_elem_of_fmap; done).
  destruct (p_UpdateVersionConfig p) as [v|].
  - right. exists v, (c ++ d ++ s ++ u ++ wf),
      (EvUpdateVersionMetadata (p_WorkerDeploymentName p)
         (mkUpdateVersionMetadataOptions
            (mkWorkerDeploymentVersion (p_WorkerDeploymentName p) (vc_BuildID v))
            controllerMetadata []) :: rm).
    split_and!; [done| |by repeat apply Forall_app_2|by constructor].
    rewrite <- !app_assoc. unfold version_write. simpl. by destruct (vc_SetCurrent v).
  - left. split; [done|]. by repeat apply Forall_app_2.
Qed.

Lemma prefix_single {A} (P : A -> Prop) (xs pre post : list A) x :
  xs `prefix_of` pre ++ x :: post -> Forall P pre -> Forall P post ->
  Forall P xs \/ exists post', xs = pre ++ x :: post' /\ Forall P post'.
Proof.
  intros [rest Hr] Hpre Hpost. revert xs Hr. induction pre as [|y pre IH]; intros xs Hr.
  - destruct xs as [|x' xs]; [left; constructor|]. simpl in Hr. injection Hr as -> ->.
    right. exists xs. split; [done|]. by apply Forall_app in Hpost as [? _].
  - destruct xs as [|x' xs]; [left; constructor|]. simpl in Hr. injection Hr as -> Hr.
    apply Forall_cons in Hpre as [Hy Hpre].
    destruct (IH Hpre xs Hr) as [?|(post' & -> & ?)]; [left; by constructor|].
    right. by exists post'.
Qed.

(** The stages of a run that reached the execution of its plan. *)
Record stages := mkStages {
  sg_k8s : DeploymentState;
  sg_store : Store;
  sg_observed : TemporalWorkerState;      (* as [GetWorkerDeploymentState] returned it *)
  sg_state : TemporalWorkerState;         (* with the test workflows *)
  sg_status : TemporalWorkerDeploymentStatus;
  sg_stored : TemporalWorkerDeployment;
  sg_defaulted : TemporalWorkerDeployment;
  sg_plan : plan;
  sg_log1 : Log;       (* before the Temporal state *)
  sg_log2 : Log;       (* before the test workflows *)
  sg_log3 : Log;       (* before the status update *)
  sg_log4 : Log;       (* before the plan's writes *)
  sg_attempted : Log;
}.

Record acted (req : Request) (w : TemporalWorkerDeployment) (c : TemporalConnectionSpec)
    (l l' : Log) (s : stages) : Prop := {
  ac_fetch : fetchDeploymentState (req_Namespace req) (req_Name req) l
             = (Ok (sg_k8s s, sg_store s), sg_log1 s);
  ac_observed : GetWorkerDeploymentState (ComputeWorkerDeploymentName w)
                  (Deployments (sg_k8s s)) (sg_store s) (ComputeBuildID w)
                  (rs_Strategy (spec_RolloutStrategy (twd_Spec w))) getControllerIdentity
                  (sg_log1 s)
                = (Ok (sg_observed s), sg_log2 s);
  ac_status : generateStatus (sg_store s) w (sg_observed s) (sg_k8s s) (sg_log2 s)
              = (Ok (sg_state s, sg_status s), sg_log3 s);
  ac_stored : w_UpdateStatus (sg_log3 s) (twd_set_Status (sg_status s) w) = inl (sg_stored s);
  ac_defaulted : TWD_Default (ObjTWD (sg_stored s)) = Ok (sg_defaulted s);
  ac_plan : generatePlan maxVersions (sg_defaulted s) c (sg_state s)
              (sg_log3 s ++ [EvUpdateStatus (twd_set_Status (sg_status s) w)])
            = (Ok (sg_plan s), sg_log4 s);
  ac_attempted : sg_attempted s `prefix_of` (plan_writes (sg_plan s)).*1;
  ac_log : l' = sg_log4 s ++ sg_attempted s;
  ac_idle1 : idle_extension l (sg_log1 s);
  ac_idle2 : idle_extension (sg_log1 s) (sg_log2 s);
  ac_idle3 : idle_extension (sg_log2 s) (sg_log3 s);
  ac_idle4 : idle_extension (sg_log3 s ++ [EvUpdateStatus (twd_set_Status (sg_status s) w)])
               (sg_log4 s);
}.

Lemma reconcileWith_runs req w c l o l' :
  reconcileWith maxVersions req w c l = (o, l') ->
  idle_extension l l' \/ exists s, acted req w c l l' s.
Proof.
  unfold reconcileWith. intros [([ks h] & l1 & Hf & Hk)|Hl]%io_bind_cases.
  2: { left. subst. apply reads_extend, emits_wrap, fetchDeploymentState_reads. }
  apply wrap_error_Ok in Hf.
  pose proof (reads_extend_Ok _ _ _ _ (fetchDeploymentState_reads _ _) Hf) as I1.
  apply io_bind_cases in Hk as [(ts0 & l2 & Hg & Hk)|Hl].
  2: { left. subst. eapply idle_extension_trans; [exact I1|].
       apply reads_extend, emits_wrap, GetWorkerDeploymentState_reads. }
  apply wrap_error_Ok in Hg. simpl in Hg, Hk.
  pose proof (reads_extend_Ok _ _ _ _ (GetWorkerDeploymentState_reads _ _ _ _ _ _) Hg) as I2.
  apply io_bind_cases in Hk as [([ts st] & l3 & Hs & Hk)|Hl].
  2: { left. subst. repeat (eapply idle_extension_trans; [eassumption|]).
       apply reads_extend, generateStatus_reads. }
  pose proof (reads_extend_Ok _ _ _ _ (generateStatus_reads _ _ _ _) Hs) as I3.
  simpl in Hk. rewrite io_bind_run in Hk. unfold try, UpdateStatus, call, answer in Hk.
  set (ev := EvUpdateStatus (twd_set_Status st w)) in *.
  pose proof (idle_extension_snoc l3 ev eq_refl) as I4.
  destruct (w_UpdateStatus l3 (twd_set_Status st w)) as [stored|e] eqn:Eu.
  2: { left. destruct (is_kind KApiConflict e); injection Hk as _ <-; idle_chain. }
  apply io_bind_cases in Hk as [(w' & l5 & Hd & Hk)|Hl].
  2: { left. simpl in Hl. subst l'. idle_chain. }
  apply lift_Ok in Hd as [Hd ->].
  apply io_bind_cases in Hk as [(p & l6 & Hp & Hk)|Hl].
  2: { left. subst. repeat (eapply idle_extension_trans; [eassumption|]).
       apply reads_extend, generatePlan_reads. }
  pose proof (reads_extend_Ok _ _ _ _ (generatePlan_reads _ _ _ _) Hp) as I5.
  right. pose proof (generatePlan_ok _ _ _ _ _ _ _ Hp) as Hpok.
  destruct (run_writes_stopped (plan_writes p) l6 (plan_writes_keep_kind p))
    as (r & attempted & Hr & Hrun).
  rewrite <- executePlan_writes in Hr by done.
  exists (mkStages ks h ts0 ts st stored w' p l1 l2 l3 l6 attempted).
  split; simpl; try done; [apply (sr_prefix _ _ _ _ Hrun)|].
  rewrite io_bind_run, Hr in Hk. by destruct r as [[]|e|q]; injection Hk as _ <-.
Qed.

(** The same for the whole of [Reconcile]; the resource was read in [l]. *)
Record reconciling (req : Request) (l : Log) (w : TemporalWorkerDeployment)
    (c : TemporalConnectionSpec) (l' : Log) (s : stages) : Prop := {
  rc_fetched : exists fetched, w_GetTWD l (req_Namespace req) (req_Name req) = inl fetched /\
                 TWD_Default (ObjTWD fetched) = Ok w;
  rc_valid : valid_deployment w;
  rc_acted : exists l0, idle_extension l l0 /\ acted req w c l0 l' s;
}.

Lemma Reconcile_runs cp req l o l' :
  Reconcile maxVersions cp req l = (o, l') ->
  idle_extension l l' \/ exists w c s, reconciling req l w c l' s.
Proof.
  unfold Reconcile. intros H. rewrite io_bind_run in H. unfold try, GetTWD, call, answer in H.
  pose proof (idle_extension_snoc l (EvGetTWD (req_Namespace req) (req_Name req)) eq_refl) as I1.
  destruct (w_GetTWD l (req_Namespace req) (req_Name req)) as [fetched|e] eqn:Ef.
  2: { left. by injection H as _ <-. }
  set (l1 := l ++ [EvGetTWD (req_Namespace req) (req_Name req)]) in *.
  rewrite io_bind_run in H. unfold lift in H at 1.
  destruct (TWD_Default (ObjTWD fetched)) as [w|e|p] eqn:Ed; [|by left; injection H as _ <-..].
  rewrite io_bind_run in H. unfold lift in H at 1.
  destruct (validate_cases w) as [[Hval Hv]|[_ Hv]]; rewrite Hv in H;
    [|by left; injection H as _ <-].
  rewrite io_bind_run in H. unfold GetConnection, call, answer in H.
  set (evc := EvGetConnection _ _) in H.
  pose proof (idle_extension_snoc l1 evc eq_refl) as I2.
  destruct (w_GetConnection l1 _ _) as [c|e];
    [|left; injection H as _ <-; idle_chain].
  rewrite io_bind_run in H.
  pose proof (reads_extend (getClient cp w c) (l1 ++ [evc]) (getClient_reads cp w c)) as I3.
  destruct (getClient cp w c (l1 ++ [evc])) as [[[cp1 client]|e|p] l3]; simpl in I3;
    [|left; injection H as _ <-; idle_chain..].
  rewrite io_bind_run in H. unfold UseClient, call in H. simpl in H.
  pose proof (idle_extension_snoc l3 (EvUseClient client) eq_refl) as I4.
  rewrite io_bind_run in H.
  destruct (reconcileWith maxVersions req w c (l3 ++ [EvUseClient client])) as [r l4] eqn:Er.
  assert (l4 = l') as -> by (destruct r; by injection H as _ <-).
  assert (idle_extension l (l3 ++ [EvUseClient client])) as I
    by (idle_chain).
  destruct (reconcileWith_runs _ _ _ _ _ _ Er) as [Hidle|[s Hs]].
  - left. by eapply idle_extension_trans.
  - right. exists w, c, s. split; [by exists fetched|done|]. eauto.
Qed.

Lemma acted_idle req w c l l' s :
  acted req w c l l' s -> idle_extension l (sg_log3 s) /\ idle_extension (sg_log3 s) (sg_log4 s).
Proof.
  intros []. pose proof (idle_extension_snoc (sg_log3 s)
                (EvUpdateStatus (twd_set_Status (sg_status s) w)) eq_refl) as Isn.
  split; idle_chain.
Qed.

(** An action of the run is one of the plan's writes, and what precedes it. *)
Lemma reconciling_action req l w c l' s evs ev :
  reconciling req l w c l' s -> l' = l ++ evs -> ev ∈ evs -> is_action ev = true ->
  ev ∈ (plan_writes (sg_plan s)).*1 /\ ev ∈ sg_attempted s.
Proof.
  intros [_ _ (l0 & I0 & Ha)] -> Hin Hact. destruct (acted_idle _ _ _ _ _ _ Ha) as [Ia Ib].
  assert (idle_extension l (sg_log4 s)) as (pre & Hpre & Hidle) by idle_chain.
  destruct Ha.
  rewrite Hpre, <- app_assoc in ac_log0. apply app_inv_head in ac_log0 as ->.
  apply elem_of_app in Hin as [Hin|Hin].
  - unfold idle in Hidle. rewrite Forall_forall in Hidle.
    pose proof (Hidle _ Hin). congruence.
  - split; [|done]. destruct ac_attempted0 as [rest ->]. apply elem_of_app. by left.
Qed.

End Reconciler.
