(* ===== verification/PoolRuns.v ===== *)
(** * The pool over the life of the process

    The clients that one process creates, as it reconciles resource after
    resource: where each client of the pool comes from ([made_for]), when a
    client is created again, and when it never is.  A step of the pool is a call
    of [getClient]; [Reconcile] makes at most one. *)

From stdpp Require Import base gmap sets list strings relations.
From Stdlib Require Import ZArith Lia.
From S2P Require Import Prelude GoStd Api K8s K8sProps Trace World Temporal TemporalProps.
From S2P Require Import Planner Webhook StateMapper ClientPool ClientPoolProps Controller.
From S2P Require Import ControllerProps RunProps.
Local Open Scope Z_scope.

Section Pool.
Context `{Ev : Env} `{W : World} `{L : K8sLib} `{KO : KeyOrder} `{SO : ScaleOrder} `{C : CertLib}.

(** ** The key of a resource's client *)

Definition client_key (w : TemporalWorkerDeployment) (c : TemporalConnectionSpec) (mode name : string)
  : ClientPoolKey :=
  mkClientPoolKey (HostPort c) (TemporalNamespace (spec_WorkerOptions (twd_Spec w))) name mode.

(** [key] is the one the client of [w] with connection [c] is looked up under. *)
Definition uses_key (w : TemporalWorkerDeployment) (c : TemporalConnectionSpec) (key : ClientPoolKey)
  : Prop :=
  exists mode name, resolveAuthSecretName c = Ok (mode, name) /\ key = client_key w c mode name.

Lemma uses_key_exists w c :
  exists mode name, resolveAuthSecretName c = Ok (mode, name) /\ names_agree c name mode /\
    uses_key w c (client_key w c mode name).
Proof.
  destruct (resolveAuthSecretName_agrees c) as (mode & name & Hr & Ha).
  exists mode, name. split_and!; [done|done|]. by exists mode, name.
Qed.

(** [getClient] as the lookup under the key and the creation. *)
Lemma getClient_unfold cp w c mode name l :
  resolveAuthSecretName c = Ok (mode, name) ->
  getClient cp w c l =
  (found ← GetSDKClient cp (client_key w c mode name);
   match found with
   | Some client => mret (cp, client)
   | None => UpsertClient cp name mode
               (mkNewClientOptions (TemporalNamespace (spec_WorkerOptions (twd_Spec w)))
                  (om_Namespace (twd_ObjectMeta w)) c)
   end) l.
Proof. intros Hr. unfold getClient. by rewrite Hr. Qed.

(** ** Steps *)

Definition pool_after (cp : ClientPool) (o : outcome (ClientPool * sdkClient)) : ClientPool :=
  match o with
  | Ok (cp', _) => cp'
  | _ => cp
  end.

(** Anything may happen between two calls, and to what follows a call. *)
Inductive pool_step : ClientPool * Log -> ClientPool * Log -> Prop :=
  | ps_getClient cp l w c o l' :
      getClient cp w c l = (o, l') -> pool_step (cp, l) (pool_after cp o, l')
  | ps_others cp l evs : pool_step (cp, l) (cp, l ++ evs).

Abbreviation pool_steps := (rtc pool_step).

(** The pools of a process that was started in some log. *)
Definition pool_life (cp : ClientPool) (l : Log) : Prop :=
  exists l0, pool_steps (New, l0) (cp, l).

Lemma getClient_extends cp w c l : l `prefix_of` (getClient cp w c l).2.
Proof.
  destruct (emits_extends _ _ (getClient_reads cp w c) l) as (evs & -> & _). by exists evs.
Qed.

Lemma pool_life_step cp l st : pool_life cp l -> pool_step (cp, l) st -> pool_life st.1 st.2.
Proof. intros [l0 Hl] Hs. exists l0. destruct st. by eapply rtc_r. Qed.

Lemma pool_life_later cp l l' : pool_life cp l -> l `prefix_of` l' -> pool_life cp l'.
Proof. intros Hl [evs ->]. apply (pool_life_step cp l (cp, l ++ evs) Hl), ps_others. Qed.

(** ** Where clients come from *)

(** The credentials of an authentication mode, from a Secret of the name read
    in [l] - in whichever Kubernetes namespace. *)
Inductive credentials_from (l : Log) : string -> string -> Credentials -> Prop :=
  | cf_none : credentials_from l AuthModeNoCredentials EmptyString NoCredentials
  | cf_certificate ls ns name secret :
      (ls ++ [EvGetSecret ns name]) `prefix_of` l -> w_GetSecret ls ns name = inl secret ->
      sec_Type secret = SecretTypeTLS ->
      credentials_from l AuthModeTLS name
        (ClientCertificate (gm_get (sec_Data secret) "tls.crt") (gm_get (sec_Data secret) "tls.key"))
  | cf_key ls ns name secret k :
      (ls ++ [EvGetSecret ns name]) `prefix_of` l -> w_GetSecret ls ns name = inl secret ->
      sec_Type secret = SecretTypeOpaque ->
      credentials_from l AuthModeAPIKey name (APIKeyFrom secret k).

(** [client] was dialed in [l] for exactly the address, the Temporal namespace
    and the credentials of [key]. *)
Definition made_for (key : ClientPoolKey) (l : Log) (client : sdkClient) : Prop :=
  exists ld opts, (ld ++ [EvDial opts]) `prefix_of` l /\ w_Dial ld opts = inl client /\
    do_HostPort opts = cpk_HostPort key /\ do_Namespace opts = cpk_Namespace key /\
    credentials_from ld (cpk_AuthMode key) (cpk_SecretName key) (do_Credentials opts).

Lemma made_for_later key l l' client : l `prefix_of` l' -> made_for key l client -> made_for key l' client.
Proof. intros Hl (ld & opts & Hp & H). exists ld, opts. split; [by etrans|done]. Qed.

Lemma call_Ok {A} ev (f : Log -> A + gerror) l a l' :
  call ev f l = (Ok a, l') -> f l = inl a /\ l' = l ++ [ev].
Proof. unfold call, answer. destruct (f l); intros [=]; by subst. Qed.

Lemma made_by_dial key ld opts client l l' :
  Dial opts ld = (Ok client, l) -> l `prefix_of` l' ->
  do_HostPort opts = cpk_HostPort key -> do_Namespace opts = cpk_Namespace key ->
  credentials_from ld (cpk_AuthMode key) (cpk_SecretName key) (do_Credentials opts) ->
  made_for key l' client.
Proof. intros [Hd ->]%call_Ok Hl ?? Hc. exists ld, opts. by split_and!. Qed.

Lemma credentials_later l l' mode name creds :
  l `prefix_of` l' -> credentials_from l mode name creds -> credentials_from l' mode name creds.
Proof.
  intros Hl [|ls ns nm secret Hp|ls ns nm secret k Hp]; econstructor; try done; by etrans.
Qed.

(** Reading a Secret; with no name the zero Secret is used. *)
Lemma secret_read name ns l secret l' :
  (if decide (name = EmptyString) then mret (mkSecret EmptyString EmptyString None)
   else GetSecret ns name) l = (Ok secret, l') -> sec_Type secret <> EmptyString ->
  w_GetSecret l ns name = inl secret /\ l' = l ++ [EvGetSecret ns name].
Proof. case_decide; [by intros [= <- <-] []|]. intros Hs _. by apply call_Ok in Hs. Qed.

Lemma UpsertClient_made cp name mode opts l cp' client l' :
  names_agree (nco_Spec opts) name mode ->
  UpsertClient cp name mode opts l = (Ok (cp', client), l') ->
  made_for (pool_key opts name mode) l' client.
Proof.
  intros Hnames Hu. unfold UpsertClient in Hu. apply io_bind_Ok in Hu as (secret & l1 & Hs & Hk).
  assert (forall T, sec_Type secret = T -> T <> EmptyString ->
            w_GetSecret l (nco_K8sNamespace opts) name = inl secret /\
            l1 = l ++ [EvGetSecret (nco_K8sNamespace opts) name]) as Hread.
  { intros T HT HneT. apply secret_read; [exact Hs|by rewrite HT]. }
  clear Hs. destruct Hnames as [[-> _]|[[-> _]|[-> ->]]]; simpl in Hk.
  - case_decide as Ht; [|discriminate]. destruct (Hread _ Ht) as [Hsec ->]; [done|].
    unfold fetchClientUsingMTLSSecret in Hk. apply io_bind_Ok in Hk as (exp & l2 & Hx & Hk).
    apply wrap_error_Ok, lift_Ok in Hx as [_ ->].
    apply io_bind_Ok in Hk as (expired & l3 & Hn & Hk). injection Hn as _ <-.
    destruct expired; [discriminate|]. apply io_bind_Ok in Hk as (u & l4 & [_ ->]%lift_Ok & Hk).
    apply io_bind_Ok in Hk as (c & l5 & Hd & Hk).
    apply io_bind_Ok in Hk as (health & l6 & Hh & Hk).
    assert (l5 `prefix_of` l6) as H56
      by (apply (extends_prefix (try (CheckHealth c)) l5 (Ok health)); [|done];
          eapply emits_extends with (P := fun _ => True), emits_try, emits_CheckHealth; done).
    destruct health; [|discriminate]. apply io_bind_Ok in Hk as (r & l7 & [_ ->]%lift_Ok & Hk).
    injection Hk as _ <- <-. eapply made_by_dial; [exact Hd|done|done|done|].
    eapply cf_certificate; [by exists [EvNow]|done|done].
  - case_decide as Ht; [|discriminate]. destruct (Hread _ Ht) as [Hsec ->]; [done|].
    unfold fetchClientUsingAPIKeySecret in Hk. apply io_bind_Ok in Hk as (c & l2 & Hd & Hk).
    apply io_bind_Ok in Hk as (r & l3 & [_ ->]%lift_Ok & Hk). injection Hk as _ <- <-.
    eapply made_by_dial; [exact Hd|done|done|done|]. by eapply cf_key.
  - unfold fetchClientUsingNoCredentials in Hk. apply io_bind_Ok in Hk as (c & l2 & Hd & Hk).
    injection Hk as _ <- <-. eapply made_by_dial; [exact Hd|done|done|done|]. constructor.
Qed.

(** ** Invariants of a process *)

Definition pool_made (st : ClientPool * Log) : Prop :=
  forall key info, st.1 !! key = Some info -> made_for key st.2 (ci_client info).

(** What a call of [getClient] does to the pool. *)
Lemma getClient_cases cp w c l o l' :
  getClient cp w c l = (o, l') ->
  exists mode name, resolveAuthSecretName c = Ok (mode, name) /\ names_agree c name mode /\
    let key := client_key w c mode name in
    pool_after cp o = cp \/
    exists l1 info, GetSDKClient cp key l = (Ok None, l1) /\
      pool_after cp o = <[key := info]> cp /\ o = Ok (<[key := info]> cp, ci_client info) /\
      info_ok key info /\ made_for key l' (ci_client info).
Proof.
  intros Hg. destruct (uses_key_exists w c) as (mode & name & Hr & Ha & _).
  exists mode, name. split_and!; [done|done|]. intros key.
  rewrite (getClient_unfold _ _ _ _ _ _ Hr), io_bind_run in Hg. fold key in Hg.
  destruct (GetSDKClient cp key l) as [[[client|]|e|p] l1] eqn:Ef;
    [left; by injection Hg as <- _| |left; by injection Hg as <- _..].
  destruct o as [[cp' client]|e|p]; [right|by left..].
  assert (key = pool_key (mkNewClientOptions (TemporalNamespace (spec_WorkerOptions (twd_Spec w)))
            (om_Namespace (twd_ObjectMeta w)) c) name mode) as Hkey by done.
  destruct (UpsertClient_inserts _ _ _ (mkNewClientOptions _ _ c) _ _ _ _ Ha Hg)
    as (info & -> & <- & Hok).
  apply UpsertClient_made in Hg; [|done]. rewrite <- Hkey in *. by exists l1, info.
Qed.

Lemma pool_step_made st st' : pool_step st st' -> pool_made st -> pool_made st'.
Proof.
  intros [cp l w c o l' Hg|cp l evs] Hm key info Hk; simpl in *.
  - pose proof (getClient_extends cp w c l) as Hl. rewrite Hg in Hl. simpl in Hl.
    destruct (getClient_cases _ _ _ _ _ _ Hg)
      as (mode & name & _ & _ & [Heq|(l1 & info' & _ & Heq & _ & _ & Hmade)]); rewrite Heq in Hk.
    + eapply made_for_later; [exact Hl|by apply Hm].
    + apply lookup_insert_Some in Hk as [[<- <-]|[_ Hk]]; [done|].
      eapply made_for_later; [exact Hl|by apply Hm].
  - eapply made_for_later; [by eexists|by apply Hm].
Qed.

Lemma pool_step_wf st st' : pool_step st st' -> pool_wf st.1 -> pool_wf st'.1.
Proof.
  intros [cp l w c o l' Hg|cp l evs] Hwf; simpl in *; [|done].
  destruct (getClient_cases _ _ _ _ _ _ Hg)
    as (mode & name & _ & _ & [->|(l1 & info & _ & -> & _ & Hok & _)]); [done|].
  by apply pool_wf_insert.
Qed.

Lemma pool_life_inv cp l : pool_life cp l -> pool_wf cp /\ pool_made (cp, l).
Proof.
  intros [l0 Hs]. cut (pool_wf (cp, l).1 /\ pool_made (cp, l)); [done|].
  remember (New, l0) as st0 eqn:E.
  assert (pool_wf st0.1 /\ pool_made st0) as H0.
  { subst. split; [apply map_Forall_empty|]. intros key info Hk. simpl in Hk. unfold New in Hk.
    by rewrite lookup_empty in Hk. }
  clear E. revert H0. induction Hs as [|x y z Hxy _ IH]; [done|].
  intros []. apply IH. by eauto using pool_step_made, pool_step_wf.
Qed.

(** A pooled client other than a TLS one is found under its key. *)
Lemma GetSDKClient_pooled cp key info l :
  cp !! key = Some info -> cpk_AuthMode key <> AuthModeTLS ->
  GetSDKClient cp key l = (Ok (Some (ci_client info)), l).
Proof. intros Hk Hm. unfold GetSDKClient. by rewrite Hk, decide_False. Qed.

Lemma GetSDKClient_Some cp key l client l' :
  GetSDKClient cp key l = (Ok (Some client), l') ->
  exists info, cp !! key = Some info /\ ci_client info = client.
Proof.
  unfold GetSDKClient. destruct (cp !! key) as [info|]; [|done].
  case_decide; [|intros [= <- _]; by exists info].
  intros (m & l1 & _ & Hk)%io_bind_Ok. apply io_bind_Ok in Hk as (expired & l2 & _ & Hk).
  destruct expired; [done|]. injection Hk as <- _. by exists info.
Qed.

Lemma pool_step_keeps st st' key info :
  pool_step st st' -> cpk_AuthMode key <> AuthModeTLS ->
  st.1 !! key = Some info -> st'.1 !! key = Some info.
Proof.
  intros [cp l w c o l' Hg|cp l evs] Hm Hk; simpl in *; [|done].
  destruct (getClient_cases _ _ _ _ _ _ Hg)
    as (mode & name & _ & _ & [->|(l1 & info' & Hf & -> & _)]); [done|].
  rewrite lookup_insert_ne; [done|]. intros <-.
  by rewrite (GetSDKClient_pooled _ _ _ _ Hk Hm) in Hf.
Qed.

Lemma pool_steps_keep st st' key info :
  pool_steps st st' -> cpk_AuthMode key <> AuthModeTLS ->
  st.1 !! key = Some info -> st'.1 !! key = Some info.
Proof. intros Hs Hm. induction Hs; eauto using pool_step_keeps. Qed.
(** ** Reconciliations *)

Context (maxVersions : Z).

(** A run of [Reconcile] only reads until it has a client; without one it leaves
    the pool as it was, and else continues with the client of [getClient]. *)
Lemma Reconcile_client cp req l o l' :
  Reconcile maxVersions cp req l = (o, l') ->
  let read := l ++ [EvGetTWD (req_Namespace req) (req_Name req)] in
  (reads_extension l l' /\ forall cp' r, o = Ok (cp', r) -> cp' = cp) \/
  exists fetched w c cp1 client l1,
    w_GetTWD l (req_Namespace req) (req_Name req) = inl fetched /\
    TWD_Default (ObjTWD fetched) = Ok w /\
    w_GetConnection read (om_Namespace (twd_ObjectMeta w))
      (TemporalConnectionRef (spec_WorkerOptions (twd_Spec w))) = inl c /\
    getClient cp w c (read ++ [EvGetConnection (om_Namespace (twd_ObjectMeta w))
      (TemporalConnectionRef (spec_WorkerOptions (twd_Spec w)))]) = (Ok (cp1, client), l1) /\
    reads_extension l (l1 ++ [EvUseClient client]) /\
    (res ← try (reconcileWith maxVersions req w c); mret (cp1, res)) (l1 ++ [EvUseClient client])
    = (o, l').
Proof.
  intros H read. unfold Reconcile in H. rewrite io_bind_run in H. unfold try, GetTWD, call, answer in H.
  fold read in H.
  assert (reads_extension l read) as I1 by (by apply reads_snoc).
  destruct (w_GetTWD l (req_Namespace req) (req_Name req)) as [fetched|e] eqn:Ef.
  2: { left. injection H as <- <-. split; [done|]. by intros cp' r [= <- _]. }
  rewrite io_bind_run in H. unfold lift in H at 1.
  destruct (TWD_Default (ObjTWD fetched)) as [w|e|p] eqn:Ed;
    [|left; injection H as <- <-; split; [done|by intros cp' r [=]]..].
  rewrite io_bind_run in H. unfold lift in H at 1.
  destruct (ValidateCreate (ObjTWD w)) as [u|e|p];
    [|left; injection H as <- <-; split; [done|by intros cp' r [=]]..].
  rewrite io_bind_run in H. unfold GetConnection, call, answer in H.
  set (evc := EvGetConnection _ _) in *.
  assert (reads_extension l (read ++ [evc])) as I2
    by (eapply adds_trans; [exact I1|by apply reads_snoc]).
  destruct (w_GetConnection read _ _) as [c|e] eqn:Ec;
    [|left; injection H as <- <-; split; [done|by intros cp' r [=]]].
  rewrite io_bind_run in H.
  destruct (getClient cp w c (read ++ [evc])) as [r l3] eqn:Eg.
  pose proof (adds_trans _ _ _ _ I2 (emits_adds _ _ _ _ _ (getClient_reads cp w c) Eg)) as I3.
  destruct r as [[cp1 client]|e|p];
    [|left; injection H as <- <-; split; [done|by intros cp' r [=]]..].
  right. exists fetched, w, c, cp1, client, l3. split_and!; try done.
  eapply adds_trans; [exact I3|by apply reads_snoc].
Qed.

Lemma reconcileWith_extends req w c : extends (reconcileWith maxVersions req w c).
Proof.
  unfold reconcileWith, extends. emits_steps; try (apply executePlan_extends);
    eapply emits_weaken;
    [|apply fetchDeploymentState_reads| |apply GetWorkerDeploymentState_reads
     | |apply generateStatus_reads| |apply generatePlan_reads]; done.
Qed.

(** ** When a client is created again *)

(** C35: Credentials other than certificates are read once in the life of a
    process.  From the creation of a client without TLS on - whatever
    reconciliations and whatever else follows, a changed key in the Secret
    included - every resource of every Kubernetes namespace whose connection
    gives the same address, Temporal namespace, mode and Secret name gets that
    very client, and the Secret is not read again. *)
Theorem credentials_are_read_once cp w c l cp1 client l1 cp2 l2 w' c' key l3 :
  MutualTLSSecretRef c = None -> uses_key w c key ->
  getClient cp w c l = (Ok (cp1, client), l1) ->
  pool_steps (cp1, l1) (cp2, l2) -> uses_key w' c' key ->
  getClient cp2 w' c' l3 = (Ok (cp2, client), l3).
Proof.
  intros Htls (mode & name & Hr & ->) Hg Hsteps (mode' & name' & Hr' & Hkey).
  assert (mode <> AuthModeTLS) as Hmode.
  { destruct (resolveAuthSecretName_agrees c) as (m & n & Hr1 & [[-> (r & Hc & _)]|Ha]);
      [congruence|]. rewrite Hr in Hr1. injection Hr1 as <- <-.
    by destruct Ha as [[-> _]|[-> _]]. }
  assert (exists info, cp1 !! client_key w c mode name = Some info /\ ci_client info = client)
    as (info & Hk & <-).
  { rewrite (getClient_unfold _ _ _ _ _ _ Hr) in Hg. apply io_bind_Ok in Hg as (found & lf & Hf & Hu).
    destruct found as [c0|].
    - injection Hu as <- <- _. by eapply GetSDKClient_Some.
    - eapply UpsertClient_inserts in Hu as (info & -> & Hc & _).
      + exists info. by rewrite lookup_insert_eq.
      + destruct (resolveAuthSecretName_agrees c) as (m & n & Hr1 & Ha).
        rewrite Hr in Hr1. by injection Hr1 as <- <-. }
  apply (pool_steps_keep _ _ _ _ Hsteps) in Hk; [|done]. simpl in Hk.
  rewrite (getClient_unfold _ _ _ _ _ _ Hr'), io_bind_run, <- Hkey.
  by rewrite (GetSDKClient_pooled _ _ _ _ Hk).
Qed.

(** The client that the certificate and key of [secret] give: dialed with just
    these, and pooled with the certificate and its expiry. *)
Definition certificate_dial (opts : NewClientOptions) (secret : Secret) : DialOptions :=
  mkDialOptions (HostPort (nco_Spec opts)) (nco_TemporalNamespace opts)
    (ClientCertificate (gm_get (sec_Data secret) "tls.crt") (gm_get (sec_Data secret) "tls.key")).

Definition certificate_info (secret : Secret) (notAfter : Time) (client : sdkClient) : ClientInfo :=
  mkClientInfo client (mkClientAuth AuthModeTLS
    (Some (mkMTLSAuth (gm_get (sec_Data secret) "tls.crt") (notAfter - 5 * Minute)))).

(** A client created from a certificate: the certificate was good when checked,
    and the client was dialed with it. *)
Lemma fetchMTLS_renews cp secret opts r l cp' client l' :
  MutualTLSSecretRef (nco_Spec opts) = Some r ->
  fetchClientUsingMTLSSecret cp secret opts l = (Ok (cp', client), l') ->
  exists block notAfter,
    pem_Decode (gm_get (sec_Data secret) "tls.crt") = Some block /\
    x509_ParseCertificate block = inl notAfter /\ w_Now l + 5 * Minute <= notAfter /\
    w_Dial (l ++ [EvNow]) (certificate_dial opts secret) = inl client /\
    l ++ [EvNow; EvDial (certificate_dial opts secret)] `prefix_of` l' /\
    cp' = <[pool_key opts (sr_Name r) AuthModeTLS := certificate_info secret notAfter client]> cp.
Proof.
  intros Hr. unfold fetchClientUsingMTLSSecret. intros (exp & l1 & Hexp & Hk)%io_bind_Ok.
  apply wrap_error_Ok, lift_Ok in Hexp as [Hexp ->].
  apply expiration_Ok in Hexp as (block & notAfter & Hb & Hc & ->).
  apply io_bind_Ok in Hk as (expired & l2 & Hx & Hk). injection Hx as <- <-.
  destruct (time_After _ _) eqn:Ea; [discriminate|].
  apply io_bind_Ok in Hk as (u & l3 & [_ ->]%lift_Ok & Hk).
  apply io_bind_Ok in Hk as (c' & l4 & [Hdial ->]%call_Ok & Hk).
  apply io_bind_Ok in Hk as ([ok|err] & l5 & Hh & Hk); [|discriminate].
  rewrite Hr in Hk. injection Hk as <- <- <-.
  exists block, notAfter. split_and!; [done|done| |done| |reflexivity].
  - unfold time_After in Ea. apply Z.ltb_ge in Ea. lia.
  - rewrite <- app_assoc in Hh. simpl in Hh.
    apply (extends_prefix (try (CheckHealth c')) _ (Ok (inl ok)) l5); [|exact Hh].
    by eapply emits_extends with (P := fun _ => True), emits_try, emits_CheckHealth.
Qed.

Lemma fetchMTLS_extends cp secret opts : extends (fetchClientUsingMTLSSecret cp secret opts).
Proof.
  unfold extends, fetchClientUsingMTLSSecret, isCertificateExpired. emits_steps.
Qed.

Lemma GetSDKClient_tls cp key info m l :
  cp !! key = Some info -> cpk_AuthMode key = AuthModeTLS -> auth_mTLS (ci_auth info) = Some m ->
  GetSDKClient cp key l
  = (Ok (if w_Now l <=? mtls_expiryTime m then Some (ci_client info) else None), l ++ [EvNow]).
Proof.
  intros Hk Ht Hm. unfold GetSDKClient. rewrite Hk, decide_True, Hm by done. io_run.
  unfold isCertificateExpired. io_run. unfold time_After. by rewrite Z.leb_antisym; case_match.
Qed.

(** C34: Certificates are renewed in time.  Under TLS the pooled client is used,
    with nothing but a look at the clock, exactly while its certificate has five
    minutes left; after that the Secret is read again, and a client that is
    returned was dialed in this run with the certificate and key the Secret holds
    now, to the address and Temporal namespace of the connection, when that
    certificate had five minutes left; it replaces the old one in the pool,
    recorded with this certificate and its expiry. *)
Theorem certificates_are_renewed cp l0 w c l r key info :
  pool_life cp l0 -> MutualTLSSecretRef c = Some r -> uses_key w c key ->
  cp !! key = Some info ->
  exists m old expires, auth_mTLS (ci_auth info) = Some m /\
    pem_Decode (mtls_tlsConfig m) = Some old /\ x509_ParseCertificate old = inl expires /\
    (w_Now l + 5 * Minute <= expires -> getClient cp w c l = (Ok (cp, ci_client info), l ++ [EvNow])) /\
    (expires < w_Now l + 5 * Minute -> sr_Name r <> EmptyString ->
     let reread := l ++ [EvNow; EvGetSecret (om_Namespace (twd_ObjectMeta w)) (sr_Name r)] in
     reread `prefix_of` (getClient cp w c l).2 /\
     forall cp' client l', getClient cp w c l = (Ok (cp', client), l') ->
       exists secret block notAfter,
         w_GetSecret (l ++ [EvNow]) (om_Namespace (twd_ObjectMeta w)) (sr_Name r) = inl secret /\
         pem_Decode (gm_get (sec_Data secret) "tls.crt") = Some block /\
         x509_ParseCertificate block = inl notAfter /\
         w_Now reread + 5 * Minute <= notAfter /\
         let dial := mkDialOptions (HostPort c)
           (TemporalNamespace (spec_WorkerOptions (twd_Spec w)))
           (ClientCertificate (gm_get (sec_Data secret) "tls.crt")
              (gm_get (sec_Data secret) "tls.key")) in
         w_Dial (reread ++ [EvNow]) dial = inl client /\
         reread ++ [EvNow; EvDial dial] `prefix_of` l' /\
         cp' = <[key := mkClientInfo client (mkClientAuth AuthModeTLS (Some (mkMTLSAuth
                  (gm_get (sec_Data secret) "tls.crt") (notAfter - 5 * Minute))))]> cp).
Proof.
  intros Hlife Href (mode & name & Hr & ->) Hk.
  destruct (pool_life_inv _ _ Hlife) as [Hwf _]. destruct (Hwf _ _ Hk) as [_ Hm].
  assert (mode = AuthModeTLS /\ name = sr_Name r) as [-> ->].
  { unfold resolveAuthSecretName in Hr. rewrite Href in Hr. by injection Hr as <- <-. }
  destruct (Hm eq_refl) as (m & block & t & Hmt & Hpem & Hx509 & Hexp).
  exists m, block, t. split_and!; [done..| |];
    rewrite (getClient_unfold _ _ _ _ _ _ Hr), io_bind_run;
    assert (GetSDKClient cp (client_key w c AuthModeTLS (sr_Name r)) l
          = (Ok (if w_Now l <=? mtls_expiryTime m then Some (ci_client info) else None), l ++ [EvNow]))
      as -> by (by apply GetSDKClient_tls); intros Hnow;
    [by rewrite (proj2 (Z.leb_le _ _)) by lia|].
  intros Hname reread. rewrite (proj2 (Z.leb_gt _ _)) by lia. unfold UpsertClient.
  rewrite io_bind_run, decide_False by done. unfold GetSecret, call, answer.
  rewrite <- !app_assoc. simpl. fold reread.
  destruct (w_GetSecret (l ++ [EvNow]) _ _) as [secret|e] eqn:Es; [|by split].
  case_decide; [|by split]. split.
  - destruct (fetchMTLS_extends cp secret (mkNewClientOptions
      (TemporalNamespace (spec_WorkerOptions (twd_Spec w))) (om_Namespace (twd_ObjectMeta w)) c)
      reread) as (evs & -> & _). by eexists.
  - intros cp' client l' Hf. eapply fetchMTLS_renews in Hf as (blk & notAfter & H'); [|done].
    exists secret, blk, notAfter. split; [done|exact H'].
Qed.
(** A client that is replaced is not closed: [getClient] closes none. *)
Definition is_close (ev : Event) : bool := if ev is EvCloseClient _ then true else false.

#[local] Hint Extern 5 (is_close _ = false) => reflexivity : emits.

Lemma getClient_closes_nothing cp w c : emits (fun ev => is_close ev = false) (getClient cp w c).
Proof.
  unfold getClient, GetSDKClient, UpsertClient, fetchClientUsingMTLSSecret,
    fetchClientUsingAPIKeySecret, fetchClientUsingNoCredentials, isCertificateExpired. emits_steps.
Qed.
End Pool.
