(* ===== verification/EndToEnd.v ===== *)
(** * End to end: what a whole reconciliation writes

    The safety of the plans carried to the events of [Reconcile]: whatever its
    outcome, each write is traced through the stored status and the plan back to
    the answers of this very run. *)

From stdpp Require Import base gmap sets list strings.
From Stdlib Require Import ZArith Lia.
From S2P Require Import Prelude GoStd Api K8s K8sProps Trace World Temporal TemporalProps.
From S2P Require Import Planner SunsetProps UpdateProps RolloutProps Webhook StateMapper.
From S2P Require Import StateMapperProps GateProps Servers Safety.
From S2P Require Import ClientPool Controller ControllerProps RunProps.
Local Open Scope Z_scope.

Section EndToEnd.
Context `{Ev : Env} `{W : World} `{L : K8sLib} `{KO : KeyOrder} `{SO : ScaleOrder} `{C : CertLib}.
Context `{!K8sLibLaws L} `{!KeyOrderLaws KO} `{!ScaleOrderLaws SO} `{!WorldClock W}.
Context `{!StatusServer W} `{!DescribeServer W} `{!NamedObjects W}.
Context (maxVersions : Z).

(** ** What a published status says *)

(** Every version of a status describes a build. *)
Lemma status_described h m target st v :
  target <> EmptyString -> status_spec h m target st -> v ∈ status_versions st ->
  describes h m (BuildID v) v.
Proof.
  unfold status_versions. rewrite elem_of_cons, elem_of_app, list_elem_of_fmap.
  intros Hne Hspec [->|[Hc|(d & -> & Hd)]].
  - rewrite (ss_target_id _ _ _ _ Hspec). by apply (ss_target _ _ _ _ Hspec).
  - pose proof (ss_current _ _ _ _ Hspec) as H. destruct (CurrentVersion st) as [c|];
      [|by apply not_elem_of_nil in Hc].
    apply list_elem_of_singleton in Hc as ->. destruct H as [_ H].
    by rewrite (dv_id _ _ _ _ H).
  - by apply (ss_deprecated _ _ _ _ Hspec d Hd).
Qed.

(** Its reference is that of the Deployment at its address. *)
Lemma describes_ref ks h m v ref :
  sm_k8sState m = ks -> state_wf ks h ->
  describes h m (BuildID v) v -> ver_Deployment v = Some ref ->
  Deployments ks !! BuildID v = Some (rp_addr ref) /\
  exists d, h !! rp_addr ref = Some d /\ build_label d = Some (BuildID v) /\
            ref = NewObjectRef (rp_addr ref) d.
Proof.
  intros Hks Hwf Hv Hr. rewrite (dv_ref _ _ _ _ Hv), Hks, (wf_ref _ _ Hwf) in Hr.
  destruct (Deployments ks !! BuildID v) as [p|] eqn:Ep; [|done]. simpl in Hr.
  destruct (wf_deployment _ _ Hwf _ _ Ep) as (d & Hd & Hl). unfold ref_at in Hr. rewrite Hd in Hr.
  injection Hr as <-. simpl. eauto.
Qed.

(** ** From a run's stages to what the server said *)

Definition stage_mapper (w : TemporalWorkerDeployment) (s : stages) : stateMapper :=
  newStateMapper (sg_k8s s) (sg_state s) (ComputeWorkerDeploymentName w).

Lemma acted_spec req w c l l' s :
  acted maxVersions req w c l l' s ->
  state_wf (sg_k8s s) (sg_store s) /\
  same_but_tests (sg_observed s) (sg_state s) /\
  status_spec (sg_store s) (stage_mapper w s) (ComputeBuildID w) (sg_status s) /\
  status_stored (sg_status s) (twd_Status (sg_defaulted s)).
Proof.
  intros [Hf _ Hs Hu Hd _ _ _ _ _ _ _]. apply fetchDeploymentState_Ok in Hf. simpl in Hf.
  apply generateStatus_Ok in Hs as [Hsame Hst].
  destruct (mapToStatus_ok (sg_store s) (stage_mapper w s) (ComputeBuildID w)
              (state_wf_pointers _ (stage_mapper w s) Hf)) as (st & Hst' & Hspec).
  unfold stage_mapper in Hst'. rewrite Hst in Hst'. injection Hst' as <-.
  split_and!; [done|done|done|].
  apply update_keeps_status in Hu. by injection Hd as <-.
Qed.

(** Without an answer nothing is known of any build. *)
Lemma acted_unanswered req w c l l' s e :
  acted maxVersions req w c l l' s ->
  w_Describe (sg_log1 s) (ComputeWorkerDeploymentName w) = inr e ->
  ts_Versions (sg_state s) = ∅ /\
  forall b, statusOf (stage_mapper w s) b = VersionStatusNotRegistered.
Proof.
  intros Ha Ed. destruct (acted_spec _ _ _ _ _ _ Ha) as (_ & Hsame & _ & _).
  destruct (GetWorkerDeploymentState_unanswered _ _ _ _ _ _ _ _ _ _ Ed
              (ac_observed _ _ _ _ _ _ _ Ha)) as [He _].
  assert (ts_Versions (sg_state s) = ∅) as Hz.
  { pose proof (sbt_versions _ _ Hsame) as Hv. rewrite He in Hv.
    cbn in Hv. rewrite fmap_empty in Hv. by apply fmap_empty_inv in Hv. }
  split; [done|]. intros b. unfold statusOf, versionOf. simpl. by rewrite Hz.
Qed.

(** With one, a build that is gone by the status is neither routed to nor
    draining. *)
Lemma acted_answer req w c l l' s resp :
  acted maxVersions req w c l l' s ->
  w_Describe (sg_log1 s) (ComputeWorkerDeploymentName w) = inl resp ->
  forall b, gone (statusOf (stage_mapper w s) b) -> ~ routed resp b /\ ~ draining resp b.
Proof.
  intros Ha Ed b. destruct (acted_spec _ _ _ _ _ _ Ha) as (_ & Hsame & _ & _).
  eapply gone_not_live; [|by eapply describe_consistent|exact Hsame|done].
  eapply GetWorkerDeploymentState_versions; [exact Ed|apply (ac_observed _ _ _ _ _ _ _ Ha)].
Qed.

(** ** Removals *)

(** [ev] deletes the Deployment [d] or scales it to zero. *)
Definition removes (ev : Event) (d : Deployment) : Prop :=
  match ev with
  | EvDelete d' => d_ObjectMeta d' = d_ObjectMeta d
  | EvScale ns name _ uid replicas =>
      replicas = 0 /\ ns = om_Namespace (d_ObjectMeta d) /\ name = om_Name (d_ObjectMeta d) /\
      uid = om_UID (d_ObjectMeta d)
  | _ => False
  end.

Definition is_removal (ev : Event) : bool :=
  match ev with
  | EvDelete _ => true
  | EvScale _ _ _ _ replicas => replicas =? 0
  | _ => false
  end.

Lemma removal_in_plan p ev :
  ev ∈ (plan_writes p).*1 -> is_removal ev = true ->
  (exists q d, q ∈ p_DeleteDeployments p /\ p_store p !! q = Some d /\ ev = EvDelete d) \/
  (exists a r n, p_ScaleDeployments p !! a = Some (r, n) /\ int32 n = 0 /\
     ev = EvScale (ref_Namespace r) (ref_Name r) (ref_ResourceVersion r) (ref_UID r) (int32 n)).
Proof.
  intros [d _|q d Hq Hd|a r n Ha| | |v _| ]%plan_writes_inv Hrem; try done.
  - left. by exists q, d.
  - right. exists a, r, n. apply Z.eqb_eq in Hrem. done.
  - unfold version_write in Hrem. by destruct (vc_SetCurrent v).
Qed.

(** A zero in the scale map: the conversion to int32 hides no other count. *)
Lemma scales_zero ks h st spec l scales l' a r n replicas :
  getScaleDeployments ks h st spec l = (Ok scales, l') -> scales !! a = Some (r, n) ->
  spec_Replicas spec = Some replicas -> uint32 replicas <> 0 -> int32 n = 0 -> n = 0.
Proof.
  intros Hs Ha Hr Hnz Hz.
  destruct (getScaleDeployments_run _ _ _ _ _ _ _ Hs) as (replicas' & Hrep' & Hsound & _).
  simplify_eq. apply Hsound in Ha as (v & _ & p & _ & Hreason).
  assert (n = uint32 replicas \/ n = 0) as [-> | ->]; [|exfalso|done].
  { destruct Hreason as [|? ?|? ? ? ? Hn]; [by left..|]. unfold deprecated_scale in Hn.
    destruct (ver_Status _); try done; [|by left; apply Hn..|by right; apply Hn].
    case_decide; [left|right]; apply Hn. }
  pose proof (uint32_range replicas). unfold int32, wrap_signed in Hz.
  apply Hnz. destruct (Z_lt_dec (uint32 replicas) (2 ^ 31)).
  - rewrite Z.mod_small in Hz; simpl in *; lia.
  - replace (uint32 replicas + 2 ^ (32 - 1))
      with (uint32 replicas - 2 ^ 31 + 1 * 2 ^ 32) in Hz by (simpl; lia).
    rewrite Z_mod_plus_full, Z.mod_small in Hz; simpl in *; lia.
Qed.

(** The Deployment of the build [b] that a listing of the run returned. *)
Definition listed_in_run (l l' : Log) (ns name : string) (d : Deployment) : Prop :=
  exists ld items, during l l' ld /\ w_ListDeployments ld ns name = inl items /\ d ∈ items.

Lemma listed_elem l l' la ns name (h items : list Deployment) p d :
  during l l' la -> w_ListDeployments la ns name = inl items -> h ≡ₚ items ->
  h !! p = Some d -> listed_in_run l l' ns name d.
Proof.
  intros Hla Hl Hp Hd. exists la, items. split_and!; [done|done|]. rewrite <- Hp.
  by eapply list_elem_of_lookup_2.
Qed.

(** The reference of a version in the status is that of its Deployment. *)
Lemma described_ref w s b v r :
  state_wf (sg_k8s s) (sg_store s) -> describes (sg_store s) (stage_mapper w s) b v ->
  rp_ref <$> ver_Deployment v = Some r ->
  exists p d, sg_store s !! p = Some d /\ build_label d = Some b /\
    ref_Namespace r = om_Namespace (d_ObjectMeta d) /\ ref_Name r = om_Name (d_ObjectMeta d) /\
    ref_UID r = om_UID (d_ObjectMeta d).
Proof.
  intros Hwf Hd Hr. rewrite (dv_ref _ _ _ _ Hd) in Hr. simpl in Hr.
  destruct (Deployments (sg_k8s s) !! b) as [p|] eqn:Ep; [|done]. simpl in Hr.
  rewrite (wf_ref _ _ Hwf), Ep in Hr. simpl in Hr.
  destruct (wf_deployment _ _ Hwf _ _ Ep) as (d & Hp & Hb). unfold ref_at in Hr.
  rewrite Hp in Hr. injection Hr as <-. exists p, d. by split_and!.
Qed.

(** What the stored object keeps of the one that was read. *)
Lemma acted_defaulted req w c l l0 l' s fetched :
  w_GetTWD l (req_Namespace req) (req_Name req) = inl fetched ->
  TWD_Default (ObjTWD fetched) = Ok w -> idle_extension l l0 ->
  acted maxVersions req w c l0 l' s ->
  twd_Spec (sg_defaulted s) = twd_Spec w /\
  om_Namespace (twd_ObjectMeta (sg_defaulted s)) = req_Namespace req /\
  om_Name (twd_ObjectMeta (sg_defaulted s)) = req_Name req.
Proof.
  intros Hf Hd I0 Ha. destruct (get_named _ _ _ _ Hf) as [Hns Hn].
  destruct (update_keeps_object l (req_Namespace req) (req_Name req) fetched w (sg_log3 s)
              (sg_status s) (sg_stored s) (sg_defaulted s)) as [Hspec Hmeta]; try done.
  - destruct Ha. apply idle_extension_prefix. idle_chain.
  - apply Ha.
  - apply Ha.
  - rewrite Hmeta. injection Hd as <-. done.
Qed.

(** The plan is about the worker deployment and build of the request. *)
Lemma acted_names req w c l l0 l' s fetched :
  w_GetTWD l (req_Namespace req) (req_Name req) = inl fetched ->
  TWD_Default (ObjTWD fetched) = Ok w -> idle_extension l l0 ->
  acted maxVersions req w c l0 l' s ->
  p_WorkerDeploymentName (sg_plan s) = ComputeWorkerDeploymentName w /\
  ComputeWorkerDeploymentName (sg_defaulted s) = ComputeWorkerDeploymentName w /\
  ComputeBuildID (sg_defaulted s) = ComputeBuildID w.
Proof.
  intros Hf Hd I0 Ha.
  destruct (acted_defaulted _ _ _ _ _ _ _ _ Hf Hd I0 Ha) as (Hspec & Hns & Hname).
  destruct (get_named _ _ _ _ Hf) as [Hns' Hname']. injection Hd as <-.
  assert (forall w1 w2 : TemporalWorkerDeployment, twd_Spec w1 = twd_Spec w2 ->
            ComputeBuildID w1 = ComputeBuildID w2) as Hb
    by (intros w1 w2 He; unfold ComputeBuildID; by rewrite He).
  assert (ComputeWorkerDeploymentName (sg_defaulted s)
          = om_Namespace (twd_ObjectMeta fetched) +:+ WorkerDeploymentNameSeparator
            +:+ om_Name (twd_ObjectMeta fetched)) as Hdn
    by (unfold ComputeWorkerDeploymentName; by rewrite Hns, Hname, Hns', Hname').
  destruct (generatePlan_parts _ _ _ _ _ _ _ (ac_plan _ _ _ _ _ _ _ Ha)) as (ks & h & Hpp).
  rewrite (pp_name _ _ _ _ _ _ _ _ _ Hpp). split_and!; [exact Hdn..|by apply Hb].
Qed.

Lemma acted_during req w c l l0 l' s :
  idle_extension l l0 -> acted maxVersions req w c l0 l' s ->
  during l l' l0 /\ during l l' (sg_log1 s) /\ during l l' (sg_log2 s) /\
  during l l' (sg_log3 s) /\
  during l l' (sg_log3 s ++ [EvUpdateStatus (twd_set_Status (sg_status s) w)]) /\
  during l l' (sg_log4 s).
Proof.
  intros I0 Ha. assert (sg_log4 s `prefix_of` l') as H4 by (eexists; apply (ac_log _ _ _ _ _ _ _ Ha)).
  assert (forall la, idle_extension l la -> idle_extension la (sg_log4 s) -> during l l' la) as Hd.
  { intros la H1 H2. apply idle_extension_prefix in H1, H2. split; [done|by etrans]. }
  pose proof (idle_extension_snoc (sg_log3 s)
                (EvUpdateStatus (twd_set_Status (sg_status s) w)) eq_refl) as Isn.
  destruct Ha. split_and!; apply Hd; by idle_chain.
Qed.

(** A run's event [ev] removed a Deployment it had listed, of a build that by the
    server's answer in this run is not alive. *)
Definition spares_live (l l' : Log) (req : Request) (w : TemporalWorkerDeployment) (ev : Event)
  : Prop :=
  exists lr resp d b,
    during l l' lr /\ w_Describe lr (ComputeWorkerDeploymentName w) = inl resp /\
    listed_in_run l l' (req_Namespace req) (req_Name req) d /\
    removes ev d /\ build_label d = Some b /\
    b <> ComputeBuildID w /\ ~ routed resp b /\ ~ draining resp b.

Section Run.
Context (req : Request) (w : TemporalWorkerDeployment) (c : TemporalConnectionSpec).
Context (l l0 l' : Log) (s : stages) (fetched : TemporalWorkerDeployment).
Hypothesis Hf : w_GetTWD l (req_Namespace req) (req_Name req) = inl fetched.
Hypothesis Hd : TWD_Default (ObjTWD fetched) = Ok w.
Hypothesis I0 : idle_extension l l0.
Hypothesis Ha : acted maxVersions req w c l0 l' s.

(** The stored status allows the removal only of a build it knows to be gone. *)
Lemma spares_live_intro ev d b :
  removes ev d -> build_label d = Some b -> b <> ComputeBuildID w ->
  listed_in_run l l' (req_Namespace req) (req_Name req) d ->
  (statusOf (stage_mapper w s) b = VersionStatusDrained \/
   statusOf (stage_mapper w s) b = VersionStatusInactive \/
   statusOf (stage_mapper w s) b = VersionStatusNotRegistered /\
   (0 < size (ts_Versions (sg_state s)))%nat) ->
  spares_live l l' req w ev.
Proof.
  intros Hrm Hb Ht Hl Hst. destruct (acted_during _ _ _ _ _ _ _ I0 Ha) as (_ & D1 & _).
  destruct (w_Describe (sg_log1 s) (ComputeWorkerDeploymentName w)) as [resp|e] eqn:Ed.
  - exists (sg_log1 s), resp, d, b.
    split_and!; try done; apply (acted_answer _ _ _ _ _ _ _ Ha Ed); unfold gone; naive_solver.
  - destruct (acted_unanswered _ _ _ _ _ _ _ Ha Ed) as [Hz Hnr].
    rewrite Hnr, Hz, map_size_empty in Hst.
    destruct Hst as [|[|[_ Hlt]]]; [done..|]. by apply Nat.nlt_0_r in Hlt.
Qed.

Lemma acted_deletion q d :
  q ∈ p_DeleteDeployments (sg_plan s) -> p_store (sg_plan s) !! q = Some d ->
  spares_live l l' req w (EvDelete d).
Proof.
  intros Hq Hpd. destruct (acted_spec _ _ _ _ _ _ Ha) as (Hwf & _ & Hspec & Hsto).
  destruct (acted_defaulted _ _ _ _ _ _ _ _ Hf Hd I0 Ha) as (_ & Hns & Hname).
  destruct (acted_during _ _ _ _ _ _ _ I0 Ha) as (_ & _ & _ & _ & Du & _).
  destruct (generatePlan_parts _ _ _ _ _ _ _ (ac_plan _ _ _ _ _ _ _ Ha)) as (ks & h & Hpp).
  destruct (pp_listed _ _ _ _ _ _ _ _ _ Hpp) as (items & Hperm & Hitems & _).
  rewrite Hns, Hname in Hitems.
  destruct (pp_deletes _ _ _ _ _ _ _ _ _ Hpp) as (ld & ld' & _ & Hdel).
  destruct (deleted_gone _ _ _ _ _ _ _ _ _ _ _ _ _ Hspec Hsto (pp_wf _ _ _ _ _ _ _ _ _ Hpp)
              Hdel Hq) as (d0 & b & Hhd & Hb & Ht & Hst).
  pose proof (pp_updates _ _ _ _ _ _ _ _ _ Hpp) as Hup.
  apply getUpdateDeployments_pass in Hup as (Hpass & _ & _).
  eapply pass_identity in Hpass as (d1 & Hd1 & [Hmeta _ _]); [|exact Hpd]. simplify_eq.
  apply (spares_live_intro _ d0 b); try done.
  - eapply listed_elem; [exact Du|exact Hitems|exact Hperm|done].
  - rewrite bool_decide_eq_true in Hst. naive_solver.
Qed.

Lemma acted_scale_down a ref n r :
  spec_Replicas (twd_Spec w) = Some r -> uint32 r <> 0 ->
  p_ScaleDeployments (sg_plan s) !! a = Some (ref, n) -> int32 n = 0 ->
  spares_live l l' req w
    (EvScale (ref_Namespace ref) (ref_Name ref) (ref_ResourceVersion ref) (ref_UID ref) (int32 n)).
Proof.
  intros Hr Hnz Hs Hn0. destruct (acted_spec _ _ _ _ _ _ Ha) as (Hwf & _ & Hspec & Hsto).
  destruct (acted_defaulted _ _ _ _ _ _ _ _ Hf Hd I0 Ha) as (Hsp & _ & _).
  destruct (acted_during _ _ _ _ _ _ _ I0 Ha) as (D0 & _).
  destruct (generatePlan_parts _ _ _ _ _ _ _ (ac_plan _ _ _ _ _ _ _ Ha)) as (ks & h & Hpp).
  destruct (pp_scales _ _ _ _ _ _ _ _ _ Hpp) as (ld & ld' & _ & Hsc). rewrite <- Hsp in Hr.
  pose proof (scales_zero _ _ _ _ _ _ _ _ _ _ _ Hsc Hs Hr Hnz Hn0) as ->.
  destruct (scaled_down_gone _ _ _ _ _ _ _ _ _ _ _ _ _ _ Hspec Hsto Hr Hnz Hsc Hs)
    as (v0 & v & Hv0 & [Hbase _ _] & Href & Ht & Hst).
  pose proof (vst_ref _ _ Hbase) as Hr0. rewrite Href in Hr0. symmetry in Hr0. simpl in Hr0.
  destruct (ss_deprecated _ _ _ _ Hspec v0 Hv0) as [Hdv _].
  destruct (described_ref _ _ _ _ _ Hwf Hdv Hr0) as (p & d & Hp & Hb & Hn1 & Hn2 & Hn3).
  rewrite (vst_build _ _ Hbase) in Ht, Hst.
  destruct (fetchDeploymentState_listed _ _ _ _ _ (ac_fetch _ _ _ _ _ _ _ Ha))
    as (items & Hit & Hperm).
  apply (spares_live_intro _ d (BuildID v0)); try done; [|naive_solver].
  by apply (listed_elem _ _ _ _ _ _ _ _ _ D0 Hit Hperm Hp).
Qed.
End Run.

(** C2: Reconciliation spares live versions: in every run of [Reconcile],
    whatever its outcome, a Deployment that is deleted or scaled to zero was
    listed in that run and carries a build ID that is not the target, to which -
    by the server's answer in that run - no new workflow is routed, neither as
    Current nor as Ramping version, and which is not draining.  (Unless the
    resource itself asks for zero replicas.) *)
Theorem Reconcile_spares_live_versions cp req l o evs ev fetched w :
  Reconcile maxVersions cp req l = (o, l ++ evs) -> ev ∈ evs -> is_removal ev = true ->
  w_GetTWD l (req_Namespace req) (req_Name req) = inl fetched ->
  TWD_Default (ObjTWD fetched) = Ok w ->
  (exists r, spec_Replicas (twd_Spec fetched) = Some r /\ uint32 r <> 0) ->
  spares_live l (l ++ evs) req w ev.
Proof.
  intros Hrun Hin Hrem Hf Hd (r & Hr & Hnz).
  destruct (Reconcile_runs _ _ _ _ _ _ Hrun) as [(evs' & He & Hidle)|(w0 & c & s & Hrec)].
  { apply app_inv_head in He as <-. unfold idle in Hidle. rewrite Forall_forall in Hidle.
    pose proof (Hidle _ Hin). by destruct ev. }
  destruct (reconciling_action _ _ _ _ _ _ _ _ _ Hrec eq_refl Hin) as [Hpl _];
    [by destruct ev|].
  destruct Hrec as [(fetched' & Hf' & Hd') _ (l0 & I0 & Ha)].
  rewrite Hf in Hf'. injection Hf' as <-. rewrite Hd in Hd'. injection Hd' as <-.
  destruct (removal_in_plan _ _ Hpl Hrem)
    as [(q & d & Hq & Hpd & ->)|(a & ref & n & Hs & Hn0 & ->)].
  - by eapply acted_deletion.
  - eapply acted_scale_down; try done. by injection Hd as <-.
Qed.

(** ** Changes of the routing *)

(** The server's answer [resp], given in the run, with its conflict token. *)
Definition routing_write (w : TemporalWorkerDeployment) (resp : DescribeResponse)
    (build : string) (ramp : option Z) : Event :=
  let name := ComputeWorkerDeploymentName w in
  match ramp with
  | None =>
      EvSetCurrentVersion name
        (mkSetCurrentVersionOptions build (dr_ConflictToken resp) getControllerIdentity)
  | Some pct =>
      EvSetRampingVersion name
        (mkSetRampingVersionOptions build (float32_of_Z pct) (dr_ConflictToken resp)
           getControllerIdentity)
  end.

(** In the run, every test workflow of the target's listed workflow task queues
    was described as completed, and there is such a queue. *)
Definition gate_completed (l l' : Log) (name deployment target : string) : Prop :=
  exists lq desc, during l l' lq /\ w_DescribeVersion lq name target = inl desc /\
    wf_queues (vd_TaskQueuesInfos desc) <> [] /\
    Forall (fun tq => exists lw info, during l l' lw /\
              w_DescribeWorkflowExecution lw (GetTestWorkflowID deployment target (tqi_Name tq))
              = inl info /\
              wei_Status info = WORKFLOW_EXECUTION_STATUS_COMPLETED)
      (wf_queues (vd_TaskQueuesInfos desc)).

(** The target may get traffic: the server lists it and it is not Current, a
    Deployment of it was listed as available, and its gate, if any, is passed. *)
Definition target_ready (l l' : Log) (req : Request) (w : TemporalWorkerDeployment)
    (resp : DescribeResponse) : Prop :=
  let name := ComputeWorkerDeploymentName w in
  let target := ComputeBuildID w in
  buildIdOf (rc_CurrentVersion (wdi_RoutingConfig (dr_Info resp))) <> target /\
  (exists d, listed_in_run l l' (req_Namespace req) (req_Name req) d /\
     build_label d = Some target /\ is_Some (available_since d)) /\
  exists v, v ∈ wdi_VersionSummaries (dr_Info resp) /\ wdv_BuildId (vs_Version v) = target /\
    (forall gate, rs_Gate (spec_RolloutStrategy (twd_Spec w)) = Some gate ->
       gate_completed l l' name (wdv_DeploymentName (vs_Version v)) target).

(** What a change of the routing may be. *)
Inductive routing_ok (l l' : Log) (req : Request) (w : TemporalWorkerDeployment)
    (resp : DescribeResponse) : Event -> Prop :=
  | routing_promote :
      target_ready l l' req w resp ->
      routing_ok l l' req w resp (routing_write w resp (ComputeBuildID w) None)
  | routing_ramp s :
      target_ready l l' req w resp ->
      rs_Strategy (spec_RolloutStrategy (twd_Spec w)) = UpdateProgressive ->
      s ∈ rs_Steps (spec_RolloutStrategy (twd_Spec w)) ->
      1 <= int32 (step_RampPercentage s) <= 100 ->
      routing_ok l l' req w resp
        (routing_write w resp (ComputeBuildID w) (Some (int32 (step_RampPercentage s))))
  | routing_reset :
      buildIdOf (rc_CurrentVersion (wdi_RoutingConfig (dr_Info resp))) = ComputeBuildID w ->
      buildIdOf (rc_RampingVersion (wdi_RoutingConfig (dr_Info resp))) <> EmptyString ->
      routing_ok l l' req w resp (routing_write w resp EmptyString (Some 0)).

Lemma routing_in_plan p ev :
  ev ∈ (plan_writes p).*1 -> is_routing ev = true ->
  exists v, p_UpdateVersionConfig p = Some v /\ ev = version_write p v.
Proof. intros []%plan_writes_inv Hr; try done. by eexists. Qed.

(** The target of the stored status, ready by the planner's guards. *)
Lemma stored_target req w c l0 l' s :
  acted maxVersions req w c l0 l' s ->
  let stored := twd_Status (sg_defaulted s) in
  BuildID (TargetVersion stored) = ComputeBuildID w /\
  (target_is_current stored = true <-> ts_CurrentBuildID (sg_observed s) = ComputeBuildID w) /\
  (is_Some (CurrentVersion stored) <-> ts_CurrentBuildID (sg_observed s) <> EmptyString) /\
  VersionConflictToken stored = ts_VersionConflictToken (sg_observed s) /\
  (forall strategy, gate_passed stored strategy = gate_passed (sg_status s) strategy).
Proof.
  intros Ha stored. destruct (acted_spec _ _ _ _ _ _ Ha) as (_ & Hsame & Hspec & Hsto).
  fold stored in Hsto.
  assert (BuildID (TargetVersion stored) = ComputeBuildID w) as Ht.
  { rewrite (vst_build _ _ (sts_target _ _ Hsto)). apply (ss_target_id _ _ _ _ Hspec). }
  pose proof (ss_current _ _ _ _ Hspec) as Hc. pose proof (sts_current _ _ Hsto) as Hsc.
  simpl in Hc. rewrite (sbt_current _ _ Hsame) in Hc.
  split; [done|]. split; [|split; [|split]].
  - unfold target_is_current. rewrite Ht.
    destruct (CurrentVersion (sg_status s)) as [cur|], (CurrentVersion stored) as [cur'|]; try done.
    + destruct Hc as [_ Hc]. rewrite bool_decide_eq_true, (vst_build _ _ Hsc).
      by rewrite (dv_id _ _ _ _ Hc).
    + rewrite Hc. split; [done|]. intros He. by destruct (ComputeBuildID_nonempty w).
  - destruct (CurrentVersion (sg_status s)) as [cur|], (CurrentVersion stored) as [cur'|]; try done.
    destruct Hc as [Hne _]. split; [done|eauto].
  - rewrite (sts_token _ _ Hsto), (ss_token _ _ _ _ Hspec). apply (sbt_token _ _ Hsame).
  - intros strategy. unfold gate_passed.
    by rewrite (vst_queues _ _ (sts_target _ _ Hsto)), (sts_tests _ _ Hsto).
Qed.

(** The facts of a run whose plan changes the routing. *)
Lemma acted_config req w c l l0 l' s fetched v :
  w_GetTWD l (req_Namespace req) (req_Name req) = inl fetched ->
  TWD_Default (ObjTWD fetched) = Ok w -> idle_extension l l0 ->
  acted maxVersions req w c l0 l' s -> p_UpdateVersionConfig (sg_plan s) = Some v ->
  let stored := twd_Status (sg_defaulted s) in
  let strategy := spec_RolloutStrategy (twd_Spec w) in
  rs_Strategy strategy <> UpdateManual /\
  is_Some (HealthySince (TargetVersion stored)) /\
  ver_Status (TargetVersion stored) <> VersionStatusNotRegistered /\
  gate_passed stored strategy = true /\
  exists ln ln', during (sg_log3 s ++ [EvUpdateStatus (twd_set_Status (sg_status s) w)])
                   (sg_log4 s) ln /\
    getVersionConfigDiff stored (Some (sg_state s)) (mkConfig strategy) ln = (Ok (Some v), ln').
Proof.
  intros Hf Hd I0 Ha Hv stored strategy.
  destruct (acted_defaulted _ _ _ _ _ _ _ _ Hf Hd I0 Ha) as (Hsp & _ & _).
  destruct (generatePlan_parts _ _ _ _ _ _ _ (ac_plan _ _ _ _ _ _ _ Ha)) as (ks & h & Hpp).
  destruct (pp_config _ _ _ _ _ _ _ _ _ Hpp) as (ln & ln' & Hln & Hcfg). rewrite Hv in Hcfg.
  destruct (getVersionConfigDiff_Some _ _ _ _ _ _ Hcfg) as (Hm & Hh & Hr & Hg).
  simpl in Hm, Hg. pose proof (effectiveStrategy_active _ _ Hm) as He.
  rewrite He, Hsp in Hcfg, Hm, Hg.
  split_and!; try done. by exists ln, ln'.
Qed.

Lemma acted_ready req w c l l0 l' s fetched v :
  w_GetTWD l (req_Namespace req) (req_Name req) = inl fetched ->
  TWD_Default (ObjTWD fetched) = Ok w -> idle_extension l l0 ->
  acted maxVersions req w c l0 l' s -> p_UpdateVersionConfig (sg_plan s) = Some v ->
  exists resp, w_Describe (sg_log1 s) (ComputeWorkerDeploymentName w) = inl resp /\
    (ts_CurrentBuildID (sg_observed s) <> ComputeBuildID w -> target_ready l l' req w resp).
Proof.
  intros Hf Hd I0 Ha Hv.
  destruct (acted_config _ _ _ _ _ _ _ _ _ Hf Hd I0 Ha Hv) as (_ & Hh & Hreg & Hgate & _).
  destruct (acted_spec _ _ _ _ _ _ Ha) as (Hwf & Hsame & Hspec & Hsto).
  destruct (acted_during _ _ _ _ _ _ _ I0 Ha) as (D0 & D1 & D2 & D3 & _ & _).
  destruct (stored_target _ _ _ _ _ _ Ha) as (_ & _ & _ & _ & Hgp). rewrite Hgp in Hgate.
  pose proof (ComputeBuildID_nonempty w) as Hne.
  destruct (ss_target _ _ _ _ Hspec Hne) as (Hdv & _ & _).
  rewrite (vst_status _ _ (sts_target _ _ Hsto)), (dv_status _ _ _ _ Hdv) in Hreg.
  pose proof (ac_observed _ _ _ _ _ _ _ Ha) as Ho.
  destruct (w_Describe (sg_log1 s) (ComputeWorkerDeploymentName w)) as [resp|e] eqn:Ed.
  2: { destruct (acted_unanswered _ _ _ _ _ _ _ Ha Ed) as [_ Hnr]. by rewrite Hnr in Hreg. }
  exists resp. split; [done|]. intros Hcur.
  destruct (GetWorkerDeploymentState_answered _ _ _ _ _ _ _ _ _ _ Ed Ho)
    as (ig & vs & Hts & [Hdesc _]).
  assert (exists vi, vs !! ComputeBuildID w = Some vi) as [vi Hvi].
  { unfold statusOf, versionOf in Hreg. simpl in Hreg.
    destruct (ts_Versions (sg_state s) !! ComputeBuildID w) as [vi'|] eqn:Evi; [|done].
    destruct (same_but_tests_lookup _ _ _ _ Hsame Evi) as (vi & Hvi & _).
    rewrite Hts in Hvi. by exists vi. }
  destruct (Hdesc _ _ Hvi) as (sm & Hsm & Hb & Hok). split_and!.
  - rewrite Hts in Hcur. exact Hcur.
  - destruct (sts_target _ _ Hsto) as [_ _ _ _ Hst]. rewrite (dv_healthy _ _ _ _ Hdv) in Hst.
    destruct Hh as [t Ht]. rewrite Ht in Hst. simpl in Hst.
    destruct (Deployments (sg_k8s s) !! ComputeBuildID w) as [p|] eqn:Ep; [|done]. simpl in Hst.
    destruct (wf_deployment _ _ Hwf _ _ Ep) as (d & Hp & Hlab). rewrite Hp in Hst. simpl in Hst.
    exists d. split_and!; [|done|by destruct (available_since d)].
    destruct (fetchDeploymentState_listed _ _ _ _ _ (ac_fetch _ _ _ _ _ _ _ Ha))
      as (items & Hit & Hperm). by apply (listed_elem _ _ _ _ _ _ _ _ _ D0 Hit Hperm Hp).
  - exists sm. split_and!; [done|done|]. intros gate Hg.
    destruct (gate_evidence (sg_store s) w (sg_observed s) (sg_k8s s) (sg_log2 s) (sg_state s)
                (sg_status s) (sg_log3 s) (spec_RolloutStrategy (twd_Spec w)) gate)
      as (_ & vi' & desc & Hvi' & Hdq & Hq & Hall); try done.
    + intros b vb Hb'. rewrite Hts in Hb'. destruct (Hdesc _ _ Hb') as (? & _ & _ & Hok').
      apply (vio_fresh _ _ _ _ _ _ _ _ Hok').
    + apply (state_wf_pointers _ (stage_mapper w s) Hwf).
    + apply (ac_status _ _ _ _ _ _ _ Ha).
    + rewrite Hts in Hvi'. simpl in Hvi'. simplify_eq.
      destruct (vio_id _ _ _ _ _ _ _ _ Hok) as [Hid Hdn]. rewrite Hid, Hb in Hdq.
      exists (sg_log2 s), desc. split_and!; [done|done|done|].
      eapply Forall_impl; [exact Hall|]. intros tq (lw & info & [Hlw1 Hlw2] & Hwi & Hc).
      exists lw, info. unfold test_id in Hwi. rewrite Hid, Hb, Hdn in Hwi. split_and!; try done.
      destruct D2 as [? _], D3 as [_ ?]. split; by etrans.
Qed.

(** C3: Reconciliation changes the routing only soundly: every write of a run,
    whatever its outcome, that changes the routing of the worker deployment
    carries the conflict token of an answer of this run and the controller's
    identity, and it promotes the target, ramps it to the percentage of one of
    the steps, which is between 1 and 100, or - when the server already calls the
    target Current and something ramps beside it - resets the ramp.  The target
    gets traffic only when the server listed it, it was not Current, a Deployment
    of it was listed as available, and, with a gate, all its test workflows were
    described as completed in this run. *)
Theorem Reconcile_routing_sound cp req l o evs ev fetched w :
  Reconcile maxVersions cp req l = (o, l ++ evs) -> ev ∈ evs -> is_routing ev = true ->
  w_GetTWD l (req_Namespace req) (req_Name req) = inl fetched ->
  TWD_Default (ObjTWD fetched) = Ok w ->
  Forall (fun s => step_RampPercentage s <= 100)
    (rs_Steps (spec_RolloutStrategy (twd_Spec fetched))) ->
  exists lr resp, during l (l ++ evs) lr /\
    w_Describe lr (ComputeWorkerDeploymentName w) = inl resp /\
    routing_ok l (l ++ evs) req w resp ev.
Proof.
  intros Hrun Hin Hr Hf Hd Hle.
  destruct (Reconcile_runs _ _ _ _ _ _ Hrun) as [(evs' & He & Hidle)|(w0 & c & s & Hrec)].
  { apply app_inv_head in He as <-. unfold idle in Hidle. rewrite Forall_forall in Hidle.
    pose proof (Hidle _ Hin). by destruct ev. }
  destruct (reconciling_action _ _ _ _ _ _ _ _ _ Hrec eq_refl Hin) as [Hpl _];
    [by destruct ev|].
  destruct Hrec as [(fetched' & Hf' & Hd') Hvalid (l0 & I0 & Ha)].
  rewrite Hf in Hf'. injection Hf' as <-. rewrite Hd in Hd'. injection Hd' as <-.
  destruct (routing_in_plan _ _ Hpl Hr) as (v & Hv & ->). unfold version_write.
  destruct (acted_ready _ _ _ _ _ _ _ _ _ Hf Hd I0 Ha Hv) as (resp & Hresp & Hready).
  destruct (acted_config _ _ _ _ _ _ _ _ _ Hf Hd I0 Ha Hv) as (_ & _ & _ & _ & ln & ln' & _ & Hcfg).
  destruct (acted_during _ _ _ _ _ _ _ I0 Ha) as (_ & D1 & _).
  destruct (acted_spec _ _ _ _ _ _ Ha) as (_ & Hsame & _ & _).
  destruct (stored_target _ _ _ _ _ _ Ha) as (Htb & Htc & _ & Htok & _).
  destruct (GetWorkerDeploymentState_answered _ _ _ _ _ _ _ _ _ _ Hresp
              (ac_observed _ _ _ _ _ _ _ Ha)) as (ig & vs & Hts & _).
  destruct (acted_names _ _ _ _ _ _ _ _ Hf Hd I0 Ha) as (-> & _).
  exists (sg_log1 s), resp. split_and!; [done|done|]. rewrite Hts in Htok, Htc, Hready. simpl in *.
  destruct (getVersionConfigDiff_cases _ _ _ _ _ _ Hcfg)
    as [(Hcur & Hramp & ->)|(Hcur & Hv' & _)].
  - simpl. rewrite Htok. apply (routing_reset l (l ++ evs) req w resp).
    + by apply Htc.
    + rewrite (sbt_ramping _ _ Hsame), Hts in Hramp. exact Hramp.
  - assert (target_ready l (l ++ evs) req w resp) as Ht.
    { apply Hready. intros He. apply Htc in He. congruence. }
    destruct Hv' as [->|(Hst & st & Hsts & ->)]; simpl; rewrite Htok, Htb.
    + by apply (routing_promote l (l ++ evs) req w resp).
    + simpl in Hst, Hsts. apply (routing_ramp l (l ++ evs) req w resp st); [done..|].
      destruct Hvalid as [_ [Hsteps _]]. specialize (Hsteps Hst).
      apply list_elem_of_lookup in Hsts as [i Hi].
      assert (rollout_steps (rs_Steps (spec_RolloutStrategy (twd_Spec w)))) as Hrs.
      { split; [done|]. injection Hd as <-. exact Hle. }
      pose proof (rollout_ramp _ _ _ Hrs Hi). by rewrite (ramp_int32 _ _ _ Hrs Hi).
Qed.
End EndToEnd.
