(* ===== verification/Panics.v ===== *)
(** * Panics

    The ways a reconciliation can panic, all of them: the calculus [blames] of
    what a panicking run has seen, the panics of each component, the theorem on
    [Reconcile], and that it keeps the pool well formed, which that theorem
    supposes. *)

From stdpp Require Import base gmap sets list strings.
From Stdlib Require Import ZArith Lia.
From S2P Require Import Prelude GoStd Api K8s K8sProps Trace World Temporal TemporalProps.
From S2P Require Import Planner SunsetProps UpdateProps Webhook StateMapper StateMapperProps.
From S2P Require Import GateProps Servers Safety.
From S2P Require Import ClientPool ClientPoolProps Controller ControllerProps RunProps EndToEnd.
Local Open Scope Z_scope.

(** ** Blame *)

(** When [m] panics from [l], the log it ends in satisfies [C]. *)
Definition blames {E A} (C : list E -> Prop) (m : traced E A) (l : list E) : Prop :=
  forall p l', m l = (Panic p, l') -> C l'.

Section Blames.
Context {E : Type} {C : list E -> Prop}.

Lemma blames_not_panic {A} (m : traced E A) l : ~ is_Panic (m l).1 -> blames C m l.
Proof. intros Hm p l' Hp. destruct Hm. exists p. by rewrite Hp. Qed.

Lemma blames_ret {A} (a : A) l : blames C (mret a) l.
Proof. by intros p l' [=]. Qed.
Lemma blames_throw {A} e l : blames C (io_throw (A := A) e) l.
Proof. by intros p l' [=]. Qed.
Lemma blames_call {A} ev (f : list E -> A + gerror) l : blames C (call ev f) l.
Proof. intros p l' Hp. unfold call, answer in Hp. by destruct (f l). Qed.
Lemma blames_lift {A} (m : outcome A) l : (is_Panic m -> C l) -> blames C (lift m) l.
Proof. intros Hm p l' [= -> <-]. apply Hm. by eexists. Qed.
Lemma blames_answer {A} (r : A + gerror) l : blames C (lift (answer r)) l.
Proof. apply blames_lift. intros [p Hp]. by destruct r. Qed.

Lemma blames_bind {A B} (m : traced E A) (f : A -> traced E B) l :
  blames C m l -> (forall a l1, m l = (Ok a, l1) -> blames C (f a) l1) ->
  blames C (x ← m; f x) l.
Proof.
  intros Hm Hf p l'. rewrite io_bind_run. destruct (m l) as [[a|e|q] l1] eqn:Em; [|done|].
  - by apply Hf.
  - intros [= -> <-]. by eapply Hm.
Qed.

Lemma blames_wrap {A} w (m : traced E A) l : blames C m l -> blames C (wrap_error w m) l.
Proof.
  intros Hm p l'. unfold wrap_error. destruct (m l) as [[a|e|q] l1] eqn:Em; [done..|].
  intros [= -> <-]. by eapply Hm.
Qed.

Lemma blames_try {A} (m : traced E A) l : blames C m l -> blames C (try m) l.
Proof.
  intros Hm p l'. unfold try. destruct (m l) as [[a|e|q] l1] eqn:Em; [done..|].
  intros [= -> <-]. by eapply Hm.
Qed.

Lemma blames_range {A S} (body : nat -> A -> S -> traced E S) xs s l :
  (forall i x t, extends (body i x t)) ->
  (forall i x t l1, x ∈ xs -> l `prefix_of` l1 -> blames C (body i x t) l1) ->
  blames C (io_range body xs s) l.
Proof.
  intros Hext Hb. unfold io_range. generalize 0%nat. revert s l Hb.
  induction xs as [|x xs IH]; intros s l Hb i; simpl; [apply blames_ret|].
  apply blames_bind; [by apply Hb; [left|]|]. intros t l1 H1%(extends_prefix _ _ _ _ (Hext i x s)).
  apply IH. intros j y u l2 Hy Hl2. apply Hb; [by right|by etrans].
Qed.
End Blames.

Lemma blames_weaken {E A} (C C' : list E -> Prop) (m : traced E A) l :
  (forall l', C l' -> C' l') -> blames C m l -> blames C' m l.
Proof. intros HC Hm p l' Hp. by eapply HC, Hm. Qed.

(** A program that never panics blames nothing; [blames] collects their lemmas. *)
Create HintDb blames.

Ltac blame_steps :=
  repeat (intros; lazymatch goal with
  | |- blames _ (mret _) _ => apply blames_ret
  | |- blames _ (io_throw _) _ => apply blames_throw
  | |- blames _ (lift (answer _)) _ => apply blames_answer
  | |- blames _ (mbind _ _) _ => apply blames_bind
  | |- blames _ (try _) _ => apply blames_try
  | |- blames _ (wrap_error _ _) _ => apply blames_wrap
  | |- blames _ (call _ _) _ => apply blames_call
  | |- blames _ (match ?x with _ => _ end) _ => destruct x
  | |- blames _ _ _ => solve [eauto with blames]
  end); intros.

#[export] Hint Extern 3 (blames _ _ _) => apply blames_call : blames.

(** ** Observing the Temporal server *)

Section Observation.
Context `{W : World} `{!WorldClock W}.

Lemma blames_Now C l : blames C time_Now l.
Proof. by intros p l' [=]. Qed.

(** A poll of a call that does not panic panics only for want of fuel. *)
Lemma backoff_loop_panics {A} fuel deadline tick (fn : io A) lastErr l p l' :
  (forall l1, ~ is_Panic (fn l1).1) ->
  backoff_loop fuel deadline tick fn lastErr l = (Panic p, l') -> p = OutOfFuel.
Proof.
  intros Hfn. revert lastErr l. induction fuel as [|fuel IH]; intros lastErr l; cbn [backoff_loop].
  - by intros [= <- _].
  - rewrite io_bind_run. cbn. destruct (time_Before _ _); [|by destruct lastErr].
    rewrite io_bind_run. unfold try. specialize (Hfn (l ++ [EvNow])).
    destruct (fn (l ++ [EvNow])) as [[a|e|q] lf]; [done| |by destruct Hfn; eexists].
    apply IH.
Qed.

Lemma blames_backoff {A} C (fn : io A) l :
  extends fn -> (forall l1, ~ is_Panic (fn l1).1) ->
  blames C (withBackoff backoff_fuel (10 * Second) (1 * Second) fn) l.
Proof.
  intros Hext Hfn p l' Hp.
  assert (p = OutOfFuel) as -> by (rewrite withBackoff_unfold in Hp; by eapply backoff_loop_panics).
  exfalso. apply (withBackoff_ends fn Hext l); [|by rewrite Hp].
  intros l1 H1. apply (Hfn l1). rewrite H1. by eexists.
Qed.

(** The clock jumped: ten seconds passed between two readings of it in a row. *)
Definition clock_jumped (la lb : Log) : Prop :=
  exists l, during la lb l /\ w_Now l + 10 * Second <= w_Now (l ++ [EvNow]).

(** A poll that made no call. *)
Lemma backoff_loop_None {A} fuel deadline tick (fn : io A) lastErr l l' :
  backoff_loop fuel deadline tick fn lastErr l = (Ok None, l') ->
  lastErr = None /\ deadline <= w_Now l.
Proof.
  revert lastErr l. induction fuel as [|fuel IH]; intros lastErr l; cbn [backoff_loop]; [done|].
  rewrite io_bind_run. cbn. unfold time_Before.
  destruct (Z.ltb_spec (w_Now l) deadline); [|by destruct lastErr].
  rewrite io_bind_run. unfold try. destruct (fn (l ++ [EvNow])) as [[a|e|q] lf]; [done| |done].
  by intros [[=] _]%IH.
Qed.

Lemma DescribeVersion_not_panic n b l : ~ is_Panic (DescribeVersion n b l).1.
Proof. intros [p Hp]. unfold DescribeVersion, call, answer in Hp. by destruct (w_DescribeVersion l n b). Qed.

Lemma untilDrainTime_not_panic n b l : ~ is_Panic (describeVersionUntilDrainTime n b l).1.
Proof.
  intros [p Hp]. unfold describeVersionUntilDrainTime in Hp. rewrite io_bind_run in Hp.
  pose proof (DescribeVersion_not_panic n b l) as Hn.
  destruct (DescribeVersion n b l) as [[d|e|q] l1]; [|done|by destruct Hn; eexists].
  destruct (vd_DrainageInfo d); [|done]. by case_decide.
Qed.

Lemma countIf_panics C check tqs l :
  (forall tq, never_panics (check tq)) -> blames C (io_range (countIf check) tqs 0%nat) l.
Proof.
  intros Hc. apply blames_not_panic. destruct (countIf_range check tqs 0%nat 0%nat l Hc)
    as (k & l' & Hr & _). unfold io_range. rewrite Hr. by intros [? [=]].
Qed.

Lemma blames_noTaskQueues C tqs l : blames C (noTaskQueuesHaveVersionedPollers tqs) l.
Proof.
  apply blames_bind; [apply countIf_panics; intros; apply check_never_panics|].
  intros. apply blames_ret.
Qed.

Lemma blames_allTaskQueues C tqs l : blames C (allTaskQueuesHaveUnversionedPoller tqs) l.
Proof.
  apply blames_bind; [apply countIf_panics; intros; apply check_never_panics|].
  intros. apply blames_ret.
Qed.

Lemma drainedVersion_panics name ks (h : Store) v l :
  (forall b p, ks !! b = Some p -> is_Some (h !! p)) ->
  blames (clock_jumped l) (drainedVersion name ks h v) l.
Proof.
  intros Hptr. unfold drainedVersion. apply blames_bind.
  { apply blames_try, blames_backoff; [eapply emits_extends, untilDrainTime_reads|].
    intros. apply untilDrainTime_not_panic. }
  intros r l1 Hr. destruct r as [odesc|e]; [|destruct (is_kind KNotFound e); apply blames_ret].
  unfold try in Hr. destruct (withBackoff _ _ _ _ l) as [[o|e|q] lb] eqn:Ew; [|done..].
  injection Hr as -> ->. rewrite withBackoff_unfold in Ew.
  assert (l ++ [EvNow] `prefix_of` l1) as Hl1.
  { eapply extends_prefix; [|exact Ew]. apply (backoff_loop_emits (fun _ => True));
      [done..|]. eapply emits_extends, untilDrainTime_reads. }
  apply blames_bind.
  { apply blames_lift. intros [p Hp]. destruct odesc as [desc|].
    - apply backoff_loop_Some in Ew as (l2 & _ & Hf); [|eapply emits_extends, untilDrainTime_reads].
      apply untilDrainTime_Ok in Hf as (di & _ & Hdi & _). simpl in Hp. by rewrite Hdi in Hp.
    - apply backoff_loop_None in Ew as [_ Hn]. exists l. split; [|exact Hn].
      split; [done|]. etrans; [|exact Hl1]. by exists [EvNow]. }
  intros di l2 _. apply blames_bind.
  { destruct (ks !! wdv_BuildId v) as [p|] eqn:Ep; [|apply blames_ret].
    destruct (Hptr _ _ Ep) as [d Hd]. unfold load. rewrite Hd. apply blames_ret. }
  intros n l3 _. apply blames_bind; [|intros; apply blames_ret].
  destruct (n =? 0); [apply blames_noTaskQueues|apply blames_ret].
Qed.

Lemma inactiveVersion_panics C name target strategy rc v l :
  blames C (inactiveVersion name target strategy rc v) l.
Proof.
  unfold inactiveVersion. destruct (_ && _); [|apply blames_ret]. apply blames_bind.
  - apply blames_try, blames_backoff; [by apply emits_DescribeVersion|].
    intros. apply DescribeVersion_not_panic.
  - intros [odesc|e] l1 _; [|apply blames_ret].
    apply blames_bind; [apply blames_allTaskQueues|intros; apply blames_ret].
Qed.

Lemma processVersion_panics name target strategy rc ks h i s vs l :
  (forall b p, ks !! b = Some p -> is_Some (h !! p)) ->
  blames (clock_jumped l) (processVersion name target strategy rc ks h i s vs) l.
Proof.
  intros Hptr. unfold processVersion. apply blames_bind; [|intros; apply blames_ret].
  destruct (same_version _ _); [apply blames_ret|]. destruct (same_version _ _); [apply blames_ret|].
  destruct (vs_DrainageStatus s); [apply inactiveVersion_panics|apply blames_ret|].
  by apply drainedVersion_panics.
Qed.

(** The server reported a Ramping but no Current version, last modified by
    somebody else. *)
Definition ramping_alone (identity : string) (la lb : Log) (name : string) : Prop :=
  exists l resp, during la lb l /\ w_Describe l name = inl resp /\
    rc_CurrentVersion (wdi_RoutingConfig (dr_Info resp)) = None /\
    is_Some (rc_RampingVersion (wdi_RoutingConfig (dr_Info resp))) /\
    wdi_LastModifierIdentity (dr_Info resp) <> identity /\
    wdi_LastModifierIdentity (dr_Info resp) <> EmptyString.

Lemma blames_getShouldIgnore C n b l : blames C (getShouldIgnoreLastModifier n b) l.
Proof. unfold getShouldIgnoreLastModifier. blame_steps. Qed.

Lemma ShouldIgnore_panics name rc l :
  blames (fun l' => l `prefix_of` l' /\ rc_CurrentVersion rc = None /\
                    is_Some (rc_RampingVersion rc))
    (DeploymentShouldIgnoreLastModifier name rc) l.
Proof.
  unfold DeploymentShouldIgnoreLastModifier.
  destruct (rc_CurrentVersion rc) as [cur|] eqn:Ec; [|].
  - apply blames_bind; [apply blames_getShouldIgnore|]. intros b l1 _.
    destruct b, (rc_RampingVersion rc); try apply blames_ret.
    apply blames_bind; [by intros p l' [=]|]. intros. apply blames_getShouldIgnore.
  - destruct (rc_RampingVersion rc) as [r|] eqn:Er; io_run.
    + intros p l' [= _ <-]. by split_and!; [|done|eexists].
    + by intros p l' [=].
Qed.

Lemma clock_jumped_mono la lb la' lb' :
  la' `prefix_of` la -> lb `prefix_of` lb' -> clock_jumped la lb -> clock_jumped la' lb'.
Proof. intros Ha Hb (l & Hl & Hj). exists l. split; [by eapply during_mono|done]. Qed.

Lemma GetWorkerDeploymentState_panics_only name ks h target strategy identity l :
  (forall b p, ks !! b = Some p -> is_Some (h !! p)) ->
  blames (fun l' => clock_jumped l l' \/ ramping_alone identity l l' name)
    (GetWorkerDeploymentState name ks h target strategy identity) l.
Proof.
  intros Hptr. unfold GetWorkerDeploymentState.
  apply blames_bind; [apply blames_try, blames_call|]. intros r l1 Hr.
  unfold try, Describe, call, answer in Hr.
  destruct (w_Describe l name) as [resp|e] eqn:Ed; injection Hr as <- <-;
    [|destruct (is_kind KNotFound e); [apply blames_ret|apply blames_throw]].
  assert (forall l2, l ++ [EvDescribe name] `prefix_of` l2 -> l `prefix_of` l2) as Hl
    by (intros l2 H2; etrans; [|exact H2]; by exists [EvDescribe name]).
  apply blames_bind.
  - destruct (negb (bool_decide (wdi_LastModifierIdentity (dr_Info resp) = identity))
              && negb (bool_decide (wdi_LastModifierIdentity (dr_Info resp) = EmptyString))) eqn:Em;
      [|apply blames_ret].
    eapply blames_weaken; [|apply ShouldIgnore_panics]. intros l2 (H2 & Hc & Hramp). right.
    apply andb_true_iff in Em as [H3%negb_true_iff H4%negb_true_iff].
    apply bool_decide_eq_false in H3, H4.
    exists l, resp. split_and!; [split; [done|by apply Hl]|done..].
  - intros ig l2 H2. apply blames_bind; [|intros; apply blames_ret].
    apply blames_range; [intros; eapply emits_extends, processVersion_reads|].
    intros i x t l3 _ H3. eapply blames_weaken; [|by apply processVersion_panics].
    intros l4 Hj. left. eapply clock_jumped_mono; [| |exact Hj]; [|done].
    etrans; [|exact H3]. apply Hl. eapply extends_prefix; [|exact H2].
    destruct (_ && _); [eapply emits_extends, DeploymentShouldIgnore_reads|apply emits_ret].
Qed.
End Observation.

(** ** Planning *)

Lemma currentStepFrom_lt i steps pct r n :
  (r < n)%nat -> (i + length steps <= n)%nat -> (currentStepFrom i steps pct r < n)%nat.
Proof.
  revert i r. induction steps as [|s steps IH]; intros i r Hr Hn; simpl in *; [done|].
  destruct (float32_gtb _ _); [done|]. apply IH; lia.
Qed.

(** Whatever the steps and the percentage. *)
Lemma handleProgressiveRollout_not_panic steps now modified target vcfg :
  ~ is_Panic (handleProgressiveRollout steps now modified target vcfg).
Proof.
  unfold handleProgressiveRollout. destruct (length steps =? 0)%nat eqn:E0; [apply not_Panic_Ok|].
  apply Nat.eqb_neq in E0.
  assert (getCurrentStepIndex steps target < length steps)%nat as Hi.
  { unfold getCurrentStepIndex. destruct target; [|lia]. apply currentStepFrom_lt; simpl; lia. }
  destruct (lookup_lt_is_Some_2 _ _ Hi) as [s Hs]. cbv zeta.
  assert (forall n s', steps !! n = Some s' -> index steps n = Ok s') as Hix
    by (intros n s' Hn; unfold index; by rewrite Hn).
  rewrite (Hix _ _ Hs). simpl.
  destruct target as [pct|]; [|apply not_Panic_Ok].
  destruct (negb _); [apply not_Panic_Ok|]. destruct modified as [m|]; [|apply not_Panic_Ok].
  destruct (time_Before _ _); [|apply not_Panic_Ok].
  destruct (Nat.ltb_spec (getCurrentStepIndex steps (Some pct)) (length steps - 1));
    [|apply not_Panic_Ok].
  destruct (lookup_lt_is_Some_2 steps (S (getCurrentStepIndex steps (Some pct)))) as [s' Hs'];
    [lia|].
  rewrite (Hix _ _ Hs'). apply not_Panic_Ok.
Qed.

(** A Deployment the planner can work with. *)
Definition workable (d : Deployment) : Prop :=
  is_Some (ds_Replicas (d_Spec d)) /\ is_Some (pts_Annotations (d_Template d)) /\
  is_Some (ds_Selector (d_Spec d)).

#[local] Instance workable_dec d : Decision (workable d).
Proof. unfold workable. solve_decision. Defined.

Section Updates.
Context `{K8sLib} (ks : DeploymentState).

(** What the update checks dereference. *)
Definition updatable (h : Store) : Prop :=
  forall b p, Deployments ks !! b = Some p ->
    exists d, h !! p = Some d /\ is_Some (pts_Annotations (d_Template d)) /\
              is_Some (ds_Selector (d_Spec d)).

Lemma updatable_insert h p d :
  updatable h -> is_Some (pts_Annotations (d_Template d)) -> is_Some (ds_Selector (d_Spec d)) ->
  updatable (<[p := d]> h).
Proof.
  intros Hu Ha Hs b q Hb. destruct (Hu b q Hb) as (d0 & Hq & Hd0).
  destruct (decide (p = q)) as [->|Hne].
  - exists d. split; [|done]. apply list_lookup_insert_eq. by eapply lookup_lt_Some.
  - exists d0. by rewrite list_lookup_insert_ne.
Qed.

Lemma connection_check_total b c h :
  updatable h -> exists r h', checkAndUpdateDeploymentConnectionSpec b ks c h = Ok (r, h') /\
                              updatable h'.
Proof.
  intros Hu. unfold checkAndUpdateDeploymentConnectionSpec.
  destruct (Deployments ks !! b) as [p|] eqn:Ep; [|eauto].
  destruct (Hu b p Ep) as (d & Hd & [a Ha] & Hs). unfold load. rewrite Hd. simpl.
  case_decide; [eauto|]. unfold updateDeploymentWithConnection. rewrite Ha. simpl.
  eexists _, _. split; [reflexivity|]. by apply updatable_insert.
Qed.

Lemma template_check_total b spec c h :
  updatable h -> exists r h', checkAndUpdateDeploymentPodTemplateSpec b ks spec c h = Ok (r, h') /\
                              updatable h'.
Proof.
  intros Hu. unfold checkAndUpdateDeploymentPodTemplateSpec.
  destruct (Deployments ks !! b) as [p|] eqn:Ep; [|eauto].
  destruct (Hu b p Ep) as (d & Hd & [a Ha] & [sel Hs]). unfold load. rewrite Hd. simpl.
  repeat (case_decide; [eauto|]). unfold updateDeploymentWithPodTemplateSpec. rewrite Hs. simpl.
  eexists _, _. split; [reflexivity|]. by apply updatable_insert.
Qed.

Lemma runCheck_total (check : Store -> outcome (option ptr * Store)) b st :
  (forall h, updatable h -> exists r h', check h = Ok (r, h') /\ updatable h') ->
  updatable (us_store st) ->
  exists st', runCheck check b st = Ok st' /\ updatable (us_store st').
Proof.
  intros Hc Hu. destruct (Hc _ Hu) as (r & h' & Hr & Hu'). unfold runCheck. rewrite Hr. simpl.
  eexists. split; [reflexivity|]. by destruct r.
Qed.

Lemma connectionCheck_total c b st :
  updatable (us_store st) ->
  exists st', connectionCheck ks c b st = Ok st' /\ updatable (us_store st').
Proof.
  intros Hu. unfold connectionCheck. case_decide; [eauto|].
  apply runCheck_total; [|done]. intros. by apply connection_check_total.
Qed.

(** The updates return when every tracked Deployment has annotations and a
    selector. *)
Lemma getUpdateDeployments_total status spec c h :
  updatable h -> exists r, getUpdateDeployments ks status spec c h = Ok r.
Proof.
  intros Hu. unfold getUpdateDeployments. set (target := BuildID (TargetVersion status)).
  assert (forall m : outcome UpdateState,
    (exists st, m = Ok st /\ updatable (us_store st)) ->
    forall A (f : UpdateState -> outcome A),
    (forall st, updatable (us_store st) -> exists r, f st = Ok r) ->
    exists r, (x ← m; f x) = Ok r) as Hbind by (intros m (st & -> & Hst) A f Hf; by apply Hf).
  apply Hbind.
  { case_decide; [eexists; by split|]. apply runCheck_total; [|done].
    intros. by apply template_check_total. }
  intros st1 H1. apply Hbind; [case_decide; [eauto|by apply connectionCheck_total]|].
  intros st2 H2. apply Hbind.
  { destruct (CurrentVersion status); [case_decide|]; eauto using connectionCheck_total. }
  intros st3 H3. apply Hbind; [|eauto].
  apply (range_total _ (fun st => updatable (us_store st))); [|done].
  intros. by apply connectionCheck_total.
Qed.
End Updates.

Section Planning.
Context `{W : World} `{L : K8sLib}.

(** An inactive target is known to the server. *)
Lemma getVersionConfigDiff_panics C status ts config l :
  (ver_Status (TargetVersion status) = VersionStatusInactive ->
   is_Some (ts_Versions ts !! BuildID (TargetVersion status))) ->
  blames C (getVersionConfigDiff status (Some ts) config) l.
Proof.
  intros Hin. unfold getVersionConfigDiff.
  case_decide; [apply blames_ret|]. destruct (_ || _); [apply blames_ret|].
  destruct (negb _); [apply blames_ret|]. apply blames_bind.
  - destruct (is_nil (CurrentVersion status)); [|apply blames_ret]. simpl.
    case_bool_decide as Hs; [|apply blames_ret].
    destruct (Hin Hs) as [vi Hvi]. unfold targetHasUnversionedPollers. simpl. rewrite Hvi.
    apply blames_bind; [by intros p l' [=]|intros; apply blames_ret].
  - intros promote l1 _. destruct promote; [apply blames_ret|].
    destruct (target_is_current status); [apply blames_bind; [by intros p l' [=]|intros; apply blames_ret]|].
    destruct (rs_Strategy _); try apply blames_ret.
    apply blames_bind; [apply blames_Now|]. intros now l2 _. apply blames_lift.
    intros Hp. by apply handleProgressiveRollout_not_panic in Hp.
Qed.

Lemma GeneratePlan_not_panic C ks h status spec ts c config name max input secret l :
  sunset_ready ks h status spec -> updatable ks h ->
  (ver_Status (TargetVersion status) = VersionStatusInactive ->
   is_Some (ts_Versions ts !! BuildID (TargetVersion status))) ->
  blames C (GeneratePlan ks h status spec (Some ts) c config name max input secret) l.
Proof.
  intros Hsun Hup Hin. unfold GeneratePlan.
  apply blames_bind.
  { apply blames_not_panic.
    destruct (sunset_total ks h status spec (bool_decide (0 < size (ts_Versions ts))%nat) l Hsun)
      as [(r & l' & ->) _]. apply not_Panic_Ok. }
  intros dels l1 _. apply blames_bind.
  { apply blames_not_panic. destruct (sunset_total ks h status spec true l1 Hsun)
      as [_ (r & l' & ->)]. apply not_Panic_Ok. }
  intros scales l2 _. apply blames_bind.
  { apply blames_lift. unfold shouldCreateDeployment.
    destruct (negb _); [by intros ?%not_Panic_Ok|].
    destruct (range_total countIneligible (fun _ => True) (DeprecatedVersions status) 0)
      as (n & -> & _); [by eauto|done|by intros ?%not_Panic_Ok]. }
  intros create l3 _. apply blames_bind.
  { apply blames_lift. destruct (getUpdateDeployments_total ks status spec c h Hup) as [r ->].
    by intros ?%not_Panic_Ok. }
  intros ups l4 _. apply blames_bind; [by apply getVersionConfigDiff_panics|].
  intros. apply blames_ret.
Qed.

(** A drained version's drain time is known, or not. *)
Lemma drained_known_dec (v : DeprecatedWorkerDeploymentVersion) :
  {ver_Status v = VersionStatusDrained -> is_Some (DrainedSince v)} +
  {ver_Status v = VersionStatusDrained /\ DrainedSince v = None}.
Proof.
  destruct (decide (ver_Status v = VersionStatusDrained)); [|by left].
  destruct (DrainedSince v); [left; by eexists|by right].
Qed.

(** What a plan that panics was given. *)
Definition plan_faulty (h : Store) (status : TemporalWorkerDeploymentStatus)
    (spec : TemporalWorkerDeploymentSpec) : Prop :=
  spec_Replicas spec = None \/ (exists d, d ∈ h /\ ~ workable d) \/
  exists v : DeprecatedWorkerDeploymentVersion,
    v ∈ DeprecatedVersions status /\ ver_Status v = VersionStatusDrained /\ DrainedSince v = None.

Lemma GeneratePlan_panics ks h status spec ts c config name max input secret l :
  state_wf ks h -> is_Some (DeleteDelay (spec_SunsetStrategy spec)) ->
  is_Some (ScaledownDelay (spec_SunsetStrategy spec)) ->
  (ver_Status (TargetVersion status) = VersionStatusInactive ->
   is_Some (ts_Versions ts !! BuildID (TargetVersion status))) ->
  blames (fun l' => l `prefix_of` l' /\ plan_faulty h status spec)
    (GeneratePlan ks h status spec (Some ts) c config name max input secret) l.
Proof.
  intros Hwf Hdd Hsd Hin. set (m := GeneratePlan _ _ _ _ _ _ _ _ _ _ _).
  assert (plan_faulty h status spec ->
          blames (fun l' => l `prefix_of` l' /\ plan_faulty h status spec) m l) as Hany.
  { intros Hf p l' Hp. split; [|done]. eapply extends_prefix; [|exact Hp].
    eapply emits_extends, GeneratePlan_reads. }
  destruct (spec_Replicas spec) as [n|] eqn:En; [|by apply Hany; left].
  destruct (Forall_Exists_dec workable (fun d => ~ workable d) (fun d => decide (workable d)) h)
    as [Hwork|Hex]; [|apply Hany; right; left; by apply Exists_exists in Hex].
  destruct (Forall_Exists_dec _ _ drained_known_dec (DeprecatedVersions status)) as [Hknown|Hex];
    [|apply Hany; right; right; by apply Exists_exists in Hex].
  pose proof (proj1 (Forall_forall _ _) Hwork) as Hwork'.
  pose proof (proj1 (Forall_forall _ _) Hknown) as Hknown'.
  assert (forall b p, Deployments ks !! b = Some p -> exists d, h !! p = Some d /\ workable d) as Hptr.
  { intros b p Hb. destruct (wf_deployment _ _ Hwf b p Hb) as (d & Hd & _). exists d.
    split; [done|]. apply Hwork'. by eapply list_elem_of_lookup_2. }
  apply GeneratePlan_not_panic; [split| |done].
  - by rewrite En.
  - done.
  - done.
  - intros b p Hb. destruct (Hptr b p Hb) as (d & Hd & Hr & _). by exists d.
  - intros v Hv. by apply Hknown'.
  - intros b p Hb. destruct (Hptr b p Hb) as (d & Hd & _ & Ha & Hs). by exists d.
Qed.
End Planning.

(** ** Clients *)

Section Clients.
Context `{W : World} `{CL : CertLib}.

(** A client that was just dialled failed its health check. *)
Definition unhealthy (la lb : Log) : Prop :=
  exists l c e, during la lb l /\ w_CheckHealth l c = inr e.

Lemma GetSDKClient_not_panic C cp key l : pool_wf cp -> blames C (GetSDKClient cp key) l.
Proof.
  intros Hwf. unfold GetSDKClient. destruct (cp !! key) as [info|] eqn:Ek; [|apply blames_ret].
  case_decide as Ht; [|apply blames_ret].
  destruct (Hwf key info Ek) as [_ Hm]. destruct (Hm Ht) as (m & _ & _ & Hmt & _).
  rewrite Hmt. apply blames_bind; [by intros p l' [=]|]. intros m' l1 _.
  apply blames_bind; [|intros; apply blames_ret].
  apply blames_bind; [apply blames_Now|intros; apply blames_ret].
Qed.

Lemma expiration_not_panic cert d : ~ is_Panic (calculateCertificateExpirationTime cert d).
Proof.
  unfold calculateCertificateExpirationTime. case_decide; [by intros [? [=]]|].
  destruct (pem_Decode cert); [|by intros [? [=]]].
  destruct (x509_ParseCertificate _); by intros [? [=]].
Qed.

Lemma fetchMTLS_panics cp secret opts l :
  is_Some (MutualTLSSecretRef (nco_Spec opts)) ->
  blames (unhealthy l) (fetchClientUsingMTLSSecret cp secret opts) l.
Proof.
  intros [r Hr]. unfold fetchClientUsingMTLSSecret.
  apply blames_bind; [apply blames_wrap, blames_lift; by intros ?%expiration_not_panic|].
  intros exp l1 [He ->]%wrap_error_Ok%lift_Ok. apply blames_bind.
  { apply blames_bind; [apply blames_Now|intros; apply blames_ret]. }
  intros expired l2 H2. destruct expired; [apply blames_throw|].
  apply blames_bind; [apply blames_answer|]. intros u l3 [_ ->]%lift_Ok.
  apply blames_bind; [apply blames_call|]. intros c l4 H4. apply blames_bind.
  { apply blames_try, blames_call. }
  intros health l5 H5. unfold try, CheckHealth, call, answer in H5.
  destruct (w_CheckHealth l4 c) as [u'|e] eqn:Eh; injection H5 as <- <-.
  - rewrite Hr. apply blames_bind; [by intros p l' [=]|intros; apply blames_ret].
  - intros p l' [= _ <-]. exists l4, c, e. split; [|done].
    injection H2 as _ <-. unfold Dial, call in H4. injection H4 as _ <-.
    split; [|by eexists]. rewrite <- app_assoc. by eexists.
Qed.

Lemma unhealthy_mono la lb la' lb' :
  la' `prefix_of` la -> lb `prefix_of` lb' -> unhealthy la lb -> unhealthy la' lb'.
Proof.
  intros Ha Hb (l & c & e & Hl & He). exists l, c, e. split; [by eapply during_mono|done].
Qed.

Lemma UpsertClient_panics cp secretName authMode opts l :
  names_agree (nco_Spec opts) secretName authMode ->
  blames (unhealthy l) (UpsertClient cp secretName authMode opts) l.
Proof.
  intros Hnames. unfold UpsertClient. apply blames_bind.
  { case_decide; [apply blames_ret|apply blames_call]. }
  intros secret l1 H1. assert (l `prefix_of` l1) as Hl.
  { case_decide; [by injection H1 as _ <-|]. unfold GetSecret, call in H1.
    injection H1 as _ <-. by eexists. }
  destruct Hnames as [[-> (r & Hr & _)]|[[-> (r & Hr & _)]|[-> _]]]; simpl.
  - destruct (decide (sec_Type secret = SecretTypeTLS)); [|apply blames_throw].
    eapply blames_weaken; [|apply fetchMTLS_panics; by eexists].
    intros l'. by apply unhealthy_mono.
  - destruct (decide (sec_Type secret = SecretTypeOpaque)); [|apply blames_throw].
    unfold fetchClientUsingAPIKeySecret. rewrite Hr.
    apply blames_bind; [apply blames_call|]. intros c l2 _.
    apply blames_bind; [by intros p l' [=]|intros; apply blames_ret].
  - apply blames_bind; [apply blames_call|intros; apply blames_ret].
Qed.

Lemma getClient_panics cp w c l :
  pool_wf cp -> blames (unhealthy l) (getClient cp w c) l.
Proof.
  intros Hwf. unfold getClient.
  destruct (resolveAuthSecretName_agrees c) as (mode & name & -> & Hagree).
  apply blames_bind; [by intros p l' [=]|]. intros auth l1 [[= <-] ->]%lift_Ok.
  apply blames_bind; [by apply GetSDKClient_not_panic|]. intros found l2 H2.
  destruct found; [apply blames_ret|].
  eapply blames_weaken; [|by apply UpsertClient_panics]. intros l'. apply unhealthy_mono; [|done].
  eapply extends_prefix; [|exact H2]. eapply emits_extends, GetSDKClient_reads.
Qed.
End Clients.

(** ** Reconciliations *)

Section Reconciler.
Context `{Ev : Env} `{W : World} `{L : K8sLib} `{KO : KeyOrder} `{SO : ScaleOrder} `{C : CertLib}.
Context `{!K8sLibLaws L} `{!KeyOrderLaws KO} `{!ScaleOrderLaws SO} `{!WorldClock W}.
Context `{!StatusServer W} `{!NamedObjects W}.
Context (maxVersions : Z).

(** [ctrl.SetControllerReference] reports its failures as errors. *)
Hypothesis owner_not_panic : forall w d, ~ is_Panic (ctrl_SetControllerReference w d).

Section Run.
Context (req : Request) (l : Log).

(** What a run of [Reconcile] from [l] saw when it panics in [l']. *)
Inductive panic_cause (l' : Log) : Prop :=
  | pc_client : unhealthy l l' -> panic_cause l'
  | pc_routing fetched :
      w_GetTWD l (req_Namespace req) (req_Name req) = inl fetched ->
      ramping_alone getControllerIdentity l l' (ComputeWorkerDeploymentName fetched) ->
      panic_cause l'
  | pc_clock : clock_jumped l l' -> panic_cause l'
  | pc_drained fetched b :
      w_GetTWD l (req_Namespace req) (req_Name req) = inl fetched ->
      drain_unconfirmed l l' (ComputeWorkerDeploymentName fetched) b -> panic_cause l'
  | pc_replicas fetched :
      w_GetTWD l (req_Namespace req) (req_Name req) = inl fetched ->
      spec_Replicas (twd_Spec fetched) = None -> panic_cause l'
  | pc_deployment d :
      listed_in_run l l' (req_Namespace req) (req_Name req) d -> ~ workable d -> panic_cause l'.

Lemma drain_unconfirmed_mono la lb la' lb' n b :
  la' `prefix_of` la -> lb `prefix_of` lb' ->
  drain_unconfirmed la lb n b -> drain_unconfirmed la' lb' n b.
Proof. intros Ha Hb (l1 & Hl & Hj). exists l1. split; [by eapply during_mono|done]. Qed.

Lemma fetch_not_panic Q ns n l1 : blames Q (fetchDeploymentState ns n) l1.
Proof.
  apply blames_bind; [apply blames_try, blames_call|]. intros r l2 _. apply blames_lift.
  destruct r as [items|e]; [|by intros [? [=]]].
  destruct (GetDeploymentState_tracked items) as (ks & h & Hg & _).
  cbn [answer]. rewrite Hg. by intros ?%not_Panic_Ok.
Qed.

Lemma fetchGateInput_not_panic Q ns gate l1 : blames Q (fetchGateInput ns gate) l1.
Proof.
  unfold fetchGateInput. blame_steps. apply blames_lift. intros [p Hp].
  unfold ResolveGateInput, validateGateInputConfig in Hp. by repeat case_match.
Qed.

Lemma testWorkflows_not_panic Q vi tqs names results l1 :
  blames Q (testWorkflows_loop vi tqs names results) l1.
Proof.
  revert names results l1. induction tqs as [|tq tqs IH]; intros names results l1; simpl;
    [apply blames_ret|].
  case_decide; [|apply IH]. apply blames_bind; [unfold testWorkflowOf; blame_steps|].
  intros [wfs|e] l2 _; [apply IH|apply blames_ret].
Qed.

Lemma generateStatus_not_panic Q h w ts ks l1 :
  state_wf ks h -> blames Q (generateStatus h w ts ks) l1.
Proof.
  intros Hwf. unfold generateStatus. apply blames_bind.
  - case_decide; [apply blames_ret|]. apply blames_bind; [|intros; apply blames_ret].
    unfold GetTestWorkflowStatus. blame_steps. apply testWorkflows_not_panic.
  - intros ts' l2 _. apply blames_bind; [|intros; apply blames_ret]. apply blames_lift.
    set (m := newStateMapper ks ts' (ComputeWorkerDeploymentName w)).
    destruct (mapToStatus_ok h m (ComputeBuildID w) (state_wf_pointers h m Hwf)) as (st & -> & _).
    by intros ?%not_Panic_Ok.
Qed.

Lemma defaulted_delays x w :
  TWD_Default (ObjTWD x) = Ok w ->
  is_Some (DeleteDelay (spec_SunsetStrategy (twd_Spec w))) /\
  is_Some (ScaledownDelay (spec_SunsetStrategy (twd_Spec w))).
Proof.
  intros [= <-]. simpl. unfold SunsetStrategy_Default.
  destruct (spec_SunsetStrategy (twd_Spec x)) as [[sd|] [dd|]]; simpl; split; by eexists.
Qed.

(** Planning, given what the stored status may hold. *)
Lemma generatePlan_panics fetched w c ts l1 :
  w_GetTWD l (req_Namespace req) (req_Name req) = inl fetched -> l `prefix_of` l1 ->
  om_Namespace (twd_ObjectMeta w) = req_Namespace req -> om_Name (twd_ObjectMeta w) = req_Name req ->
  spec_Replicas (twd_Spec w) = spec_Replicas (twd_Spec fetched) ->
  is_Some (DeleteDelay (spec_SunsetStrategy (twd_Spec w))) ->
  is_Some (ScaledownDelay (spec_SunsetStrategy (twd_Spec w))) ->
  (forall v : DeprecatedWorkerDeploymentVersion, v ∈ DeprecatedVersions (twd_Status w) ->
     ver_Status v = VersionStatusDrained ->
     DrainedSince v = None ->
     exists b, drain_unconfirmed l l1 (ComputeWorkerDeploymentName fetched) b) ->
  (ver_Status (TargetVersion (twd_Status w)) = VersionStatusInactive ->
   is_Some (ts_Versions ts !! BuildID (TargetVersion (twd_Status w)))) ->
  blames panic_cause (generatePlan maxVersions w c ts) l1.
Proof.
  intros Hf Hl1 Hns Hn Hrep Hdd Hsd Hdr Hin. unfold generatePlan.
  apply blames_bind; [apply blames_wrap, fetch_not_panic|]. intros [ks h] l2 H2%wrap_error_Ok.
  pose proof (fetchDeploymentState_Ok _ _ _ _ _ H2) as Hwf. simpl in Hwf.
  destruct (fetchDeploymentState_listed _ _ _ _ _ H2) as (items & Hitems & Hperm).
  rewrite Hns, Hn in Hitems. simpl in Hperm.
  pose proof (idle_extension_prefix _ _
    (reads_extend_Ok _ _ _ _ (fetchDeploymentState_reads _ _) H2)) as Hl2.
  apply blames_bind; [apply fetchGateInput_not_panic|]. intros gi l3 H3.
  pose proof (idle_extension_prefix _ _
    (reads_extend_Ok _ _ _ _ (fetchGateInput_reads _ _) H3)) as Hl3.
  assert (forall l4, l3 `prefix_of` l4 -> l1 `prefix_of` l4) as Hl4
    by (intros l4 H4; etrans; [exact Hl2|]; by etrans).
  apply blames_bind.
  2: { intros r l4 _. apply blames_bind; [|intros; apply blames_ret].
       destruct (pl_ShouldCreateDeployment r.1); [|apply blames_ret].
       apply blames_bind; [apply blames_lift; by intros ?%owner_not_panic|intros; apply blames_ret]. }
  apply blames_wrap. eapply blames_weaken; [|by apply GeneratePlan_panics].
  intros l' (Hl' & [Hnone|[(d & Hd & Hnw)|(v & Hv & Hs & Hnone)]]).
  - apply (pc_replicas l' fetched Hf). congruence.
  - apply (pc_deployment l' d); [|done]. exists l1, items.
    split_and!; [split; [exact Hl1|by apply Hl4]|exact Hitems|by rewrite <- Hperm].
  - destruct (Hdr v Hv Hs Hnone) as (b & Hunc). apply (pc_drained l' fetched b Hf).
    eapply (drain_unconfirmed_mono l l1); [done|by apply Hl4|exact Hunc].
Qed.

(** What the status sent knows of drain times, traced to the server. *)
Lemma sent_unknown name ks h target strategy l1 l2 ts ts' st (v : DeprecatedWorkerDeploymentVersion) m :
  GetWorkerDeploymentState name ks h target strategy getControllerIdentity l1 = (Ok ts, l2) ->
  same_but_tests ts ts' -> sm_temporalState m = ts' ->
  status_spec h m target st -> v ∈ DeprecatedVersions st ->
  ver_Status v = VersionStatusDrained -> DrainedSince v = None ->
  drain_unconfirmed l1 l2 name (BuildID v).
Proof.
  intros Hg Hsame Hm Hspec Hv Hs Hd. destruct (ss_deprecated _ _ _ _ Hspec v Hv) as (Hdesc & Hds & _).
  rewrite (dv_status _ _ _ _ Hdesc) in Hs. rewrite Hd in Hds. unfold statusOf in Hs.
  unfold versionOf in *. rewrite Hm in *.
  destruct (ts_Versions ts' !! BuildID v) as [vi'|] eqn:Ev'; [|done]. simpl in Hds.
  destruct (same_but_tests_lookup _ _ _ _ Hsame Ev') as (vi & Hvi & He).
  assert (vi_Status vi' = vi_Status vi) as Hst by (by apply (f_equal vi_Status) in He).
  assert (vi_DrainedSince vi' = vi_DrainedSince vi) as Hsi
    by (by apply (f_equal vi_DrainedSince) in He).
  destruct (w_Describe l1 name) as [resp|e] eqn:Ed.
  - destruct (GetWorkerDeploymentState_versions _ _ _ _ _ _ _ _ _ _ Ed Hg) as [Hvs _].
    destruct (Hvs _ _ Hvi) as (s & _ & <- & Hok).
    apply (vio_unknown _ _ _ _ _ _ _ _ Hok); congruence.
  - destruct (GetWorkerDeploymentState_unanswered _ _ _ _ _ _ _ _ _ _ Ed Hg) as [-> _].
    simpl in Hvi. by rewrite lookup_empty in Hvi.
Qed.

(** The same of the status stored, and its inactive target is known. *)
Lemma stored_unknown name ks h target strategy l1 l2 ts ts' st st' m :
  GetWorkerDeploymentState name ks h target strategy getControllerIdentity l1 = (Ok ts, l2) ->
  same_but_tests ts ts' -> sm_temporalState m = ts' ->
  status_spec h m target st -> status_stored st st' ->
  forall v : DeprecatedWorkerDeploymentVersion, v ∈ DeprecatedVersions st' ->
    ver_Status v = VersionStatusDrained -> DrainedSince v = None ->
    exists b, drain_unconfirmed l1 l2 name b.
Proof.
  intros Hg Hsame Hm Hspec Hsto v Hv Hs Hd.
  destruct (stored_deprecated_sent _ _ _ Hsto Hv) as (v0 & Hv0 & [[Hb Hs0 _ _ _] Hd0 _]).
  exists (BuildID v0). eapply (sent_unknown _ _ _ _ _ _ _ _ _ _ v0 m); try done; [congruence|].
  rewrite Hd in Hd0. by destruct (DrainedSince v0).
Qed.

Lemma stored_inactive h m target st st' :
  target <> EmptyString -> status_spec h m target st -> status_stored st st' ->
  ver_Status (TargetVersion st') = VersionStatusInactive ->
  is_Some (ts_Versions (sm_temporalState m) !! BuildID (TargetVersion st')).
Proof.
  intros Hne Hspec Hsto Hs. destruct (sts_target _ _ Hsto) as [Hb Hs0 _ _ _]. rewrite Hs0 in Hs.
  destruct (ss_target _ _ _ _ Hspec Hne) as (Hdv & _).
  rewrite Hb, (dv_id _ _ _ _ Hdv). rewrite (dv_status _ _ _ _ Hdv) in Hs.
  unfold statusOf, versionOf in Hs. by destruct (ts_Versions _ !! _).
Qed.

Lemma executePlan_not_panic Q p l1 : plan_ok p -> blames Q (executePlan p) l1.
Proof.
  intros Hp. apply blames_not_panic. rewrite executePlan_writes by done.
  destruct (run_writes_stopped (plan_writes p) l1 (plan_writes_keep_kind p))
    as (r & attempted & -> & Hrun). intros [q Hq]. by apply (sr_panic _ _ _ _ Hrun q).
Qed.

(** Planning from the object that the status update returned. *)
Lemma planning_panics fetched w c ks h strategy ts ts' st stored w' l1 l2 l3 m :
  w_GetTWD l (req_Namespace req) (req_Name req) = inl fetched ->
  TWD_Default (ObjTWD fetched) = Ok w -> l `prefix_of` l1 -> l2 `prefix_of` l3 ->
  GetWorkerDeploymentState (ComputeWorkerDeploymentName fetched) ks h (ComputeBuildID w) strategy
    getControllerIdentity l1 = (Ok ts, l2) ->
  same_but_tests ts ts' -> sm_temporalState m = ts' ->
  status_spec h m (ComputeBuildID w) st ->
  w_UpdateStatus l3 (twd_set_Status st w) = inl stored -> TWD_Default (ObjTWD stored) = Ok w' ->
  blames panic_cause (generatePlan maxVersions w' c ts')
    (l3 ++ [EvUpdateStatus (twd_set_Status st w)]).
Proof.
  intros Hf Hw Hl01 Hl3 H2 Hsame Hm Hspec Eu Hw'. set (l4 := l3 ++ _).
  pose proof (idle_extension_prefix _ _
    (reads_extend_Ok _ _ _ _ (GetWorkerDeploymentState_reads _ _ _ _ _ _) H2)) as Hl2.
  assert (l3 `prefix_of` l4) as Hl4 by (by eexists).
  assert (l `prefix_of` l3) as Hl03 by (etrans; [exact Hl01|]; by etrans).
  destruct (update_keeps_object l (req_Namespace req) (req_Name req) fetched w l3 st stored w')
    as [Hspec' Hmeta]; try done.
  pose proof (update_keeps_status _ _ _ Eu) as Hsto. simpl in Hsto.
  assert (twd_Status w' = twd_Status stored) as Hws by (by injection Hw' as <-).
  destruct (get_named _ _ _ _ Hf) as [Hns Hn]. injection Hw as <-.
  apply (generatePlan_panics fetched); try done.
  - by etrans.
  - by rewrite Hmeta.
  - by rewrite Hmeta.
  - by rewrite Hspec'.
  - apply (defaulted_delays _ _ Hw').
  - apply (defaulted_delays _ _ Hw').
  - rewrite Hws. intros v Hv Hs Hd.
    destruct (stored_unknown _ _ _ _ _ _ _ _ _ _ _ m H2 Hsame Hm Hspec Hsto v Hv Hs Hd) as [b Hu].
    exists b. by eapply drain_unconfirmed_mono; [| |exact Hu]; [|etrans].
  - rewrite Hws, <- Hm. eapply (stored_inactive h m); [apply ComputeBuildID_nonempty|done|done].
Qed.

Lemma reconcileWith_panics fetched w c l0 :
  w_GetTWD l (req_Namespace req) (req_Name req) = inl fetched ->
  TWD_Default (ObjTWD fetched) = Ok w -> l `prefix_of` l0 ->
  blames panic_cause (reconcileWith maxVersions req w c) l0.
Proof.
  intros Hf Hw Hl0. unfold reconcileWith.
  assert (ComputeWorkerDeploymentName w = ComputeWorkerDeploymentName fetched) as Hname
    by (by injection Hw as <-).
  rewrite Hname.
  apply blames_bind; [apply blames_wrap, fetch_not_panic|]. intros [ks h] l1 H1%wrap_error_Ok.
  pose proof (idle_extension_prefix _ _
    (reads_extend_Ok _ _ _ _ (fetchDeploymentState_reads _ _) H1)) as Hl1.
  pose proof (fetchDeploymentState_Ok _ _ _ _ _ H1) as Hwf. simpl in Hwf |- *.
  assert (l `prefix_of` l1) as Hl01 by (by etrans).
  apply blames_bind.
  { apply blames_wrap. eapply blames_weaken; [|apply GetWorkerDeploymentState_panics_only].
    - intros l' [Hj|(la & resp & Hd & ?)].
      + apply pc_clock. by eapply clock_jumped_mono.
      + apply (pc_routing l' fetched Hf). exists la, resp. split; [|done]. by eapply during_mono.
    - intros b p Hb. destruct (wf_deployment _ _ Hwf b p Hb) as (d & Hd & _). by exists d. }
  intros ts l2 H2%wrap_error_Ok.
  pose proof (idle_extension_prefix _ _
    (reads_extend_Ok _ _ _ _ (GetWorkerDeploymentState_reads _ _ _ _ _ _) H2)) as Hl2.
  apply blames_bind; [by apply generateStatus_not_panic|]. intros [ts' st] l3 H3.
  pose proof (idle_extension_prefix _ _
    (reads_extend_Ok _ _ _ _ (generateStatus_reads _ _ _ _) H3)) as Hl3.
  apply generateStatus_Ok in H3 as [Hsame Hst].
  set (m := newStateMapper ks ts' (ComputeWorkerDeploymentName w)) in *.
  destruct (mapToStatus_ok h m (ComputeBuildID w) (state_wf_pointers h m Hwf)) as (st2 & Hst2 & Hspec).
  rewrite Hst in Hst2. injection Hst2 as <-.
  apply blames_bind; [apply blames_try, blames_call|]. intros updated l4 H4. simpl in *.
  unfold try, UpdateStatus, call, answer in H4.
  destruct (w_UpdateStatus l3 (twd_set_Status st w)) as [stored|e] eqn:Eu; injection H4 as <- <-;
    [|destruct (is_kind KApiConflict e); [apply blames_ret|apply blames_throw]].
  apply blames_bind; [by intros p l' [=]|]. intros w' l5 [Hw' ->]%lift_Ok.
  apply blames_bind.
  - by apply (planning_panics fetched w c (Deployments ks) h
      (rs_Strategy (spec_RolloutStrategy (twd_Spec w))) ts ts' st stored w' l1 l2 l3 m).
  - intros p l6 Hp%generatePlan_ok. apply blames_bind; [by apply executePlan_not_panic|].
    intros. apply blames_ret.
Qed.
End Run.

(** C9: The complete list of panics: on a well-formed pool, a run of [Reconcile]
    panics only if it saw a client that it had just dialled fail its health
    check; or the server report a Ramping version without a Current one, last
    modified by somebody else; or the clock jump by ten seconds between two
    readings in a row; or the description of a drained version fail, other than
    by not finding it, or not confirm that it is drained; or the resource without
    a replica count; or a child Deployment without replica count, pod annotations
    or selector ([ctrl.SetControllerReference] is taken to report its failures as
    errors).  In a run that sees none of these nothing is dereferenced that is
    nil, no index is out of range, no nil map is written and no loop runs out of
    the model's fuel. *)
Theorem Reconcile_panics_only cp req l p l' :
  pool_wf cp -> Reconcile maxVersions cp req l = (Panic p, l') -> panic_cause req l l'.
Proof.
  intros Hwf. revert p l'. change (blames (panic_cause req l) (Reconcile maxVersions cp req) l).
  unfold Reconcile. apply blames_bind; [apply blames_try, blames_call|]. intros got l1 H1.
  unfold try, GetTWD, call, answer in H1.
  destruct (w_GetTWD l (req_Namespace req) (req_Name req)) as [fetched|e] eqn:Ef;
    injection H1 as <- <-; [|apply blames_ret].
  apply blames_bind; [by intros p l' [=]|]. intros r l2 H2. unfold try, lift in H2.
  destruct (TWD_Default (ObjTWD fetched)) as [w|e|q] eqn:Ew; [|by injection H2 as <- <-; apply blames_ret|done].
  injection H2 as <- <-. set (l1 := l ++ _) in *.
  apply blames_bind.
  { apply blames_try, blames_lift. destruct (validate_cases w) as [[_ ->]|[_ ->]]; by intros [? [=]]. }
  intros valid l2 H2.
  assert (l2 = l1) as ->
    by (unfold try, lift in H2; by destruct (ValidateCreate (ObjTWD w)); injection H2).
  destruct valid; [|apply blames_ret].
  apply blames_bind; [apply blames_try, blames_call|]. intros conn l3 H3.
  destruct conn as [c|e]; [|apply blames_ret].
  assert (l `prefix_of` l3) as Hl3.
  { etrans; [by exists [EvGetTWD (req_Namespace req) (req_Name req)]|].
    eapply extends_prefix; [|exact H3]. by apply emits_try, emits_GetConnection. }
  apply blames_bind.
  { apply blames_try. eapply blames_weaken; [|by apply getClient_panics].
    intros l4 Hu. apply pc_client. by eapply unhealthy_mono. }
  intros client l4 H4.
  pose proof (extends_prefix _ _ _ _ (emits_extends _ _ (emits_try _ (getClient_reads cp w c))) H4)
    as Hl4.
  destruct client as [[cp' cl]|e]; [|apply blames_ret].
  apply blames_bind; [apply blames_call|]. intros u0 l5 [= _ <-].
  apply blames_bind; [|intros; apply blames_ret].
  apply blames_try. apply (reconcileWith_panics _ _ fetched); [done|done|].
  etrans; [exact Hl3|]. etrans; [exact Hl4|]. by eexists.
Qed.

(** The pool of a reconciliation that returns stays well formed: every pool that
    reconciliations reach from the empty one is. *)
Theorem Reconcile_keeps_pool cp req l cp' r l' :
  pool_wf cp -> Reconcile maxVersions cp req l = (Ok (cp', r), l') -> pool_wf cp'.
Proof.
  intros Hwf. unfold Reconcile. intros (got & l1 & _ & H)%io_bind_Ok.
  destruct got as [fetched|e]; [|by injection H as <- _ _].
  apply io_bind_Ok in H as (d & l2 & _ & H). destruct d as [w|e]; [|by injection H as <- _ _].
  apply io_bind_Ok in H as (v & l3 & _ & H). destruct v; [|by injection H as <- _ _].
  apply io_bind_Ok in H as (conn & l4 & _ & H). destruct conn as [c|e]; [|by injection H as <- _ _].
  apply io_bind_Ok in H as (client & l5 & Hc & H).
  destruct client as [[cp1 cl]|e]; [|by injection H as <- _ _].
  apply io_bind_Ok in H as (u0 & l6 & _ & H). apply io_bind_Ok in H as (res & l7 & _ & [= <- _ _]).
  unfold try in Hc. destruct (getClient cp w c l4) as [[[cp2 cl2]|e|p] l8] eqn:Eg; [|done..].
  injection Hc as -> -> _. unfold getClient in Eg.
  destruct (resolveAuthSecretName_agrees c) as (mode & name & Hres & Hagree). rewrite Hres in Eg.
  apply io_bind_Ok in Eg as (auth & l9 & [[= <-] ->]%lift_Ok & Eg).
  apply io_bind_Ok in Eg as (found & l10 & _ & Eg).
  destruct found as [c0|]; [by injection Eg as <- _ _|]. simpl in Eg.
  apply UpsertClient_inserts in Eg as (info & -> & _ & Hok); [|done]. by apply pool_wf_insert.
Qed.
End Reconciler.
