(* ===== verification/WriteProps.v ===== *)
(** * The type of a reconciliation's writes

    Every write of [Reconcile] is well-formed and in scope: it is about the
    worker deployment, build and namespace of the request, about Deployments this
    run has listed, with selectors that pick their pods, counts and percentages
    in their ranges, and the identity of the controller; the status it publishes
    is the requested resource's own. *)

From stdpp Require Import base gmap sets list strings.
From Stdlib Require Import ZArith Lia.
From S2P Require Import Prelude GoStd Api K8s K8sProps Trace World Temporal TemporalProps.
From S2P Require Import Planner SunsetProps UpdateProps IdentityProps RolloutProps Webhook.
From S2P Require Import StateMapper StateMapperProps GateProps Servers Safety.
From S2P Require Import ClientPool Controller ControllerProps RunProps PoolRuns EndToEnd.
Local Open Scope Z_scope.

Section Writes.
Context `{Ev : Env} `{W : World} `{L : K8sLib} `{KO : KeyOrder} `{SO : ScaleOrder} `{C : CertLib}.
Context `{!K8sLibLaws L} `{!KeyOrderLaws KO} `{!ScaleOrderLaws SO} `{!WorldClock W}.
Context `{!StatusServer W} `{!DescribeServer W} `{!NamedObjects W}.
Context (maxVersions : Z).

(** ** Well-formed writes *)

(** The reference [ns], [name], [uid] is that of [d]. *)
Definition refers_to (ns name uid : string) (d : Deployment) : Prop :=
  ns = om_Namespace (d_ObjectMeta d) /\ name = om_Name (d_ObjectMeta d) /\
  uid = om_UID (d_ObjectMeta d).

Definition write_ok (l l' : Log) (req : Request) (w : TemporalWorkerDeployment) (ev : Event)
  : Prop :=
  let name := ComputeWorkerDeploymentName w in
  let target := ComputeBuildID w in
  let listed := listed_in_run l l' (req_Namespace req) (req_Name req) in
  match ev with
  | EvUpdateStatus u =>
      (exists st, u = twd_set_Status st w /\ BuildID (TargetVersion st) = target /\
         forall v ref, v ∈ status_versions st -> ver_Deployment v = Some ref ->
           exists d0, listed d0 /\ build_label d0 = Some (BuildID v) /\
             refers_to (ref_Namespace (rp_ref ref)) (ref_Name (rp_ref ref))
               (ref_UID (rp_ref ref)) d0) /\
      om_Namespace (twd_ObjectMeta u) = req_Namespace req /\
      om_Name (twd_ObjectMeta u) = req_Name req
  | EvCreate d =>
      om_Namespace (d_ObjectMeta d) = req_Namespace req /\
      om_Name (d_ObjectMeta d) = ComputeVersionedDeploymentName (req_Name req) target /\
      build_label d = Some target /\ selects_pods d
  | EvDelete d | EvUpdate d => exists d0, listed d0 /\ keeps_identity d0 d
  | EvScale ns n _ uid replicas =>
      (exists d0, listed d0 /\ refers_to ns n uid d0) /\
      (replicas = 0 \/ spec_Replicas (twd_Spec w) = Some replicas)
  | EvExecuteWorkflow opts _ _ =>
      swo_PinnedVersion opts = mkWorkerDeploymentVersion name target /\
      swo_ID opts = GetTestWorkflowID name target (swo_TaskQueue opts) /\
      swo_RejectDuplicate opts = true /\ swo_FailOnConflict opts = true
  | EvSetCurrentVersion n opts =>
      n = name /\ scv_BuildID opts = target /\ scv_Identity opts = getControllerIdentity
  | EvSetRampingVersion n opts =>
      n = name /\ srv_Identity opts = getControllerIdentity /\
      (srv_BuildID opts = EmptyString /\ srv_Percentage opts = float32_of_Z 0 \/
       srv_BuildID opts = target /\
       exists pct, 1 <= pct <= 100 /\ srv_Percentage opts = float32_of_Z pct)
  | EvUpdateVersionMetadata n opts => n = name /\ wdv_DeploymentName (uvm_Version opts) = name
  | _ => True
  end.

(** ** What the parts of a plan write *)

Lemma created_write_ok w c d :
  NewDeploymentWithControllerRef w (ComputeBuildID w) c = Ok d ->
  om_Namespace (d_ObjectMeta d) = om_Namespace (twd_ObjectMeta w) /\
  om_Name (d_ObjectMeta d)
  = ComputeVersionedDeploymentName (om_Name (twd_ObjectMeta w)) (ComputeBuildID w) /\
  build_label d = Some (ComputeBuildID w) /\ selects_pods d.
Proof.
  unfold NewDeploymentWithControllerRef. intros Hd.
  destruct (SetControllerReference_frame _ _ _ Hd) as [refs ->]. split_and!; [done..| |].
  - apply build_label_selector, ComputeBuildID_length.
  - eexists. split; [reflexivity|]. apply map_union_subseteq_l.
Qed.

(** Every count of a scale map is the spec's or zero, also after the conversions
    to [uint32] and [int32]. *)
Lemma scale_count ks h st spec l scales l' a r n replicas :
  getScaleDeployments ks h st spec l = (Ok scales, l') -> scales !! a = Some (r, n) ->
  spec_Replicas spec = Some replicas -> in_int32 replicas -> int32 n = 0 \/ int32 n = replicas.
Proof.
  intros Hs Ha Hr Hi.
  destruct (getScaleDeployments_run _ _ _ _ _ _ _ Hs) as (replicas' & Hrep' & Hsound & _).
  simplify_eq. apply Hsound in Ha as (v & _ & p & _ & Hreason).
  enough (n = uint32 replicas \/ n = 0) as [-> | ->]
    by (rewrite ?int32_uint32; auto).
  destruct Hreason as [|? ?|? ? ? ? Hn]; [by left..|]. unfold deprecated_scale in Hn.
  destruct (ver_Status _); try done; [|by left; apply Hn..|by right; apply Hn].
  case_decide; [left|right]; apply Hn.
Qed.

Lemma stored_described h m target st st' v :
  target <> EmptyString -> status_spec h m target st -> status_stored st st' ->
  v ∈ status_versions st' -> exists b v0, describes h m b v0 /\ version_stored v0 v.
Proof.
  unfold status_versions at 1. rewrite elem_of_cons, elem_of_app, list_elem_of_fmap.
  intros Hne Hspec Hsto [->|[Hc|(d & -> & Hd)]].
  - exists target, (tgt_base (TargetVersion st)).
    split; [by apply (ss_target _ _ _ _ Hspec)|apply (sts_target _ _ Hsto)].
  - pose proof (ss_current _ _ _ _ Hspec) as H. pose proof (sts_current _ _ Hsto) as Hs.
    destruct (CurrentVersion st') as [c|]; [|by apply not_elem_of_nil in Hc].
    apply list_elem_of_singleton in Hc as ->.
    destruct (CurrentVersion st) as [c0|]; [|done]. destruct H as [_ H]. eauto.
  - destruct (stored_deprecated_sent _ _ _ Hsto Hd) as (d0 & Hd0 & [Hb _ _]).
    exists (BuildID d0), (dep_base d0). split; [|done].
    by apply (ss_deprecated _ _ _ _ Hspec d0 Hd0).
Qed.

(** ** The status update *)

Definition is_status_update (ev : Event) : bool := if ev is EvUpdateStatus _ then true else false.

(** A status update among the added events is of a resource with [Q]. *)
Definition updates_only (Q : TemporalWorkerDeployment -> Prop) : Log -> Log -> Prop :=
  adds (fun ev => forall u, ev = EvUpdateStatus u -> Q u).

Lemma silent_updates Q l l' : adds (fun ev => is_status_update ev = false) l l' -> updates_only Q l l'.
Proof. apply adds_weaken. by intros ev Hev u ->. Qed.

Lemma reads_updates Q l l' : reads_extension l l' -> updates_only Q l l'.
Proof. apply adds_weaken. by intros ev Hev u ->. Qed.

Lemma reads_silent {A} (m : io A) : reads_only m -> emits (fun ev => is_status_update ev = false) m.
Proof. apply emits_weaken. by intros []. Qed.

#[local] Hint Extern 5 (is_status_update _ = false) => reflexivity : emits.

Lemma executePlan_silent p : emits (fun ev => is_status_update ev = false) (executePlan p).
Proof.
  unfold executePlan, createStep, for_each, deleteStep, scaleStep, updateStep, workflowStep,
    versionConfigStep, removeIgnoreStep. emits_steps.
Qed.

(** What [reconcileWith] publishes: the resource it was given, with the status
    that [generateStatus] made of the Deployments it listed. *)
Definition published (req : Request) (w : TemporalWorkerDeployment) (l : Log)
    (u : TemporalWorkerDeployment) : Prop :=
  exists ksh l1 ts0 l2 ts st l3,
    fetchDeploymentState (req_Namespace req) (req_Name req) l = (Ok ksh, l1) /\
    generateStatus ksh.2 w ts0 ksh.1 l2 = (Ok (ts, st), l3) /\ u = twd_set_Status st w.

(** What follows the status update writes no status. *)
Lemma actions_silent stored c ts' :
  emits (fun ev => is_status_update ev = false)
    (w' ← lift (TWD_Default (ObjTWD stored));
     p ← generatePlan maxVersions w' c ts';
     _ ← executePlan p;
     mret (mkResult true (10 * Second))).
Proof.
  apply emits_bind; [apply emits_lift|]. intros w'.
  apply emits_bind; [apply reads_silent, generatePlan_reads|]. intros p.
  apply emits_bind; [apply executePlan_silent|]. intros []. apply emits_ret.
Qed.

Lemma reconcileWith_published req w c l o l' :
  reconcileWith maxVersions req w c l = (o, l') -> updates_only (published req w l) l l'.
Proof.
  unfold reconcileWith. intros H. set (Q := published req w l).
  assert (forall A (m : io A) l1 o1 l2, reads_only m -> m l1 = (o1, l2) -> updates_only Q l1 l2)
    as Hreads by (intros A m l1 o1 l2 Hm Hr; by eapply reads_updates, emits_adds).
  rewrite io_bind_run in H. destruct (wrap_error _ _ l) as [r l1] eqn:Hf.
  pose proof (Hreads _ _ _ _ _ (emits_wrap _ _ (fetchDeploymentState_reads _ _)) Hf) as A1.
  destruct r as [ksh|e|p]; [|by injection H as _ <-..]. apply wrap_error_Ok in Hf.
  rewrite io_bind_run in H. destruct (wrap_error _ _ l1) as [r l2] eqn:Hg.
  pose proof (Hreads _ _ _ _ _ (emits_wrap _ _ (GetWorkerDeploymentState_reads _ _ _ _ _ _)) Hg) as A2.
  pose proof (adds_trans _ _ _ _ A1 A2) as A12.
  destruct r as [ts0|e|p]; [|by injection H as _ <-..].
  rewrite io_bind_run in H. destruct (generateStatus _ _ _ _ l2) as [r l3] eqn:Hs.
  pose proof (adds_trans _ _ _ _ A12 (Hreads _ _ _ _ _ (generateStatus_reads _ _ _ _) Hs)) as A3.
  destruct r as [[ts st]|e|p]; [|by injection H as _ <-..]. simpl in H.
  rewrite io_bind_run in H. unfold try, UpdateStatus, call, answer in H.
  set (ev := EvUpdateStatus (twd_set_Status st w)) in *.
  assert (updates_only Q l (l3 ++ [ev])) as A4.
  { eapply adds_trans; [exact A3|]. exists [ev]. split; [done|]. constructor; [|constructor].
    intros u [= <-]. by exists ksh, l1, ts0, l2, ts, st, l3. }
  destruct (w_UpdateStatus l3 (twd_set_Status st w)) as [stored|e].
  2: { by destruct (is_kind KApiConflict e); injection H as _ <-. }
  eapply adds_trans; [exact A4|]. eapply silent_updates, emits_adds; [|exact H].
  apply actions_silent.
Qed.

(** What [Reconcile] publishes. *)
Lemma Reconcile_published cp req l o l' fetched w :
  Reconcile maxVersions cp req l = (o, l') ->
  w_GetTWD l (req_Namespace req) (req_Name req) = inl fetched ->
  TWD_Default (ObjTWD fetched) = Ok w ->
  updates_only (fun u => exists l0, during l l' l0 /\ published req w l0 u) l l'.
Proof.
  intros Hrun Hf Hd. destruct (Reconcile_client _ _ _ _ _ _ Hrun)
    as [[Hr _]|(fetched' & w' & c & cp1 & client & l1 & Hf' & Hd' & _ & _ & Hr & Hrest)];
    [by apply reads_updates|].
  rewrite Hf in Hf'. injection Hf' as <-. rewrite Hd in Hd'. injection Hd' as <-.
  set (l0 := l1 ++ [EvUseClient client]) in *. rewrite io_bind_run in Hrest. unfold try in Hrest.
  destruct (reconcileWith maxVersions req w c l0) as [r l2] eqn:E.
  assert (l2 = l') as -> by (destruct r; by injection Hrest).
  eapply adds_trans; [by apply reads_updates|].
  pose proof (reconcileWith_published _ _ _ _ _ _ E) as Hp.
  eapply adds_weaken; [|exact Hp]. intros ev Hev u ->. exists l0.
  split; [split; by eapply adds_prefix|by apply Hev].
Qed.

(** ** A run's writes *)

Section Run.
Context (req : Request) (w : TemporalWorkerDeployment) (c : TemporalConnectionSpec).
Context (l l0 l' : Log) (s : stages) (fetched : TemporalWorkerDeployment).
Hypothesis Hf : w_GetTWD l (req_Namespace req) (req_Name req) = inl fetched.
Hypothesis Hd : TWD_Default (ObjTWD fetched) = Ok w.
Hypothesis I0 : idle_extension l l0.
Hypothesis Ha : acted maxVersions req w c l0 l' s.

Lemma acted_create d :
  p_CreateDeployment (sg_plan s) = Some d -> write_ok l l' req w (EvCreate d).
Proof.
  intros Hc. destruct (generatePlan_parts _ _ _ _ _ _ _ (ac_plan _ _ _ _ _ _ _ Ha)) as (ks & h & Hpp).
  destruct (pp_create _ _ _ _ _ _ _ _ _ Hpp d Hc) as [Hnew _].
  apply created_write_ok in Hnew as (Hns & Hn & Hb & Hsel).
  destruct (acted_defaulted _ _ _ _ _ _ _ _ _ Hf Hd I0 Ha) as (_ & Hns' & Hname').
  destruct (acted_names _ _ _ _ _ _ _ _ _ Hf Hd I0 Ha) as (_ & _ & Hbid).
  rewrite Hbid in Hn, Hb. rewrite Hns' in Hns. rewrite Hname' in Hn. by split_and!.
Qed.

(** The Deployments behind the plan's pointers were listed. *)
Lemma acted_object q d :
  p_store (sg_plan s) !! q = Some d ->
  exists d0, listed_in_run l l' (req_Namespace req) (req_Name req) d0 /\ keeps_identity d0 d.
Proof.
  intros Hq. destruct (generatePlan_parts _ _ _ _ _ _ _ (ac_plan _ _ _ _ _ _ _ Ha)) as (ks & h & Hpp).
  destruct (acted_defaulted _ _ _ _ _ _ _ _ _ Hf Hd I0 Ha) as (_ & Hns & Hname).
  destruct (acted_during _ _ _ _ _ _ _ _ I0 Ha) as (_ & _ & _ & _ & Du & _).
  destruct (pp_listed _ _ _ _ _ _ _ _ _ Hpp) as (items & Hperm & Hitems & _).
  rewrite Hns, Hname in Hitems.
  pose proof (pp_updates _ _ _ _ _ _ _ _ _ Hpp) as Hup.
  apply getUpdateDeployments_pass in Hup as (Hpass & _ & _).
  eapply pass_identity in Hpass as (d0 & Hd0 & Hid); [|exact Hq].
  exists d0. split; [|done]. by apply (listed_elem _ _ _ _ _ _ _ _ _ Du Hitems Hperm Hd0).
Qed.

Lemma acted_scale a r n :
  (forall z, spec_Replicas (twd_Spec w) = Some z -> in_int32 z) ->
  p_ScaleDeployments (sg_plan s) !! a = Some (r, n) ->
  write_ok l l' req w
    (EvScale (ref_Namespace r) (ref_Name r) (ref_ResourceVersion r) (ref_UID r) (int32 n)).
Proof.
  intros Hi Hs. destruct (acted_spec _ _ _ _ _ _ _ Ha) as (Hwf & _ & Hspec & Hsto).
  destruct (acted_defaulted _ _ _ _ _ _ _ _ _ Hf Hd I0 Ha) as (Hsp & _ & _).
  destruct (acted_during _ _ _ _ _ _ _ _ I0 Ha) as (D0 & _).
  destruct (generatePlan_parts _ _ _ _ _ _ _ (ac_plan _ _ _ _ _ _ _ Ha)) as (ks & h & Hpp).
  destruct (pp_scales _ _ _ _ _ _ _ _ _ Hpp) as (ld & ld' & _ & Hsc). split.
  - destruct (getScaleDeployments_run _ _ _ _ _ _ _ Hsc) as (z & _ & Hsound & _).
    destruct (Hsound _ _ _ Hs) as (v & [Hv Hr]%scale_wanted_version).
    destruct (stored_described _ _ _ _ _ _ (ComputeBuildID_nonempty w) Hspec Hsto Hv)
      as (b & v0 & Hdv & Hvs).
    pose proof (vst_ref _ _ Hvs) as Hr0. rewrite Hr in Hr0. symmetry in Hr0. simpl in Hr0.
    destruct (described_ref _ _ _ _ _ Hwf Hdv Hr0) as (p & d & Hp & _ & Hn).
    destruct (fetchDeploymentState_listed _ _ _ _ _ (ac_fetch _ _ _ _ _ _ _ Ha))
      as (items & Hit & Hperm).
    exists d. split; [|exact Hn]. by apply (listed_elem _ _ _ _ _ _ _ _ _ D0 Hit Hperm Hp).
  - destruct (getScaleDeployments_run _ _ _ _ _ _ _ Hsc) as (z & Hz & _).
    destruct (scale_count _ _ _ _ _ _ _ _ _ _ z Hsc Hs Hz) as [->| ->]; [|by left|].
    + apply Hi. by rewrite <- Hsp.
    + right. by rewrite <- Hsp.
Qed.

Lemma acted_workflow wf :
  wf ∈ p_startTestWorkflows (sg_plan s) ->
  write_ok l l' req w
    (EvExecuteWorkflow (startWorkflowOptions (sg_plan s) wf) (sw_workflowType wf)
       (if decide (sw_input wf = EmptyString) then None else Some (sw_input wf))).
Proof.
  intros Hwf. destruct (generatePlan_parts _ _ _ _ _ _ _ (ac_plan _ _ _ _ _ _ _ Ha)) as (ks & h & Hpp).
  destruct (pp_workflows _ _ _ _ _ _ _ _ _ Hpp) as (input & secret & Heq). rewrite Heq in Hwf.
  destruct (acted_names _ _ _ _ _ _ _ _ _ Hf Hd I0 Ha) as (Hpn & Hdn & _).
  destruct (stored_target _ _ _ _ _ _ _ Ha) as (Htb & _).
  apply list_elem_of_fmap in Hwf as (wc & -> & Hwc). unfold getTestWorkflows in Hwc.
  destruct (rs_Gate _) as [g|]; [|by apply not_elem_of_nil in Hwc].
  case_match; [by apply not_elem_of_nil in Hwc|].
  apply list_elem_of_fmap in Hwc as (tq & -> & _). simpl.
  rewrite Hpn, Hdn, Htb. by split_and!.
Qed.

(** The version change and its metadata. *)
Lemma acted_version v :
  p_UpdateVersionConfig (sg_plan s) = Some v -> valid_deployment w ->
  Forall (fun st => step_RampPercentage st <= 100) (rs_Steps (spec_RolloutStrategy (twd_Spec w))) ->
  write_ok l l' req w (version_write (sg_plan s) v).
Proof.
  intros Hv Hvalid Hle.
  destruct (acted_names _ _ _ _ _ _ _ _ _ Hf Hd I0 Ha) as (Hpn & _ & _).
  destruct (acted_config _ _ _ _ _ _ _ _ _ _ Hf Hd I0 Ha Hv)
    as (_ & _ & _ & _ & ln & ln' & _ & Hcfg).
  destruct (stored_target _ _ _ _ _ _ _ Ha) as (Htb & _). unfold version_write. rewrite Hpn.
  destruct (getVersionConfigDiff_cases _ _ _ _ _ _ Hcfg)
    as [(_ & _ & ->)|(_ & [->|(Hst & st & Hsts & ->)] & _)]; simpl; rewrite ?Htb.
  - split_and!; [done..|]. by left.
  - done.
  - split_and!; [done..|]. right. split; [done|]. simpl in Hst, Hsts.
    destruct Hvalid as [_ [Hsteps _]]. specialize (Hsteps Hst).
    apply list_elem_of_lookup in Hsts as [i Hi].
    assert (rollout_steps (rs_Steps (spec_RolloutStrategy (twd_Spec w)))) as Hrs by (by split).
    exists (step_RampPercentage st). rewrite (ramp_int32 _ _ _ Hrs Hi).
    split; [by apply (rollout_ramp _ _ _ Hrs Hi)|done].
Qed.
End Run.

(** The status a run publishes. *)
Lemma Reconcile_status_ok cp req l o evs u fetched w :
  Reconcile maxVersions cp req l = (o, l ++ evs) -> EvUpdateStatus u ∈ evs ->
  w_GetTWD l (req_Namespace req) (req_Name req) = inl fetched ->
  TWD_Default (ObjTWD fetched) = Ok w -> write_ok l (l ++ evs) req w (EvUpdateStatus u).
Proof.
  intros Hrun Hin Hf Hd.
  destruct (Reconcile_published _ _ _ _ _ _ _ Hrun Hf Hd) as (evs' & He & Hall).
  apply app_inv_head in He as <-. rewrite Forall_forall in Hall.
  destruct (Hall _ Hin u eq_refl) as (l0 & D0 & ksh & l1 & ts0 & l2 & ts & st & l3 & Hk & Hs & ->).
  destruct (get_named _ _ _ _ Hf) as [Hns Hn]. split; [|by injection Hd as <-].
  destruct (fetchDeploymentState_listed _ _ _ _ _ Hk) as (items & Hit & Hperm).
  apply fetchDeploymentState_Ok in Hk. apply generateStatus_Ok in Hs as [_ Hst].
  set (m := newStateMapper ksh.1 ts (ComputeWorkerDeploymentName w)) in *.
  destruct (mapToStatus_ok ksh.2 m (ComputeBuildID w) (state_wf_pointers _ m Hk))
    as (st' & Hst' & Hspec). rewrite Hst in Hst'. injection Hst' as <-.
  exists st. split_and!; [done|apply (ss_target_id _ _ _ _ Hspec)|]. intros v ref Hv Hr.
  pose proof (status_described _ _ _ _ _ (ComputeBuildID_nonempty w) Hspec Hv) as Hdv.
  destruct (describes_ref ksh.1 ksh.2 m v ref eq_refl Hk Hdv Hr) as (_ & d & Hp & Hl & ->).
  exists d. split; [|done]. by apply (listed_elem _ _ _ _ _ _ _ _ _ D0 Hit Hperm Hp).
Qed.

(** C7: Every write of a reconciliation, whatever the run's outcome, is
    well-formed and about the resource it reconciles.  The status is written to
    this resource, with nothing else of it changed, is about the target, and its
    references are those of Deployments listed in this run, each under its own
    build ID.  A created Deployment is in the resource's namespace, named and
    labelled after the target, and its selector picks its pods; a deleted or updated one was listed in this run, keeps its
    metadata and selector, and picks its pods if it did before; a scaled one was
    listed too, and is scaled to zero or to the resource's count, through both
    integer conversions; a test workflow is pinned to the target, has the ID of
    its task queue and rejects duplicates; the routing is changed under the
    controller's identity, to the target or to nothing, with a percentage between
    1 and 100 or 0; metadata are those of this worker deployment. *)
Theorem Reconcile_writes_typed cp req l o evs ev fetched w :
  Reconcile maxVersions cp req l = (o, l ++ evs) -> ev ∈ evs ->
  w_GetTWD l (req_Namespace req) (req_Name req) = inl fetched ->
  TWD_Default (ObjTWD fetched) = Ok w ->
  (forall z, spec_Replicas (twd_Spec fetched) = Some z -> in_int32 z) ->
  Forall (fun s => step_RampPercentage s <= 100)
    (rs_Steps (spec_RolloutStrategy (twd_Spec fetched))) ->
  write_ok l (l ++ evs) req w ev.
Proof.
  intros Hrun Hin Hf Hd Hi Hle.
  destruct (is_action ev) eqn:Eact; [|destruct ev; try done; by eapply Reconcile_status_ok].
  destruct (Reconcile_runs _ _ _ _ _ _ Hrun) as [(evs' & He & Hidle)|(w0 & c & s & Hrec)].
  { apply app_inv_head in He as <-. unfold idle in Hidle. rewrite Forall_forall in Hidle.
    pose proof (Hidle _ Hin). congruence. }
  destruct (reconciling_action _ _ _ _ _ _ _ _ _ Hrec eq_refl Hin Eact) as [Hpl _].
  destruct Hrec as [(fetched' & Hf' & Hd') Hvalid (l0 & I0 & Ha)].
  rewrite Hf in Hf'. injection Hf' as <-. rewrite Hd in Hd'. injection Hd' as <-.
  destruct (acted_names _ _ _ _ _ _ _ _ _ Hf Hd I0 Ha) as (Hpn & _ & _).
  assert (spec_Replicas (twd_Spec w) = spec_Replicas (twd_Spec fetched) /\
          spec_RolloutStrategy (twd_Spec w) = spec_RolloutStrategy (twd_Spec fetched))
    as [Hrep Hstr] by (by injection Hd as <-).
  rewrite <- Hrep in Hi. rewrite <- Hstr in Hle.
  apply plan_writes_inv in Hpl as [d Hc|q d _ Hq|a r n Hs|q d _ Hq|wf Hwf|v Hv|b u r].
  - by eapply acted_create.
  - by eapply acted_object.
  - by eapply acted_scale.
  - by eapply acted_object.
  - by eapply acted_workflow.
  - by eapply acted_version.
  - simpl. by rewrite Hpn.
Qed.
End Writes.
