(* ===== verification/Loop.v ===== *)
(** * The closed loop: reconciliations against the server

    [Reconcile] run again and again against a server whose routing obeys its
    writes ([RoutingServer]) refines the rollout of RolloutProps.v: each run is
    simulated by steps of that transition system, so the whole loop - queries,
    status written and read back, plans, failed writes, crashes - never skips a
    step and never cuts a pause short by more than the imprecision of the times
    it sees: the clock skew and the second [metav1.Time] rounds away. *)

From stdpp Require Import base gmap sets list strings relations.
From Stdlib Require Import ZArith Lia.
From S2P Require Import Prelude GoStd Api K8s K8sProps Trace World Temporal TemporalProps.
From S2P Require Import Planner RolloutProps Webhook StateMapper StateMapperProps GateProps.
From S2P Require Import Servers Safety ClientPool Controller ControllerProps RunProps EndToEnd.
Local Open Scope Z_scope.

Section Loop.
Context `{Ev : Env} `{W : World} `{L : K8sLib} `{KO : KeyOrder} `{SO : ScaleOrder} `{C : CertLib}.
Context `{!K8sLibLaws L} `{!KeyOrderLaws KO} `{!WorldClock W}.
Context `{!StatusServer W} `{!NamedObjects W} {skew : Duration} `{RS : !RoutingServer W skew}.
Context (maxVersions : Z).

(** ** What the planner sees of the ramp *)

Lemma stored_ramp req w c l0 l' s resp :
  acted maxVersions req w c l0 l' s ->
  w_Describe (sg_log1 s) (ComputeWorkerDeploymentName w) = inl resp ->
  let rc := wdi_RoutingConfig (dr_Info resp) in
  let t := TargetVersion (twd_Status (sg_defaulted s)) in
  if decide (buildIdOf (rc_RampingVersion rc) = ComputeBuildID w) then
    RampPercentage t = Some (rc_RampingVersionPercentage rc) /\
    exists m, RampLastModifiedAt t = Some m /\
      m <= rc_RampingVersionPercentageChangedTime rc < m + Second
  else RampPercentage t = None /\ RampLastModifiedAt t = None.
Proof.
  intros Ha Hresp rc t. destruct (acted_spec _ _ _ _ _ _ _ Ha) as (_ & Hsame & Hspec & Hsto).
  pose proof (ComputeBuildID_nonempty w) as Hne.
  destruct (ss_target _ _ _ _ Hspec Hne) as (_ & _ & Hramp).
  destruct (GetWorkerDeploymentState_answered _ _ _ _ _ _ _ _ _ _ Hresp
              (ac_observed _ _ _ _ _ _ _ Ha)) as (ig & vs & Hts & [Hdesc _]).
  pose proof (sts_percentage _ _ Hsto) as Hp. pose proof (sts_modified _ _ Hsto) as Hm.
  fold t in Hp, Hm. unfold target_ramp in Hramp. simpl in Hramp.
  rewrite (sbt_ramping _ _ Hsame), (sbt_percentage _ _ Hsame), (sbt_since _ _ Hsame),
    (sbt_modified _ _ Hsame), Hts in Hramp. simpl in Hramp. fold rc in Hramp.
  destruct (decide (buildIdOf (rc_RampingVersion rc) = ComputeBuildID w)) as [Heq|Hneq].
  - destruct Hramp as (Hp' & _ & Hm'). rewrite Hp, Hp'. split; [done|]. rewrite Hm' in Hm.
    destruct (rc_RampingVersion rc) as [v|]; [|by symmetry in Heq]. simpl in Hm.
    destruct (RampLastModifiedAt t) as [m|]; [|done]. exists m. by split.
  - destruct Hramp as (_ & Hm' & Hp'). rewrite Hm' in Hm.
    destruct (RampLastModifiedAt t) as [m|]; [done|]. split; [|done]. rewrite Hp, Hp'.
    rewrite bool_decide_false; [done|]. unfold statusOf, versionOf. simpl.
    destruct (ts_Versions (sg_state s) !! ComputeBuildID w) as [vi'|] eqn:Evi; [|done].
    destruct (same_but_tests_lookup _ _ _ _ Hsame Evi) as (vi & Hvi & He).
    assert (vi_Status vi' = vi_Status vi) as -> by (by apply (f_equal vi_Status) in He).
    rewrite Hts in Hvi. destruct (Hdesc _ _ Hvi) as (sm & _ & Hb & Hok).
    pose proof (vio_status _ _ _ _ _ _ _ _ Hok) as Hst. unfold status_ok in Hst. fold rc in Hst.
    intros Hs. rewrite Hs in Hst. destruct (same_version _ _); [done|].
    destruct (same_version (vs_Version sm) (rc_RampingVersion rc)) eqn:Es.
    + unfold same_version in Es. destruct (rc_RampingVersion rc) as [v|]; [|done].
      apply andb_true_iff in Es as [_ Es%bool_decide_eq_true]. simpl in Hneq. congruence.
    + by destruct (vs_DrainageStatus sm) as [| |]; [| |destruct Hst].
Qed.

(** ** The simulation relation *)

Context (name target : string) (steps : list RolloutStep).

(** The ramp [x] was written to the server in [l]. *)
Definition recorded (l : Log) (x : Z * Time) : Prop :=
  exists lw opts, (lw ++ [EvSetRampingVersion name opts]) `prefix_of` l /\
    srv_BuildID opts = target /\ srv_Percentage opts = float32_of_Z x.1 /\ w_Now lw = x.2.

Record loop_inv (l : Log) (st : RolloutState) : Prop := {
  li_current :
    let cur := buildIdOf (rc_CurrentVersion (sv_routing l name)) in
    if ro_current st then cur = target else cur <> target /\ cur <> EmptyString;
  li_ramp : ro_current st = false ->
    let rc := sv_routing l name in
    match ro_ramp st with
    | None => buildIdOf (rc_RampingVersion rc) <> target
    | Some x => buildIdOf (rc_RampingVersion rc) = target /\
                rc_RampingVersionPercentage rc = float32_of_Z x.1 /\
                x.2 - skew <= rc_RampingVersionPercentageChangedTime rc
    end;
  li_history : Forall (recorded l) (ro_history st);
}.

Definition loop_rel (l : Log) (st : RolloutState) : Prop :=
  ro_now st = w_Now l /\ loop_inv l st.

Abbreviation slack := (skew + Second).
Abbreviation rsteps := (rtc (rollout_step slack steps)).

Definition at_time (t : Time) (st : RolloutState) : RolloutState :=
  mkRolloutState t (ro_ramp st) (ro_current st) (ro_history st).

Lemma rsteps_tick st t : ro_now st <= t -> rsteps st (at_time t st).
Proof.
  intros Hle. apply rtc_once.
  pose proof (rollout_tick slack steps st (t - ro_now st) ltac:(lia)) as H.
  by replace (ro_now st + (t - ro_now st)) with t in H by lia.
Qed.

Lemma recorded_mono l l' x : l `prefix_of` l' -> recorded l x -> recorded l' x.
Proof. intros Hl (lw & opts & Hp & H). exists lw, opts. split; [by etrans|done]. Qed.

(** Anything that does not change the routing is time passing. *)
Lemma loop_inv_unchanged l l' st t :
  l `prefix_of` l' -> sv_routing l' name = sv_routing l name -> loop_inv l st ->
  loop_inv l' (at_time t st).
Proof.
  intros Hl Hr [Hc Hra Hh]. split; simpl; rewrite ?Hr; try done.
  eapply Forall_impl; [exact Hh|]. intros x. by apply recorded_mono.
Qed.

Lemma now_prefix l l' : l `prefix_of` l' -> w_Now l <= w_Now l'.
Proof. intros [x ->]. apply clock_mono. Qed.

Lemma loop_unchanged l l' st :
  l `prefix_of` l' -> sv_routing l' name = sv_routing l name -> loop_rel l st ->
  exists st', rsteps st st' /\ loop_rel l' st'.
Proof.
  intros Hl Hr [Hn Hi]. exists (at_time (w_Now l') st). split.
  - apply rsteps_tick. rewrite Hn. by apply now_prefix.
  - split; [done|]. by eapply loop_inv_unchanged.
Qed.

Lemma loop_quiet l evs st :
  quiet evs -> loop_rel l st -> exists st', rsteps st st' /\ loop_rel (l ++ evs) st'.
Proof.
  intros Hq. apply loop_unchanged; [by eexists|]. by apply routing_quiet.
Qed.

Lemma loop_idle l l' st :
  idle_extension l l' -> loop_rel l st -> exists st', rsteps st st' /\ loop_rel l' st'.
Proof. intros (evs & -> & Hi). by apply loop_quiet, idle_quiet. Qed.

(** ** One change of the routing *)

(** The decision [v], made at [ln], is the poll of the rollout in [st]. *)
Definition decided (st : RolloutState) (ln : Log) (v : VersionConfig) : Prop :=
  if ro_current st
  then exists token, v = mkVersionConfig token EmptyString false 0
  else vc_BuildID v = target /\
       exists vcfg seen, seen_ramp slack (ro_ramp st) seen /\ vc_SetCurrent vcfg = false /\
         poll steps vcfg (w_Now ln) seen = Ok (Some v).

Hypothesis Htarget : target <> EmptyString.

Lemma version_of_target b : b = target -> buildIdOf (version_of name b) = target.
Proof. intros ->. unfold version_of. by rewrite decide_False. Qed.

Lemma simulate_change l st ln lw p v t :
  loop_rel l st -> l `prefix_of` ln -> ln `prefix_of` lw ->
  sv_routing lw name = sv_routing l name -> p_WorkerDeploymentName p = name ->
  decided st ln v -> w_Now lw - skew <= t ->
  routing_change name (version_write p v) t (sv_routing lw name)
    (sv_routing (lw ++ [version_write p v]) name) ->
  exists st', rsteps st st' /\ loop_rel (lw ++ [version_write p v]) st'.
Proof.
  intros [Hn Hinv] Hln Hlw Hrc Hp Hdec Ht Hch. rewrite Hrc in Hch.
  set (ev := version_write p v) in *. set (rc' := sv_routing (lw ++ [ev]) name) in *.
  pose proof (now_prefix _ _ Hln) as T1. pose proof (now_prefix _ _ Hlw) as T2.
  pose proof (now_prefix lw (lw ++ [ev]) ltac:(by eexists)) as T3.
  assert (l `prefix_of` lw ++ [ev]) as Hl' by (etrans; [exact Hln|]; etrans; [exact Hlw|by eexists]).
  destruct Hinv as [Hc Hr Hh]. unfold decided in Hdec.
  assert (Forall (recorded (lw ++ [ev])) (ro_history st)) as Hh'.
  { eapply Forall_impl; [exact Hh|]. intros x. by apply recorded_mono. }
  destruct (ro_current st) eqn:Ecur.
  - destruct Hdec as [token ->]. destruct Hch as (_ & Hcur & _).
    exists (at_time (w_Now (lw ++ [ev])) st). split; [apply rsteps_tick; lia|]. split; [done|].
    split; simpl; rewrite ?Ecur; try done. fold rc'. by rewrite Hcur.
  - destruct Hdec as (Hb & vcfg & seen & Hseen & Hvc & Hpoll).
    set (s1 := at_time (w_Now ln) st).
    assert (rsteps st s1) as R1 by (apply rsteps_tick; lia).
    assert (0 <= w_Now lw - w_Now ln) as Hd by lia.
    destruct (vc_SetCurrent v) eqn:Esc.
    + pose proof (rollout_promote slack steps s1 seen vcfg v _ Ecur Hseen Hvc Hpoll Esc Hd) as R2.
      simpl in R2. replace (w_Now ln + (w_Now lw - w_Now ln)) with (w_Now lw) in R2 by lia.
      eexists. split.
      { etrans; [exact R1|]. eapply rtc_l; [exact R2|].
        apply (rsteps_tick _ (w_Now (lw ++ [ev]))). simpl. lia. }
      split; [done|]. split; simpl; try done. fold rc'.
      unfold ev, version_write in Hch. rewrite Esc in Hch. destruct Hch as (_ & -> & _). simpl.
      by apply version_of_target.
    + pose proof (rollout_ramp_set slack steps s1 seen vcfg v _ Ecur Hseen Hvc Hpoll Esc Hd) as R2.
      simpl in R2. replace (w_Now ln + (w_Now lw - w_Now ln)) with (w_Now lw) in R2 by lia.
      eexists. split.
      { etrans; [exact R1|]. eapply rtc_l; [exact R2|].
        apply (rsteps_tick _ (w_Now (lw ++ [ev]))). simpl. lia. }
      split; [done|]. unfold ev, version_write in Hch. rewrite Esc, Hp in Hch.
      destruct Hch as (_ & Hcur & Hramp & Hpct & Hchg). simpl in Hramp, Hpct.
      split; simpl; fold rc'; [by rewrite Hcur| |].
      * intros _. rewrite Hramp, Hpct, Hchg. split_and!; [by apply version_of_target|done|lia].
      * apply Forall_app. split; [done|]. constructor; [|constructor].
        exists lw, (mkSetRampingVersionOptions (vc_BuildID v)
                      (float32_of_Z (vc_RampPercentage v)) (vc_ConflictToken v)
                      getControllerIdentity).
        split; [|done]. unfold ev, version_write. by rewrite Esc, Hp.
Qed.

(** ** One reconciliation *)

(** The resource under management: Progressive, with these steps, and of this
    worker deployment and target build. *)
Record managed (w : TemporalWorkerDeployment) : Prop := {
  mg_name : ComputeWorkerDeploymentName w = name;
  mg_target : ComputeBuildID w = target;
  mg_strategy : rs_Strategy (spec_RolloutStrategy (twd_Spec w)) = UpdateProgressive;
  mg_steps : rs_Steps (spec_RolloutStrategy (twd_Spec w)) = steps;
}.

Section Run.
Context (req : Request) (w : TemporalWorkerDeployment) (c : TemporalConnectionSpec).
Context (l l0 l' : Log) (s : stages) (fetched : TemporalWorkerDeployment).
Hypothesis Hf : w_GetTWD l (req_Namespace req) (req_Name req) = inl fetched.
Hypothesis Hd : TWD_Default (ObjTWD fetched) = Ok w.
Hypothesis I0 : idle_extension l l0.
Hypothesis Ha : acted maxVersions req w c l0 l' s.
Hypothesis Hm : managed w.

Lemma acted_decided st v :
  loop_rel l st -> p_UpdateVersionConfig (sg_plan s) = Some v ->
  exists ln, l `prefix_of` ln /\ ln `prefix_of` sg_log4 s /\ decided st ln v.
Proof.
  intros [_ [Hc Hr _]] Hv.
  destruct (acted_ready _ _ _ _ _ _ _ _ _ _ Hf Hd I0 Ha Hv) as (resp & Hresp & _).
  destruct (acted_config _ _ _ _ _ _ _ _ _ _ Hf Hd I0 Ha Hv)
    as (_ & _ & _ & _ & ln & ln' & [Hln1 Hln2] & Hcfg).
  destruct (acted_during _ _ _ _ _ _ _ _ I0 Ha) as (_ & _ & _ & _ & [Hu _] & _).
  destruct (stored_target _ _ _ _ _ _ _ Ha) as (Htb & Htc & Htn & _).
  destruct (GetWorkerDeploymentState_answered _ _ _ _ _ _ _ _ _ _ Hresp
              (ac_observed _ _ _ _ _ _ _ Ha)) as (ig & vs & Hts & _).
  pose proof (stored_ramp _ _ _ _ _ _ _ Ha Hresp) as Hramp.
  assert (wdi_RoutingConfig (dr_Info resp) = sv_routing l name) as Hrc.
  { rewrite (mg_name _ Hm) in Hresp. rewrite (sv_describe _ _ _ Hresp).
    destruct (idle_extension_trans _ _ _ I0 (ac_idle1 _ _ _ _ _ _ _ Ha)) as (evs & -> & Hi).
    by apply routing_quiet, idle_quiet. }
  rewrite Hts in Htc, Htn. simpl in Htc, Htn, Hramp. rewrite Hrc in Htc, Htn, Hramp.
  rewrite (mg_target _ Hm) in Htb, Htc, Hramp.
  exists ln. split_and!; [by etrans|done|]. unfold decided. simpl in Hc.
  destruct (ro_current st) eqn:Ecur.
  - destruct (getVersionConfigDiff_cases _ _ _ _ _ _ Hcfg) as [(_ & _ & ->)|(Hnc & _)]; [eauto|].
    apply Htc in Hc. congruence.
  - destruct Hc as [Hct Hce]. specialize (Hr eq_refl). simpl in Hr.
    destruct (getVersionConfigDiff_cases _ _ _ _ _ _ Hcfg) as [(Hcur & _)|(_ & Hv' & Hpoll)].
    { apply Htc in Hcur. congruence. }
    simpl in Hv', Hpoll. rewrite (mg_steps _ Hm) in Hv', Hpoll.
    specialize (Hpoll (proj2 Htn Hce) (mg_strategy _ Hm)). split.
    { destruct Hv' as [->|(_ & st0 & _ & ->)]; exact Htb. }
    exists (base_config (twd_Status (sg_defaulted s))).
    destruct (ro_ramp st) as [[p0 t0]|].
    + destruct Hr as (Hrb & Hrp & Hrt). rewrite decide_True in Hramp by done.
      destruct Hramp as (Hpct & m & Hmod & Hm1 & Hm2). rewrite Hpct, Hmod, Hrp in Hpoll.
      exists (Some (p0, m)). simpl in *. split_and!; [done|lia|done|exact Hpoll].
    + rewrite decide_False in Hramp by done. destruct Hramp as [Hpct Hmod].
      rewrite Hpct, Hmod in Hpoll. by exists None.
Qed.

Lemma plan_name : p_WorkerDeploymentName (sg_plan s) = name.
Proof.
  destruct (acted_names _ _ _ _ _ _ _ _ _ Hf Hd I0 Ha) as (-> & _). apply (mg_name _ Hm).
Qed.

Lemma loop_acted st :
  loop_rel l st -> exists st', rsteps st st' /\ loop_rel l' st'.
Proof.
  intros Hst. pose proof (ac_attempted _ _ _ _ _ _ _ Ha) as Hatt.
  destruct (acted_idle _ _ _ _ _ _ _ Ha) as [Ia Ib].
  pose proof (idle_extension_trans _ _ _ (idle_extension_trans _ _ _ I0 Ia) Ib) as I4.
  rewrite (ac_log _ _ _ _ _ _ _ Ha).
  assert (quiet (sg_attempted s) \/ exists v pre post,
    p_UpdateVersionConfig (sg_plan s) = Some v /\
    sg_attempted s = pre ++ version_write (sg_plan s) v :: post /\ quiet pre /\ quiet post)
    as [Hq|(v & pre & post & Hv & Heq & Hpre & Hpost)].
  { destruct (plan_writes_routing (sg_plan s)) as [[_ Hq]|(v & pre & post & Hv & Heq & Hpre & Hpost)].
    - left. destruct Hatt as [rest Hrest]. rewrite Hrest in Hq. by apply Forall_app in Hq as [? _].
    - rewrite Heq in Hatt. destruct (prefix_single _ _ _ _ _ Hatt Hpre Hpost)
        as [?|(post' & -> & ?)]; [by left|]. right. by exists v, pre, post'. }
  { destruct (loop_idle _ _ _ I4 Hst) as (s1 & R1 & H1).
    destruct (loop_quiet _ _ _ Hq H1) as (s2 & R2 & H2). exists s2. split; [by etrans|done]. }
  rewrite Heq. set (ev := version_write (sg_plan s) v) in *. set (lw := sg_log4 s ++ pre).
  assert (sg_log4 s ++ pre ++ ev :: post = (lw ++ [ev]) ++ post) as ->
    by (unfold lw; by rewrite <- !app_assoc).
  assert (sv_routing lw name = sv_routing l name) as Hrc.
  { unfold lw. rewrite routing_quiet by done. destruct I4 as (evs & -> & Hi).
    by apply routing_quiet, idle_quiet. }
  assert (l `prefix_of` lw) as Hllw.
  { etrans; [by apply idle_extension_prefix|by eexists]. }
  assert (exists st1, rsteps st st1 /\ loop_rel (lw ++ [ev]) st1) as (st1 & R1 & H1).
  { destruct (sv_event lw ev name) as [Hsame|(t & Ht & Hch)].
    - eapply loop_unchanged; [etrans; [exact Hllw|by eexists]| |exact Hst]. by rewrite Hsame.
    - destruct (acted_decided _ _ Hst Hv) as (ln & Hln1 & Hln2 & Hdec).
      eapply simulate_change; [exact Hst|exact Hln1| |exact Hrc|exact plan_name|exact Hdec
        |exact Ht|exact Hch].
      etrans; [exact Hln2|by eexists]. }
  destruct (loop_quiet _ _ _ Hpost H1) as (s2 & R2 & H2). exists s2. split; [by etrans|done].
Qed.
End Run.

(** ** All runs *)

(** The controller's runs on the managed resource, and between them anything
    that does not change the routing of this worker deployment. *)
Inductive controller_runs (l : Log) : Log -> Prop :=
  | runs_none : controller_runs l l
  | runs_other l1 evs :
      controller_runs l l1 -> Forall (foreign_event name) evs -> controller_runs l (l1 ++ evs)
  | runs_reconcile l1 cp req o l2 :
      controller_runs l l1 ->
      (forall fetched w, w_GetTWD l1 (req_Namespace req) (req_Name req) = inl fetched ->
         TWD_Default (ObjTWD fetched) = Ok w -> managed w) ->
      Reconcile maxVersions cp req l1 = (o, l2) -> controller_runs l l2.

(** The rollout of the target has not begun, and another version is Current. *)
Definition fresh_target (l : Log) : Prop :=
  let rc := sv_routing l name in
  buildIdOf (rc_CurrentVersion rc) <> target /\
  buildIdOf (rc_CurrentVersion rc) <> EmptyString /\
  buildIdOf (rc_RampingVersion rc) <> target.

Lemma loop_rel_start l : fresh_target l -> loop_rel l (rollout_start (w_Now l)).
Proof. intros (Hc & He & Hr). split; [done|]. split; simpl; [done|done|constructor]. Qed.

Lemma loop_reconcile l st cp req o l' :
  (forall fetched w, w_GetTWD l (req_Namespace req) (req_Name req) = inl fetched ->
     TWD_Default (ObjTWD fetched) = Ok w -> managed w) ->
  Reconcile maxVersions cp req l = (o, l') -> loop_rel l st ->
  exists st', rsteps st st' /\ loop_rel l' st'.
Proof.
  intros Hman Hrun Hst. apply Reconcile_runs in Hrun as [Hidle|(w & c & s & Hrec)].
  - by eapply loop_idle.
  - destruct Hrec as [(fetched & Hf & Hd) _ (l0 & I0 & Ha)].
    eapply loop_acted; [exact Hf|exact Hd|exact I0|exact Ha|by eapply Hman|done].
Qed.

Lemma controller_runs_simulated l0 l :
  fresh_target l0 -> controller_runs l0 l ->
  exists st, rsteps (rollout_start (w_Now l0)) st /\ loop_rel l st.
Proof.
  intros Hfresh Hruns.
  induction Hruns as [|l1 evs _ (st & R & Hst) Hq|l1 cp req o l2 _ (st & R & Hst) Hman Hrec].
  - exists (rollout_start (w_Now l0)). split; [done|by apply loop_rel_start].
  - destruct (loop_unchanged l1 (l1 ++ evs) st) as (st' & R' & Hst');
      [by eexists|by apply routing_foreign|done|].
    exists st'. split; [by etrans|done].
  - destruct (loop_reconcile _ _ _ _ _ _ Hman Hrec Hst) as (st' & R' & Hst').
    exists st'. split; [by etrans|done].
Qed.

(** C4: The closed loop refines the rollout: however often [Reconcile] runs on a
    Progressive resource, with whatever outcomes, and whatever else happens
    that leaves this routing alone, the routing the server ends with is that of
    a state the abstract rollout reaches from its start - the same percentage,
    recorded at the same time up to the clocks' skew, or Current - and every ramp of its history was
    written to the server. *)
Theorem loop_refines_rollout l0 l :
  fresh_target l0 -> controller_runs l0 l ->
  exists st, rtc (rollout_step (skew + Second) steps) (rollout_start (w_Now l0)) st /\
    loop_rel l st.
Proof. apply controller_runs_simulated. Qed.

(** C1: End-to-end rollout safety: over any number of reconciliations on accepted
    steps there is a list of ramp writes, each made to the server at its time,
    whose percentages are those of a prefix of the steps in order, each held for
    more than its step's pause less the clock skew and one second before the
    next; and when the server calls the target Current, every step was written,
    the last one was held too, and all the pauses, less that imprecision, have
    passed since the start. *)
Theorem loop_respects_steps l0 l :
  rollout_steps steps -> fresh_target l0 -> controller_runs l0 l ->
  exists ramps : list (Z * Time),
    Forall (recorded l) ramps /\
    (fst <$> ramps) `prefix_of` (step_RampPercentage <$> steps) /\
    (forall n (x y : Z * Time) s, ramps !! n = Some x -> ramps !! S n = Some y ->
       steps !! n = Some s -> x.2 + step_PauseDuration s - (skew + Second) < y.2) /\
    (buildIdOf (rc_CurrentVersion (sv_routing l name)) = target ->
     fst <$> ramps = step_RampPercentage <$> steps /\
     (forall (x : Z * Time) s, last ramps = Some x -> last steps = Some s ->
        x.2 + step_PauseDuration s - (skew + Second) < w_Now l) /\
     total_pause steps - Z.of_nat (length steps) * (skew + Second) < w_Now l - w_Now l0).
Proof.
  intros Hs Hf Hruns. destruct (controller_runs_simulated _ _ Hf Hruns) as (st & R & Hn & Hi).
  destruct (rollout_inv_respected _ _ _ _ (rollout_reachable_inv _ _ _ _ Hs R))
    as (Hpre & Hheld & Hcur).
  exists (ro_history st). split_and!; [apply (li_history _ _ Hi)|done|exact Hheld|].
  intros Hc. rewrite <- Hn. apply Hcur. pose proof (li_current _ _ Hi) as Hl. simpl in Hl.
  destruct (ro_current st); [done|]. by destruct Hl.
Qed.
End Loop.
