(* ===== verification/Liveness.v ===== *)
(** * The closed loop makes progress

    What successful reconciliations of a target that is ready do: each of them,
    when the pause of the current step has passed, moves the rollout one step
    on, whatever other runs do in between; so after one more of them than there
    are steps the target is Current. *)

From stdpp Require Import base gmap sets list strings relations.
From Stdlib Require Import ZArith Lia.
From S2P Require Import Prelude GoStd Api K8s K8sProps Trace World Temporal TemporalProps.
From S2P Require Import Planner RolloutProps Webhook StateMapper StateMapperProps GateProps.
From S2P Require Import Servers Safety ClientPool Controller ControllerProps RunProps EndToEnd Loop.
Local Open Scope Z_scope.

(** ** Runs that succeed *)

Section Successful.
Context `{Ev : Env} `{W : World} `{L : K8sLib} `{KO : KeyOrder} `{SO : ScaleOrder} `{C : CertLib}.
Context (maxVersions : Z).

(** The result of a reconciliation that did everything it planned. *)
Definition completed : Result := mkResult true (10 * Second).

(** Its run: all the writes of its plan, each answered with success. *)
Definition acted_fully (req : Request) (w : TemporalWorkerDeployment) (c : TemporalConnectionSpec)
    (l l' : Log) (s : stages) : Prop :=
  acted maxVersions req w c l l' s /\
  sg_attempted s = (plan_writes (sg_plan s)).*1 /\ plan_done (sg_plan s) (sg_log4 s).

Lemma reconcileWith_succeeds req w c l l' :
  reconcileWith maxVersions req w c l = (Ok completed, l') ->
  exists s, acted_fully req w c l l' s.
Proof.
  unfold reconcileWith. intros ([ks h] & l1 & Hf%wrap_error_Ok & Hk)%io_bind_Ok.
  pose proof (reads_extend_Ok _ _ _ _ (fetchDeploymentState_reads _ _) Hf) as I1.
  apply io_bind_Ok in Hk as (ts0 & l2 & Hg%wrap_error_Ok & Hk).
  pose proof (reads_extend_Ok _ _ _ _ (GetWorkerDeploymentState_reads _ _ _ _ _ _) Hg) as I2.
  apply io_bind_Ok in Hk as ([ts st] & l3 & Hs & Hk).
  pose proof (reads_extend_Ok _ _ _ _ (generateStatus_reads _ _ _ _) Hs) as I3.
  apply io_bind_Ok in Hk as (u & l4 & Hu & Hk). apply try_Ok in Hu as (o & Hu & Hul & _).
  unfold UpdateStatus, call in Hu. injection Hu as <- <-. simpl in *.
  destruct u as [stored|e].
  2: { destruct (is_kind KApiConflict e); [|discriminate].
       injection Hk as Hk _. exfalso. revert Hk. vm_compute. discriminate. }
  specialize (Hul _ eq_refl). apply answer_Ok in Hul.
  apply io_bind_Ok in Hk as (w' & l5 & [Hd ->]%lift_Ok & Hk).
  apply io_bind_Ok in Hk as (p & l6 & Hp & Hk).
  pose proof (reads_extend_Ok _ _ _ _ (generatePlan_reads _ _ _ _) Hp) as I5.
  apply io_bind_Ok in Hk as ([] & l7 & He & [= <-]).
  destruct (executePlan_Ok _ _ _ _ _ _ _ _ Hp He) as [-> Hdone].
  exists (mkStages ks h ts0 ts st stored w' p l1 l2 l3 l6 (plan_writes p).*1).
  split; [|by split]. by split.
Qed.

Lemma Reconcile_succeeds cp cp' req l l' :
  Reconcile maxVersions cp req l = (Ok (cp', inl completed), l') ->
  exists fetched w c l0 s, w_GetTWD l (req_Namespace req) (req_Name req) = inl fetched /\
    TWD_Default (ObjTWD fetched) = Ok w /\ valid_deployment w /\
    idle_extension l l0 /\ acted_fully req w c l0 l' s.
Proof.
  unfold Reconcile. intros H. rewrite io_bind_run in H. unfold try, GetTWD, call, answer in H.
  pose proof (idle_extension_snoc l (EvGetTWD (req_Namespace req) (req_Name req)) eq_refl) as I1.
  destruct (w_GetTWD l (req_Namespace req) (req_Name req)) as [fetched|e] eqn:Ef.
  2: { by destruct (is_kind KApiNotFound e). }
  set (l1 := l ++ [EvGetTWD (req_Namespace req) (req_Name req)]) in *.
  rewrite io_bind_run in H. unfold lift in H at 1.
  destruct (TWD_Default (ObjTWD fetched)) as [w|e|p] eqn:Ed; [|done..].
  rewrite io_bind_run in H. unfold lift in H at 1.
  destruct (validate_cases w) as [[Hval Hv]|[_ Hv]]; rewrite Hv in H.
  2: { injection H as _ H _. exfalso. revert H. vm_compute. discriminate. }
  rewrite io_bind_run in H. unfold GetConnection, call, answer in H. set (evc := EvGetConnection _ _) in H.
  pose proof (idle_extension_snoc l1 evc eq_refl) as I2.
  destruct (w_GetConnection l1 _ _) as [c|e]; [|done].
  rewrite io_bind_run in H.
  pose proof (reads_extend (getClient cp w c) (l1 ++ [evc]) (getClient_reads cp w c)) as I3.
  destruct (getClient cp w c (l1 ++ [evc])) as [[[cp1 client]|e|p] l3]; simpl in I3; [|done..].
  rewrite io_bind_run in H. unfold UseClient, call in H. simpl in H.
  pose proof (idle_extension_snoc l3 (EvUseClient client) eq_refl) as I4.
  rewrite io_bind_run in H.
  destruct (reconcileWith maxVersions req w c (l3 ++ [EvUseClient client])) as [r l4] eqn:Er.
  destruct r as [r|e|p]; [|done..]. injection H as _ -> ->.
  destruct (reconcileWith_succeeds _ _ _ _ _ Er) as [s Hs].
  exists fetched, w, c, (l3 ++ [EvUseClient client]), s. split_and!; [done..| |done].
  idle_chain.
Qed.
End Successful.

Section Liveness.
Context `{Ev : Env} `{W : World} `{L : K8sLib} `{KO : KeyOrder} `{SO : ScaleOrder} `{C : CertLib}.
Context `{!K8sLibLaws L} `{!KeyOrderLaws KO} `{!WorldClock W}.
Context `{!StatusServer W} `{!NamedObjects W} {skew : Duration} `{RS : !RoutingServer W skew}.
Context `{!ObeyingServer W skew}.
Context (maxVersions : Z).

(** ** A target that is ready *)

Definition own_modifier (m : string) : Prop :=
  m = getControllerIdentity \/ m = serverDeleteVersionIdentity \/ m = EmptyString.

(** In the run the server listed the target under the deployment name [d]. *)
Definition listed_as (w : TemporalWorkerDeployment) (l l' : Log) (d : string) : Prop :=
  exists ld resp sm, during l l' ld /\ w_Describe ld (ComputeWorkerDeploymentName w) = inl resp /\
    sm ∈ wdi_VersionSummaries (dr_Info resp) /\ wdv_BuildId (vs_Version sm) = ComputeBuildID w /\
    wdv_DeploymentName (vs_Version sm) = d.

(** The answers of a run (from [l] to [l']) that let the target of [w] be rolled
    out: its Deployments are listed and available, the server knows the version,
    nobody else modified the worker deployment last, and the gate's workflows, if
    there is a gate, are completed on at least one task queue. *)
Record target_serves (req : Request) (w : TemporalWorkerDeployment) (l l' : Log) : Prop := {
  ts_deployed ld items :
    during l l' ld -> w_ListDeployments ld (req_Namespace req) (req_Name req) = inl items ->
    (exists d, d ∈ items /\ build_label d = Some (ComputeBuildID w)) /\
    forall d, d ∈ items -> build_label d = Some (ComputeBuildID w) -> is_Some (available_since d);
  ts_described ld :
    during l l' ld ->
    exists resp sm, w_Describe ld (ComputeWorkerDeploymentName w) = inl resp /\
      own_modifier (wdi_LastModifierIdentity (dr_Info resp)) /\
      sm ∈ wdi_VersionSummaries (dr_Info resp) /\ wdv_BuildId (vs_Version sm) = ComputeBuildID w;
  ts_version ld :
    during l l' ld ->
    exists desc, w_DescribeVersion ld (ComputeWorkerDeploymentName w) (ComputeBuildID w) = inl desc /\
      (is_Some (rs_Gate (spec_RolloutStrategy (twd_Spec w))) ->
       wf_queues (vd_TaskQueuesInfos desc) <> [] /\
       forall lw d tq, during l l' lw -> listed_as w l l' d -> tq ∈ wf_queues (vd_TaskQueuesInfos desc) ->
         exists info, w_DescribeWorkflowExecution lw
             (GetTestWorkflowID d (ComputeBuildID w) (tqi_Name tq)) = inl info /\
           wei_Status info = WORKFLOW_EXECUTION_STATUS_COMPLETED);
}.

(** All test workflows are found completed. *)
Lemma testWorkflows_loop_completed vi tqs names acc la lb l names' r l' :
  (forall lw tq, during la lb lw -> tq ∈ wf_queues tqs ->
     exists info, w_DescribeWorkflowExecution lw (test_id vi tq) = inl info /\
       wei_Status info = WORKFLOW_EXECUTION_STATUS_COMPLETED) ->
  testWorkflows_loop vi tqs names acc l = (Ok (names', r), l') ->
  la `prefix_of` l -> l' `prefix_of` lb ->
  exists wfs, r = inl (acc ++ wfs) /\
    names' = names ++ ((fun tq => mkTaskQueue (tqi_Name tq)) <$> wf_queues tqs) /\
    length wfs = length (wf_queues tqs) /\
    Forall (fun wf => wf_Status wf = WorkflowExecutionStatusCompleted) wfs.
Proof.
  revert names acc l. induction tqs as [|tq tqs IH]; intros names acc l Hc Hrun Hla Hlb; simpl in Hrun.
  - injection Hrun as <- <- _. exists []. rewrite !app_nil_r. by split_and!.
  - unfold wf_queues in Hc |- *. rewrite filter_cons in Hc |- *. case_decide as Ht; [|by apply (IH _ _ l)].
    rewrite io_bind_run in Hrun. unfold try, testWorkflowOf in Hrun.
    rewrite io_bind_run in Hrun. unfold try, DescribeWorkflowExecution, call, answer in Hrun.
    assert (l `prefix_of` l') as Hll.
    { assert (l ++ [EvDescribeWorkflowExecution (test_id vi tq)] `prefix_of` l') as Hp;
        [|etrans; [by eexists|exact Hp]].
      destruct (w_DescribeWorkflowExecution l _) as [info|e]; simpl in Hrun.
      - by eapply extends_prefix; [eapply emits_extends, testWorkflows_loop_reads|exact Hrun].
      - destruct (strings_Contains _ _).
        + by eapply extends_prefix; [eapply emits_extends, testWorkflows_loop_reads|exact Hrun].
        + by injection Hrun as _ _ <-. }
    destruct (Hc l tq) as (info & Hi & Hst); [split; [done|by etrans]|by left|].
    unfold test_id in Hi. rewrite Hi in Hrun. simpl in Hrun.
    apply IH in Hrun as (wfs & -> & -> & Hlen & Hall); [| |by etrans; [|by eexists]|done].
    + eexists (_ :: wfs). rewrite <- app_assoc. split_and!; [done|by rewrite <- app_assoc| |].
      * simpl. by rewrite Hlen.
      * constructor; [|done]. simpl. by rewrite Hst.
    + intros lw tq' Hlw Htq'. apply Hc; [done|]. by right.
Qed.

(** The status of a target all of whose test workflows are completed. *)
Lemma generateStatus_completed h w ts ks l ts' st l' vi desc :
  let target := ComputeBuildID w in
  generateStatus h w ts ks l = (Ok (ts', st), l') -> target <> ts_CurrentBuildID ts ->
  ts_Versions ts !! target = Some vi -> vi_TaskQueues vi = [] -> vi_TestWorkflows vi = [] ->
  w_DescribeVersion l (ComputeWorkerDeploymentName w) (vi_BuildID vi) = inl desc ->
  (forall lw tq, during l l' lw -> tq ∈ wf_queues (vd_TaskQueuesInfos desc) ->
     exists info, w_DescribeWorkflowExecution lw (test_id vi tq) = inl info /\
       wei_Status info = WORKFLOW_EXECUTION_STATUS_COMPLETED) ->
  exists vi', ts_Versions ts' !! target = Some vi' /\
    vi_TaskQueues vi' = (fun tq => mkTaskQueue (tqi_Name tq)) <$> wf_queues (vd_TaskQueuesInfos desc) /\
    length (vi_TestWorkflows vi') = length (wf_queues (vd_TaskQueuesInfos desc)) /\
    Forall (fun wf => wf_Status wf = WorkflowExecutionStatusCompleted) (vi_TestWorkflows vi').
Proof.
  intros target Hg Hcur Hvi Hq Ht Hdesc Hc. unfold generateStatus in Hg. fold target in Hg.
  rewrite decide_False in Hg by done. apply io_bind_Ok in Hg as (ts1 & lg & Hg & Hk).
  apply io_bind_Ok in Hk as (st1 & lg2 & Hst & [= <- _ <-]). injection Hst as _ ->.
  apply io_bind_Ok in Hg as (out & lg3 & Hg & [= <- <-]).
  unfold GetTestWorkflowStatus in Hg. rewrite Hvi in Hg.
  rewrite io_bind_run in Hg. unfold try, DescribeVersion, call, answer in Hg. rewrite Hdesc in Hg.
  apply io_bind_Ok in Hg as ([names r] & lg4 & Hloop & [= <- <-]). simpl.
  eapply testWorkflows_loop_completed in Hloop as (wfs & -> & -> & Hlen & Hall);
    [|exact Hc|by eexists|done].
  rewrite lookup_insert_eq. simpl. rewrite lookup_insert_eq.
  eexists. split; [reflexivity|]. simpl. rewrite Hq, Ht. by split_and!.
Qed.

Section Run.
Context (req : Request) (w : TemporalWorkerDeployment) (c : TemporalConnectionSpec).
Context (l l0 l' : Log) (s : stages) (fetched : TemporalWorkerDeployment).
Hypothesis Hf : w_GetTWD l (req_Namespace req) (req_Name req) = inl fetched.
Hypothesis Hd : TWD_Default (ObjTWD fetched) = Ok w.
Hypothesis I0 : idle_extension l l0.
Hypothesis Ha : acted maxVersions req w c l0 l' s.
Hypothesis Hr : target_serves req w l l'.

Abbreviation stored := (twd_Status (sg_defaulted s)).
Abbreviation target := (ComputeBuildID w).
Abbreviation strategy := (spec_RolloutStrategy (twd_Spec w)).

(** The target's Deployment is found and available. *)
Lemma serves_healthy : is_Some (HealthySince (TargetVersion stored)).
Proof.
  destruct (acted_spec _ _ _ _ _ _ _ Ha) as (_ & _ & Hspec & Hsto).
  destruct (acted_during _ _ _ _ _ _ _ _ I0 Ha) as (D0 & _).
  destruct (ss_target _ _ _ _ Hspec (ComputeBuildID_nonempty w)) as (Hdv & _).
  destruct (fetchDeploymentState_run _ _ _ _ _ _ (ac_fetch _ _ _ _ _ _ _ Ha)) as (items & Hit & Hg).
  destruct (ts_deployed _ _ _ _ Hr _ _ D0 Hit) as [Hex Hall].
  destruct (GetDeploymentState_tracked items) as (ks & h & Hg' & Hwf & Htr).
  rewrite Hg in Hg'. injection Hg' as <- <-.
  apply Htr in Hex as [p Hp]. destruct (wf_deployment _ _ Hwf _ _ Hp) as (d & Hhd & Hb).
  assert (d ∈ items) as Hin.
  { destruct (GetDeploymentState_inv _ _ _ Hg) as [Hh _].
    assert (sg_store s ≡ₚ items) as Hperm by (rewrite Hh; apply SliceStable_perm).
    rewrite <- Hperm. by eapply list_elem_of_lookup_2. }
  destruct (Hall d Hin Hb) as [t Ht].
  pose proof (vst_healthy _ _ (sts_target _ _ Hsto)) as Hst.
  rewrite (dv_healthy _ _ _ _ Hdv) in Hst. simpl in Hst. rewrite Hp in Hst. simpl in Hst.
  rewrite Hhd in Hst. simpl in Hst. rewrite Ht in Hst. simpl in Hst.
  by destruct (HealthySince (TargetVersion stored)).
Qed.

(** The server's answer in the run, and its entry for the target. *)
Lemma serves_answer :
  exists resp sm vi ig vs, w_Describe (sg_log1 s) (ComputeWorkerDeploymentName w) = inl resp /\
    own_modifier (wdi_LastModifierIdentity (dr_Info resp)) /\
    sg_observed s = mkTemporalWorkerState
      (buildIdOf (rc_CurrentVersion (wdi_RoutingConfig (dr_Info resp)))) (dr_ConflictToken resp)
      (buildIdOf (rc_RampingVersion (wdi_RoutingConfig (dr_Info resp))))
      (rc_RampingVersionPercentage (wdi_RoutingConfig (dr_Info resp)))
      ((fun _ => rc_RampingVersionChangedTime (wdi_RoutingConfig (dr_Info resp)))
         <$> rc_RampingVersion (wdi_RoutingConfig (dr_Info resp)))
      ((fun _ => rc_RampingVersionPercentageChangedTime (wdi_RoutingConfig (dr_Info resp)))
         <$> rc_RampingVersion (wdi_RoutingConfig (dr_Info resp)))
      vs (wdi_LastModifierIdentity (dr_Info resp)) ig /\
    vs !! target = Some vi /\ sm ∈ wdi_VersionSummaries (dr_Info resp) /\
    wdv_BuildId (vs_Version sm) = target /\
    version_info_ok (sg_log1 s) (sg_log2 s) (ComputeWorkerDeploymentName w) target
      (rs_Strategy strategy) (wdi_RoutingConfig (dr_Info resp)) sm vi /\
    fresh_versions (sg_observed s).
Proof.
  destruct (acted_during _ _ _ _ _ _ _ _ I0 Ha) as (_ & D1 & _).
  destruct (ts_described _ _ _ _ Hr _ D1) as (resp & sm & Hresp & Hown & Hsm & Hb).
  destruct (GetWorkerDeploymentState_answered _ _ _ _ _ _ _ _ _ _ Hresp
              (ac_observed _ _ _ _ _ _ _ Ha)) as (ig & vs & Hts & [Hdesc Hex]).
  destruct (Hex sm Hsm) as [vi Hvi]. rewrite Hb in Hvi.
  destruct (Hdesc _ _ Hvi) as (sm' & Hsm' & Hb' & Hok).
  exists resp, sm', vi, ig, vs. split_and!; try done.
  intros b vb Hvb. rewrite Hts in Hvb. destruct (Hdesc _ _ Hvb) as (? & _ & _ & Hok').
  apply (vio_fresh _ _ _ _ _ _ _ _ Hok').
Qed.

Lemma serves_registered : ver_Status (TargetVersion stored) <> VersionStatusNotRegistered.
Proof.
  destruct (acted_spec _ _ _ _ _ _ _ Ha) as (_ & Hsame & Hspec & Hsto).
  destruct (acted_during _ _ _ _ _ _ _ _ I0 Ha) as (_ & [D1 _] & [_ D2] & _).
  destruct serves_answer as (resp & sm & vi & ig & vs & _ & _ & Hts & Hvi & _ & Hb & Hok & _).
  destruct (ss_target _ _ _ _ Hspec (ComputeBuildID_nonempty w)) as (Hdv & _).
  rewrite (vst_status _ _ (sts_target _ _ Hsto)), (dv_status _ _ _ _ Hdv).
  unfold statusOf, versionOf. simpl.
  pose proof (f_equal (lookup target) (sbt_versions _ _ Hsame)) as Hv.
  rewrite !lookup_fmap, Hts in Hv. simpl in Hv. rewrite Hvi in Hv. simpl in Hv.
  destruct (ts_Versions (sg_state s) !! target) as [vi'|]; [|done].
  apply (inj Some) in Hv. assert (vi_Status vi' = vi_Status vi) as ->
    by (by apply (f_equal vi_Status) in Hv).
  intros Hn. destruct (vio_unregistered _ _ _ _ _ _ _ _ Hok Hn) as (lm & e & [Hm1 Hm2] & He & _).
  rewrite Hb in He.
  destruct (ts_version _ _ _ _ Hr lm) as (desc & Hdesc & _); [split; by etrans|congruence].
Qed.

(** The gate passes when the target is not Current. *)
Lemma serves_gate : ts_CurrentBuildID (sg_observed s) <> target -> gate_passed stored strategy = true.
Proof.
  intros Hcur. destruct (stored_target _ _ _ _ _ _ _ Ha) as (_ & _ & _ & _ & ->).
  unfold gate_passed. destruct (rs_Gate strategy) as [gate|] eqn:Eg; [|done].
  destruct (acted_spec _ _ _ _ _ _ _ Ha) as (_ & Hsame & Hspec & _).
  destruct (acted_during _ _ _ _ _ _ _ _ I0 Ha) as (_ & D1 & D2 & D3 & _).
  destruct serves_answer as (resp & sm & vi & ig & vs & Hresp & _ & Hts & Hvi & Hsm & Hb & Hok & Hfr).
  destruct (ss_target _ _ _ _ Hspec (ComputeBuildID_nonempty w)) as (Hdv & Htw & _).
  destruct (vio_id _ _ _ _ _ _ _ _ Hok) as [Hid Hdn]. destruct (vio_fresh _ _ _ _ _ _ _ _ Hok) as [Hq Ht].
  destruct (ts_version _ _ _ _ Hr _ D2) as (desc & Hdesc & Hgate).
  destruct (Hgate ltac:(by rewrite Eg)) as [Hne Hdone].
  destruct (generateStatus_completed _ _ _ _ _ _ _ _ vi desc (ac_status _ _ _ _ _ _ _ Ha))
    as (vi' & Hvi' & Hqs & Hlen & Hall); [done|by rewrite Hts|done|done|by rewrite Hid, Hb| |].
  { intros lw tq [Hlw1 Hlw2] Htq. unfold test_id. rewrite Hid, Hb. apply Hdone; [|by exists (sg_log1 s), resp, sm|done].
    destruct D2 as [? _], D3 as [_ ?]. split; by etrans. }
  rewrite Htw, (dv_queues _ _ _ _ Hdv). unfold taskQueuesOf, versionOf. simpl. rewrite Hvi'.
  rewrite Hqs, Hlen, length_fmap. destruct (wf_queues (vd_TaskQueuesInfos desc)) as [|tq tqs]; [done|].
  rewrite Nat.ltb_irrefl. simpl. apply forallb_forall. intros wf Hwf%list_elem_of_In.
  rewrite Forall_forall in Hall. by apply bool_decide_eq_true, Hall.
Qed.

(** The strategy in force is the resource's. *)
Lemma serves_strategy : effectiveStrategy (sg_defaulted s) (sg_state s) = strategy.
Proof.
  destruct (acted_spec _ _ _ _ _ _ _ Ha) as (_ & Hsame & Hspec & Hsto).
  destruct (acted_defaulted _ _ _ _ _ _ _ _ _ Hf Hd I0 Ha) as (Hsp & _).
  destruct serves_answer as (resp & sm & vi & ig & vs & _ & Hown & Hts & _).
  rewrite effectiveStrategy_own, Hsp; [done|]. left. intros (H1 & H2 & H3).
  rewrite (sts_modifier _ _ Hsto), (ss_modifier _ _ _ _ Hspec) in H1, H2, H3. simpl in H1, H2, H3.
  rewrite (sbt_modifier _ _ Hsame), Hts in H1, H2, H3. simpl in H1, H2, H3.
  by destruct Hown as [?|[?|?]].
Qed.

(** The plan follows the steps. *)
Lemma serves_config :
  rs_Strategy strategy = UpdateProgressive -> ts_CurrentBuildID (sg_observed s) <> target ->
  ts_CurrentBuildID (sg_observed s) <> EmptyString ->
  exists ln, during l l' ln /\
    handleProgressiveRollout (rs_Steps strategy) (w_Now ln)
      (RampLastModifiedAt (TargetVersion stored)) (RampPercentage (TargetVersion stored))
      (base_config stored) = Ok (p_UpdateVersionConfig (sg_plan s)).
Proof.
  intros Hp Hnt Hne. destruct (stored_target _ _ _ _ _ _ _ Ha) as (_ & Htc & Hcv & _).
  destruct (acted_during _ _ _ _ _ _ _ _ I0 Ha) as (_ & _ & _ & _ & [Hu _] & [_ H4]).
  destruct (generatePlan_parts _ _ _ _ _ _ _ (ac_plan _ _ _ _ _ _ _ Ha)) as (ks & h & Hpp).
  destruct (pp_config _ _ _ _ _ _ _ _ _ Hpp) as (ln & ln' & [Hln1 Hln2] & Hcfg).
  rewrite serves_strategy in Hcfg. exists ln. split; [split; by etrans|].
  apply Hcv in Hne as [cur Hcur].
  destruct (getVersionConfigDiff_follows stored (sg_state s) (mkConfig strategy) ln) as [_ Hstep].
  { split_and!; [simpl; by rewrite Hp|apply serves_healthy|apply serves_registered|].
    by apply serves_gate. }
  { right. unfold first_rollout. by rewrite Hcur. }
  { destruct (target_is_current stored) eqn:E; [|done]. by destruct Hnt; apply Htc. }
  simpl in Hstep. rewrite (Hstep Hp) in Hcfg. by injection Hcfg.
Qed.
End Run.

(** ** Steps of the rollout *)

Context (name target : string) (steps : list RolloutStep).
Hypothesis Hsteps : rollout_steps steps.
Hypothesis Htarget : target <> EmptyString.

(** The pause of the current step has passed: of the step whose percentage the
    target ramps with, since that percentage was set.  Without a ramp of the
    target there is nothing to wait for. *)
Definition pauses_over (l : Log) : Prop :=
  let rc := sv_routing l name in
  buildIdOf (rc_RampingVersion rc) = target ->
  forall s, s ∈ steps ->
    rc_RampingVersionPercentage rc = float32_of_Z (step_RampPercentage s) ->
    rc_RampingVersionPercentageChangedTime rc + step_PauseDuration s < w_Now l.

(** What the next poll decides when [k] ramps have been set. *)
Definition next_change (k : nat) (vcfg : VersionConfig) : VersionConfig :=
  match steps !! k with
  | Some s => vc_set_RampPercentage (step_RampPercentage s) vcfg
  | None => vc_set_SetCurrent true vcfg
  end.

Lemma handle_moves_first now modified vcfg :
  handleProgressiveRollout steps now modified None vcfg = Ok (Some (next_change 0 vcfg)).
Proof.
  destruct (handle_first steps now modified vcfg Hsteps) as (s & Hs0 & ->).
  unfold next_change. by rewrite Hs0.
Qed.

Lemma handle_moves i s now m vcfg :
  steps !! i = Some s -> m + step_PauseDuration s < now ->
  handleProgressiveRollout steps now (Some m) (Some (float32_of_Z (step_RampPercentage s))) vcfg
  = Ok (Some (next_change (S i) vcfg)).
Proof.
  intros Hi Hp. pose proof (rollout_ramp _ _ _ Hsteps Hi).
  destruct (handle_active steps now (Some m) vcfg (step_RampPercentage s) Hsteps ltac:(lia))
    as (j & s' & Hj & Hle & Hnext & ->).
  assert (j = i) as -> by (by eapply active_unique). simplify_eq.
  unfold step_decision, next_change. rewrite decide_True by done. rewrite decide_True by done.
  by destruct (steps !! S i).
Qed.

(** The ramps set so far only get more, and Current stays. *)
Definition advanced (st st' : RolloutState) : Prop :=
  (ro_current st = true -> ro_current st' = true) /\
  (length (ro_history st) <= length (ro_history st'))%nat.

Lemma rollout_step_advances slack st st' : rollout_step slack steps st st' -> advanced st st'.
Proof.
  intros [? ? ?|? ? ? ? ? ?|st1 ? ? ? ? Hc _ _ _ _ _|st1 ? ? ? ? Hc _ _ _ _ _]; split; simpl; try done.
  - by rewrite Hc.
  - rewrite length_app. lia.
Qed.

Lemma rsteps_advance slack st st' : rtc (rollout_step slack steps) st st' -> advanced st st'.
Proof.
  induction 1 as [|x y z H%rollout_step_advances _ [I1 I2]]; [by split|].
  destruct H as [H1 H2]. split; [by auto|lia].
Qed.

(** In a reachable state, a recorded ramp is that of the step last set. *)
Lemma ramp_of_history slack t0 st :
  rollout_inv slack steps t0 st -> ro_current st = false ->
  match ro_ramp st with
  | None => length (ro_history st) = 0%nat
  | Some x => exists i s, length (ro_history st) = S i /\ steps !! i = Some s /\
                x.1 = step_RampPercentage s
  end.
Proof.
  intros Hinv Hc. pose proof (ri_ramp _ _ _ _ Hinv Hc) as Hr.
  pose proof (ri_history _ _ _ _ Hinv) as Hh. pose proof (ri_length _ _ _ _ Hinv) as Hl.
  rewrite Hr, last_lookup. destruct (length (ro_history st)) as [|i] eqn:En; simpl.
  { apply length_zero_iff_nil in En. by rewrite En. }
  destruct (lookup_lt_is_Some_2 (ro_history st) i) as [x Hx]; [lia|]. rewrite Hx.
  destruct (lookup_lt_is_Some_2 steps i) as [s Hs]; [lia|]. exists i, s. split_and!; [done|done|].
  apply (f_equal (lookup i)) in Hh.
  rewrite !list_lookup_fmap, Hx, lookup_take_lt, Hs in Hh by lia. by injection Hh.
Qed.

Lemma percent_step i j s s' :
  steps !! i = Some s -> steps !! j = Some s' ->
  float32_of_Z (step_RampPercentage s) = float32_of_Z (step_RampPercentage s') -> i = j.
Proof.
  intros Hi Hj He. pose proof (rollout_ramp _ _ _ Hsteps Hi). pose proof (rollout_ramp _ _ _ Hsteps Hj).
  assert (step_RampPercentage s = step_RampPercentage s') as Hp.
  { apply Z.eqb_eq. rewrite <- float32_eqb_percents by lia. rewrite He, float32_eqb_percents by lia.
    apply Z.eqb_refl. }
  destruct Hsteps as [(_ & Hra & _) _].
  destruct (Nat.lt_trichotomy i j) as [Hlt|[->|Hlt]]; [|done|].
  - pose proof (ramps_above_mono _ _ _ _ _ _ Hra Hlt Hi Hj). lia.
  - pose proof (ramps_above_mono _ _ _ _ _ _ Hra Hlt Hj Hi). lia.
Qed.

Section Served.
Context (req : Request) (w : TemporalWorkerDeployment) (c : TemporalConnectionSpec).
Context (l l0 l' : Log) (s : stages) (fetched : TemporalWorkerDeployment).
Hypothesis Hf : w_GetTWD l (req_Namespace req) (req_Name req) = inl fetched.
Hypothesis Hd : TWD_Default (ObjTWD fetched) = Ok w.
Hypothesis I0 : idle_extension l l0.
Hypothesis Ha : acted_fully maxVersions req w c l0 l' s.
Hypothesis Hr : target_serves req w l l'.
Hypothesis Hm : managed name target steps w.

Lemma served_answer :
  exists resp, w_Describe (sg_log1 s) (ComputeWorkerDeploymentName w) = inl resp /\
    wdi_RoutingConfig (dr_Info resp) = sv_routing l name /\
    ts_CurrentBuildID (sg_observed s) = buildIdOf (rc_CurrentVersion (sv_routing l name)).
Proof.
  destruct Ha as [Ha' _].
  destruct (serves_answer _ _ _ _ _ _ _ I0 Ha' Hr) as (resp & sm & vi & ig & vs & Hresp & _ & Hts & _).
  exists resp. assert (wdi_RoutingConfig (dr_Info resp) = sv_routing l name) as Hrc.
  { rewrite (mg_name _ _ _ _ Hm) in Hresp. rewrite (sv_describe _ _ _ Hresp).
    destruct (idle_extension_trans _ _ _ I0 (ac_idle1 _ _ _ _ _ _ _ Ha')) as (evs & -> & Hi).
    by apply routing_quiet, idle_quiet. }
  split_and!; [done|done|]. rewrite Hts. simpl. by rewrite Hrc.
Qed.

(** The plan of the run takes the next step. *)
Lemma served_decision slack t0 st :
  loop_rel (skew := skew) name target l st -> rollout_inv slack steps t0 st ->
  ro_current st = false -> pauses_over l ->
  p_UpdateVersionConfig (sg_plan s)
  = Some (next_change (length (ro_history st)) (base_config (twd_Status (sg_defaulted s)))).
Proof.
  intros [_ [Hc Hra _]] Hinv Hcur Hpause. rewrite Hcur in Hc. destruct Hc as [Hct Hce].
  specialize (Hra Hcur). pose proof (ramp_of_history _ _ _ Hinv Hcur) as Hh.
  destruct served_answer as (resp & Hresp & Hrc & Hoc). destruct Ha as [Ha' _].
  destruct (serves_config _ _ _ _ _ _ _ _ Hf Hd I0 Ha' Hr) as (ln & [Hln _] & Hcfg).
  { apply (mg_strategy _ _ _ _ Hm). }
  { by rewrite Hoc, (mg_target _ _ _ _ Hm). }
  { by rewrite Hoc. }
  rewrite (mg_steps _ _ _ _ Hm) in Hcfg.
  pose proof (stored_ramp _ _ _ _ _ _ _ _ Ha' Hresp) as Hramp. simpl in Hramp.
  rewrite Hrc, (mg_target _ _ _ _ Hm) in Hramp.
  destruct (ro_ramp st) as [x|].
  - destruct Hra as (Hrb & Hrp & _). destruct Hh as (i & s0 & Hlen & Hs0 & Hx).
    rewrite decide_True in Hramp by done. destruct Hramp as (Hpct & m & Hmod & Hm1 & _).
    rewrite Hpct, Hmod, Hrp, Hx in Hcfg.
    rewrite (handle_moves i) in Hcfg; [|done|].
    + rewrite Hlen. by injection Hcfg.
    + pose proof (Hpause Hrb s0 (list_elem_of_lookup_2 _ _ _ Hs0)) as Hp.
      rewrite Hrp, Hx in Hp. specialize (Hp eq_refl). simpl in Hp.
      pose proof (now_prefix _ _ Hln). lia.
  - rewrite decide_False in Hramp by done. destruct Hramp as [Hpct Hmod].
    rewrite Hpct, Hmod, handle_moves_first in Hcfg. rewrite Hh. by injection Hcfg.
Qed.

(** What the plan decided about the routing has been applied by the end. *)
Lemma served_applied v :
  p_UpdateVersionConfig (sg_plan s) = Some v ->
  exists t, routing_change name (version_write (sg_plan s) v) t
              (sv_routing l name) (sv_routing l' name).
Proof.
  intros Hv. destruct Ha as (Ha' & Hatt & Hdone).
  destruct (acted_idle _ _ _ _ _ _ _ Ha') as [Ia Ib].
  pose proof (idle_extension_trans _ _ _ (idle_extension_trans _ _ _ I0 Ia) Ib) as (evs & Hl4 & Hidle).
  destruct (plan_writes_routing (sg_plan s)) as [[Hn _]|(v' & pre & post & Hv' & Heq & Hpre & Hpost)];
    [congruence|]. assert (v' = v) as -> by congruence.
  rewrite (ac_log _ _ _ _ _ _ _ Ha'), Hatt, Heq, cons_middle, !app_assoc.
  rewrite (routing_quiet _ post) by done.
  specialize (Hdone pre _ post Heq).
  assert (sv_routing (sg_log4 s ++ pre) name = sv_routing l name) as Hrc.
  { rewrite routing_quiet by done. rewrite Hl4. by apply routing_quiet, idle_quiet. }
  assert (p_WorkerDeploymentName (sg_plan s) = name) as Hn.
  { destruct (acted_names _ _ _ _ _ _ _ _ _ Hf Hd I0 Ha') as (-> & _). apply (mg_name _ _ _ _ Hm). }
  destruct (sv_obeys (sg_log4 s ++ pre) (version_write (sg_plan s) v) name) as (t & _ & Hch).
  - unfold version_write. by destruct (vc_SetCurrent v).
  - unfold version_write. rewrite Hn. by destruct (vc_SetCurrent v); simpl; intros [].
  - exact Hdone.
  - exists t. by rewrite Hrc in Hch.
Qed.

(** Such a run takes the rollout one step on. *)
Lemma served_progress t0 st :
  rtc (rollout_step (skew + Second) steps) (rollout_start t0) st ->
  loop_rel (skew := skew) name target l st -> pauses_over l ->
  exists st', rtc (rollout_step (skew + Second) steps) st st' /\
    loop_rel (skew := skew) name target l' st' /\
    (ro_current st' = true \/ (length (ro_history st) < length (ro_history st'))%nat).
Proof.
  intros R Hst Hpause. pose proof (proj1 Ha) as Ha'.
  destruct (loop_acted _ _ _ _ Htarget _ _ _ _ _ _ _ _ Hf Hd I0 Ha' Hm st Hst) as (st' & R' & Hst').
  exists st'. split_and!; [done|done|].
  destruct (ro_current st) eqn:Ecur; [left; by apply (rsteps_advance _ _ _ R')|].
  pose proof (rollout_reachable_inv _ _ _ _ Hsteps R) as Hinv.
  pose proof (rollout_reachable_inv _ _ _ _ Hsteps (transitivity R R')) as Hinv'.
  destruct (served_applied _ (served_decision _ _ _ Hst Hinv Ecur Hpause)) as (t & Hch).
  destruct (stored_target _ _ _ _ _ _ _ Ha') as (Htb & _). rewrite (mg_target _ _ _ _ Hm) in Htb.
  destruct Hst as [_ [Hc _ _]]. rewrite Ecur in Hc. destruct Hst' as [_ [Hc' Hra' _]].
  unfold next_change, version_write in Hch.
  destruct (steps !! length (ro_history st)) as [s1|] eqn:Es; simpl in Hch.
  - destruct Hch as (_ & Hsame & Hramp & Hpct & _). rewrite Hsame in Hc'. right.
    destruct (ro_current st') eqn:Ecur'; [by destruct Hc|]. specialize (Hra' eq_refl). simpl in Hra'.
    pose proof (ramp_of_history _ _ _ Hinv' Ecur') as Hh'.
    destruct (ro_ramp st') as [x|].
    + destruct Hra' as (_ & Hx & _). destruct Hh' as (i & s2 & Hlen & Hs2 & Hx2).
      rewrite Hpct, Hx2 in Hx. pose proof (percent_step _ _ _ _ Es Hs2 Hx) as Hi. lia.
    + exfalso. apply Hra'. rewrite Hramp. by apply version_of_target.
  - destruct Hch as (_ & Hcur' & _). left. destruct (ro_current st'); [done|].
    destruct Hc' as [Hc' _]. exfalso. apply Hc'. rewrite Hcur'. by apply version_of_target.
Qed.
End Served.

(** ** Any number of runs *)

(** Runs of the controller, [n] of which complete while the target serves and the
    current step's pause is over; in between, any other runs, whatever they do and however
    they end, and any events that leave this routing alone. *)
Inductive served_runs (l : Log) : nat -> Log -> Prop :=
  | served_none : served_runs l 0 l
  | served_other n l1 l2 :
      served_runs l n l1 -> controller_runs maxVersions name target steps l1 l2 ->
      served_runs l n l2
  | served_run n l1 cp req cp' l2 :
      served_runs l n l1 -> pauses_over l1 ->
      (forall fetched w, w_GetTWD l1 (req_Namespace req) (req_Name req) = inl fetched ->
         TWD_Default (ObjTWD fetched) = Ok w ->
         managed name target steps w /\ target_serves req w l1 l2) ->
      Reconcile maxVersions cp req l1 = (Ok (cp', inl completed), l2) ->
      served_runs l (S n) l2.

Lemma served_runs_progress l0 n l :
  fresh_target (RS := RS) name target l0 -> served_runs l0 n l ->
  exists st, rtc (rollout_step (skew + Second) steps) (rollout_start (w_Now l0)) st /\
    loop_rel (skew := skew) name target l st /\
    (ro_current st = true \/ (n <= length (ro_history st))%nat).
Proof.
  intros Hfresh Hruns. induction Hruns as [|n l1 l2 _ (st & R & Hst & Hn) Hother
    |n l1 cp req cp' l2 _ (st & R & Hst & Hn) Hpause Hserves Hrun].
  - exists (rollout_start (w_Now l0)). split_and!; [done|by apply loop_rel_start|by right].
  - assert (exists st', rtc (rollout_step (skew + Second) steps) st st' /\
              loop_rel (skew := skew) name target l2 st') as (st' & R' & Hst').
    { clear Hn. induction Hother as [|l2 evs _ (st1 & R1 & Hst1) Hq|l2 cp req o l3 _ (st1 & R1 & Hst1) Hman Hrec].
      - by exists st.
      - destruct (loop_unchanged name target steps l2 (l2 ++ evs) st1) as (st2 & R2 & Hst2);
          [by eexists|by apply routing_foreign|done|]. exists st2. split; [by etrans|done].
      - destruct (loop_reconcile _ _ _ _ Htarget _ _ _ _ _ _ Hman Hrec Hst1) as (st2 & R2 & Hst2).
        exists st2. split; [by etrans|done]. }
    exists st'. split_and!; [by etrans|done|].
    destruct (rsteps_advance _ _ _ R') as [H1 H2]. destruct Hn; [left; by auto|right; lia].
  - apply Reconcile_succeeds in Hrun as (fetched & w & c & l0' & s & Hf & Hd & _ & I0 & Ha).
    destruct (Hserves _ _ Hf Hd) as [Hm Hr].
    destruct (served_progress _ _ _ _ _ _ _ _ Hf Hd I0 Ha Hr Hm _ _ R Hst Hpause)
      as (st' & R' & Hst' & Hn'). exists st'. split_and!; [by etrans|done|].
    destruct (rsteps_advance _ _ _ R') as [H1 _]. destruct Hn; [left; by auto|].
    destruct Hn'; [by left|right; lia].
Qed.

(** C5: The closed loop completes the rollout.  Take a target whose rollout has not
    begun on a server that applies the writes it answers with success.  However
    many other reconciliations run, succeed, fail or crash half-way, in between:
    after one completed reconciliation more than there are steps, each started
    when the current step's pause has passed on the server and answered with a
    target that serves, the server calls the target Current. *)
Theorem loop_completes l0 n l :
  fresh_target (RS := RS) name target l0 -> served_runs l0 n l -> (length steps < n)%nat ->
  buildIdOf (rc_CurrentVersion (sv_routing l name)) = target.
Proof.
  intros Hfresh Hruns Hlt.
  destruct (served_runs_progress _ _ _ Hfresh Hruns) as (st & R & [_ [Hc _ _]] & Hn).
  pose proof (ri_length _ _ _ _ (rollout_reachable_inv _ _ _ _ Hsteps R)) as Hlen.
  destruct (ro_current st); [done|]. destruct Hn; [done|lia].
Qed.
End Liveness.
