(* ===== verification/SunsetLoop.v ===== *)
(** * Drained versions are retired

    The other half of the loop's progress: a reconciliation that completes while
    the server calls a version drained for long enough scales its Deployment to
    zero, and deletes it once it is at zero and the second delay has passed. *)

From stdpp Require Import base gmap sets list strings.
From Stdlib Require Import ZArith Lia.
From S2P Require Import Prelude GoStd Api K8s K8sProps Trace World Temporal TemporalProps.
From S2P Require Import Planner SunsetProps UpdateProps Webhook StateMapper StateMapperProps GateProps.
From S2P Require Import Servers Safety ClientPool Controller ControllerProps RunProps EndToEnd Liveness.
Local Open Scope Z_scope.

Section Sunset.
Context `{Ev : Env} `{W : World} `{L : K8sLib} `{KO : KeyOrder} `{SO : ScaleOrder} `{C : CertLib}.
Context `{!K8sLibLaws L} `{!KeyOrderLaws KO} `{!ScaleOrderLaws SO} `{!WorldClock W}.
Context `{!StatusServer W} `{!NamedObjects W} `{!DecodingClient W}.
Context (maxVersions : Z).

(** ** The stored status of a run *)

Section Stored.
Context (ks : DeploymentState) (h : Store) (m : stateMapper).
Context (target : string) (sent stored : TemporalWorkerDeploymentStatus).
Hypothesis Hks : sm_k8sState m = ks.
Hypothesis Hwf : state_wf ks h.
Hypothesis Hspec : status_spec h m target sent.
Hypothesis Hne : target <> EmptyString.
Hypothesis Hsto : status_stored sent stored.

Lemma sent_unshared : refs_unshared sent.
Proof.
  intros v v' ref ref' Hv Hv' Hr Hr' Haddr.
  pose proof (status_described _ _ _ _ _ Hne Hspec Hv) as Hd.
  pose proof (status_described _ _ _ _ _ Hne Hspec Hv') as Hd'.
  destruct (describes_ref _ _ _ _ _ Hks Hwf Hd Hr) as (_ & d & Hp & Hl & ->).
  destruct (describes_ref _ _ _ _ _ Hks Hwf Hd' Hr') as (_ & d' & Hp' & Hl' & ->).
  simpl in *. rewrite Haddr in *. by simplify_eq.
Qed.

Lemma stored_roles : roles_distinct stored.
Proof.
  assert ((fun v => BuildID (dep_base v)) <$> DeprecatedVersions stored
          = (fun v => BuildID (dep_base v)) <$> DeprecatedVersions sent) as Hids.
  { pose proof (sts_deprecated _ _ Hsto) as H. revert H.
    generalize (DeprecatedVersions sent) (DeprecatedVersions stored).
    induction 1 as [|v v' vs vs' Hv _ IH]; [done|]. rewrite !fmap_cons.
    f_equal; [apply (vst_build _ _ (dst_base _ _ Hv))|done]. }
  assert (forall v, v ∈ DeprecatedVersions stored ->
            is_deprecated (ts_CurrentBuildID (sm_temporalState m)) target (BuildID (dep_base v))) as Hdep.
  { intros v Hv. apply (list_elem_of_fmap_2 (fun v => BuildID (dep_base v))) in Hv. rewrite Hids in Hv.
    rewrite (ss_deprecated_ids _ _ _ _ Hspec) in Hv. by apply list_elem_of_filter in Hv as [? _]. }
  split.
  - rewrite Hids, (ss_deprecated_ids _ _ _ _ Hspec). apply NoDup_filter, NoDup_fst_map_to_list.
  - intros v Hv. rewrite (vst_build _ _ (sts_target _ _ Hsto)), (ss_target_id _ _ _ _ Hspec).
    by apply Hdep.
  - intros v c Hv Hc. pose proof (sts_current _ _ Hsto) as Hcur. rewrite Hc in Hcur.
    pose proof (ss_current _ _ _ _ Hspec) as Hs. destruct (CurrentVersion sent) as [c0|]; [|done].
    destruct Hs as [_ Hs]. rewrite (vst_build _ _ Hcur), (dv_id _ _ _ _ Hs). by apply Hdep.
Qed.
End Stored.

(** ** A version that is due *)

(** The answers of a run (from [l] to [l']) that make the version [b] due: its
    Deployments are listed, with [r] replicas, and the server says that nothing
    is routed to it and that it has been drained since [t]. *)
Record sunset_due (req : Request) (w : TemporalWorkerDeployment) (l l' : Log) (b : string)
    (t : Time) (r : Z) : Prop := {
  sd_other : b <> EmptyString /\ b <> ComputeBuildID w;
  sd_listed ld items :
    during l l' ld -> w_ListDeployments ld (req_Namespace req) (req_Name req) = inl items ->
    (exists d, d ∈ items /\ build_label d = Some b) /\
    forall d, d ∈ items -> build_label d = Some b -> ds_Replicas (d_Spec d) = Some r;
  sd_described ld :
    during l l' ld ->
    exists resp sm, w_Describe ld (ComputeWorkerDeploymentName w) = inl resp /\ ~ routed resp b /\
      sm ∈ wdi_VersionSummaries (dr_Info resp) /\ wdv_BuildId (vs_Version sm) = b /\
      forall sm', sm' ∈ wdi_VersionSummaries (dr_Info resp) ->
        wdv_BuildId (vs_Version sm') = b -> vs_DrainageStatus sm' = DrainageStatusDrained;
  sd_version ld :
    during l l' ld ->
    exists desc di, w_DescribeVersion ld (ComputeWorkerDeploymentName w) b = inl desc /\
      vd_DrainageInfo desc = Some di /\ di_DrainageStatus di = DrainageStatusDrained /\
      di_LastChangedTime di = t;
}.

Lemma same_version_routed resp b v o :
  ~ routed resp b -> wdv_BuildId v = b ->
  o = rc_CurrentVersion (wdi_RoutingConfig (dr_Info resp)) \/
  o = rc_RampingVersion (wdi_RoutingConfig (dr_Info resp)) ->
  same_version v o = false.
Proof.
  intros Hn Hb Ho. unfold same_version. destruct o as [v'|]; [|done].
  apply andb_false_iff. right. apply bool_decide_eq_false. intros He. apply Hn.
  exists v'. split; [congruence|]. destruct Ho as [<-|<-]; auto.
Qed.

Section Run.
Context (req : Request) (w : TemporalWorkerDeployment) (c : TemporalConnectionSpec).
Context (l l0 l' : Log) (s : stages) (fetched : TemporalWorkerDeployment).
Context (b : string) (t : Time) (r : Z).
Hypothesis Hf : w_GetTWD l (req_Namespace req) (req_Name req) = inl fetched.
Hypothesis Hd : TWD_Default (ObjTWD fetched) = Ok w.
Hypothesis I0 : idle_extension l l0.
Hypothesis Ha : acted_fully maxVersions req w c l0 l' s.
Hypothesis Hdue : sunset_due req w l l' b t r.

Abbreviation stored := (twd_Status (sg_defaulted s)).

(** The mapper knows it as drained since [t]. *)
Lemma due_drained :
  statusOf (stage_mapper w s) b = VersionStatusDrained /\
  (versionOf (stage_mapper w s) b ≫= vi_DrainedSince) = Some t /\
  ts_CurrentBuildID (sg_state s) <> b.
Proof.
  destruct Ha as (Hact & _). destruct (acted_spec _ _ _ _ _ _ _ Hact) as (_ & Hsame & _ & _).
  destruct (acted_during _ _ _ _ _ _ _ _ I0 Hact) as (_ & D1 & D2 & _).
  destruct (sd_described _ _ _ _ _ _ _ Hdue _ D1) as (resp & sm & Hresp & Hnr & Hsm & Hb & Hall).
  destruct (GetWorkerDeploymentState_answered _ _ _ _ _ _ _ _ _ _ Hresp
              (ac_observed _ _ _ _ _ _ _ Hact)) as (ig & vs & Hts & [Hdesc Hex]).
  destruct (Hex sm Hsm) as [vi Hvi]. rewrite Hb in Hvi.
  destruct (Hdesc _ _ Hvi) as (sm' & Hsm' & Hb' & Hok).
  assert (forall lm, during (sg_log1 s) (sg_log2 s) lm -> during l l' lm) as Hdur.
  { intros lm. apply during_mono; [apply D1|apply D2]. }
  pose proof (vio_status _ _ _ _ _ _ _ _ Hok) as Hst. unfold status_ok in Hst.
  rewrite !(same_version_routed resp b) in Hst by auto. rewrite (Hall _ Hsm' Hb') in Hst.
  assert (vi_Status vi = VersionStatusDrained) as Hdr.
  { destruct Hst as [|Hnreg]; [done|].
    destruct (vio_unregistered _ _ _ _ _ _ _ _ Hok Hnreg) as (lm & e & Hlm & He & _).
    destruct (sd_version _ _ _ _ _ _ _ Hdue _ (Hdur _ Hlm)) as (desc & di & Hv & _).
    rewrite Hb' in He. congruence. }
  assert (vi_DrainedSince vi = Some t) as Hsince.
  { destruct (vi_DrainedSince vi) as [t'|] eqn:Et.
    - destruct (vio_drained _ _ _ _ _ _ _ _ Hok _ Et) as (_ & lm & desc & di & Hlm & Hv & Hdi & _ & <-).
      destruct (sd_version _ _ _ _ _ _ _ Hdue _ (Hdur _ Hlm)) as (desc' & di' & Hv' & Hdi' & _ & <-).
      rewrite Hb', Hv' in Hv. by simplify_eq.
    - destruct (vio_unknown _ _ _ _ _ _ _ _ Hok Hdr Et) as (lm & Hlm & Hv).
      destruct (sd_version _ _ _ _ _ _ _ Hdue _ (Hdur _ Hlm)) as (desc' & di' & Hv' & Hdi' & Hs' & _).
      rewrite Hb', Hv' in Hv. by destruct (Hv _ Hdi'). }
  pose proof (f_equal (lookup b) (sbt_versions _ _ Hsame)) as Hv.
  rewrite !lookup_fmap, Hts in Hv. simpl in Hv. rewrite Hvi in Hv. simpl in Hv.
  unfold statusOf, versionOf. simpl.
  destruct (ts_Versions (sg_state s) !! b) as [vi'|]; [|done]. apply (inj Some) in Hv. simpl.
  assert (vi_Status vi' = vi_Status vi /\ vi_DrainedSince vi' = vi_DrainedSince vi) as [-> ->].
  { split; [by apply (f_equal vi_Status) in Hv|by apply (f_equal vi_DrainedSince) in Hv]. }
  split_and!; [done|done|]. rewrite (sbt_current _ _ Hsame), Hts. simpl. intros Hcur. apply Hnr.
  destruct (sd_other _ _ _ _ _ _ _ Hdue) as [Hbe _].
  destruct (rc_CurrentVersion (wdi_RoutingConfig (dr_Info resp))) as [v|] eqn:Ecv; [|done].
  exists v. split; [done|by left].
Qed.

(** The stored status has its entry, with a reference. *)
Lemma due_version :
  exists (v : DeprecatedWorkerDeploymentVersion) t' ref,
    v ∈ DeprecatedVersions stored /\ BuildID v = b /\ ver_Status v = VersionStatusDrained /\
    DrainedSince v = Some t' /\ t' <= t /\ ver_Deployment v = Some ref /\
    exists d, listed_in_run l l' (req_Namespace req) (req_Name req) d /\ build_label d = Some b /\
      ref_Namespace (rp_ref ref) = om_Namespace (d_ObjectMeta d) /\
      ref_Name (rp_ref ref) = om_Name (d_ObjectMeta d) /\
      ref_UID (rp_ref ref) = om_UID (d_ObjectMeta d).
Proof.
  destruct Ha as (Hact & _). destruct (acted_spec _ _ _ _ _ _ _ Hact) as (Hwf & _ & Hspec & Hsto).
  destruct (acted_during _ _ _ _ _ _ _ _ I0 Hact) as (D0 & _).
  destruct due_drained as (Hst & Hsince & Hcur). destruct (sd_other _ _ _ _ _ _ _ Hdue) as [Hbe Hbt].
  destruct (fetchDeploymentState_run _ _ _ _ _ _ (ac_fetch _ _ _ _ _ _ _ Hact)) as (items & Hit & Hg).
  destruct (sd_listed _ _ _ _ _ _ _ Hdue _ _ D0 Hit) as [Hex _].
  destruct (GetDeploymentState_tracked items) as (ks & h & Hg' & _ & Htr).
  rewrite Hg in Hg'. injection Hg' as <- <-. apply Htr in Hex as [p Hp].
  assert (b ∈ (fun v => BuildID (dep_base v)) <$> DeprecatedVersions (sg_status s)) as Hin.
  { rewrite (ss_deprecated_ids _ _ _ _ Hspec). apply list_elem_of_filter. split.
    - split_and!; [done| |done]. intros He. by apply Hcur.
    - apply list_elem_of_fmap. exists (b, p). split; [done|]. by apply elem_of_map_to_list. }
  apply list_elem_of_fmap in Hin as (v0 & Hb & Hv0).
  destruct (ss_deprecated _ _ _ _ Hspec v0 Hv0) as (Hdv & Hds & _). rewrite <- Hb in *.
  apply list_elem_of_lookup in Hv0 as [i Hi].
  destruct (Forall2_lookup_l _ _ _ _ _ (sts_deprecated _ _ Hsto) Hi) as (v & Hv & [Hbase Hdr _]).
  rewrite Hds, Hsince in Hdr. destruct (DrainedSince v) as [t'|] eqn:Et; [|done].
  pose proof (dv_ref _ _ _ _ Hdv) as Hr0. simpl in Hr0. rewrite Hp in Hr0. simpl in Hr0.
  rewrite (wf_ref _ _ Hwf), Hp in Hr0. simpl in Hr0.
  destruct (wf_deployment _ _ Hwf _ _ Hp) as (d & Hhd & Hl). unfold ref_at in Hr0. rewrite Hhd in Hr0.
  pose proof (vst_ref _ _ Hbase) as Href. rewrite Hr0 in Href. simpl in Href.
  destruct (ver_Deployment v) as [ref|] eqn:Er; [|done]. injection Href as Href.
  destruct (fetchDeploymentState_listed _ _ _ _ _ (ac_fetch _ _ _ _ _ _ _ Hact)) as (items' & Hit' & Hperm).
  exists v, t', ref. split_and!; [by eapply list_elem_of_lookup_2| | |done| |done|].
  - by rewrite (vst_build _ _ Hbase).
  - by rewrite (vst_status _ _ Hbase), (dv_status _ _ _ _ Hdv).
  - simpl in Hdr. lia.
  - exists d. rewrite Href. split_and!; try done. by apply (listed_elem _ _ _ _ _ _ _ _ _ D0 Hit' Hperm Hhd).
Qed.

(** What the plan reads of the version's Deployment. *)
Lemma due_planned :
  exists ks h p, plan_parts maxVersions (sg_defaulted s) c (sg_state s)
      (sg_log3 s ++ [EvUpdateStatus (twd_set_Status (sg_status s) w)]) (sg_log4 s) (sg_plan s) ks h /\
    Deployments ks !! b = Some p /\ replicas_at h p = Some r /\
    exists d, h !! p = Some d /\ build_label d = Some b /\
              listed_in_run l l' (req_Namespace req) (req_Name req) d.
Proof.
  destruct Ha as (Hact & _). destruct (acted_during _ _ _ _ _ _ _ _ I0 Hact) as (_ & _ & _ & _ & Du & _).
  destruct (acted_defaulted _ _ _ _ _ _ _ _ _ Hf Hd I0 Hact) as (_ & Hns & Hname).
  destruct (generatePlan_parts _ _ _ _ _ _ _ (ac_plan _ _ _ _ _ _ _ Hact)) as (ks & h & Hpp).
  destruct (pp_listed _ _ _ _ _ _ _ _ _ Hpp) as (items & Hperm & Hitems & Hg).
  rewrite Hns, Hname in Hitems.
  destruct (sd_listed _ _ _ _ _ _ _ Hdue _ _ Du Hitems) as [Hex Hall].
  destruct (GetDeploymentState_tracked items) as (ks' & h' & Hg' & Hwf & Htr).
  rewrite Hg in Hg'. injection Hg' as <- <-. apply Htr in Hex as [p Hp].
  destruct (wf_deployment _ _ Hwf _ _ Hp) as (d & Hhd & Hl).
  assert (d ∈ items) as Hin by (rewrite <- Hperm; by eapply list_elem_of_lookup_2).
  exists ks, h, p. split_and!; [done|done| |].
  - unfold replicas_at. rewrite Hhd. by apply Hall.
  - exists d. split_and!; [done|done|]. by apply (listed_elem _ _ _ _ _ _ _ _ _ Du Hitems Hperm Hhd).
Qed.

(** The clock of the plan's steps is past the start of the run. *)
Lemma due_later ln d v t' :
  during (sg_log3 s ++ [EvUpdateStatus (twd_set_Status (sg_status s) w)]) (sg_log4 s) ln ->
  t' <= t -> DrainedSince v = Some t' -> d < time_Since (w_Now l) t ->
  drained_longer_than v (w_Now ln) d.
Proof.
  intros [Hl1 _] Hle Hv Hlt. exists t'. split; [done|].
  destruct Ha as (Hact & _). destruct (acted_during _ _ _ _ _ _ _ _ I0 Hact) as (_ & _ & _ & _ & [Hl0 _] & _).
  assert (w_Now l <= w_Now ln) as Hnow.
  { assert (l `prefix_of` ln) as [x ->] by (by etrans). apply clock_mono. }
  unfold time_Since, time_Sub in *. lia.
Qed.

(** A write of the plan happened in the run. *)
Lemma plan_write_happened ev :
  ev ∈ (plan_writes (sg_plan s)).*1 -> exists evs, l' = l ++ evs /\ ev ∈ evs.
Proof.
  destruct Ha as (Hact & Hatt & _). rewrite <- Hatt. intros Hin.
  assert (l `prefix_of` sg_log4 s) as [pre Hpre].
  { apply idle_extension_prefix.
    pose proof (idle_extension_snoc (sg_log3 s)
                  (EvUpdateStatus (twd_set_Status (sg_status s) w)) eq_refl). destruct Hact. idle_chain. }
  exists (pre ++ sg_attempted s). rewrite (ac_log _ _ _ _ _ _ _ Hact), Hpre, app_assoc.
  split; [done|]. apply elem_of_app. by right.
Qed.

(** At zero replicas it is deleted. *)
Lemma due_deleted dd sd :
  r = 0 -> DeleteDelay (spec_SunsetStrategy (twd_Spec w)) = Some dd ->
  ScaledownDelay (spec_SunsetStrategy (twd_Spec w)) = Some sd ->
  duration_add dd sd < time_Since (w_Now l) t ->
  exists evs d d', l' = l ++ evs /\ EvDelete d' ∈ evs /\ removes (EvDelete d') d /\
    build_label d = Some b /\ listed_in_run l l' (req_Namespace req) (req_Name req) d.
Proof.
  intros Hr0 Hdd Hsd Hlt. destruct due_version as (v & t' & ref & Hv & Hb & Hst & Hds & Hle & Hr & _).
  destruct due_planned as (ks & h & p & Hpp & Hp & Hrep & d & Hhd & Hl & Hlisted).
  destruct Ha as (Hact & _).
  destruct (acted_defaulted _ _ _ _ _ _ _ _ _ Hf Hd I0 Hact) as (Hsp & _).
  destruct (pp_deletes _ _ _ _ _ _ _ _ _ Hpp) as (ln & ln' & Hln & Hdel).
  apply (getDeleteDeployments_complete _ _ _ _ _ _ _ _ p v) in Hdel; [|done|].
  2: { split_and!; [by rewrite Hr|by rewrite Hb|]. left. split_and!; [done|by rewrite <- Hr0|].
       exists (duration_add dd sd). split; [exists dd, sd; by rewrite Hsp|].
       by eapply due_later. }
  pose proof (generatePlan_ok _ _ _ _ _ _ _ (ac_plan _ _ _ _ _ _ _ Hact)) as Hok.
  apply Forall_app in Hok as [Hok _]. rewrite Forall_forall in Hok.
  destruct (Hok p Hdel) as [d' Hd'].
  pose proof (pp_updates _ _ _ _ _ _ _ _ _ Hpp) as Hup.
  apply getUpdateDeployments_pass in Hup as (Hpass & _ & _).
  eapply pass_identity in Hpass as (d1 & Hd1 & [Hmeta _ _]); [|exact Hd'].
  rewrite Hhd in Hd1. injection Hd1 as <-.
  destruct (plan_write_happened (EvDelete d')) as (evs & Hevs & Hin).
  { unfold plan_writes. rewrite !fmap_app, !elem_of_app, <- !list_fmap_compose. right. left.
    apply list_elem_of_fmap. exists d'. split; [done|]. unfold store_objects.
    apply list_elem_of_omap. by exists p. }
  by exists evs, d, d'.
Qed.

(** Before, it is scaled to zero. *)
Lemma due_scaled sd :
  r <> 0 -> ScaledownDelay (spec_SunsetStrategy (twd_Spec w)) = Some sd ->
  sd < time_Since (w_Now l) t ->
  exists evs d ns name rv uid, l' = l ++ evs /\ EvScale ns name rv uid 0 ∈ evs /\
    removes (EvScale ns name rv uid 0) d /\
    build_label d = Some b /\ listed_in_run l l' (req_Namespace req) (req_Name req) d.
Proof.
  intros Hr0 Hsd Hlt.
  destruct due_version as (v & t' & ref & Hv & Hb & Hst & Hds & Hle & Hr & d & Hlisted & Hl & Hn1 & Hn2 & Hn3).
  destruct due_planned as (ks & h & p & Hpp & Hp & Hrep & _).
  destruct Ha as (Hact & _).
  destruct (acted_defaulted _ _ _ _ _ _ _ _ _ Hf Hd I0 Hact) as (Hsp & _).
  destruct (acted_spec _ _ _ _ _ _ _ Hact) as (Hwf & _ & Hspec & Hsto).
  destruct (pp_scales _ _ _ _ _ _ _ _ _ Hpp) as (ln & ln' & Hln & Hsc).
  destruct (getScaleDeployments_run _ _ _ _ _ _ _ Hsc) as (replicas & Hrepl & _).
  assert (p_ScaleDeployments (sg_plan s) !! rp_addr ref = Some (rp_ref ref, 0)) as Hlk.
  { eapply (getScaleDeployments_exact _ _ _ _ _ _ _ _ v ref 0); [| |exact Hsc|exact Hrepl|].
    - eapply stored_roles; [exact Hspec|exact Hsto].
    - apply refs_unshared_distinct.
      pose proof (ac_defaulted _ _ _ _ _ _ _ Hact) as Hdf.
      assert (stored = twd_Status (sg_stored s)) as -> by (by injection Hdf as <-).
      eapply update_unshared; [apply (ac_stored _ _ _ _ _ _ _ Hact)|]. simpl.
      exact (sent_unshared (sg_k8s s) (sg_store s) (stage_mapper w s) _ _ eq_refl Hwf Hspec
               (ComputeBuildID_nonempty w)).
    - split; [done|]. exists p. rewrite Hb. split; [done|]. apply scale_deprecated; [done|].
      unfold deprecated_scale. rewrite Hst. split_and!; [done|by exists r|].
      exists sd. split; [by rewrite Hsp|]. by eapply due_later. }
  set (ev := EvScale (ref_Namespace (rp_ref ref)) (ref_Name (rp_ref ref))
    (ref_ResourceVersion (rp_ref ref)) (ref_UID (rp_ref ref)) (int32 0)).
  destruct (plan_write_happened ev) as (evs & Hevs & Hin).
  { unfold plan_writes. rewrite !fmap_app, !elem_of_app, <- !list_fmap_compose. do 2 right. left.
    apply list_elem_of_fmap. exists (rp_ref ref, 0). split; [reflexivity|].
    rewrite scale_order_perm. apply list_elem_of_fmap. exists (rp_addr ref, (rp_ref ref, 0)).
    split; [done|]. by apply elem_of_map_to_list. }
  exists evs, d, (ref_Namespace (rp_ref ref)), (ref_Name (rp_ref ref)),
    (ref_ResourceVersion (rp_ref ref)), (ref_UID (rp_ref ref)). split_and!; done.
Qed.
End Run.

(** C6: Drained versions are retired.  In a reconciliation that completes, a
    version other than the target whose Deployment is listed, to which the server
    routes nothing and which it calls drained since [t], is not left as it is: if
    its Deployment has replicas and [scaledownDelay] has passed since [t] when the
    run starts, the Deployment is scaled to zero; if it is at zero and the sum of
    the two delays has passed, it is deleted. *)
Theorem Reconcile_retires cp cp' req l evs fetched w b t r dd sd :
  Reconcile maxVersions cp req l = (Ok (cp', inl completed), l ++ evs) ->
  w_GetTWD l (req_Namespace req) (req_Name req) = inl fetched ->
  TWD_Default (ObjTWD fetched) = Ok w ->
  DeleteDelay (spec_SunsetStrategy (twd_Spec w)) = Some dd ->
  ScaledownDelay (spec_SunsetStrategy (twd_Spec w)) = Some sd ->
  sunset_due req w l (l ++ evs) b t r ->
  let retires ev := exists d, ev ∈ evs /\ removes ev d /\ build_label d = Some b /\
                      listed_in_run l (l ++ evs) (req_Namespace req) (req_Name req) d in
  (r <> 0 -> sd < time_Since (w_Now l) t ->
   exists ns name rv uid, retires (EvScale ns name rv uid 0)) /\
  (r = 0 -> duration_add dd sd < time_Since (w_Now l) t -> exists d, retires (EvDelete d)).
Proof.
  intros Hrec Hf Hd Hdd Hsd Hdue retires.
  destruct (Reconcile_succeeds _ _ _ _ _ _ Hrec) as (fetched' & w' & c & l0 & s & Hf' & Hd' & _ & I0 & Ha).
  rewrite Hf in Hf'. injection Hf' as <-. rewrite Hd in Hd'. injection Hd' as <-.
  split; intros Hr Hlt.
  - destruct (due_scaled req w c l l0 _ s fetched b t r Hf Hd I0 Ha Hdue sd Hr Hsd Hlt)
      as (evs' & d & ns & name & rv & uid & He & Hin & Hrest). apply app_inv_head in He as <-.
    exists ns, name, rv, uid, d. by destruct Hrest.
  - destruct (due_deleted req w c l l0 _ s fetched b t r Hf Hd I0 Ha Hdue dd sd Hr Hdd Hsd Hlt)
      as (evs' & d & d' & He & Hin & Hrest). apply app_inv_head in He as <-.
    exists d'. by exists d.
Qed.
End Sunset.
