(* ===== verification/Memory.v ===== *)
(** * The structs of api/v1alpha1 as they lie in memory

    Api.v has the custom resources as values.  Here they are Go structs in a
    heap: a pointer is nil or the location of a cell, a slice is nil or the
    location of the cell with its elements (its array; capacities and windows
    into a longer array do not occur), and a cell holds one value of a Go type.
    The types are a universe [ty] with its interpretation [sem], so that what
    holds of every type - which references a value contains, when two values are
    deeply equal, what can be reached from one - is defined once. *)

From stdpp Require Import base gmap sets list strings.
From Stdlib Require Import ZArith.
From S2P Require Import Prelude GoStd Api.

Abbreviation loc := positive.
Abbreviation ptr := (option loc).

(** ** Types *)

(** Structs of [k8s.io] with references of their own; [LibData] stands for what
    those references point to. *)
Inductive libty :=
  | LibObjectMeta
  | LibListMeta
  | LibPodTemplateSpec
  | LibSecretKeySelector
  | LibConfigMapKeySelector
  | LibTime
  | LibData.

Inductive ty :=
  | TLib (t : libty)
  | TByte | TInt32 | TFloat32 | TDuration | TObjectReference
  | TTypeMeta
  | TAllAtOnceRolloutStrategy | TManualRolloutStrategy
  | TWorkflowExecution | TTaskQueue | TRolloutStep | TWorkerOptions
  | TSecretReference | TTemporalConnectionReference | TTemporalConnectionStatus
  | TJSON | TGateInputSource | TGateWorkflowConfig
  | TRolloutStrategy | TSunsetStrategy
  | TBaseWorkerDeploymentVersion | TCurrentWorkerDeploymentVersion
  | TTargetWorkerDeploymentVersion | TDeprecatedWorkerDeploymentVersion
  | TTemporalWorkerDeploymentSpec | TTemporalWorkerDeploymentStatus
  | TTemporalWorkerDeployment | TTemporalWorkerDeploymentList
  | TTemporalConnectionSpec | TTemporalConnection | TTemporalConnectionList
  | TPtr (t : ty)
  | TArray (t : ty).

#[export] Instance libty_eq_dec : EqDecision libty.
Proof. solve_decision. Defined.
#[export] Instance ty_eq_dec : EqDecision ty.
Proof. solve_decision. Defined.

(** The library's structs: their values, zero values and references, and what
    is left of a value when the locations in it are forgotten. *)
Class Library := {
  lib : libty -> Type;
  lib_zero : forall t, lib t;
  lib_refs : forall t, lib t -> list (libty * loc);
  lib_erase : forall t, lib t -> lib t;
}.

(** ** Structs: the fields of worker_types.go and temporalconnection_types.go.
    A struct without references is its value of Api.v. *)

Record TemporalConnectionReference := mkTemporalConnectionReference { tcr_Name : string }.

Record JSON_ := mkJSON_ { js_Raw : ptr }.

Record GateInputSource_ := mkGateInputSource_ {
  gi_ConfigMapKeyRef : ptr;
  gi_SecretKeyRef : ptr;
}.

Record GateWorkflowConfig_ := mkGateWorkflowConfig_ {
  g_WorkflowType : string;
  g_Input : ptr;
  g_InputFrom : ptr;
}.

Record RolloutStrategy_ := mkRolloutStrategy_ {
  r_Strategy : DefaultVersionUpdateStrategy;
  r_Gate : ptr;
  r_Steps : ptr;
}.

Record SunsetStrategy_ := mkSunsetStrategy_ {
  su_ScaledownDelay : ptr;
  su_DeleteDelay : ptr;
}.

Record BaseWorkerDeploymentVersion_ := mkBaseWorkerDeploymentVersion_ {
  b_BuildID : string;
  b_Status : VersionStatus;
  b_HealthySince : ptr;
  b_Deployment : ptr;
  b_TaskQueues : ptr;
  b_ManagedBy : string;
}.

Record CurrentWorkerDeploymentVersion_ := mkCurrentWorkerDeploymentVersion_ {
  cu_base : BaseWorkerDeploymentVersion_;
}.

Record TargetWorkerDeploymentVersion_ := mkTargetWorkerDeploymentVersion_ {
  ta_base : BaseWorkerDeploymentVersion_;
  ta_TestWorkflows : ptr;
  ta_RampPercentage : ptr;
  ta_RampingSince : ptr;
  ta_RampLastModifiedAt : ptr;
}.

Record DeprecatedWorkerDeploymentVersion_ := mkDeprecatedWorkerDeploymentVersion_ {
  de_base : BaseWorkerDeploymentVersion_;
  de_DrainedSince : ptr;
  de_EligibleForDeletion : bool;
}.

Record TemporalWorkerDeploymentStatus_ := mkTemporalWorkerDeploymentStatus_ {
  st_TargetVersion : TargetWorkerDeploymentVersion_;
  st_CurrentVersion : ptr;
  st_DeprecatedVersions : ptr;       (* []*DeprecatedWorkerDeploymentVersion *)
  st_VersionConflictToken : ptr;     (* []byte *)
  st_LastModifierIdentity : string;
  st_VersionCount : Z;
}.

Record TemporalConnectionSpec_ := mkTemporalConnectionSpec_ {
  cs_HostPort : string;
  cs_MutualTLSSecretRef : ptr;
  cs_APIKeySecretRef : ptr;
}.

Section Memory.
Context `{L : Library}.

Record TemporalWorkerDeploymentSpec_ := mkTemporalWorkerDeploymentSpec_ {
  sp_Replicas : ptr;
  sp_Template : lib LibPodTemplateSpec;
  sp_MinReadySeconds : Z;
  sp_ProgressDeadlineSeconds : ptr;
  sp_RolloutStrategy : RolloutStrategy_;
  sp_SunsetStrategy : SunsetStrategy_;
  sp_WorkerOptions : WorkerOptions;
}.

Record TemporalWorkerDeployment_ := mkTemporalWorkerDeployment_ {
  w_TypeMeta : TypeMeta;
  w_ObjectMeta : lib LibObjectMeta;
  w_Spec : TemporalWorkerDeploymentSpec_;
  w_Status : TemporalWorkerDeploymentStatus_;
}.

Record TemporalWorkerDeploymentList_ := mkTemporalWorkerDeploymentList_ {
  wl_TypeMeta : TypeMeta;
  wl_ListMeta : lib LibListMeta;
  wl_Items : ptr;
}.

Record TemporalConnection_ := mkTemporalConnection_ {
  cn_TypeMeta : TypeMeta;
  cn_ObjectMeta : lib LibObjectMeta;
  cn_Spec : TemporalConnectionSpec_;
  cn_Status : unit;                  (* TemporalConnectionStatus has no fields *)
}.

Record TemporalConnectionList_ := mkTemporalConnectionList_ {
  cl_TypeMeta : TypeMeta;
  cl_ListMeta : lib LibListMeta;
  cl_Items : ptr;
}.

Fixpoint sem (t : ty) : Type :=
  match t with
  | TLib k => lib k
  | TByte => Byte.byte
  | TInt32 => Z
  | TFloat32 => float32
  | TDuration => Duration
  | TObjectReference => ObjectReference
  | TTypeMeta => TypeMeta
  | TAllAtOnceRolloutStrategy | TManualRolloutStrategy => unit
  | TWorkflowExecution => WorkflowExecution
  | TTaskQueue => TaskQueue
  | TRolloutStep => RolloutStep
  | TWorkerOptions => WorkerOptions
  | TSecretReference => SecretReference
  | TTemporalConnectionReference => TemporalConnectionReference
  | TTemporalConnectionStatus => unit
  | TJSON => JSON_
  | TGateInputSource => GateInputSource_
  | TGateWorkflowConfig => GateWorkflowConfig_
  | TRolloutStrategy => RolloutStrategy_
  | TSunsetStrategy => SunsetStrategy_
  | TBaseWorkerDeploymentVersion => BaseWorkerDeploymentVersion_
  | TCurrentWorkerDeploymentVersion => CurrentWorkerDeploymentVersion_
  | TTargetWorkerDeploymentVersion => TargetWorkerDeploymentVersion_
  | TDeprecatedWorkerDeploymentVersion => DeprecatedWorkerDeploymentVersion_
  | TTemporalWorkerDeploymentSpec => TemporalWorkerDeploymentSpec_
  | TTemporalWorkerDeploymentStatus => TemporalWorkerDeploymentStatus_
  | TTemporalWorkerDeployment => TemporalWorkerDeployment_
  | TTemporalWorkerDeploymentList => TemporalWorkerDeploymentList_
  | TTemporalConnectionSpec => TemporalConnectionSpec_
  | TTemporalConnection => TemporalConnection_
  | TTemporalConnectionList => TemporalConnectionList_
  | TPtr _ => ptr
  | TArray t => list (sem t)
  end.

(** ** Zero values *)

Definition zero_Base : BaseWorkerDeploymentVersion_ :=
  mkBaseWorkerDeploymentVersion_ EmptyString (VersionStatusOther EmptyString) None None None
    EmptyString.
Definition zero_Target : TargetWorkerDeploymentVersion_ :=
  mkTargetWorkerDeploymentVersion_ zero_Base None None None None.
Definition zero_Rollout : RolloutStrategy_ := mkRolloutStrategy_ (UpdateOther EmptyString) None None.
Definition zero_Sunset : SunsetStrategy_ := mkSunsetStrategy_ None None.
Definition zero_Options : WorkerOptions := mkWorkerOptions EmptyString EmptyString EmptyString.
Definition zero_Spec : TemporalWorkerDeploymentSpec_ :=
  mkTemporalWorkerDeploymentSpec_ None (lib_zero _) 0 None zero_Rollout zero_Sunset zero_Options.
Definition zero_Status : TemporalWorkerDeploymentStatus_ :=
  mkTemporalWorkerDeploymentStatus_ zero_Target None None None EmptyString 0.
Definition zero_TypeMeta : TypeMeta := mkTypeMeta EmptyString EmptyString.
Definition zero_ConnSpec : TemporalConnectionSpec_ :=
  mkTemporalConnectionSpec_ EmptyString None None.

Definition zero (t : ty) : sem t :=
  match t return sem t with
  | TLib k => lib_zero k
  | TByte => Byte.x00
  | TInt32 => 0%Z
  | TFloat32 => float32_zero
  | TDuration => 0%Z
  | TObjectReference =>
      mkObjectReference EmptyString EmptyString EmptyString EmptyString EmptyString EmptyString
        EmptyString
  | TTypeMeta => zero_TypeMeta
  | TAllAtOnceRolloutStrategy => tt
  | TManualRolloutStrategy => tt
  | TWorkflowExecution =>
      (* the empty status string is none of the constants: any of them will do,
         the zero value is overwritten before it is read *)
      mkWorkflowExecution EmptyString EmptyString WorkflowExecutionStatusRunning EmptyString
  | TTaskQueue => mkTaskQueue EmptyString
  | TRolloutStep => mkRolloutStep 0 0%Z
  | TWorkerOptions => zero_Options
  | TSecretReference => mkSecretReference EmptyString
  | TTemporalConnectionReference => mkTemporalConnectionReference EmptyString
  | TTemporalConnectionStatus => tt
  | TJSON => mkJSON_ None
  | TGateInputSource => mkGateInputSource_ None None
  | TGateWorkflowConfig => mkGateWorkflowConfig_ EmptyString None None
  | TRolloutStrategy => zero_Rollout
  | TSunsetStrategy => zero_Sunset
  | TBaseWorkerDeploymentVersion => zero_Base
  | TCurrentWorkerDeploymentVersion => mkCurrentWorkerDeploymentVersion_ zero_Base
  | TTargetWorkerDeploymentVersion => zero_Target
  | TDeprecatedWorkerDeploymentVersion => mkDeprecatedWorkerDeploymentVersion_ zero_Base None false
  | TTemporalWorkerDeploymentSpec => zero_Spec
  | TTemporalWorkerDeploymentStatus => zero_Status
  | TTemporalWorkerDeployment =>
      mkTemporalWorkerDeployment_ zero_TypeMeta (lib_zero _) zero_Spec zero_Status
  | TTemporalWorkerDeploymentList => mkTemporalWorkerDeploymentList_ zero_TypeMeta (lib_zero _) None
  | TTemporalConnectionSpec => zero_ConnSpec
  | TTemporalConnection => mkTemporalConnection_ zero_TypeMeta (lib_zero _) zero_ConnSpec tt
  | TTemporalConnectionList => mkTemporalConnectionList_ zero_TypeMeta (lib_zero _) None
  | TPtr _ => None
  | TArray _ => []
  end.

(** ** The references a value contains, with the types they point to, and what
    is left of the value when the locations are forgotten *)

Definition ref (t : ty) (p : ptr) : list (ty * loc) :=
  match p with
  | Some l => [(t, l)]
  | None => []
  end.

Definition forget (p : ptr) : ptr :=
  match p with
  | Some _ => Some 1%positive
  | None => None
  end.

Definition library_refs {t} (x : lib t) : list (ty * loc) := prod_map TLib id <$> lib_refs t x.

Definition refs_Base (b : BaseWorkerDeploymentVersion_) : list (ty * loc) :=
  ref (TLib LibTime) (b_HealthySince b) ++ ref TObjectReference (b_Deployment b) ++
  ref (TArray TTaskQueue) (b_TaskQueues b).
Definition refs_Target (x : TargetWorkerDeploymentVersion_) : list (ty * loc) :=
  refs_Base (ta_base x) ++ ref (TArray TWorkflowExecution) (ta_TestWorkflows x) ++
  ref TFloat32 (ta_RampPercentage x) ++ ref (TLib LibTime) (ta_RampingSince x) ++
  ref (TLib LibTime) (ta_RampLastModifiedAt x).
Definition refs_Rollout (r : RolloutStrategy_) : list (ty * loc) :=
  ref TGateWorkflowConfig (r_Gate r) ++ ref (TArray TRolloutStep) (r_Steps r).
Definition refs_Sunset (s : SunsetStrategy_) : list (ty * loc) :=
  ref TDuration (su_ScaledownDelay s) ++ ref TDuration (su_DeleteDelay s).
Definition refs_Spec (s : TemporalWorkerDeploymentSpec_) : list (ty * loc) :=
  ref TInt32 (sp_Replicas s) ++ library_refs (sp_Template s) ++
  ref TInt32 (sp_ProgressDeadlineSeconds s) ++
  refs_Rollout (sp_RolloutStrategy s) ++ refs_Sunset (sp_SunsetStrategy s).
Definition refs_Status (s : TemporalWorkerDeploymentStatus_) : list (ty * loc) :=
  refs_Target (st_TargetVersion s) ++
  ref TCurrentWorkerDeploymentVersion (st_CurrentVersion s) ++
  ref (TArray (TPtr TDeprecatedWorkerDeploymentVersion)) (st_DeprecatedVersions s) ++
  ref (TArray TByte) (st_VersionConflictToken s).
Definition refs_ConnSpec (s : TemporalConnectionSpec_) : list (ty * loc) :=
  ref TSecretReference (cs_MutualTLSSecretRef s) ++
  ref (TLib LibSecretKeySelector) (cs_APIKeySecretRef s).

Fixpoint refs (t : ty) : sem t -> list (ty * loc) :=
  match t return sem t -> list (ty * loc) with
  | TLib k => fun x => library_refs x
  | TJSON => fun x => ref (TArray TByte) (js_Raw x)
  | TGateInputSource => fun x =>
      ref (TLib LibConfigMapKeySelector) (gi_ConfigMapKeyRef x) ++
      ref (TLib LibSecretKeySelector) (gi_SecretKeyRef x)
  | TGateWorkflowConfig => fun x =>
      ref TJSON (g_Input x) ++ ref TGateInputSource (g_InputFrom x)
  | TRolloutStrategy => refs_Rollout
  | TSunsetStrategy => refs_Sunset
  | TBaseWorkerDeploymentVersion => refs_Base
  | TCurrentWorkerDeploymentVersion => fun x => refs_Base (cu_base x)
  | TTargetWorkerDeploymentVersion => refs_Target
  | TDeprecatedWorkerDeploymentVersion => fun x =>
      refs_Base (de_base x) ++ ref (TLib LibTime) (de_DrainedSince x)
  | TTemporalWorkerDeploymentSpec => refs_Spec
  | TTemporalWorkerDeploymentStatus => refs_Status
  | TTemporalWorkerDeployment => fun x =>
      library_refs (w_ObjectMeta x) ++ refs_Spec (w_Spec x) ++ refs_Status (w_Status x)
  | TTemporalWorkerDeploymentList => fun x =>
      library_refs (wl_ListMeta x) ++ ref (TArray TTemporalWorkerDeployment) (wl_Items x)
  | TTemporalConnectionSpec => refs_ConnSpec
  | TTemporalConnection => fun x => library_refs (cn_ObjectMeta x) ++ refs_ConnSpec (cn_Spec x)
  | TTemporalConnectionList => fun x =>
      library_refs (cl_ListMeta x) ++ ref (TArray TTemporalConnection) (cl_Items x)
  | TPtr t' => fun p => ref t' p
  | TArray t' => fun xs => concat (refs t' <$> xs)
  | _ => fun _ => []
  end.

Definition erase_Base (b : BaseWorkerDeploymentVersion_) : BaseWorkerDeploymentVersion_ :=
  mkBaseWorkerDeploymentVersion_ (b_BuildID b) (b_Status b) (forget (b_HealthySince b))
    (forget (b_Deployment b)) (forget (b_TaskQueues b)) (b_ManagedBy b).
Definition erase_Target (x : TargetWorkerDeploymentVersion_) : TargetWorkerDeploymentVersion_ :=
  mkTargetWorkerDeploymentVersion_ (erase_Base (ta_base x)) (forget (ta_TestWorkflows x))
    (forget (ta_RampPercentage x)) (forget (ta_RampingSince x)) (forget (ta_RampLastModifiedAt x)).
Definition erase_Rollout (r : RolloutStrategy_) : RolloutStrategy_ :=
  mkRolloutStrategy_ (r_Strategy r) (forget (r_Gate r)) (forget (r_Steps r)).
Definition erase_Sunset (s : SunsetStrategy_) : SunsetStrategy_ :=
  mkSunsetStrategy_ (forget (su_ScaledownDelay s)) (forget (su_DeleteDelay s)).
Definition erase_Spec (s : TemporalWorkerDeploymentSpec_) : TemporalWorkerDeploymentSpec_ :=
  mkTemporalWorkerDeploymentSpec_ (forget (sp_Replicas s)) (lib_erase _ (sp_Template s))
    (sp_MinReadySeconds s) (forget (sp_ProgressDeadlineSeconds s))
    (erase_Rollout (sp_RolloutStrategy s)) (erase_Sunset (sp_SunsetStrategy s))
    (sp_WorkerOptions s).
Definition erase_Status (s : TemporalWorkerDeploymentStatus_) : TemporalWorkerDeploymentStatus_ :=
  mkTemporalWorkerDeploymentStatus_ (erase_Target (st_TargetVersion s))
    (forget (st_CurrentVersion s)) (forget (st_DeprecatedVersions s))
    (forget (st_VersionConflictToken s)) (st_LastModifierIdentity s) (st_VersionCount s).
Definition erase_ConnSpec (s : TemporalConnectionSpec_) : TemporalConnectionSpec_ :=
  mkTemporalConnectionSpec_ (cs_HostPort s) (forget (cs_MutualTLSSecretRef s))
    (forget (cs_APIKeySecretRef s)).

Fixpoint erase (t : ty) : sem t -> sem t :=
  match t return sem t -> sem t with
  | TLib k => lib_erase k
  | TJSON => fun x => mkJSON_ (forget (js_Raw x))
  | TGateInputSource => fun x =>
      mkGateInputSource_ (forget (gi_ConfigMapKeyRef x)) (forget (gi_SecretKeyRef x))
  | TGateWorkflowConfig => fun x =>
      mkGateWorkflowConfig_ (g_WorkflowType x) (forget (g_Input x)) (forget (g_InputFrom x))
  | TRolloutStrategy => erase_Rollout
  | TSunsetStrategy => erase_Sunset
  | TBaseWorkerDeploymentVersion => erase_Base
  | TCurrentWorkerDeploymentVersion => fun x =>
      mkCurrentWorkerDeploymentVersion_ (erase_Base (cu_base x))
  | TTargetWorkerDeploymentVersion => erase_Target
  | TDeprecatedWorkerDeploymentVersion => fun x =>
      mkDeprecatedWorkerDeploymentVersion_ (erase_Base (de_base x)) (forget (de_DrainedSince x))
        (de_EligibleForDeletion x)
  | TTemporalWorkerDeploymentSpec => erase_Spec
  | TTemporalWorkerDeploymentStatus => erase_Status
  | TTemporalWorkerDeployment => fun x =>
      mkTemporalWorkerDeployment_ (w_TypeMeta x) (lib_erase _ (w_ObjectMeta x))
        (erase_Spec (w_Spec x)) (erase_Status (w_Status x))
  | TTemporalWorkerDeploymentList => fun x =>
      mkTemporalWorkerDeploymentList_ (wl_TypeMeta x) (lib_erase _ (wl_ListMeta x))
        (forget (wl_Items x))
  | TTemporalConnectionSpec => erase_ConnSpec
  | TTemporalConnection => fun x =>
      mkTemporalConnection_ (cn_TypeMeta x) (lib_erase _ (cn_ObjectMeta x))
        (erase_ConnSpec (cn_Spec x)) (cn_Status x)
  | TTemporalConnectionList => fun x =>
      mkTemporalConnectionList_ (cl_TypeMeta x) (lib_erase _ (cl_ListMeta x)) (forget (cl_Items x))
  | TPtr _ => forget
  | TArray t' => fun xs => erase t' <$> xs
  | _ => fun x => x
  end.

(** ** The heap *)

Record cell := Cell { c_ty : ty; c_val : sem c_ty }.

End Memory.

Abbreviation heap := (gmap loc cell).

Section Heap.
Context `{L : Library}.

(** Programs over the heap. *)
Definition mem (A : Type) : Type := heap -> outcome (A * heap).

#[export] Instance mem_ret : MRet mem := fun A a σ => Ok (a, σ).
#[export] Instance mem_bind : MBind mem := fun A B f m σ =>
  '(a, σ') ← m σ; f a σ'.

(** [new(T)], or [make] for a slice of zero values. *)
Definition alloc (t : ty) (x : sem t) : mem loc := fun σ =>
  let l := fresh (dom σ) in Ok (l, <[l := Cell t x]> σ).
Definition new (t : ty) : mem loc := alloc t (zero t).

(** Reading and writing through a pointer.  The types of Go make sure that a
    location holds a value of its type: otherwise there is no such cell. *)
Definition load (t : ty) (l : loc) : mem (sem t) := fun σ =>
  match σ !! l with
  | Some (Cell t' x) =>
      match decide (t' = t) with
      | left e => Ok (eq_rect t' sem x t e, σ)
      | right _ => Panic NilDereference
      end
  | None => Panic NilDereference
  end.
Definition store (t : ty) (l : loc) (x : sem t) : mem unit := fun σ =>
  Ok (tt, <[l := Cell t x]> σ).

(** ** Well-formed memory, deep equality, reachability *)

(** Following [l] finds a value of type [t], and so on: no reference dangles
    or has the wrong type, and the value is finite. *)
Inductive wf (σ : heap) : ty -> loc -> Prop :=
  | wf_cell t l x :
      σ !! l = Some (Cell t x) ->
      (forall t' l', (t', l') ∈ refs t x -> wf σ t' l') ->
      wf σ t l.

Definition wf_refs (σ : heap) (rs : list (ty * loc)) : Prop :=
  forall t l, (t, l) ∈ rs -> wf σ t l.

(** The same value, read in two heaps: equal up to the locations, with deeply
    equal values behind them ([reflect.DeepEqual], and nil slices are told
    from empty ones). *)
Inductive same (σ σ' : heap) : ty -> loc -> loc -> Prop :=
  | same_cell t l l' x y :
      σ !! l = Some (Cell t x) ->
      σ' !! l' = Some (Cell t y) ->
      erase t x = erase t y ->
      (refs t x).*1 = (refs t y).*1 ->
      (forall i t1 k k', refs t x !! i = Some (t1, k) -> refs t y !! i = Some (t1, k') ->
        same σ σ' t1 k k') ->
      same σ σ' t l l'.

Definition same_refs (σ σ' : heap) (rs ss : list (ty * loc)) : Prop :=
  rs.*1 = ss.*1 /\
  forall i t k k', rs !! i = Some (t, k) -> ss !! i = Some (t, k') -> same σ σ' t k k'.

Inductive reach (σ : heap) : loc -> loc -> Prop :=
  | reach_here l : reach σ l l
  | reach_step l t x t' l' m :
      σ !! l = Some (Cell t x) -> (t', l') ∈ refs t x -> reach σ l' m -> reach σ l m.

Definition reaches (σ : heap) (rs : list (ty * loc)) (m : loc) : Prop :=
  exists t l, (t, l) ∈ rs /\ reach σ l m.

End Heap.
