(* ===== verification/DeepCopy.v ===== *)
(** * api/v1alpha1/zz_generated.deepcopy.go

    The generated deep copies, function by function, over the memory of
    Memory.v.  [in.DeepCopyInto(out)] takes the struct [in] points to and
    returns what it leaves in [*out]; [DeepCopy] takes and returns pointers.
    The deep copies of [k8s.io]'s structs are parameters. *)

From stdpp Require Import base gmap sets list strings.
From Stdlib Require Import ZArith.
From S2P Require Import Prelude GoStd Api Memory.

(** [t.DeepCopyInto] of the library's structs, and [metav1.Time.DeepCopy]. *)
Class LibraryCopies `{L : Library} := {
  lib_DeepCopyInto : forall t, lib t -> mem (lib t);
  Time_DeepCopy : ptr -> mem ptr;
}.

Section DeepCopy.
Context `{LC : LibraryCopies}.

(** ** The four shapes the generator emits *)

(** [if in.F != nil { in, out := &in.F, &out.F; *out = ... }]: the field was
    copied with the struct, so it stays nil otherwise. *)
Definition when_set (p : ptr) (k : loc -> mem ptr) : mem ptr :=
  match p with
  | Some l => k l
  | None => mret None
  end.

(** [*out = new(T); **out = **in] *)
Definition new_assign (t : ty) (l : loc) : mem ptr :=
  q ← new t;
  x ← load t l;
  _ ← store t q x;
  mret (Some q).

(** [*out = new(T); ( *in).DeepCopyInto( *out)] *)
Definition new_into (t : ty) (DeepCopyInto : sem t -> mem (sem t)) (l : loc) : mem ptr :=
  q ← new t;
  x ← load t l;
  y ← DeepCopyInto x;
  _ ← store t q y;
  mret (Some q).

(** The elements of a slice. *)
Definition load_array (t : ty) (l : loc) : mem (list (sem t)) := load (TArray t) l.

(** [*out = make([]T, len( *in)); copy( *out, *in)] *)
Definition make_copy (t : ty) (l : loc) : mem ptr :=
  xs ← load_array t l;
  q ← alloc (TArray t) (replicate (length xs) (zero t));
  _ ← store (TArray t) q xs;
  mret (Some q).

(** [( *in)[i]] *)
Definition element (t : ty) (xs : list (sem t)) (i : nat) : mem (sem t) := fun σ =>
  x ← index xs i; Ok (x, σ).

(** [for i := range *in { ( *in)[i].DeepCopyInto(&( *out)[i]) }], [n] iterations
    from [i] on. *)
Fixpoint copy_elements (t : ty) (DeepCopyInto : sem t -> mem (sem t)) (l q : loc) (n i : nat)
  : mem unit :=
  match n with
  | O => mret tt
  | S n' =>
      xs ← load_array t l;
      x ← element t xs i;
      y ← DeepCopyInto x;
      ys ← load_array t q;
      _ ← store (TArray t) q (<[i := y]> ys);
      copy_elements t DeepCopyInto l q n' (S i)
  end.

Definition make_into (t : ty) (DeepCopyInto : sem t -> mem (sem t)) (l : loc) : mem ptr :=
  xs ← load_array t l;
  q ← alloc (TArray t) (replicate (length xs) (zero t));
  _ ← copy_elements t DeepCopyInto l q (length xs) 0;
  mret (Some q).

(** [if in == nil { return nil }; out := new(T); in.DeepCopyInto(out); return out] *)
Definition DeepCopy (t : ty) (DeepCopyInto : sem t -> mem (sem t)) (in_ : ptr) : mem ptr :=
  match in_ with
  | None => mret None
  | Some l => new_into t DeepCopyInto l
  end.

(** [if c := in.DeepCopy(); c != nil { return c }; return nil]: a
    [runtime.Object] is nil or a pointer with its type. *)
Definition DeepCopyObject (t : ty) (DeepCopy : ptr -> mem ptr) (in_ : ptr)
  : mem (option (ty * loc)) :=
  c ← DeepCopy in_;
  mret (match c with
        | Some l => Some (t, l)
        | None => None
        end).

(** ** The functions *)

Definition AllAtOnceRolloutStrategy_DeepCopyInto (in_ : sem TAllAtOnceRolloutStrategy)
  : mem (sem TAllAtOnceRolloutStrategy) := mret in_.

Definition AllAtOnceRolloutStrategy_DeepCopy : ptr -> mem ptr :=
  DeepCopy TAllAtOnceRolloutStrategy AllAtOnceRolloutStrategy_DeepCopyInto.

Definition BaseWorkerDeploymentVersion_DeepCopyInto (in_ : BaseWorkerDeploymentVersion_)
  : mem BaseWorkerDeploymentVersion_ :=
  healthySince ← when_set (b_HealthySince in_) (fun l => Time_DeepCopy (Some l));
  deployment ← when_set (b_Deployment in_) (new_assign TObjectReference);
  taskQueues ← when_set (b_TaskQueues in_) (make_copy TTaskQueue);
  mret (mkBaseWorkerDeploymentVersion_ (b_BuildID in_) (b_Status in_) healthySince deployment
          taskQueues (b_ManagedBy in_)).

Definition BaseWorkerDeploymentVersion_DeepCopy : ptr -> mem ptr :=
  DeepCopy TBaseWorkerDeploymentVersion BaseWorkerDeploymentVersion_DeepCopyInto.

Definition CurrentWorkerDeploymentVersion_DeepCopyInto (in_ : CurrentWorkerDeploymentVersion_)
  : mem CurrentWorkerDeploymentVersion_ :=
  base ← BaseWorkerDeploymentVersion_DeepCopyInto (cu_base in_);
  mret (mkCurrentWorkerDeploymentVersion_ base).

Definition CurrentWorkerDeploymentVersion_DeepCopy : ptr -> mem ptr :=
  DeepCopy TCurrentWorkerDeploymentVersion CurrentWorkerDeploymentVersion_DeepCopyInto.

Definition DeprecatedWorkerDeploymentVersion_DeepCopyInto (in_ : DeprecatedWorkerDeploymentVersion_)
  : mem DeprecatedWorkerDeploymentVersion_ :=
  base ← BaseWorkerDeploymentVersion_DeepCopyInto (de_base in_);
  drainedSince ← when_set (de_DrainedSince in_) (fun l => Time_DeepCopy (Some l));
  mret (mkDeprecatedWorkerDeploymentVersion_ base drainedSince (de_EligibleForDeletion in_)).

Definition DeprecatedWorkerDeploymentVersion_DeepCopy : ptr -> mem ptr :=
  DeepCopy TDeprecatedWorkerDeploymentVersion DeprecatedWorkerDeploymentVersion_DeepCopyInto.

(** The generated code predates the fields [Input] and [InputFrom]: it copies
    the pointers. *)
Definition GateWorkflowConfig_DeepCopyInto (in_ : GateWorkflowConfig_) : mem GateWorkflowConfig_ :=
  mret in_.

Definition GateWorkflowConfig_DeepCopy : ptr -> mem ptr :=
  DeepCopy TGateWorkflowConfig GateWorkflowConfig_DeepCopyInto.

Definition ManualRolloutStrategy_DeepCopyInto (in_ : sem TManualRolloutStrategy)
  : mem (sem TManualRolloutStrategy) := mret in_.

Definition ManualRolloutStrategy_DeepCopy : ptr -> mem ptr :=
  DeepCopy TManualRolloutStrategy ManualRolloutStrategy_DeepCopyInto.

Definition RolloutStep_DeepCopyInto (in_ : RolloutStep) : mem RolloutStep := mret in_.

Definition RolloutStep_DeepCopy : ptr -> mem ptr := DeepCopy TRolloutStep RolloutStep_DeepCopyInto.

Definition RolloutStrategy_DeepCopyInto (in_ : RolloutStrategy_) : mem RolloutStrategy_ :=
  gate ← when_set (r_Gate in_) (new_assign TGateWorkflowConfig);
  steps ← when_set (r_Steps in_) (make_copy TRolloutStep);
  mret (mkRolloutStrategy_ (r_Strategy in_) gate steps).

Definition RolloutStrategy_DeepCopy : ptr -> mem ptr :=
  DeepCopy TRolloutStrategy RolloutStrategy_DeepCopyInto.

Definition SecretReference_DeepCopyInto (in_ : SecretReference) : mem SecretReference := mret in_.

Definition SecretReference_DeepCopy : ptr -> mem ptr :=
  DeepCopy TSecretReference SecretReference_DeepCopyInto.

Definition SunsetStrategy_DeepCopyInto (in_ : SunsetStrategy_) : mem SunsetStrategy_ :=
  scaledownDelay ← when_set (su_ScaledownDelay in_) (new_assign TDuration);
  deleteDelay ← when_set (su_DeleteDelay in_) (new_assign TDuration);
  mret (mkSunsetStrategy_ scaledownDelay deleteDelay).

Definition SunsetStrategy_DeepCopy : ptr -> mem ptr :=
  DeepCopy TSunsetStrategy SunsetStrategy_DeepCopyInto.

Definition TargetWorkerDeploymentVersion_DeepCopyInto (in_ : TargetWorkerDeploymentVersion_)
  : mem TargetWorkerDeploymentVersion_ :=
  base ← BaseWorkerDeploymentVersion_DeepCopyInto (ta_base in_);
  testWorkflows ← when_set (ta_TestWorkflows in_) (make_copy TWorkflowExecution);
  rampPercentage ← when_set (ta_RampPercentage in_) (new_assign TFloat32);
  rampingSince ← when_set (ta_RampingSince in_) (fun l => Time_DeepCopy (Some l));
  rampLastModifiedAt ← when_set (ta_RampLastModifiedAt in_) (fun l => Time_DeepCopy (Some l));
  mret (mkTargetWorkerDeploymentVersion_ base testWorkflows rampPercentage rampingSince
          rampLastModifiedAt).

Definition TargetWorkerDeploymentVersion_DeepCopy : ptr -> mem ptr :=
  DeepCopy TTargetWorkerDeploymentVersion TargetWorkerDeploymentVersion_DeepCopyInto.

Definition TaskQueue_DeepCopyInto (in_ : TaskQueue) : mem TaskQueue := mret in_.

Definition TaskQueue_DeepCopy : ptr -> mem ptr := DeepCopy TTaskQueue TaskQueue_DeepCopyInto.

Definition TemporalConnectionSpec_DeepCopyInto (in_ : TemporalConnectionSpec_)
  : mem TemporalConnectionSpec_ :=
  mutualTLSSecretRef ← when_set (cs_MutualTLSSecretRef in_) (new_assign TSecretReference);
  apiKeySecretRef ← when_set (cs_APIKeySecretRef in_)
    (new_into (TLib LibSecretKeySelector) (lib_DeepCopyInto LibSecretKeySelector));
  mret (mkTemporalConnectionSpec_ (cs_HostPort in_) mutualTLSSecretRef apiKeySecretRef).

Definition TemporalConnectionSpec_DeepCopy : ptr -> mem ptr :=
  DeepCopy TTemporalConnectionSpec TemporalConnectionSpec_DeepCopyInto.

Definition TemporalConnection_DeepCopyInto (in_ : TemporalConnection_) : mem TemporalConnection_ :=
  objectMeta ← lib_DeepCopyInto LibObjectMeta (cn_ObjectMeta in_);
  spec ← TemporalConnectionSpec_DeepCopyInto (cn_Spec in_);
  mret (mkTemporalConnection_ (cn_TypeMeta in_) objectMeta spec (cn_Status in_)).

Definition TemporalConnection_DeepCopy : ptr -> mem ptr :=
  DeepCopy TTemporalConnection TemporalConnection_DeepCopyInto.

Definition TemporalConnection_DeepCopyObject : ptr -> mem (option (ty * loc)) :=
  DeepCopyObject TTemporalConnection TemporalConnection_DeepCopy.

Definition TemporalConnectionList_DeepCopyInto (in_ : TemporalConnectionList_)
  : mem TemporalConnectionList_ :=
  listMeta ← lib_DeepCopyInto LibListMeta (cl_ListMeta in_);
  items ← when_set (cl_Items in_) (make_into TTemporalConnection TemporalConnection_DeepCopyInto);
  mret (mkTemporalConnectionList_ (cl_TypeMeta in_) listMeta items).

Definition TemporalConnectionList_DeepCopy : ptr -> mem ptr :=
  DeepCopy TTemporalConnectionList TemporalConnectionList_DeepCopyInto.

Definition TemporalConnectionList_DeepCopyObject : ptr -> mem (option (ty * loc)) :=
  DeepCopyObject TTemporalConnectionList TemporalConnectionList_DeepCopy.

Definition TemporalConnectionReference_DeepCopyInto (in_ : TemporalConnectionReference)
  : mem TemporalConnectionReference := mret in_.

Definition TemporalConnectionReference_DeepCopy : ptr -> mem ptr :=
  DeepCopy TTemporalConnectionReference TemporalConnectionReference_DeepCopyInto.

Definition TemporalConnectionStatus_DeepCopyInto (in_ : sem TTemporalConnectionStatus)
  : mem (sem TTemporalConnectionStatus) := mret in_.

Definition TemporalConnectionStatus_DeepCopy : ptr -> mem ptr :=
  DeepCopy TTemporalConnectionStatus TemporalConnectionStatus_DeepCopyInto.

Definition TemporalWorkerDeploymentSpec_DeepCopyInto (in_ : TemporalWorkerDeploymentSpec_)
  : mem TemporalWorkerDeploymentSpec_ :=
  replicas ← when_set (sp_Replicas in_) (new_assign TInt32);
  template ← lib_DeepCopyInto LibPodTemplateSpec (sp_Template in_);
  progressDeadlineSeconds ← when_set (sp_ProgressDeadlineSeconds in_) (new_assign TInt32);
  rolloutStrategy ← RolloutStrategy_DeepCopyInto (sp_RolloutStrategy in_);
  sunsetStrategy ← SunsetStrategy_DeepCopyInto (sp_SunsetStrategy in_);
  mret (mkTemporalWorkerDeploymentSpec_ replicas template (sp_MinReadySeconds in_)
          progressDeadlineSeconds rolloutStrategy sunsetStrategy (sp_WorkerOptions in_)).

Definition TemporalWorkerDeploymentSpec_DeepCopy : ptr -> mem ptr :=
  DeepCopy TTemporalWorkerDeploymentSpec TemporalWorkerDeploymentSpec_DeepCopyInto.

Definition TemporalWorkerDeploymentStatus_DeepCopyInto (in_ : TemporalWorkerDeploymentStatus_)
  : mem TemporalWorkerDeploymentStatus_ :=
  targetVersion ← TargetWorkerDeploymentVersion_DeepCopyInto (st_TargetVersion in_);
  currentVersion ← when_set (st_CurrentVersion in_)
    (new_into TCurrentWorkerDeploymentVersion CurrentWorkerDeploymentVersion_DeepCopyInto);
  deprecatedVersions ← when_set (st_DeprecatedVersions in_)
    (make_into (TPtr TDeprecatedWorkerDeploymentVersion) (fun p => when_set p
       (new_into TDeprecatedWorkerDeploymentVersion DeprecatedWorkerDeploymentVersion_DeepCopyInto)));
  versionConflictToken ← when_set (st_VersionConflictToken in_) (make_copy TByte);
  mret (mkTemporalWorkerDeploymentStatus_ targetVersion currentVersion deprecatedVersions
          versionConflictToken (st_LastModifierIdentity in_) (st_VersionCount in_)).

Definition TemporalWorkerDeploymentStatus_DeepCopy : ptr -> mem ptr :=
  DeepCopy TTemporalWorkerDeploymentStatus TemporalWorkerDeploymentStatus_DeepCopyInto.

Definition TemporalWorkerDeployment_DeepCopyInto (in_ : TemporalWorkerDeployment_)
  : mem TemporalWorkerDeployment_ :=
  objectMeta ← lib_DeepCopyInto LibObjectMeta (w_ObjectMeta in_);
  spec ← TemporalWorkerDeploymentSpec_DeepCopyInto (w_Spec in_);
  status ← TemporalWorkerDeploymentStatus_DeepCopyInto (w_Status in_);
  mret (mkTemporalWorkerDeployment_ (w_TypeMeta in_) objectMeta spec status).

Definition TemporalWorkerDeployment_DeepCopy : ptr -> mem ptr :=
  DeepCopy TTemporalWorkerDeployment TemporalWorkerDeployment_DeepCopyInto.

Definition TemporalWorkerDeployment_DeepCopyObject : ptr -> mem (option (ty * loc)) :=
  DeepCopyObject TTemporalWorkerDeployment TemporalWorkerDeployment_DeepCopy.

Definition TemporalWorkerDeploymentList_DeepCopyInto (in_ : TemporalWorkerDeploymentList_)
  : mem TemporalWorkerDeploymentList_ :=
  listMeta ← lib_DeepCopyInto LibListMeta (wl_ListMeta in_);
  items ← when_set (wl_Items in_)
    (make_into TTemporalWorkerDeployment TemporalWorkerDeployment_DeepCopyInto);
  mret (mkTemporalWorkerDeploymentList_ (wl_TypeMeta in_) listMeta items).

Definition TemporalWorkerDeploymentList_DeepCopy : ptr -> mem ptr :=
  DeepCopy TTemporalWorkerDeploymentList TemporalWorkerDeploymentList_DeepCopyInto.

Definition TemporalWorkerDeploymentList_DeepCopyObject : ptr -> mem (option (ty * loc)) :=
  DeepCopyObject TTemporalWorkerDeploymentList TemporalWorkerDeploymentList_DeepCopy.

Definition WorkerOptions_DeepCopyInto (in_ : WorkerOptions) : mem WorkerOptions := mret in_.

Definition WorkerOptions_DeepCopy : ptr -> mem ptr :=
  DeepCopy TWorkerOptions WorkerOptions_DeepCopyInto.

Definition WorkflowExecution_DeepCopyInto (in_ : WorkflowExecution) : mem WorkflowExecution :=
  mret in_.

Definition WorkflowExecution_DeepCopy : ptr -> mem ptr :=
  DeepCopy TWorkflowExecution WorkflowExecution_DeepCopyInto.

End DeepCopy.
