(* ===== verification/MemoryProps.v ===== *)
(** * Reasoning about memory: frames, reachability and copies

    What a heap that grows, or changes at one location, keeps; and [copied],
    the relation between references of a value and those of its copy that
    every deep copy establishes. *)

From stdpp Require Import base gmap sets list strings.
From Stdlib Require Import ZArith Lia Eqdep_dec.
From S2P Require Import Prelude GoStd Api Memory.

(** Filling a slice of zero values from the left. *)
Lemma insert_app_replicate {A} (ys : list A) (y z : A) n i :
  length ys = i -> <[i := y]> (ys ++ replicate (S n) z) = (ys ++ [y]) ++ replicate n z.
Proof.
  intros <-. rewrite insert_app_r_alt by lia. rewrite Nat.sub_diag. simpl.
  by rewrite <- app_assoc.
Qed.

Section MemoryProps.
Context `{L : Library}.
Implicit Types (σ : heap) (rs ss : list (ty * loc)).

Lemma cell_inj t (x y : sem t) : Cell t x = Cell t y -> x = y.
Proof.
  intros H. apply (f_equal (fun c => existT (P := sem) (c_ty c) (c_val c))) in H. revert H. simpl.
  apply inj_pair2_eq_dec. intros a b. destruct (decide (a = b)); auto.
Qed.

Lemma load_run t l σ (x : sem t) : σ !! l = Some (Cell t x) -> load t l σ = Ok (x, σ).
Proof.
  intros H. unfold load. rewrite H. destruct (decide (t = t)) as [e|n]; [|done].
  by rewrite (UIP_dec ty_eq_dec e eq_refl).
Qed.

Lemma mem_bind_run {A B} (m : mem A) (f : A -> mem B) σ a σ' :
  m σ = Ok (a, σ') -> (x ← m; f x) σ = f a σ'.
Proof. unfold mbind, mem_bind. by intros ->. Qed.

(** A heap in which the cells that [l] reaches in [σ] are still there. *)
Definition keeps (σ σ' : heap) (l : loc) : Prop :=
  forall m c, reach σ l m -> σ !! m = Some c -> σ' !! m = Some c.

Lemma keeps_subseteq σ σ' l : σ ⊆ σ' -> keeps σ σ' l.
Proof. intros Hs m c _ Hc. eapply lookup_weaken; eauto. Qed.

Lemma keeps_child σ σ' l t x t' l' :
  σ !! l = Some (Cell t x) -> (t', l') ∈ refs t x -> keeps σ σ' l -> keeps σ σ' l'.
Proof. intros Hl Hin Hk m c Hr. apply Hk. eapply reach_step; eauto. Qed.

Lemma wf_keeps σ σ' t l : wf σ t l -> keeps σ σ' l -> wf σ' t l.
Proof.
  induction 1 as [t l x Hl Hch IH]. intros Hk. econstructor.
  - apply Hk; [constructor|exact Hl].
  - intros t' l' Hin. apply IH; [done|]. eapply keeps_child; eauto.
Qed.

Lemma wf_mono σ σ' t l : σ ⊆ σ' -> wf σ t l -> wf σ' t l.
Proof. intros Hs Hw. eapply wf_keeps; [done|by apply keeps_subseteq]. Qed.

Lemma wf_reach σ t l m : wf σ t l -> reach σ l m -> exists t', wf σ t' m.
Proof.
  intros Hw Hr. revert t Hw. induction Hr as [|l t x t' l' m Hl Hin Hr IH]; [eauto|].
  intros t0 Hw. destruct Hw as [t0 l x0 Hl0 Hch]. rewrite Hl in Hl0. simplify_eq.
  apply (IH t'). by apply Hch.
Qed.

Lemma wf_dom σ t l : wf σ t l -> l ∈ dom σ.
Proof. intros [? ? x Hl _]. by apply elem_of_dom_2 in Hl. Qed.

Lemma wf_lookup σ t l : wf σ t l -> exists x, σ !! l = Some (Cell t x).
Proof. intros [? ? x Hl _]. eauto. Qed.

Lemma wf_cell_refs σ t l (x : sem t) : wf σ t l -> σ !! l = Some (Cell t x) -> wf_refs σ (refs t x).
Proof.
  intros [t0 l0 x0 Hl0 Hch] Hl. rewrite Hl in Hl0. simplify_eq.
  intros t' l' Hin. by apply Hch.
Qed.

Lemma reach_mono σ σ' l m : keeps σ σ' l -> reach σ l m -> reach σ' l m.
Proof.
  intros Hk Hr. induction Hr as [|l t x t' l' m Hl Hin Hr IH]; [constructor|].
  eapply reach_step; [apply Hk; [constructor|exact Hl]|exact Hin|].
  apply IH. eapply keeps_child; eauto.
Qed.

Lemma reach_back σ σ' t l m : wf σ t l -> keeps σ σ' l -> reach σ' l m -> reach σ l m.
Proof.
  intros Hw Hk Hr. revert t Hw Hk. induction Hr as [|l t x t' l' m Hl Hin Hr IH]; [constructor|].
  intros t0 Hw Hk. destruct Hw as [t0 l x0 Hl0 Hch].
  pose proof (Hk l _ (reach_here _ _) Hl0) as Hl1. rewrite Hl in Hl1. simplify_eq.
  eapply reach_step; [exact Hl0|exact Hin|].
  eapply IH; [by eapply Hch|]. eapply keeps_child; eauto.
Qed.

(** Both heaps of [same] may change outside of what is reached. *)
Lemma same_keeps σ1 σ1' σ2 σ2' t l l' :
  same σ1 σ1' t l l' -> keeps σ1 σ2 l -> keeps σ1' σ2' l' -> same σ2 σ2' t l l'.
Proof.
  induction 1 as [t l l' x y Hl Hl' He Hf Hch IH]. intros Hk Hk'.
  apply (same_cell _ _ t l l' x y); [apply Hk; [constructor|done]|apply Hk'; [constructor|done]
                                    |done|done|].
  intros i t1 k k' Hx Hy. apply (IH i); [done|done|..].
  - eapply keeps_child; [exact Hl| |done]. eapply list_elem_of_lookup_2; eauto.
  - eapply keeps_child; [exact Hl'| |done]. eapply list_elem_of_lookup_2; eauto.
Qed.

Lemma same_refl σ t l : wf σ t l -> same σ σ t l l.
Proof.
  induction 1 as [t l x Hl Hch IH]. apply (same_cell _ _ t l l x x); try done.
  intros i t1 k k' Hx Hy. rewrite Hx in Hy. simplify_eq. apply IH.
  eapply list_elem_of_lookup_2; eauto.
Qed.

(** ** Lists of references *)

Lemma wf_refs_nil σ : wf_refs σ [].
Proof. by intros t l ?%not_elem_of_nil. Qed.

Lemma wf_refs_app σ rs ss : wf_refs σ (rs ++ ss) <-> wf_refs σ rs /\ wf_refs σ ss.
Proof. unfold wf_refs. setoid_rewrite elem_of_app. naive_solver. Qed.

Lemma wf_refs_mono σ σ' rs : σ ⊆ σ' -> wf_refs σ rs -> wf_refs σ' rs.
Proof. intros Hs H t l Hin. eapply wf_mono; eauto. Qed.

Lemma reaches_app σ rs ss m : reaches σ (rs ++ ss) m <-> reaches σ rs m \/ reaches σ ss m.
Proof. unfold reaches. setoid_rewrite elem_of_app. naive_solver. Qed.

Lemma reaches_nil σ m : ~ reaches σ [] m.
Proof. by intros (t & l & ?%not_elem_of_nil & _). Qed.

Lemma reaches_single σ t l m : reaches σ [(t, l)] m <-> reach σ l m.
Proof. unfold reaches. setoid_rewrite list_elem_of_singleton. naive_solver. Qed.

Lemma reaches_dom σ rs m : wf_refs σ rs -> reaches σ rs m -> m ∈ dom σ.
Proof.
  intros Hw (t & l & Hin & Hr). destruct (wf_reach σ t l m) as [t' Ht']; auto.
  by eapply wf_dom.
Qed.

Lemma same_refs_app σ σ' rs ss rs' ss' :
  same_refs σ σ' rs ss -> same_refs σ σ' rs' ss' -> same_refs σ σ' (rs ++ rs') (ss ++ ss').
Proof.
  intros [Hf H] [Hf' H']. assert (length rs = length ss) as Hlen.
  { rewrite <- (length_fmap fst rs), <- (length_fmap fst ss). by rewrite Hf. }
  split; [by rewrite !fmap_app, Hf, Hf'|]. intros i t k k' Hx Hy.
  destruct (decide (i < length rs)) as [Hi|Hi].
  - rewrite lookup_app_l in Hx by done. rewrite lookup_app_l in Hy by lia. eauto.
  - rewrite lookup_app_r in Hx by lia. rewrite lookup_app_r in Hy by lia.
    rewrite Hlen in Hx. eauto.
Qed.

(** ** Copies *)

(** What is reachable, from the references [rs], through a
    [GateWorkflowConfig]: the gate's input. *)
Definition gate_input (σ : heap) (rs : list (ty * loc)) (m : loc) : Prop :=
  exists g x, reaches σ rs g /\ σ !! g = Some (Cell TGateWorkflowConfig x) /\
    reaches σ (refs TGateWorkflowConfig x) m.

(** The references [ss] in [σ'] are a copy of the references [rs] in [σ]: well
    formed, with equal values behind them, and reaching none of the locations
    [X] except the inputs of gates. *)
Definition copied (X : gset loc) (σ : heap) (rs ss : list (ty * loc)) (σ' : heap) : Prop :=
  wf_refs σ' ss /\ same_refs σ σ' rs ss /\
  forall m, reaches σ' ss m -> m ∉ X \/ gate_input σ rs m.

Lemma gate_input_app σ rs ss m :
  gate_input σ (rs ++ ss) m <-> gate_input σ rs m \/ gate_input σ ss m.
Proof. unfold gate_input. setoid_rewrite reaches_app. naive_solver. Qed.

Lemma gate_input_reaches σ rs m : gate_input σ rs m -> reaches σ rs m.
Proof.
  intros (g & x & (t & l & Hin & Hr) & Hg & (t' & l' & Hin' & Hr')).
  exists t, l. split; [done|]. revert Hg. clear Hin.
  induction Hr as [|l t0 x0 t1 l1 g Hl Hin Hr IH]; intros Hg; [eapply reach_step; eauto|].
  eapply reach_step; [exact Hl|exact Hin|]. by apply IH.
Qed.

Lemma gate_input_back σ σ1 rs m : σ ⊆ σ1 -> wf_refs σ rs -> gate_input σ1 rs m -> gate_input σ rs m.
Proof.
  intros Hs Hw (g & x & (t & l & Hin & Hr) & Hg & (t' & l' & Hin' & Hr')).
  eapply reach_back in Hr; [|by apply Hw|by apply keeps_subseteq].
  destruct (wf_reach σ t l g) as [tg Hgw]; [by apply Hw|done|].
  destruct (proj1 (elem_of_dom σ g) (wf_dom _ _ _ Hgw)) as [c Hc].
  pose proof (lookup_weaken _ _ _ _ Hc Hs) as Hc1. rewrite Hg in Hc1. simplify_eq.
  exists g, x. split_and!; [by exists t, l|done|]. exists t', l'. split; [done|].
  destruct (wf_lookup _ _ _ Hgw) as [x' Hx']. rewrite Hc in Hx'. simplify_eq.
  eapply reach_back; [|by apply keeps_subseteq|done].
  by eapply (wf_cell_refs _ _ _ _ Hgw).
Qed.

Section Copied.
Context (X : gset loc) (σ : heap).

Lemma copied_nil σ' : copied X σ [] [] σ'.
Proof.
  split_and!; [apply wf_refs_nil|by split|]. by intros m ?%reaches_nil.
Qed.

Lemma copied_app rs ss rs' ss' σ' :
  copied X σ rs ss σ' -> copied X σ rs' ss' σ' -> copied X σ (rs ++ rs') (ss ++ ss') σ'.
Proof.
  intros (Hw & Hs & Hf) (Hw' & Hs' & Hf'). split_and!.
  - by apply wf_refs_app.
  - by apply same_refs_app.
  - setoid_rewrite reaches_app. setoid_rewrite gate_input_app. naive_solver.
Qed.

Lemma copied_keeps rs ss σ1 σ2 :
  copied X σ rs ss σ1 -> (forall t l, (t, l) ∈ ss -> keeps σ1 σ2 l) -> copied X σ rs ss σ2.
Proof.
  intros (Hw & [Hf Hs] & Hx) Hk. split_and!.
  - intros t l Hin. eapply wf_keeps; eauto.
  - split; [done|]. intros i t k k' Hr Hr'.
    eapply same_keeps; [by eapply Hs|by apply keeps_subseteq|].
    eapply Hk. eapply list_elem_of_lookup_2; eauto.
  - intros m (t & l & Hin & Hr). apply Hx. exists t, l. split; [done|].
    eapply reach_back; eauto.
Qed.

Lemma copied_grow rs ss σ1 σ2 : copied X σ rs ss σ1 -> σ1 ⊆ σ2 -> copied X σ rs ss σ2.
Proof. intros H Hs. eapply copied_keeps; [done|]. intros t l _. by apply keeps_subseteq. Qed.

(** Writing to a location the copy does not reach. *)
Lemma copied_store rs ss σ1 q c :
  copied X σ rs ss σ1 -> q ∈ X -> q ∉ dom σ -> wf_refs σ rs -> copied X σ rs ss (<[q := c]> σ1).
Proof.
  intros H Hq Hd Hw. eapply copied_keeps; [exact H|]. intros t l Hin m c' Hr Hm.
  rewrite lookup_insert_ne; [done|]. intros <-.
  destruct (proj2 (proj2 H) q) as [?|Hg]; [by exists t, l|done|].
  apply Hd. eapply reaches_dom; [done|]. by apply gate_input_reaches.
Qed.

(** A copy made in a larger heap is a copy of what was there before. *)
Lemma copied_base X1 σ1 rs ss σ' :
  copied X1 σ1 rs ss σ' -> σ ⊆ σ1 -> X ⊆ X1 -> wf_refs σ rs -> copied X σ rs ss σ'.
Proof.
  intros (Hw & [Hf Hs] & Hx) Hsub HX Hwr. split_and!; [done|split; [done|]|].
  - intros i t k k' Hr Hr'. eapply same_keeps; [by eapply Hs| |by apply keeps_subseteq].
    intros m c Hm Hc. assert (wf σ t k) as Hwk.
    { apply Hwr. eapply list_elem_of_lookup_2; eauto. }
    eapply reach_back in Hm; [|exact Hwk|by apply keeps_subseteq].
    destruct (wf_reach σ t k m) as [t' Ht'%wf_dom]; [done|done|].
    apply elem_of_dom in Ht' as [c' Hc']. rewrite Hc'. f_equal.
    eapply lookup_weaken in Hc'; [|done]. congruence.
  - intros m Hm. destruct (Hx m Hm) as [?|Hg]; [left; set_solver|right].
    by eapply gate_input_back.
Qed.

(** A cell whose value is copied is copied. *)
Lemma copied_cell t l q (x y : sem t) σ' :
  σ !! l = Some (Cell t x) -> σ' !! q = Some (Cell t y) -> erase t x = erase t y ->
  q ∉ X -> copied X σ (refs t x) (refs t y) σ' -> copied X σ [(t, l)] [(t, q)] σ'.
Proof.
  intros Hl Hq He Hn (Hw & [Hf Hs] & Hx). split_and!.
  - intros t' l' [= -> ->]%list_elem_of_singleton. by econstructor.
  - split; [done|]. intros [|i] t1 k k' Hr Hr'; [|done]. simplify_eq/=.
    by eapply same_cell.
  - intros m Hm%reaches_single. inversion Hm as [|? t' y' t1 l1 ? Hl1 Hin Hr]; subst; [by left|].
    rewrite Hq in Hl1. simplify_eq. destruct (Hx m) as [?|(g & z & Hg & Hz & Hr')];
      [by exists t1, l1|by left|right].
    exists g, z. split_and!; [|done|done]. destruct Hg as (t2 & l2 & Hin2 & Hr2).
    apply reaches_single. by eapply reach_step.
Qed.

End Copied.

(** ** Writes *)

(** Writing somewhere [l] does not reach leaves what [l] stands for. *)
Lemma same_write σ σ' t l l' m c :
  same σ σ' t l l' -> wf σ' t l' -> ~ reach σ' l' m -> same σ (<[m := c]> σ') t l l'.
Proof.
  intros Hs Hw Hm. eapply same_keeps; [done|by apply keeps_subseteq|].
  intros k c' Hk Hc'. rewrite lookup_insert_ne; [done|]. by intros <-.
Qed.

(** If only [p] changed, and [l] still stands for the same value, so does [p]. *)
Lemma same_path σ σ' t l p :
  (forall m, m <> p -> m ∈ dom σ -> σ' !! m = σ !! m) ->
  reach σ l p -> same σ σ' t l l -> exists t', same σ σ' t' p p.
Proof.
  intros Hne Hr. revert t. induction Hr as [|l t x t1 l1 m Hl Hin Hr IH]; [eauto|].
  intros t0 Hs. destruct (decide (l = m)) as [->|Hlm]; [eauto|].
  inversion Hs as [t2 l2 l' x0 y0 Hx Hy He Hf Hch]; subst. rewrite Hne in Hy; [|done|by eapply elem_of_dom_2].
  rewrite Hx in Hy. rewrite Hl in Hx. simplify_eq.
  apply list_elem_of_lookup in Hin as [i Hi]. eapply IH; [done|]. by eapply Hch.
Qed.

End MemoryProps.
