(* ===== verification/DeepCopyProps.v ===== *)
(** * The generated deep copies are deep, except for a gate's input

    Every deep copy returns, changes nothing that was there, and yields an
    equal value in new memory - all but the input of a gate, whose pointers the
    generated code copies ([copied], MemoryProps.v).  First the shapes the
    generator emits, then the types from the bottom up. *)

From stdpp Require Import base gmap sets list strings.
From Stdlib Require Import ZArith Lia.
From S2P Require Import Prelude GoStd Api Memory MemoryProps DeepCopy.

Section DeepCopyProps.
Context `{L : Library}.
Implicit Types (σ : heap).

(** What a deep copy of structs of type [t] promises. *)
Definition deep_copies (t : ty) (f : sem t -> mem (sem t)) : Prop :=
  forall σ x, wf_refs σ (refs t x) ->
  exists y σ', f x σ = Ok (y, σ') /\ σ ⊆ σ' /\ erase t x = erase t y /\
    copied (dom σ) σ (refs t x) (refs t y) σ'.

(** And of a program that copies what a pointer points to. *)
Definition pointer_copies (t : ty) (k : loc -> mem ptr) : Prop :=
  forall σ l, wf σ t l ->
  exists q σ', k l σ = Ok (Some q, σ') /\ σ ⊆ σ' /\ (q ∉ dom σ) /\
    copied (dom σ) σ [(t, l)] [(t, q)] σ'.

(** What is relied on of the library's deep copies: they are deep copies. *)
Class LibraryLaws {LC : LibraryCopies} := {
  lib_copies : forall t, deep_copies (TLib t) (lib_DeepCopyInto t);
  Time_copies : pointer_copies (TLib LibTime) (fun l => Time_DeepCopy (Some l));
}.

(** ** The shapes *)

(** One field after the other: [σ] is the heap in which the struct was read. *)
Lemma copy_step {A} t f x (k : sem t -> mem A) (Q : A -> heap -> Prop) σ σ1 :
  deep_copies t f -> σ ⊆ σ1 -> wf_refs σ (refs t x) ->
  (forall y σ2, σ1 ⊆ σ2 -> erase t x = erase t y ->
    copied (dom σ) σ (refs t x) (refs t y) σ2 ->
    exists r σ', k y σ2 = Ok (r, σ') /\ σ2 ⊆ σ' /\ Q r σ') ->
  exists r σ', (y ← f x; k y) σ1 = Ok (r, σ') /\ σ1 ⊆ σ' /\ Q r σ'.
Proof.
  intros Hf Hs Hw Hk. destruct (Hf σ1 x) as (y & σ2 & Hr & Hs2 & He & Hc);
    [by eapply wf_refs_mono|].
  destruct (Hk y σ2) as (r & σ' & Hr' & Hs' & HQ); [done|done|..].
  - eapply copied_base; [done|done| |done]. by apply subseteq_dom.
  - exists r, σ'. erewrite mem_bind_run by done. split_and!; [done|by etrans|done].
Qed.

Lemma when_set_copies t k : pointer_copies t k -> deep_copies (TPtr t) (fun p => when_set p k).
Proof.
  intros Hk σ [l|] Hw; simpl in *.
  - destruct (Hk σ l) as (q & σ' & Hr & Hs & _ & Hc).
    { apply Hw. by left. }
    by exists (Some q), σ'.
  - exists None, σ. split_and!; [done|done|done|apply copied_nil].
Qed.

Lemma fresh_lookup σ : σ !! fresh (dom σ) = None.
Proof. apply not_elem_of_dom, is_fresh. Qed.

(** A new cell filled with the copied value is a copy of the cell. *)
Lemma copied_fill σ l q t (x y : sem t) σ2 :
  σ !! l = Some (Cell t x) -> wf_refs σ (refs t x) -> σ !! q = None -> σ ⊆ σ2 ->
  erase t x = erase t y -> copied (dom σ ∪ {[q]}) σ (refs t x) (refs t y) σ2 ->
  (σ ⊆ <[q := Cell t y]> σ2) /\ (q ∉ dom σ) /\
  copied (dom σ) σ [(t, l)] [(t, q)] (<[q := Cell t y]> σ2).
Proof.
  intros Hl Hw Hq Hs He Hc. assert (q ∉ dom σ) as Hd by by apply not_elem_of_dom.
  split_and!; [by apply insert_subseteq_r|done|].
  apply (copied_cell _ _ _ l q x y); [done|by rewrite lookup_insert_eq|done|done|].
  apply (copied_base _ _ (dom σ ∪ {[q]}) σ); [|done|set_solver|done].
  apply copied_store; [done|set_solver|done|done].
Qed.

Lemma new_assign_run t σ l x :
  σ !! l = Some (Cell t x) ->
  new_assign t l σ =
  Ok (Some (fresh (dom σ)), <[fresh (dom σ) := Cell t x]> (<[fresh (dom σ) := Cell t (zero t)]> σ)).
Proof.
  intros Hl. unfold new_assign, new, alloc. erewrite mem_bind_run by reflexivity.
  erewrite mem_bind_run; [reflexivity|].
  apply load_run. rewrite lookup_insert_ne; [done|]. intros Heq. by rewrite <- Heq, fresh_lookup in Hl.
Qed.

(** Assigning the struct copies a struct without references ... *)
Lemma new_assign_copies t : (forall x, refs t x = []) -> pointer_copies t (new_assign t).
Proof.
  intros Hn σ l Hw. destruct (wf_lookup _ _ _ Hw) as [x Hx].
  rewrite (new_assign_run _ _ _ x) by done. do 2 eexists. split; [done|].
  apply (copied_fill σ l _ t x x); [done|by eapply wf_cell_refs|apply fresh_lookup| |done|].
  - by apply insert_subseteq, fresh_lookup.
  - rewrite Hn. apply copied_nil.
Qed.

(** ... and of a gate everything but its input. *)
Lemma gate_assign_copies : pointer_copies TGateWorkflowConfig (new_assign TGateWorkflowConfig).
Proof.
  intros σ l Hw. destruct (wf_lookup _ _ _ Hw) as [x Hx].
  pose proof (wf_cell_refs _ _ _ _ Hw Hx) as Hwr.
  rewrite (new_assign_run _ _ _ x) by done. rewrite insert_insert_eq.
  set (q := fresh (dom σ)). set (σ' := <[q := Cell TGateWorkflowConfig x]> σ).
  assert (σ ⊆ σ') as Hs by by apply insert_subseteq, fresh_lookup.
  exists q, σ'. split_and!; [done|done|apply is_fresh|].
  split_and!.
  - intros t' l' [= -> ->]%list_elem_of_singleton. apply (wf_cell _ _ _ x).
    + apply lookup_insert_eq.
    + by apply (wf_refs_mono σ).
  - split; [done|]. intros [|i] t1 k k' Hr Hr'; [|done]. simplify_eq/=.
    apply (same_cell _ _ TGateWorkflowConfig _ _ x x); [done|apply lookup_insert_eq|done|done|].
    intros i t1 k1 k2 Hk Hk'. rewrite Hk in Hk'. simplify_eq.
    apply list_elem_of_lookup_2, Hwr in Hk.
    eapply same_keeps; [by apply same_refl|by apply keeps_subseteq|by apply keeps_subseteq].
  - intros m Hm%reaches_single. inversion Hm as [|? t' y' t1 l1 ? Hl1 Hin Hr]; subst.
    { left. apply is_fresh. }
    right. unfold σ' in Hl1. rewrite lookup_insert_eq in Hl1. simplify_eq.
    exists l. eexists. split_and!; [apply reaches_single; constructor|done|].
    exists t1, l1. split; [done|]. eapply reach_back; [by apply Hwr|by apply keeps_subseteq|done].
Qed.

Lemma new_into_copies t f : deep_copies t f -> pointer_copies t (new_into t f).
Proof.
  intros Hf σ l Hw. destruct (wf_lookup _ _ _ Hw) as [x Hx].
  pose proof (wf_cell_refs _ _ _ _ Hw Hx) as Hwr.
  unfold new_into, new, alloc. erewrite mem_bind_run by reflexivity. cbv beta zeta.
  set (q := fresh (dom σ)). set (σ1 := <[q := Cell t (zero t)]> σ).
  assert (σ !! q = None) as Hq by apply fresh_lookup.
  assert (σ ⊆ σ1) as Hs1 by by apply insert_subseteq.
  rewrite (mem_bind_run _ _ _ x σ1); [|apply load_run; by eapply lookup_weaken].
  destruct (Hf σ1 x) as (y & σ2 & Hr & Hs2 & He & Hc); [by eapply wf_refs_mono|].
  erewrite mem_bind_run by done. exists q, (<[q := Cell t y]> σ2). split; [done|].
  apply (copied_fill σ l q t x y); [done|done|done|by etrans|done|].
  eapply copied_base; [done|done| |done]. unfold σ1. rewrite dom_insert_L. set_solver.
Qed.

Lemma load_array_run t l σ (xs : list (sem t)) :
  σ !! l = Some (Cell (TArray t) xs) -> load_array t l σ = Ok (xs, σ).
Proof. exact (load_run (TArray t) l σ xs). Qed.

Lemma make_copy_copies t : (forall x, refs t x = []) -> pointer_copies (TArray t) (make_copy t).
Proof.
  intros Hn σ l Hw. destruct (wf_lookup _ _ _ Hw) as [xs Hx].
  assert (refs (TArray t) xs = []) as Hr.
  { clear Hx. induction xs as [|x xs IH]; [done|]. simpl. by rewrite Hn. }
  unfold make_copy, alloc. erewrite mem_bind_run by by apply load_array_run.
  erewrite mem_bind_run by reflexivity. do 2 eexists. split; [done|].
  apply (copied_fill σ l _ (TArray t) xs xs);
    [done|by eapply wf_cell_refs|apply fresh_lookup| |done|].
  - by apply insert_subseteq, fresh_lookup.
  - rewrite Hr. apply copied_nil.
Qed.

(** The loop over a slice: what is done, [ys], then zero values. *)
Lemma copy_elements_copies t f σ l q (xs : list (sem t)) :
  deep_copies t f -> σ !! l = Some (Cell (TArray t) xs) -> wf_refs σ (refs (TArray t) xs) ->
  σ !! q = None ->
  forall n i ys σ1, i + n = length xs -> length ys = i -> σ ⊆ σ1 ->
  σ1 !! q = Some (Cell (TArray t) (ys ++ replicate n (zero t))) ->
  erase (TArray t) (take i xs) = erase (TArray t) ys ->
  copied (dom σ ∪ {[q]}) σ (refs (TArray t) (take i xs)) (refs (TArray t) ys) σ1 ->
  exists zs σ', copy_elements t f l q n i σ1 = Ok (tt, σ') /\ σ ⊆ σ' /\
    σ' !! q = Some (Cell (TArray t) zs) /\ erase (TArray t) xs = erase (TArray t) zs /\
    copied (dom σ ∪ {[q]}) σ (refs (TArray t) xs) (refs (TArray t) zs) σ'.
Proof.
  intros Hf Hl Hw Hq n. induction n as [|n IH]; intros i ys σ1 Hi Hlen Hs Hys He Hc.
  { rewrite take_ge in He, Hc by lia. rewrite app_nil_r in Hys. by exists ys, σ1. }
  destruct (lookup_lt_is_Some_2 xs i) as [x Hx]; [lia|].
  cbn [copy_elements]. rewrite (mem_bind_run _ _ _ xs σ1) by by apply load_array_run; eapply lookup_weaken.
  rewrite (mem_bind_run _ _ _ x σ1) by (unfold element, index; by rewrite Hx).
  assert (wf_refs σ (refs t x)) as Hwx.
  { rewrite <- (take_drop_middle _ _ _ Hx) in Hw. simpl in Hw.
    rewrite fmap_app, concat_app in Hw. apply wf_refs_app in Hw as [_ Hw].
    by apply wf_refs_app in Hw as [Hw _]. }
  destruct (Hf σ1 x) as (y & σ2 & Hr & Hs2 & Hey & Hcy); [by eapply wf_refs_mono|].
  rewrite (mem_bind_run _ _ _ _ _ Hr).
  rewrite (mem_bind_run _ _ _ (ys ++ replicate (S n) (zero t)) σ2)
    by by apply load_array_run; eapply lookup_weaken.
  erewrite mem_bind_run by reflexivity.
  assert (q ∈ dom σ1) as Hqd by by eapply elem_of_dom_2.
  assert (dom σ ∪ {[q]} ⊆ dom σ1) as Hsub by (apply subseteq_dom in Hs; set_solver).
  assert (q ∉ dom σ) as Hqn by by apply not_elem_of_dom.
  apply (IH (S i) (ys ++ [y])); clear IH; [lia|rewrite length_app; simpl; lia| | | |].
  - apply insert_subseteq_r; [done|by etrans].
  - rewrite lookup_insert_eq. do 2 f_equal. by apply insert_app_replicate.
  - rewrite (take_S_r _ _ x) by done. simpl in *. rewrite !fmap_app, He. simpl. by rewrite Hey.
  - assert (wf_refs σ (refs (TArray t) (take i xs))) as Hwt.
    { rewrite <- (take_drop i xs) in Hw. simpl in Hw. rewrite fmap_app, concat_app in Hw.
      by apply wf_refs_app in Hw as [Hw _]. }
    rewrite (take_S_r _ _ x) by done. simpl. rewrite !fmap_app, !concat_app. simpl.
    rewrite !app_nil_r. apply copied_app; apply copied_store; try done; [|set_solver| |set_solver].
    + by eapply copied_grow.
    + by eapply copied_base.
Qed.

Lemma make_into_copies t f : deep_copies t f -> pointer_copies (TArray t) (make_into t f).
Proof.
  intros Hf σ l Hw. destruct (wf_lookup _ _ _ Hw) as [xs Hx].
  pose proof (wf_cell_refs _ _ _ _ Hw Hx) as Hwr.
  unfold make_into, alloc. erewrite mem_bind_run by by apply load_array_run.
  erewrite mem_bind_run by reflexivity.
  set (q := fresh (dom σ)). pose proof (fresh_lookup σ : σ !! q = None) as Hq.
  destruct (copy_elements_copies t f σ l q xs Hf Hx Hwr Hq (length xs) 0 []
    (<[q := Cell (TArray t) (replicate (length xs) (zero t))]> σ)) as (ys & σ' & Hr & Hs & Hqy & He & Hc).
  - done.
  - done.
  - by apply insert_subseteq.
  - by rewrite lookup_insert_eq.
  - done.
  - apply copied_nil.
  - rewrite (mem_bind_run _ _ _ _ _ Hr). exists q, σ'.
    split_and!; [done|done|by apply not_elem_of_dom|].
    apply (copied_cell _ _ _ l q xs ys); [done|done|done|by apply not_elem_of_dom|].
    eapply copied_base; [done|done|set_solver|done].
Qed.

Lemma DeepCopy_when_set t f p : DeepCopy t f p = when_set p (new_into t f).
Proof. by destruct p. Qed.

Lemma DeepCopy_copies t f : deep_copies t f -> deep_copies (TPtr t) (DeepCopy t f).
Proof.
  intros Hf σ p Hw. rewrite DeepCopy_when_set. by apply when_set_copies, Hw; apply new_into_copies.
Qed.

(** A struct without references is copied by assignment. *)
Lemma assign_copies t : (forall x, refs t x = []) -> deep_copies t (fun x => mret x).
Proof.
  intros Hn σ x Hw. exists x, σ. split_and!; try done. rewrite Hn. apply copied_nil.
Qed.

(** A pointer field, then the rest of the struct. *)
Lemma field_step {A} t k p (K : ptr -> mem A) (Q : A -> heap -> Prop) σ σ1 :
  pointer_copies t k -> σ ⊆ σ1 -> wf_refs σ (ref t p) ->
  (forall q σ2, σ1 ⊆ σ2 -> forget p = forget q -> copied (dom σ) σ (ref t p) (ref t q) σ2 ->
    exists r σ', K q σ2 = Ok (r, σ') /\ σ2 ⊆ σ' /\ Q r σ') ->
  exists r σ', (q ← when_set p k; K q) σ1 = Ok (r, σ') /\ σ1 ⊆ σ' /\ Q r σ'.
Proof. intros Hk%when_set_copies. by apply (copy_step (TPtr t) (fun p => when_set p k) p). Qed.

End DeepCopyProps.

(** [σ ⊆ σ'] along the heaps of a run. *)
Ltac grows := repeat first [reflexivity | eassumption | etrans; [eassumption|]].

Ltac unfold_refs := unfold refs_Spec, refs_Status, refs_ConnSpec, refs_Target, refs_Base,
  refs_Rollout, refs_Sunset.

(** An embedded struct of type [t], by the copy of its type. *)
Ltac embedded t :=
  match goal with
  | σ : heap, _ : wf_refs ?σ _ |- _ =>
      eapply (copy_step t _ _ _ _ σ);
        [solve [auto with copies]|grows|simpl; unfold_refs; by rewrite ?wf_refs_app|intros ?????]
  end.

(** The proof for a struct: field after field, each by its own copy. *)
Ltac copy_struct :=
  intros σ x Hw; simpl in Hw;
  unfold refs_Spec, refs_Status, refs_ConnSpec, refs_Target, refs_Base, refs_Rollout,
    refs_Sunset in Hw;
  rewrite ?wf_refs_app in Hw; destruct_and?;
  repeat first
    [ eapply (field_step _ _ _ _ _ σ); [by auto with copies|grows|done|intros ?????]
    | embedded TBaseWorkerDeploymentVersion | embedded TTargetWorkerDeploymentVersion
    | embedded TRolloutStrategy | embedded TSunsetStrategy
    | embedded TTemporalWorkerDeploymentSpec | embedded TTemporalWorkerDeploymentStatus
    | embedded TTemporalConnectionSpec | embedded (TLib LibObjectMeta)
    | embedded (TLib LibListMeta) | embedded (TLib LibPodTemplateSpec) ];
  do 2 eexists; split; [reflexivity|]; split; [grows|]; split;
  [ simpl in *; unfold erase_Spec, erase_Status, erase_ConnSpec, erase_Target, erase_Base,
      erase_Rollout, erase_Sunset in *; simpl in *; congruence
  | simpl; repeat first [ solve [eapply copied_grow; [eassumption|grows]] | apply copied_app ] ].

Create HintDb copies.
#[export] Hint Resolve new_into_copies make_into_copies make_copy_copies new_assign_copies
  gate_assign_copies DeepCopy_copies assign_copies lib_copies Time_copies when_set_copies : copies.
#[export] Hint Extern 1 (forall x, refs _ x = []) => (intros; reflexivity) : copies.

(** ** The types *)

Section Types.
Context `{LL : LibraryLaws}.

Lemma Base_copies :
  deep_copies TBaseWorkerDeploymentVersion BaseWorkerDeploymentVersion_DeepCopyInto.
Proof. copy_struct. Qed.
Hint Resolve Base_copies : copies.

Lemma Current_copies :
  deep_copies TCurrentWorkerDeploymentVersion CurrentWorkerDeploymentVersion_DeepCopyInto.
Proof. copy_struct. Qed.
Hint Resolve Current_copies : copies.

Lemma Deprecated_copies :
  deep_copies TDeprecatedWorkerDeploymentVersion DeprecatedWorkerDeploymentVersion_DeepCopyInto.
Proof. copy_struct. Qed.
Hint Resolve Deprecated_copies : copies.

Lemma Target_copies :
  deep_copies TTargetWorkerDeploymentVersion TargetWorkerDeploymentVersion_DeepCopyInto.
Proof. copy_struct. Qed.
Hint Resolve Target_copies : copies.

Lemma Rollout_copies : deep_copies TRolloutStrategy RolloutStrategy_DeepCopyInto.
Proof. copy_struct. Qed.
Hint Resolve Rollout_copies : copies.

Lemma Sunset_copies : deep_copies TSunsetStrategy SunsetStrategy_DeepCopyInto.
Proof. copy_struct. Qed.
Hint Resolve Sunset_copies : copies.

Lemma Spec_copies :
  deep_copies TTemporalWorkerDeploymentSpec TemporalWorkerDeploymentSpec_DeepCopyInto.
Proof. copy_struct. Qed.
Hint Resolve Spec_copies : copies.

Lemma Status_copies :
  deep_copies TTemporalWorkerDeploymentStatus TemporalWorkerDeploymentStatus_DeepCopyInto.
Proof. copy_struct. Qed.
Hint Resolve Status_copies : copies.

Lemma TWD_copies : deep_copies TTemporalWorkerDeployment TemporalWorkerDeployment_DeepCopyInto.
Proof. copy_struct. Qed.
Hint Resolve TWD_copies : copies.

Lemma TWDList_copies :
  deep_copies TTemporalWorkerDeploymentList TemporalWorkerDeploymentList_DeepCopyInto.
Proof. copy_struct. Qed.

Lemma ConnSpec_copies : deep_copies TTemporalConnectionSpec TemporalConnectionSpec_DeepCopyInto.
Proof. copy_struct. Qed.
Hint Resolve ConnSpec_copies : copies.

Lemma Conn_copies : deep_copies TTemporalConnection TemporalConnection_DeepCopyInto.
Proof. copy_struct. Qed.
Hint Resolve Conn_copies : copies.

Lemma ConnList_copies : deep_copies TTemporalConnectionList TemporalConnectionList_DeepCopyInto.
Proof. copy_struct. Qed.

(** ** Resources *)

(** The four kinds the API server serves, with their [DeepCopyObject]. *)
Definition resource_copies : list (ty * (ptr -> mem (option (ty * loc)))) :=
  [(TTemporalWorkerDeployment, TemporalWorkerDeployment_DeepCopyObject);
   (TTemporalWorkerDeploymentList, TemporalWorkerDeploymentList_DeepCopyObject);
   (TTemporalConnection, TemporalConnection_DeepCopyObject);
   (TTemporalConnectionList, TemporalConnectionList_DeepCopyObject)].

Lemma DeepCopyObject_copies t f σ l :
  deep_copies t f -> wf σ t l ->
  exists q σ', DeepCopyObject t (DeepCopy t f) (Some l) σ = Ok (Some (t, q), σ') /\ σ ⊆ σ' /\
    (q ∉ dom σ) /\ copied (dom σ) σ [(t, l)] [(t, q)] σ'.
Proof.
  intros Hf Hw. destruct (new_into_copies t f Hf σ l Hw) as (q & σ' & Hr & Hs & Hq & Hc).
  exists q, σ'. split_and!; try done. unfold DeepCopyObject. simpl.
  by rewrite (mem_bind_run _ _ _ _ _ Hr).
Qed.

Lemma resource_copies_copies t D σ l :
  (t, D) ∈ resource_copies -> wf σ t l ->
  exists q σ', D (Some l) σ = Ok (Some (t, q), σ') /\ σ ⊆ σ' /\ (q ∉ dom σ) /\
    copied (dom σ) σ [(t, l)] [(t, q)] σ'.
Proof.
  intros Hin Hw. unfold resource_copies in Hin.
  repeat (apply elem_of_cons in Hin as [[= -> ->]|Hin]);
    [..|by apply not_elem_of_nil in Hin]; apply DeepCopyObject_copies;
    auto using TWD_copies, TWDList_copies, Conn_copies, ConnList_copies.
Qed.

Lemma copied_single X σ t l q σ' :
  copied X σ [(t, l)] [(t, q)] σ' ->
  wf σ' t q /\ same σ σ' t l q /\ forall m, reach σ' q m -> m ∉ X \/ gate_input σ [(t, l)] m.
Proof.
  intros (Hw & [_ Hs] & Hf). split_and!.
  - apply Hw. by left.
  - by apply (Hs 0).
  - intros m Hm. apply Hf. by apply reaches_single.
Qed.

(** All the [DeepCopy] functions of the file. *)
Definition copy_functions : list (ty * (ptr -> mem ptr)) :=
  [(TAllAtOnceRolloutStrategy, AllAtOnceRolloutStrategy_DeepCopy);
   (TBaseWorkerDeploymentVersion, BaseWorkerDeploymentVersion_DeepCopy);
   (TCurrentWorkerDeploymentVersion, CurrentWorkerDeploymentVersion_DeepCopy);
   (TDeprecatedWorkerDeploymentVersion, DeprecatedWorkerDeploymentVersion_DeepCopy);
   (TGateWorkflowConfig, GateWorkflowConfig_DeepCopy);
   (TManualRolloutStrategy, ManualRolloutStrategy_DeepCopy);
   (TRolloutStep, RolloutStep_DeepCopy);
   (TRolloutStrategy, RolloutStrategy_DeepCopy);
   (TSecretReference, SecretReference_DeepCopy);
   (TSunsetStrategy, SunsetStrategy_DeepCopy);
   (TTargetWorkerDeploymentVersion, TargetWorkerDeploymentVersion_DeepCopy);
   (TTaskQueue, TaskQueue_DeepCopy);
   (TTemporalConnection, TemporalConnection_DeepCopy);
   (TTemporalConnectionList, TemporalConnectionList_DeepCopy);
   (TTemporalConnectionReference, TemporalConnectionReference_DeepCopy);
   (TTemporalConnectionSpec, TemporalConnectionSpec_DeepCopy);
   (TTemporalConnectionStatus, TemporalConnectionStatus_DeepCopy);
   (TTemporalWorkerDeployment, TemporalWorkerDeployment_DeepCopy);
   (TTemporalWorkerDeploymentList, TemporalWorkerDeploymentList_DeepCopy);
   (TTemporalWorkerDeploymentSpec, TemporalWorkerDeploymentSpec_DeepCopy);
   (TTemporalWorkerDeploymentStatus, TemporalWorkerDeploymentStatus_DeepCopy);
   (TWorkerOptions, WorkerOptions_DeepCopy);
   (TWorkflowExecution, WorkflowExecution_DeepCopy)].

Lemma new_into_assign t l σ : new_into t (fun x => mret x) l σ = new_assign t l σ.
Proof.
  unfold new_into, new_assign, new, alloc, mbind, mem_bind. simpl.
  by destruct (load t l _) as [[x σ']|e|p].
Qed.

Lemma copy_functions_copies t D :
  (t, D) ∈ copy_functions -> D None = mret None /\ pointer_copies t (fun l => D (Some l)).
Proof.
  intros Hin. unfold copy_functions in Hin.
  repeat (apply elem_of_cons in Hin as [[= -> ->]|Hin]); [..|by apply not_elem_of_nil in Hin];
    (split; [done|]);
    try by (apply new_into_copies; auto using Base_copies, Current_copies, Deprecated_copies,
      Rollout_copies, Sunset_copies, Target_copies, Conn_copies, ConnList_copies, ConnSpec_copies,
      TWD_copies, TWDList_copies, Spec_copies, Status_copies with copies).
  all: try by (apply new_into_copies, assign_copies).
  intros σ l Hw. unfold GateWorkflowConfig_DeepCopy, DeepCopy.
  rewrite new_into_assign. by apply gate_assign_copies.
Qed.

(** C10: every generated [DeepCopy] returns: nil for nil, and for a pointer to
    well-formed memory a pointer to a new cell with the same value, nil pointers
    and slices included; it changes no cell there was, and what the copy shares
    with the old memory is the input of gates, nothing else. *)
Theorem DeepCopy_deep t D σ :
  (t, D) ∈ copy_functions ->
  D None σ = Ok (None, σ) /\
  forall l, wf σ t l ->
  exists q σ', D (Some l) σ = Ok (Some q, σ') /\ σ ⊆ σ' /\ (q ∉ dom σ) /\
    wf σ' t q /\ same σ σ' t l q /\
    forall m, reach σ' q m -> m ∉ dom σ \/ gate_input σ [(t, l)] m.
Proof.
  intros [Hn Hp]%copy_functions_copies. rewrite Hn. split; [done|]. intros l Hw.
  destruct (Hp σ l Hw) as (q & σ' & Hr & Hs & Hq & Hc). exists q, σ'.
  by apply copied_single in Hc.
Qed.

(** Types from which no gate can be reached: the connections'. *)
Definition gate_free (t : ty) : bool :=
  match t with
  | TLib _ | TSecretReference | TTemporalConnectionSpec | TTemporalConnection
  | TTemporalConnectionList | TArray TTemporalConnection => true
  | _ => false
  end.

Lemma gate_free_refs t (x : sem t) t' l' :
  gate_free t = true -> (t', l') ∈ refs t x -> gate_free t' = true.
Proof.
  assert (forall k (y : lib k) t0 l0, (t0, l0) ∈ library_refs y -> gate_free t0 = true) as Hlib.
  { intros k y t0 l0 ([t1 l1] & [= -> ->] & _)%list_elem_of_fmap. done. }
  assert (forall t1 p t0 l0, gate_free t1 = true -> (t0, l0) ∈ ref t1 p -> gate_free t0 = true) as Href.
  { intros t1 [l|] t0 l0 Hg Hin; [|by apply not_elem_of_nil in Hin].
    by apply list_elem_of_singleton in Hin as [= -> ->]. }
  destruct t as [k| | | | | | | | | | | | | | | | | | | | | | | | | | | | | | | |t|t]; try done.
  all: simpl; try (by intros _ ?%not_elem_of_nil).
  - intros _. apply Hlib.
  - intros _ [H|H]%elem_of_app; (eapply Href; [|exact H]; done).
  - intros _ [H|[H|H]%elem_of_app]%elem_of_app; [by eapply Hlib|(eapply Href; [|exact H]; done)..].
  - intros _ [H|H]%elem_of_app; [by eapply Hlib|(eapply Href; [|exact H]; done)].
  - destruct t; try done. intros _ Hin. apply list_elem_of_In, in_concat in Hin as (rs & Hrs & Hin).
    apply list_elem_of_In, list_elem_of_fmap in Hrs as (c & -> & _).
    apply list_elem_of_In in Hin. simpl in Hin.
    apply elem_of_app in Hin as [H|[H|H]%elem_of_app];
      [by eapply Hlib|(eapply Href; [|exact H]; done)..].
Qed.

Lemma gate_free_no_input σ t l m :
  gate_free t = true -> wf σ t l -> ~ gate_input σ [(t, l)] m.
Proof.
  intros Hg Hw (g & x & Hr%reaches_single & Hx & _). revert t Hg Hw Hx.
  induction Hr as [l|l t1 y t' l' m' Hl Hin Hr IH]; intros t Hg Hw Hx.
  - destruct (wf_lookup _ _ _ Hw) as [z Hz]. rewrite Hx in Hz. by simplify_eq.
  - destruct (wf_lookup _ _ _ Hw) as [z Hz]. rewrite Hl in Hz. simplify_eq.
    eapply (IH t'); [by eapply gate_free_refs|by apply (wf_cell_refs _ _ _ _ Hw Hl)|done].
Qed.

(** C36: a connection and its deep copy, or two lists of them, share no memory:
    the copy reaches none of the cells there were, so whatever is written through
    the copy, at any depth, leaves the original the value it was, and the other
    way round. *)
Theorem TemporalConnection_copy_isolated t D σ l :
  (t, D) ∈ resource_copies -> gate_free t = true -> wf σ t l ->
  exists q σ', D (Some l) σ = Ok (Some (t, q), σ') /\ same σ σ' t l q /\
    (forall m c, reach σ' q m -> same σ (<[m := c]> σ') t l l) /\
    (forall m c, reach σ' l m -> same σ (<[m := c]> σ') t l q).
Proof.
  intros Hin Hg Hw.
  destruct (resource_copies_copies t D σ l Hin Hw) as (q & σ' & Hr & Hs & _ & Hc).
  apply copied_single in Hc as (Hwq & Hsame & Hf). exists q, σ'.
  assert (forall m, reach σ' q m -> reach σ' l m -> False) as Hdis.
  { intros m Hq Hl. destruct (Hf m Hq) as [Hm|Hi]; [|by apply (gate_free_no_input σ t l m)].
    apply Hm. eapply reach_back in Hl; [|done|by apply keeps_subseteq].
    destruct (wf_reach _ _ _ _ Hw Hl) as [t' Ht']. by eapply wf_dom. }
  split_and!; [done|done|..].
  - intros m c Hm. apply same_write; [|by eapply wf_mono|by eauto].
    eapply same_keeps; [by apply same_refl|by apply keeps_subseteq|by apply keeps_subseteq].
  - intros m c Hm. apply same_write; [done|done|by eauto].
Qed.

(** *** The gate's input is shared *)

(** [r] is a rollout strategy whose gate, at a location outside [σ], holds [gc]. *)
Definition new_gate (σ : heap) (gc : GateWorkflowConfig_) (r : RolloutStrategy_) (σ' : heap) : Prop :=
  exists g, r_Gate r = Some g /\ (g ∉ dom σ) /\ σ' !! g = Some (Cell TGateWorkflowConfig gc).

Lemma new_gate_grow σ gc r σ1 σ2 : σ1 ⊆ σ2 -> new_gate σ gc r σ1 -> new_gate σ gc r σ2.
Proof. intros Hs (g & ? & ? & ?). exists g. split_and!; try done. by eapply lookup_weaken. Qed.

Section Sharing.
Context (σ : heap) (g : loc) (gc : GateWorkflowConfig_)
  (Hg : σ !! g = Some (Cell TGateWorkflowConfig gc)).

Lemma Rollout_shares r σ1 :
  σ ⊆ σ1 -> wf_refs σ (refs TRolloutStrategy r) -> r_Gate r = Some g ->
  exists r' σ', RolloutStrategy_DeepCopyInto r σ1 = Ok (r', σ') /\ σ1 ⊆ σ' /\ new_gate σ gc r' σ'.
Proof.
  intros Hs Hw Hr. simpl in Hw. unfold refs_Rollout in Hw. rewrite wf_refs_app in Hw.
  destruct Hw as [_ Hw]. unfold RolloutStrategy_DeepCopyInto. rewrite Hr. simpl.
  erewrite mem_bind_run; [|apply new_assign_run; by eapply lookup_weaken].
  rewrite insert_insert_eq. set (q := fresh (dom σ1)). set (σ2 := <[q := _]> σ1).
  assert (σ1 ⊆ σ2) as Hs2 by by apply insert_subseteq, fresh_lookup.
  destruct (field_step (TArray TRolloutStep) (make_copy TRolloutStep) (r_Steps r)
    (fun steps => mret (mkRolloutStrategy_ (r_Strategy r) (Some q) steps))
    (fun r' σ' => new_gate σ gc r' σ') σ σ2) as (r' & σ' & Hrun & Hs' & HQ);
    [by auto with copies|by etrans|done| |].
  - intros steps σ3 Hs3 _ _. do 2 eexists. split; [reflexivity|]. split; [done|]. exists q.
    split_and!; [done| |by eapply lookup_weaken; [apply lookup_insert_eq|]].
    intros Hq. apply (is_fresh (dom σ1)). fold q. apply subseteq_dom in Hs. set_solver.
  - exists r', σ'. split_and!; [done|by etrans|done].
Qed.

Lemma Spec_shares s σ1 :
  σ ⊆ σ1 -> wf_refs σ (refs TTemporalWorkerDeploymentSpec s) ->
  r_Gate (sp_RolloutStrategy s) = Some g ->
  exists s' σ', TemporalWorkerDeploymentSpec_DeepCopyInto s σ1 = Ok (s', σ') /\ σ1 ⊆ σ' /\
    new_gate σ gc (sp_RolloutStrategy s') σ'.
Proof.
  intros Hs Hw Hr. simpl in Hw. unfold refs_Spec in Hw. rewrite !wf_refs_app in Hw.
  destruct Hw as (? & ? & ? & Hwr & ?). unfold TemporalWorkerDeploymentSpec_DeepCopyInto.
  eapply (field_step TInt32 _ _ _ _ σ); [auto with copies|done|done|]. intros rep σ2 Hs2 _ _.
  eapply (copy_step (TLib LibPodTemplateSpec) _ _ _ _ σ); [auto with copies|by etrans|done|].
  intros tm σ3 Hs3 _ _.
  eapply (field_step TInt32 _ _ _ _ σ); [auto with copies|grows|done|]. intros pd σ4 Hs4 _ _.
  destruct (Rollout_shares (sp_RolloutStrategy s) σ4) as (r' & σ5 & Hrun & Hs5 & Hn);
    [grows|done|done|].
  rewrite (mem_bind_run _ _ _ _ _ Hrun).
  destruct (Sunset_copies σ5 (sp_SunsetStrategy s)) as (ss & σ6 & Hrun' & Hs6 & _).
  { eapply (wf_refs_mono σ); [grows|done]. }
  rewrite (mem_bind_run _ _ _ _ _ Hrun'). do 2 eexists. split; [reflexivity|].
  split; [grows|]. by eapply new_gate_grow.
Qed.

Lemma TWD_shares x σ1 :
  σ ⊆ σ1 -> wf_refs σ (refs TTemporalWorkerDeployment x) ->
  r_Gate (sp_RolloutStrategy (w_Spec x)) = Some g ->
  exists y σ', TemporalWorkerDeployment_DeepCopyInto x σ1 = Ok (y, σ') /\ σ1 ⊆ σ' /\
    new_gate σ gc (sp_RolloutStrategy (w_Spec y)) σ'.
Proof.
  intros Hs Hw Hr. simpl in Hw. rewrite !wf_refs_app in Hw. destruct Hw as (? & Hws & Hwt).
  unfold TemporalWorkerDeployment_DeepCopyInto.
  eapply (copy_step (TLib LibObjectMeta) _ _ _ _ σ); [auto with copies|done|done|].
  intros om σ2 Hs2 _ _.
  destruct (Spec_shares (w_Spec x) σ2) as (s' & σ3 & Hrun & Hs3 & Hn); [grows|done|done|].
  rewrite (mem_bind_run _ _ _ _ _ Hrun).
  destruct (Status_copies σ3 (w_Status x)) as (st & σ4 & Hrun' & Hs4 & _).
  { eapply (wf_refs_mono σ); [grows|done]. }
  rewrite (mem_bind_run _ _ _ _ _ Hrun'). do 2 eexists. split; [reflexivity|].
  split; [grows|]. by eapply new_gate_grow.
Qed.

End Sharing.

Lemma gate_input_reach σ l x g gc p :
  σ !! l = Some (Cell TTemporalWorkerDeployment x) ->
  r_Gate (sp_RolloutStrategy (w_Spec x)) = Some g -> σ !! g = Some (Cell TGateWorkflowConfig gc) ->
  g_Input gc = Some p -> reach σ l p.
Proof.
  intros Hl Hr Hg Hp. eapply (reach_step _ _ _ _ TGateWorkflowConfig g); [exact Hl| |].
  { simpl. unfold refs_Spec, refs_Rollout. rewrite Hr. simpl. set_solver. }
  eapply (reach_step _ _ _ _ TJSON p); [exact Hg| |constructor].
  simpl. rewrite Hp. simpl. set_solver.
Qed.

(** A value of which an input was cleared is another value. *)
Lemma input_cleared σ σ' t l p j b :
  reach σ l p -> σ !! p = Some (Cell TJSON j) -> js_Raw j = Some b -> σ ⊆ σ' ->
  ~ same σ (<[p := Cell TJSON (mkJSON_ None)]> σ') t l l.
Proof.
  intros Hr Hj Hb Hs Hsame. eapply same_path in Hr as [t' Ht']; [| |exact Hsame].
  - inversion Ht' as [? ? ? x y Hx Hy He _ _]; subst. rewrite Hj in Hx.
    rewrite lookup_insert_eq in Hy.
    assert (t' = TJSON) as -> by congruence.
    apply (inj Some), cell_inj in Hx, Hy. subst. simpl in He. by rewrite Hb in He.
  - intros m Hm [c Hc]%elem_of_dom. rewrite lookup_insert_ne by done. rewrite Hc.
    by eapply lookup_weaken.
Qed.

(** C37: the deep copy of a resource with a gate is not deep.  The copy has a
    gate of its own, but the gate's [Input] is the very cell of the original's:
    if the input is cleared through the copy, the original is no longer the
    value it was.  ([GateWorkflowConfig.DeepCopyInto] is [*out = *in], generated
    before the struct got pointer fields.) *)
Theorem gate_input_shared σ l x g gc p j b :
  wf σ TTemporalWorkerDeployment l ->
  σ !! l = Some (Cell TTemporalWorkerDeployment x) ->
  r_Gate (sp_RolloutStrategy (w_Spec x)) = Some g -> σ !! g = Some (Cell TGateWorkflowConfig gc) ->
  g_Input gc = Some p -> σ !! p = Some (Cell TJSON j) -> js_Raw j = Some b ->
  exists q σ' y g', TemporalWorkerDeployment_DeepCopy (Some l) σ = Ok (Some q, σ') /\
    σ' !! q = Some (Cell TTemporalWorkerDeployment y) /\
    r_Gate (sp_RolloutStrategy (w_Spec y)) = Some g' /\ g' <> g /\
    σ' !! g' = Some (Cell TGateWorkflowConfig gc) /\
    ~ same σ (<[p := Cell TJSON (mkJSON_ None)]> σ') TTemporalWorkerDeployment l l.
Proof.
  intros Hw Hl Hr Hg Hp Hj Hb.
  unfold TemporalWorkerDeployment_DeepCopy, DeepCopy, new_into, new, alloc.
  erewrite mem_bind_run by reflexivity. cbv beta zeta. set (q := fresh (dom σ)).
  set (σ1 := <[q := _]> σ). assert (σ !! q = None) as Hq by apply fresh_lookup.
  assert (σ ⊆ σ1) as Hs1 by by apply insert_subseteq.
  rewrite (mem_bind_run _ _ _ x σ1); [|apply load_run; by eapply lookup_weaken].
  destruct (TWD_shares σ1 g gc (lookup_weaken _ _ _ _ Hg Hs1) x σ1)
    as (y & σ2 & Hrun & Hs2 & g' & Hg' & Hn & Hgc); [done| |done|].
  { eapply (wf_refs_mono σ); [done|by apply (wf_cell_refs _ _ _ _ Hw)]. }
  rewrite (mem_bind_run _ _ _ _ _ Hrun).
  assert (g' <> g) as Hne.
  { intros ->. apply Hn. eapply elem_of_dom_2, lookup_weaken; [exact Hg|done]. }
  assert (g' <> q) as Hnq.
  { intros ->. apply Hn. eapply elem_of_dom_2. by unfold σ1; rewrite lookup_insert_eq. }
  exists q. eexists. exists y, g'. split; [reflexivity|].
  split_and!; [by rewrite lookup_insert_eq|done|done|by rewrite lookup_insert_ne|].
  eapply input_cleared; [by eapply gate_input_reach|done|done|].
  apply insert_subseteq_r; [done|by etrans].
Qed.

End Types.
