(* ===== verification/DeepCopyScenario.v ===== *)
(** * A heap with resources in it, and a library whose deep copies are deep *)

From stdpp Require Import base gmap sets list strings.
From Stdlib Require Import ZArith.
From S2P Require Import Prelude GoStd Api Memory DeepCopy MemoryProps DeepCopyProps.

(** The library's structs, with one reference where the real ones have several:
    labels behind the metadata, the pod's spec behind a template, [Optional]
    behind a selector. *)
Definition example_lib (t : libty) : Type :=
  match t with
  | LibObjectMeta | LibPodTemplateSpec => string * ptr
  | LibListMeta => string
  | LibSecretKeySelector | LibConfigMapKeySelector => KeySelector * ptr
  | LibTime => Time
  | LibData => gmap string string
  end.

#[export] Instance example_library : Library := {|
  lib := example_lib;
  lib_zero t :=
    match t return example_lib t with
    | LibObjectMeta | LibPodTemplateSpec => (EmptyString, None)
    | LibListMeta => EmptyString
    | LibSecretKeySelector | LibConfigMapKeySelector => (mkKeySelector EmptyString EmptyString, None)
    | LibTime => 0%Z
    | LibData => ∅
    end;
  lib_refs t :=
    match t return example_lib t -> list (libty * loc) with
    | LibObjectMeta | LibPodTemplateSpec => fun x => (LibData,.) <$> option_list x.2
    | LibSecretKeySelector | LibConfigMapKeySelector => fun x => (LibData,.) <$> option_list x.2
    | _ => fun _ => []
    end;
  lib_erase t :=
    match t return example_lib t -> example_lib t with
    | LibObjectMeta | LibPodTemplateSpec => fun x => (x.1, forget x.2)
    | LibSecretKeySelector | LibConfigMapKeySelector => fun x => (x.1, forget x.2)
    | _ => fun x => x
    end;
|}.

Definition copy_second {A} (x : A * ptr) : mem (A * ptr) :=
  p ← when_set x.2 (new_assign (TLib LibData));
  mret (x.1, p).

#[export] Instance example_copies : LibraryCopies := {|
  lib_DeepCopyInto t :=
    match t return example_lib t -> mem (example_lib t) with
    | LibObjectMeta | LibPodTemplateSpec => copy_second
    | LibSecretKeySelector | LibConfigMapKeySelector => copy_second
    | _ => fun x => mret x
    end;
  Time_DeepCopy p := when_set p (new_assign (TLib LibTime));
|}.

Lemma example_refs {A} (x : A * ptr) :
  prod_map TLib id <$> ((LibData,.) <$> option_list x.2) = ref (TLib LibData) x.2.
Proof. by destruct x as [a [l|]]. Qed.

Lemma copy_second_copies {A} (x : A * ptr) σ :
  wf_refs σ (ref (TLib LibData) x.2) ->
  exists y σ', copy_second x σ = Ok (y, σ') /\ σ ⊆ σ' /\ (x.1, forget x.2) = (y.1, forget y.2) /\
    copied (dom σ) σ (ref (TLib LibData) x.2) (ref (TLib LibData) y.2) σ'.
Proof.
  intros Hw. unfold copy_second.
  eapply (field_step (TLib LibData) _ _ _ _ σ); [|done|done|].
  { apply new_assign_copies. intros z. reflexivity. }
  intros q σ2 Hs Hf Hc. do 2 eexists. split; [reflexivity|]. split; [done|]. simpl.
  split; [by rewrite Hf|done].
Qed.

#[export] Instance example_laws : LibraryLaws.
Proof.
  split.
  - intros t σ x Hw.
    destruct t; simpl in *; unfold library_refs in *; simpl in *;
      try (rewrite example_refs in Hw;
           destruct (copy_second_copies x σ Hw) as (y & σ' & Hr & Hs & He & Hc);
           exists y, σ'; rewrite !example_refs; by split_and!);
      (exists x, σ; split_and!; [done|done|done|apply copied_nil]).
  - apply new_assign_copies. intros z. reflexivity.
Qed.

(** A resource with a gate whose input is given inline and from a Secret, steps,
    a status with a current and two deprecated versions (one of the entries
    nil); and a list of one connection. *)
Definition the_base : BaseWorkerDeploymentVersion_ :=
  mkBaseWorkerDeploymentVersion_ "v1" VersionStatusCurrent (Some 20%positive) (Some 21%positive)
    (Some 22%positive) "me".
Definition the_resource : TemporalWorkerDeployment_ :=
  mkTemporalWorkerDeployment_ (mkTypeMeta "v1" "TemporalWorkerDeployment")
    ("greeter", Some 10%positive : ptr)
    (mkTemporalWorkerDeploymentSpec_ (Some 11%positive) ("pod", Some 12%positive : ptr) 0
       (Some 13%positive)
       (mkRolloutStrategy_ UpdateProgressive (Some 2%positive) (Some 14%positive))
       (mkSunsetStrategy_ (Some 15%positive) None) (mkWorkerOptions "conn" "default" ""))
    (mkTemporalWorkerDeploymentStatus_
       (mkTargetWorkerDeploymentVersion_ the_base None None None (Some 20%positive))
       (Some 16%positive) (Some 17%positive) (Some 19%positive) "me" 3).
Definition the_connection : TemporalConnection_ :=
  mkTemporalConnection_ (mkTypeMeta "v1" "TemporalConnection") ("conn", Some 10%positive : ptr)
    (mkTemporalConnectionSpec_ "temporal:7233" (Some 31%positive) (Some 32%positive)) tt.
Definition the_gate : GateWorkflowConfig_ :=
  mkGateWorkflowConfig_ "check" (Some 3%positive) (Some 5%positive).

Definition the_heap : heap := list_to_map
  [(1%positive, Cell TTemporalWorkerDeployment the_resource);
   (2%positive, Cell TGateWorkflowConfig the_gate);
   (3%positive, Cell TJSON (mkJSON_ (Some 4%positive)));
   (4%positive, Cell (TArray TByte) [Byte.x7b; Byte.x7d]);
   (5%positive, Cell TGateInputSource (mkGateInputSource_ None (Some 6%positive)));
   (6%positive, Cell (TLib LibSecretKeySelector) (mkKeySelector "secret" "key", None : ptr));
   (10%positive, Cell (TLib LibData) (<["app" := "greeter"]> ∅ : gmap string string));
   (11%positive, Cell TInt32 3%Z);
   (12%positive, Cell (TLib LibData) (∅ : gmap string string));
   (13%positive, Cell TInt32 600%Z);
   (14%positive, Cell (TArray TRolloutStep) [mkRolloutStep 10 Hour]);
   (15%positive, Cell TDuration Hour);
   (16%positive, Cell TCurrentWorkerDeploymentVersion (mkCurrentWorkerDeploymentVersion_ the_base));
   (17%positive, Cell (TArray (TPtr TDeprecatedWorkerDeploymentVersion)) [Some 18%positive; None]);
   (18%positive, Cell TDeprecatedWorkerDeploymentVersion
      (mkDeprecatedWorkerDeploymentVersion_ the_base (Some 20%positive) true));
   (19%positive, Cell (TArray TByte) [Byte.x01]);
   (20%positive, Cell (TLib LibTime) 0%Z);
   (21%positive, Cell TObjectReference (zero TObjectReference));
   (22%positive, Cell (TArray TTaskQueue) [mkTaskQueue "q"]);
   (30%positive, Cell TTemporalConnectionList
      (mkTemporalConnectionList_ (mkTypeMeta "v1" "List") ("7" : string) (Some 33%positive)));
   (31%positive, Cell TSecretReference (mkSecretReference "tls"));
   (32%positive, Cell (TLib LibSecretKeySelector) (mkKeySelector "api" "key", None : ptr));
   (33%positive, Cell (TArray TTemporalConnection) [the_connection])].

Ltac wf_here :=
  eapply wf_cell; [reflexivity|];
  let H := fresh in
  intros ?? H; simpl in H;
  repeat (apply elem_of_cons in H as [[= -> ->]|H]); [..|by apply not_elem_of_nil in H].

Lemma the_resource_wf : wf the_heap TTemporalWorkerDeployment 1.
Proof. repeat wf_here. Qed.

Lemma the_list_wf : wf the_heap TTemporalConnectionList 30.
Proof. repeat wf_here. Qed.

(** The theorems of DeepCopyProps.v at this heap. *)
Lemma DeepCopy_deep_witness :
  wf the_heap TTemporalWorkerDeployment 1 /\
  exists q σ', TemporalWorkerDeployment_DeepCopy (Some 1%positive) the_heap = Ok (Some q, σ') /\
    same the_heap σ' TTemporalWorkerDeployment 1 q.
Proof.
  split; [apply the_resource_wf|].
  destruct (DeepCopy_deep TTemporalWorkerDeployment TemporalWorkerDeployment_DeepCopy the_heap)
    as [_ H]; [apply (list_elem_of_lookup_2 _ 17); reflexivity|].
  destruct (H 1%positive the_resource_wf) as (q & σ' & Hr & _ & _ & _ & Hs & _). exists q, σ'. exact (conj Hr Hs).
Defined.

Lemma TemporalConnection_copy_isolated_witness :
  wf the_heap TTemporalConnectionList 30 /\
  exists q σ', TemporalConnectionList_DeepCopyObject (Some 30%positive) the_heap =
    Ok (Some (TTemporalConnectionList, q), σ') /\
    forall m c, reach σ' q m -> same the_heap (<[m := c]> σ') TTemporalConnectionList 30 30.
Proof.
  split; [apply the_list_wf|].
  destruct (TemporalConnection_copy_isolated TTemporalConnectionList
    TemporalConnectionList_DeepCopyObject the_heap 30) as (q & σ' & Hr & _ & Hw & _);
    [apply (list_elem_of_lookup_2 _ 3); reflexivity|reflexivity|apply the_list_wf|].
  exists q, σ'. exact (conj Hr Hw).
Defined.

Lemma gate_input_shared_witness :
  the_heap !! 3%positive = Some (Cell TJSON (mkJSON_ (Some 4%positive))) /\
  exists q σ', TemporalWorkerDeployment_DeepCopy (Some 1%positive) the_heap = Ok (Some q, σ') /\
    ~ same the_heap (<[3%positive := Cell TJSON (mkJSON_ None)]> σ') TTemporalWorkerDeployment 1 1.
Proof.
  split; [reflexivity|].
  destruct (gate_input_shared the_heap 1 the_resource 2 the_gate 3 (mkJSON_ (Some 4%positive)) 4)
    as (q & σ' & _ & _ & Hr & _ & _ & _ & _ & Hs);
    [apply the_resource_wf|reflexivity..|].
  exists q, σ'. exact (conj Hr Hs).
Defined.
