(* ===== verification/Scenario.v ===== *)
(** * A concrete cluster and server

    A world in which every call has a definite answer, for the witnesses that
    show the hypotheses of the theorems satisfiable.  Worker deployment [ns/foo]
    has the Current version [v1], the target [v2] (ramping at 10%), the draining
    version [v0d] and the long-drained version [v0], each with a Deployment. *)

From stdpp Require Import base gmap sets list strings.
From Stdlib Require Import ZArith Lia.
From S2P Require Import Prelude GoStd Api K8s K8sProps Trace World Temporal StateMapper Planner.
From S2P Require Import ClientPool Controller.
Local Open Scope Z_scope.

(** ** The clock: every event takes a second, a sleep its duration *)

Definition demo_now : Time := 1000000 * Hour.

Definition event_time (ev : Event) : Duration :=
  match ev with
  | EvSleep d => Z.max 0 d
  | _ => Second
  end.

Definition log_time (l : Log) : Duration := foldr (fun ev t => event_time ev + t) 0 l.

Definition demo_clock (l : Log) : Time := demo_now + log_time l.

Lemma event_time_nonneg ev : 0 <= event_time ev.
Proof. destruct ev; simpl; unfold Second, Nanosecond; lia. Qed.

Lemma log_time_nonneg l : 0 <= log_time l.
Proof.
  induction l as [|ev l IH]; simpl; [lia|]. pose proof (event_time_nonneg ev). lia.
Qed.

Lemma log_time_app l l' : log_time (l ++ l') = log_time l + log_time l'.
Proof. induction l as [|ev l IH]; simpl; [lia|]. rewrite IH. lia. Qed.

(** ** The server *)

Definition demo_version (b : string) : WorkerDeploymentVersion :=
  mkWorkerDeploymentVersion "ns/foo" b.

Definition demo_rc : RoutingConfig :=
  mkRoutingConfig (Some (demo_version "v1")) (Some (demo_version "v2")) (float32_of_Z 10)
    (demo_now - Hour) (demo_now - Hour).

Definition demo_response : DescribeResponse :=
  mkDescribeResponse
    (mkWorkerDeploymentInfo
       [mkVersionSummary (demo_version "v1") DrainageStatusUnspecified;
        mkVersionSummary (demo_version "v2") DrainageStatusUnspecified;
        mkVersionSummary (demo_version "v0d") DrainageStatusDraining;
        mkVersionSummary (demo_version "v0") DrainageStatusDrained]
       demo_rc "temporal-worker-controller")
    "token".

Definition demo_queues : list TaskQueueInfo :=
  [mkTaskQueueInfo "q" TaskQueueTypeWorkflow; mkTaskQueueInfo "q" TaskQueueTypeActivity].

Definition demo_description (b : string) : VersionDescription :=
  if decide (b = "v0")
  then mkVersionDescription demo_queues
         (Some (mkDrainageInfo DrainageStatusDrained (demo_now - 100 * Hour))) ∅
  else mkVersionDescription demo_queues None ∅.

(** ** The cluster *)

Definition demo_deployment (b : string) (replicas : Z) (created : Time) : Deployment :=
  mkDeployment (mkTypeMeta "apps/v1" "Deployment")
    (mkObjectMeta ("foo-" +:+ b) "ns" ("uid-" +:+ b) (Some {[BuildIDLabel := b]}) None
       created [])
    (mkDeploymentSpec (Some replicas) (Some (Some {[BuildIDLabel := b]}))
       (pts_set_Annotations (Some ∅) (demo_template "app:v1")) 0 EmptyString)
    (mkDeploymentStatus replicas [mkDeploymentCondition "Available" "True" created]).

Definition demo_items : list Deployment :=
  [demo_deployment "v2" 1 4; demo_deployment "v0" 0 1; demo_deployment "v1" 1 3;
   demo_deployment "v0d" 1 2].

Definition demo_connection : TemporalConnectionSpec :=
  mkTemporalConnectionSpec "temporal:7233" None (Some (mkKeySelector "api-key" "token")).

Definition not_there : gerror := ErrLeaf KApiNotFound "not found".

(** ** The world *)

#[export] Instance demoWorld : World := {|
  w_Now := demo_clock;
  w_Describe _ _ := inl demo_response;
  w_DescribeVersion _ _ b := inl (demo_description b);
  w_DescribeTaskQueue _ _ _ := inl [VersioningModeUnversioned];
  w_DescribeWorkflowExecution _ id :=
    inl (mkWorkflowExecutionInfo id "run" "q" WORKFLOW_EXECUTION_STATUS_COMPLETED);
  w_FromPayload s := inl s;
  w_Dial _ _ := inl 7%nat;
  w_CheckHealth _ _ := inl tt;
  w_GetTWD _ _ _ := inl (demo_twd "v2" "app:v2");
  w_ListTWDs _ _ := inl [demo_twd "v2" "app:v2"];
  w_GetConnection _ _ _ := inl demo_connection;
  w_ListDeployments _ _ _ := inl demo_items;
  w_GetConfigMap _ _ _ := inr not_there;
  w_GetSecret _ _ name := inl (mkSecret name "Opaque" (Some {["token" := "key"]}));
  w_UpdateStatus _ w := inl w;
  w_Write _ _ := inl tt;
|}.

#[export] Instance demoWorld_clock : WorldClock demoWorld.
Proof.
  split; simpl; intros; unfold demo_clock; rewrite log_time_app.
  - pose proof (log_time_nonneg l'). lia.
  - simpl. pose proof (log_time_nonneg l'). lia.
Qed.

#[export] Instance demoCerts : CertLib := {|
  pem_Decode s := if decide (s = EmptyString) then None else Some s;
  x509_ParseCertificate _ := inl (demo_now + 1000 * Hour);
  tls_X509KeyPair _ _ := inl tt;
|}.

#[export] Instance demoEnv : Env := {|
  os_Getenv _ := EmptyString;
  Version := "1.0";
|}.

#[export] Instance demoScaleOrder : ScaleOrder := {| scale_order m := (map_to_list m).*2 |}.

#[export] Instance demoScaleOrder_laws : ScaleOrderLaws demoScaleOrder.
Proof. split. done. Qed.

(** ** Runs *)

Definition demo_w : TemporalWorkerDeployment := demo_twd "v2" "app:v2".

(** The value of a successful computation; [d] stands for a failed one. *)
Definition value {A} (d : A) (m : outcome A) : A :=
  match m with
  | Ok a => a
  | _ => d
  end.

Definition demo_state : DeploymentState * Store :=
  value (mkDeploymentState ∅ [] ∅, []) (GetDeploymentState (Ok demo_items)).
Definition demo_ks : DeploymentState := demo_state.1.
Definition demo_h : Store := demo_state.2.

Definition demo_observation : io (TemporalWorkerState * TemporalWorkerDeploymentStatus) :=
  ts ← GetWorkerDeploymentState "ns/foo" (Deployments demo_ks) demo_h "v2" UpdateProgressive
         "temporal-worker-controller";
  generateStatus demo_h demo_w ts demo_ks.

Definition demo_result : TemporalWorkerState * TemporalWorkerDeploymentStatus :=
  value (emptyTemporalState, twd_Status demo_w) (demo_observation []).1.
Definition demo_ts : TemporalWorkerState := demo_result.1.
Definition demo_status : TemporalWorkerDeploymentStatus := demo_result.2.

Example demo_status_builds :
  ((fun v => (BuildID (dep_base v), ver_Status v, EligibleForDeletion v))
     <$> DeprecatedVersions demo_status,
   BuildID (TargetVersion demo_status), ver_Status (TargetVersion demo_status))
  = ([("v0d", VersionStatusDraining, false); ("v0", VersionStatusDrained, true)],
     "v2", VersionStatusRamping).
Proof. vm_compute. reflexivity. Qed.
