(* ===== verification/PoolScenario.v ===== *)
(** * A process whose credentials are rotated

    A concrete world in which the Secrets change after their first read and every
    dialed client is another one, with the witnesses of the theorems of
    PoolRuns.v. *)

From stdpp Require Import base gmap sets list strings relations.
From Stdlib Require Import ZArith Lia.
From S2P Require Import Prelude GoStd Api K8s K8sProps Webhook Trace World Temporal.
From S2P Require Import StateMapper Planner ClientPool ClientPoolProps Controller ControllerProps.
From S2P Require Import RunProps PoolRuns Scenario.
Local Open Scope Z_scope.

(** ** The world *)

Definition is_dial (ev : Event) : bool := if ev is EvDial _ then true else false.
Definition is_secret (ev : Event) : bool := if ev is EvGetSecret _ _ then true else false.

(** The connection uses a certificate, or an API key. *)
Definition rotating (tls : bool) : World := {|
  w_Now := demo_clock;
  w_Describe _ _ := inl demo_response;
  w_DescribeVersion _ _ b := inl (demo_description b);
  w_DescribeTaskQueue _ _ _ := inl [VersioningModeUnversioned];
  w_DescribeWorkflowExecution _ id :=
    inl (mkWorkflowExecutionInfo id "run" "q" WORKFLOW_EXECUTION_STATUS_COMPLETED);
  w_FromPayload s := inl s;
  w_Dial l _ := inl (length (filter (fun ev => is_dial ev) l));
  w_CheckHealth _ _ := inl tt;
  w_GetTWD _ _ _ := inl demo_w;
  w_ListTWDs _ _ := inl [demo_w];
  w_GetConnection _ _ _ := inl demo_connection;
  w_ListDeployments _ _ _ := inl demo_items;
  w_GetConfigMap _ _ _ := inr not_there;
  w_GetSecret l _ name :=
    let content := if existsb is_secret l then "new" else "old" in
    inl (if tls
         then mkSecret name "kubernetes.io/tls" (Some {["tls.crt" := content; "tls.key" := "key"]})
         else mkSecret name "Opaque" (Some {["token" := content]}));
  w_UpdateStatus _ w := inl w;
  w_Write _ _ := inl tt;
|}.

(** The old certificate has ten minutes left, the new one a year. *)
Definition rotating_certs : CertLib := {|
  pem_Decode s := if decide (s = EmptyString) then None else Some s;
  x509_ParseCertificate s :=
    inl (if decide (s = "old") then demo_now + 10 * Minute else demo_now + 8760 * Hour);
  tls_X509KeyPair _ _ := inl tt;
|}.

(** ** An API key *)

(** A resource of another Kubernetes namespace with the same connection. *)
Definition other_w : TemporalWorkerDeployment :=
  mkTemporalWorkerDeployment (twd_TypeMeta demo_w)
    (mkObjectMeta "bar" "other" "uid" None None 0 []) (twd_Spec demo_w) (twd_Status demo_w).

Definition key_client (l : Log) (cp : ClientPool) :=
  getClient (H0 := rotating false) (H4 := rotating_certs) cp demo_w demo_connection l.
Definition key_pool : ClientPool * sdkClient := value (∅, 9%nat) (key_client [] ∅).1.
Definition key_log : Log := (key_client [] ∅).2.

Lemma key_run : key_client [] ∅ = (Ok (key_pool.1, key_pool.2), key_log).
Proof. reflexivity. Qed.

(** The Secret changed, and the old key stays in use. *)
Lemma credentials_are_read_once_witness :
  @w_GetSecret (rotating false) key_log "ns" "api-key"
  = inl (mkSecret "api-key" "Opaque" (Some {["token" := "new"]})) /\
  getClient (H0 := rotating false) (H4 := rotating_certs) key_pool.1 other_w demo_connection
    (key_log ++ [EvSleep Hour])
  = (Ok (key_pool.1, key_pool.2), key_log ++ [EvSleep Hour]).
Proof.
  split; [reflexivity|].
  refine (credentials_are_read_once (W := rotating false) (C := rotating_certs) ∅ demo_w
    demo_connection [] key_pool.1 key_pool.2 key_log key_pool.1 (key_log ++ [EvSleep Hour]) other_w
    demo_connection (client_key demo_w demo_connection AuthModeAPIKey "api-key")
    (key_log ++ [EvSleep Hour]) eq_refl _ _ _ _).
  - exists AuthModeAPIKey, "api-key". split; vm_compute; reflexivity.
  - exact key_run.
  - apply rtc_once, ps_others.
  - exists AuthModeAPIKey, "api-key". split; vm_compute; reflexivity.
Defined.

(** ** A certificate *)

Definition tls_connection : TemporalConnectionSpec :=
  mkTemporalConnectionSpec "temporal:7233" (Some (mkSecretReference "tls")) None.

Definition tls_client (l : Log) (cp : ClientPool) :=
  getClient (H0 := rotating true) (H4 := rotating_certs) cp demo_w tls_connection l.
Definition tls_pool : ClientPool * sdkClient := value (∅, 9%nat) (tls_client [] ∅).1.
Definition tls_log : Log := (tls_client [] ∅).2.
Definition tls_key : ClientPoolKey := client_key demo_w tls_connection AuthModeTLS "tls".
Definition tls_info : ClientInfo :=
  mkClientInfo 0%nat (mkClientAuth AuthModeTLS (Some (mkMTLSAuth "old" (demo_now + 5 * Minute)))).

Lemma tls_run : tls_client [] ∅ = (Ok (tls_pool.1, tls_pool.2), tls_log).
Proof. reflexivity. Qed.

Lemma tls_pool_life : pool_life (W := rotating true) (C := rotating_certs) tls_pool.1 tls_log.
Proof.
  exists []. apply rtc_once.
  apply (ps_getClient (W := rotating true) (C := rotating_certs) New [] demo_w tls_connection
           (Ok (tls_pool.1, tls_pool.2)) tls_log).
  exact tls_run.
Qed.

(** After an hour the old certificate is at its end: the Secret is read again,
    and the client returned was dialed with the new certificate. *)
Definition late_log : Log := tls_log ++ [EvSleep Hour].
Definition renewed_pool : ClientPool * sdkClient := value (∅, 9%nat) (tls_client late_log tls_pool.1).1.
Definition renewed_log : Log := (tls_client late_log tls_pool.1).2.

Lemma renewed_run :
  tls_client late_log tls_pool.1 = (Ok (renewed_pool.1, renewed_pool.2), renewed_log).
Proof. reflexivity. Qed.

Lemma late_pool_life : pool_life (W := rotating true) (C := rotating_certs) tls_pool.1 late_log.
Proof. eapply pool_life_later; [exact tls_pool_life|by eexists]. Qed.

Lemma certificates_are_renewed_witness :
  renewed_pool.2 = 1%nat /\ tls_pool.2 = 0%nat /\
  exists secret, @w_GetSecret (rotating true) (late_log ++ [EvNow]) "ns" "tls" = inl secret /\
    gm_get (sec_Data secret) "tls.crt" = "new" /\
    late_log ++ [EvNow; EvGetSecret "ns" "tls"; EvNow; EvDial (mkDialOptions "temporal:7233"
      (TemporalNamespace (spec_WorkerOptions (twd_Spec demo_w))) (ClientCertificate "new" "key"))]
    `prefix_of` renewed_log.
Proof.
  split; [vm_compute; reflexivity|]. split; [reflexivity|].
  destruct (certificates_are_renewed (W := rotating true) (C := rotating_certs) tls_pool.1 late_log
    demo_w tls_connection late_log (mkSecretReference "tls") tls_key tls_info late_pool_life eq_refl)
    as (m & old & expires & Hm & Hold & Hexp & _ & Hrenew).
  - exists AuthModeTLS, "tls". split; vm_compute; reflexivity.
  - vm_compute. reflexivity.
  - destruct Hrenew as [_ Hrenew].
    + injection Hm as <-. injection Hold as <-. injection Hexp as <-. vm_compute. reflexivity.
    + discriminate.
    + destruct (Hrenew _ _ _ renewed_run) as (secret & _ & _ & Hs & _ & _ & _ & _ & Hdial & _).
      exists secret. split; [exact Hs|]. injection Hs as <-. split; [reflexivity|exact Hdial].
Defined.

(** ** A reconciliation *)

Definition demo_request : Request := mkRequest "ns" "foo".

(** The result of a reconciliation, if it returned one. *)
Definition result_of (m : outcome (ClientPool * (Result + gerror))) : option Result :=
  match m with
  | Ok (_, inl r) => Some r
  | _ => None
  end.

Lemma demo_reconciled :
  result_of (Reconcile 75 New demo_request []).1 = Some (mkResult true (10 * Second)).
Proof. vm_compute. reflexivity. Qed.

