(* ===== verification/LoopScenario.v ===== *)
(** * A concrete server that obeys its writes

    The world of the closed loop: the routing of worker deployment [ns/foo] is
    what the writes made of it, status updates come back with their times cut to
    whole seconds, and only [ns/foo] exists.  A rollout of [v2] in two steps
    behind a gate runs in it from start to end; the theorems of EndToEnd.v and
    Loop.v are applied to it. *)

From stdpp Require Import base gmap sets list strings relations.
From Stdlib Require Import ZArith Lia.
From S2P Require Import Prelude GoStd Api K8s K8sProps Trace World Temporal Planner RolloutProps.
From S2P Require Import Webhook StateMapper Servers ClientPool ClientPoolProps Controller.
From S2P Require Import GateProps EndToEnd Panics WriteProps Loop Liveness.
From S2P Require Import Scenario.
Local Open Scope Z_scope.

(** ** The Temporal server *)

Definition loop_name : string := "ns/foo".
Definition loop_builds : list string := ["v1"; "v2"; "v0d"; "v0"].

Definition loop_start : RoutingConfig :=
  mkRoutingConfig (Some (demo_version "v1")) None (float32_of_Z 0) zeroTime zeroTime.

(** A write is applied when it is about [ns/foo] and a registered build, or
    clears the ramp. *)
Definition apply_event (t : Time) (ev : Event) (rc : RoutingConfig) : RoutingConfig :=
  match ev with
  | EvSetCurrentVersion n opts =>
      if decide (n = loop_name /\ scv_BuildID opts ∈ loop_builds)
      then mkRoutingConfig (version_of loop_name (scv_BuildID opts))
             (if decide (buildIdOf (rc_RampingVersion rc) = scv_BuildID opts) then None
              else rc_RampingVersion rc)
             (rc_RampingVersionPercentage rc) (rc_RampingVersionChangedTime rc)
             (rc_RampingVersionPercentageChangedTime rc)
      else rc
  | EvSetRampingVersion n opts =>
      if decide (n = loop_name /\ srv_BuildID opts ∈ EmptyString :: loop_builds)
      then mkRoutingConfig (rc_CurrentVersion rc) (version_of loop_name (srv_BuildID opts))
             (srv_Percentage opts) t t
      else rc
  | _ => rc
  end.

(** Other routing writes are refused. *)
Definition loop_accepts (ev : Event) : bool :=
  match ev with
  | EvSetCurrentVersion n opts => bool_decide (n = loop_name /\ scv_BuildID opts ∈ loop_builds)
  | EvSetRampingVersion n opts =>
      bool_decide (n = loop_name /\ srv_BuildID opts ∈ EmptyString :: loop_builds)
  | _ => true
  end.

(** The log is chronological; the fold starts from its end. *)
Fixpoint routing_rev (rl : Log) : RoutingConfig :=
  match rl with
  | [] => loop_start
  | ev :: rl => apply_event (demo_clock (rev rl)) ev (routing_rev rl)
  end.

Definition loop_routing (l : Log) (name : string) : RoutingConfig :=
  if decide (name = loop_name) then routing_rev (rev l)
  else mkRoutingConfig None None (float32_of_Z 0) zeroTime zeroTime.

Definition loop_summary (b : string) : VersionSummary :=
  mkVersionSummary (demo_version b)
    (if decide (b = "v0d") then DrainageStatusDraining
     else if decide (b = "v0") then DrainageStatusDrained else DrainageStatusUnspecified).

Definition loop_response (l : Log) : DescribeResponse :=
  mkDescribeResponse
    (mkWorkerDeploymentInfo (loop_summary <$> loop_builds) (loop_routing l loop_name)
       "temporal-worker-controller")
    "token".

(** ** The Kubernetes API server *)

Definition truncate (t : Time) : Time := Second * (t / Second).

Definition truncate_version (v : BaseWorkerDeploymentVersion) : BaseWorkerDeploymentVersion :=
  mkBaseWorkerDeploymentVersion (BuildID v) (ver_Status v) (truncate <$> HealthySince v)
    (ver_Deployment v) (TaskQueues v) (ManagedBy v).

Definition truncate_status (st : TemporalWorkerDeploymentStatus)
  : TemporalWorkerDeploymentStatus :=
  let t := TargetVersion st in
  mkTemporalWorkerDeploymentStatus
    (mkTargetWorkerDeploymentVersion (truncate_version t) (TestWorkflows t) (RampPercentage t)
       (truncate <$> RampingSince t) (truncate <$> RampLastModifiedAt t))
    ((fun c => mkCurrentWorkerDeploymentVersion (truncate_version (cur_base c)))
       <$> CurrentVersion st)
    ((fun d => mkDeprecatedWorkerDeploymentVersion (truncate_version (dep_base d))
                 (truncate <$> DrainedSince d) (EligibleForDeletion d))
       <$> DeprecatedVersions st)
    (VersionConflictToken st) (LastModifierIdentity st) (VersionCount st).

Definition loop_steps : list RolloutStep :=
  [mkRolloutStep 10 Hour; mkRolloutStep 50 (2 * Hour)].

(** The build [v2], rolled out in steps behind a gate workflow. *)
Definition loop_twd : TemporalWorkerDeployment :=
  let w := demo_twd "v2" "app:v2" in
  twd_set_Spec
    (mkTemporalWorkerDeploymentSpec (Some 1) (spec_Template (twd_Spec w)) 0 None
       (mkRolloutStrategy UpdateProgressive
          (Some (mkGateWorkflowConfig "SmokeTest" None None)) loop_steps)
       (spec_SunsetStrategy (twd_Spec w)) (spec_WorkerOptions (twd_Spec w)))
    w.

#[export] Instance loopWorld : World := {|
  w_Now := demo_clock;
  w_Describe l name := if decide (name = loop_name) then inl (loop_response l) else inr not_there;
  w_DescribeVersion _ _ b := inl (demo_description b);
  w_DescribeTaskQueue _ _ _ := inl [VersioningModeUnversioned];
  w_DescribeWorkflowExecution _ id :=
    inl (mkWorkflowExecutionInfo id "run" "q" WORKFLOW_EXECUTION_STATUS_COMPLETED);
  w_FromPayload s := inl s;
  w_Dial _ _ := inl 7%nat;
  w_CheckHealth _ _ := inl tt;
  w_GetTWD _ ns n := if decide (ns = "ns" /\ n = "foo") then inl loop_twd else inr not_there;
  w_ListTWDs _ ns := if decide (ns = "ns") then inl [loop_twd] else inl [];
  w_GetConnection _ _ _ := inl demo_connection;
  w_ListDeployments _ ns n := if decide (ns = "ns" /\ n = "foo") then inl demo_items else inl [];
  w_GetConfigMap _ _ _ := inr not_there;
  w_GetSecret _ _ name := inl (mkSecret name "Opaque" (Some {["token" := "key"]}));
  w_UpdateStatus _ w := inl (twd_set_Status (truncate_status (twd_Status w)) w);
  w_Write _ ev := if loop_accepts ev then inl tt else inr not_there;
|}.

(** ** It keeps what the servers document *)

#[export] Instance loopWorld_clock : WorldClock loopWorld.
Proof. exact (Build_WorldClock loopWorld (@clock_mono demoWorld _) (@clock_sleep demoWorld _)). Qed.

Lemma truncate_stored t : stored_time t (truncate <$> t).
Proof.
  destruct t as [t|]; simpl; [|done]. unfold truncate.
  pose proof (Z.div_mod t Second ltac:(done)).
  pose proof (Z.mod_pos_bound t Second ltac:(done)). lia.
Qed.

Lemma truncate_version_stored v : version_stored v (truncate_version v).
Proof. split; try done. apply truncate_stored. Qed.

Lemma truncate_status_stored st : status_stored st (truncate_status st).
Proof.
  split; simpl; try done; try apply truncate_stored; try apply truncate_version_stored.
  - destruct (CurrentVersion st); simpl; [apply truncate_version_stored|done].
  - induction (DeprecatedVersions st) as [|v vs IH]; constructor; [|done].
    split; simpl; [apply truncate_version_stored|apply truncate_stored|done].
Qed.

#[export] Instance loopWorld_named : NamedObjects loopWorld.
Proof. split. simpl. intros _ ns n fetched. case_decide as Hn; [|done]. intros [= <-]. by destruct Hn as [-> ->]. Qed.

#[export] Instance loopWorld_status : StatusServer loopWorld.
Proof.
  split; simpl.
  - intros _ w stored [= <-]. apply truncate_status_stored.
  - intros _ ns n fetched w _ st stored w' _. case_decide; [|done].
    by intros [= <-] [= <-] [= <-] [= <-].
Qed.

Lemma routed_is_known rl rv :
  rc_CurrentVersion (routing_rev rl) = Some rv \/ rc_RampingVersion (routing_rev rl) = Some rv ->
  exists b, rv = demo_version b /\ b ∈ loop_builds.
Proof.
  revert rv. induction rl as [|ev rl IH]; simpl.
  - intros rv [[= <-]|[=]]. exists "v1". split; [done|]. left.
  - assert (forall b rv, b ∈ EmptyString :: loop_builds -> version_of loop_name b = Some rv ->
              exists b', rv = demo_version b' /\ b' ∈ loop_builds) as Hv.
    { intros b rv Hb. unfold version_of. case_decide; [done|]. intros [= <-].
      exists b. split; [done|]. by apply elem_of_cons in Hb as [?|?]. }
    intros rv. destruct ev; simpl; try apply IH; case_decide as Hd; try apply IH; simpl.
    + destruct Hd as [_ Hd]. intros [H|H]; [|case_decide; [done|by apply IH; right]].
      eapply Hv; [|exact H]. by right.
    + destruct Hd as [_ Hd]. intros [H|H]; [by apply IH; left|by eapply Hv].
Qed.

#[export] Instance loopWorld_describe : DescribeServer loopWorld.
Proof.
  split. unfold w_Describe, loopWorld. intros l name resp. case_decide; [|done].
  intros [= <-]. split; cbn [loop_response dr_Info wdi_VersionSummaries wdi_RoutingConfig].
  - unfold loop_routing. rewrite decide_True by done.
    intros rv (b & -> & Hb)%routed_is_known. exists (loop_summary b).
    split; [|done]. by apply (list_elem_of_fmap_2 loop_summary).
  - intros s s' (b & -> & _)%(list_elem_of_fmap_1 loop_summary)
      (b' & -> & _)%(list_elem_of_fmap_1 loop_summary). simpl. by intros ->.
Qed.

#[export] Instance loopWorld_routing : RoutingServer loopWorld 0.
Proof.
  refine (Build_RoutingServer loopWorld 0 loop_routing _ _ _); [done|..]; simpl.
  - intros l name resp. case_decide; [subst|done]. by intros [= <-].
  - intros l ev name. unfold loop_routing. case_decide as Hn; [subst name|by left].
    rewrite rev_app_distr. simpl. rewrite rev_involutive.
    set (rc := routing_rev (rev l)).
    destruct ev; simpl; try (by left); case_decide as Hd; try (by left); right;
      exists (demo_clock l); (split; [lia|]); destruct Hd as [-> _]; simpl; done.
Defined.

#[export] Instance loopWorld_obeys : ObeyingServer loopWorld 0.
Proof.
  split. cbn [w_Write loopWorld sv_routing loopWorld_routing]. intros l ev name Hr Hn Hok.
  exists (demo_clock l). split; [simpl; lia|]. unfold loop_routing.
  rewrite rev_app_distr. simpl. rewrite rev_involutive.
  destruct ev; try done; simpl in Hn, Hok |- *; case_bool_decide as Hd; try done;
    destruct Hd as [-> Hb]; destruct (decide (name = loop_name)) as [->|Hne];
    try (by exfalso; apply Hn; intros He; apply Hne); by rewrite decide_True.
Qed.

(** ** A complete rollout *)

Definition loop_request : Request := mkRequest "ns" "foo".

(** Three hours pass, and [Reconcile] runs. *)
Definition loop_run (l : Log) : Log :=
  (Reconcile 75 ∅ loop_request (l ++ [EvSleep (3 * Hour)])).2.

Definition rollout_log : Log := Nat.iter 3 loop_run [].

(** The changes of the routing in a log. *)
Definition routing_writes (l : Log) : list Event := filter (fun ev => is_routing ev = true) l.

(** ** Witnesses *)

(** The first run of [Reconcile]. *)
Definition first_log : Log := (Reconcile 75 ∅ loop_request []).2.

Lemma first_run : Reconcile 75 ∅ loop_request [] = ((Reconcile 75 ∅ loop_request []).1, [] ++ first_log).
Proof. apply surjective_pairing. Qed.

(** The member of a log at which a boolean holds. *)
Lemma existsb_event (f : Event -> bool) (l : Log) :
  existsb f l = true -> exists ev, ev ∈ l /\ f ev = true.
Proof. intros (ev & Hin & Hf)%existsb_exists. exists ev. by rewrite list_elem_of_In. Qed.

(** It deletes the long-drained [v0]. *)
Lemma first_log_removes : exists ev, ev ∈ first_log /\ is_removal ev = true.
Proof. apply existsb_event. vm_compute. reflexivity. Qed.

Lemma first_log_routes : exists ev, ev ∈ first_log /\ is_routing ev = true.
Proof. apply existsb_event. vm_compute. reflexivity. Qed.

Definition loop_w : TemporalWorkerDeployment := value loop_twd (TWD_Default (ObjTWD loop_twd)).

Lemma Reconcile_spares_live_versions_witness :
  exists ev, ev ∈ first_log /\ is_removal ev = true /\
    spares_live [] first_log loop_request loop_w ev.
Proof.
  destruct first_log_removes as (ev & Hin & Hrem). exists ev. split; [exact Hin|].
  split; [exact Hrem|].
  refine (Reconcile_spares_live_versions 75 ∅ loop_request [] _ first_log ev loop_twd loop_w
            first_run Hin Hrem eq_refl eq_refl _).
  exists 1. split; [reflexivity|discriminate].
Defined.

Lemma Reconcile_routing_sound_witness :
  exists ev, ev ∈ first_log /\ is_routing ev = true /\
    exists lr resp, during [] first_log lr /\
      w_Describe lr (ComputeWorkerDeploymentName loop_w) = inl resp /\
      routing_ok [] first_log loop_request loop_w resp ev.
Proof.
  destruct first_log_routes as (ev & Hin & Hr). exists ev. split; [exact Hin|].
  split; [exact Hr|].
  refine (Reconcile_routing_sound 75 ∅ loop_request [] _ first_log ev loop_twd loop_w
            first_run Hin Hr eq_refl eq_refl _).
  repeat constructor; discriminate.
Defined.

Lemma Reconcile_writes_typed_witness :
  Forall (write_ok [] first_log loop_request loop_w) first_log /\
  (0 < length (filter (fun ev => is_routing ev = true) first_log))%nat.
Proof.
  split; [|vm_compute; lia]. apply Forall_forall. intros ev Hin.
  refine (Reconcile_writes_typed 75 ∅ loop_request [] _ first_log ev loop_twd loop_w
            first_run Hin eq_refl eq_refl _ _).
  - intros z [= <-]. vm_compute. split; [discriminate|reflexivity].
  - repeat constructor; discriminate.
Defined.

(** The three runs are runs of the controller on the managed resource. *)
Lemma loop_fresh : fresh_target loop_name "v2" [].
Proof. refine (conj _ (conj _ _)); vm_compute; discriminate. Qed.

Lemma loop_steps_accepted : rollout_steps loop_steps.
Proof.
  split; [split; [done|split]|]; repeat constructor; vm_compute; (discriminate || reflexivity).
Qed.

Lemma loop_managed w (Hd : TWD_Default (ObjTWD loop_twd) = Ok w) :
  managed loop_name "v2" loop_steps w.
Proof. injection Hd as <-. split; vm_compute; reflexivity. Qed.

Lemma loop_runs n :
  controller_runs 75 loop_name "v2" loop_steps [] (Nat.iter n loop_run []).
Proof.
  induction n as [|n IH]; [constructor|]. simpl.
  eapply runs_reconcile with (cp := ∅) (req := loop_request)
    (l1 := Nat.iter n loop_run [] ++ [EvSleep (3 * Hour)]).
  - apply runs_other; [exact IH|]. by repeat constructor.
  - intros fetched w Hf. change (@inl _ gerror loop_twd = inl fetched) in Hf.
    injection Hf as <-. apply loop_managed.
  - apply surjective_pairing.
Qed.

Lemma rollout_log_done : buildIdOf (rc_CurrentVersion (sv_routing rollout_log loop_name)) = "v2".
Proof. vm_compute. reflexivity. Qed.

Lemma loop_refines_rollout_witness :
  exists st, rtc (rollout_step (0 + Second) loop_steps) (rollout_start (w_Now [])) st /\
    loop_rel loop_name "v2" rollout_log st /\ ro_current st = true.
Proof.
  destruct (loop_refines_rollout 75 loop_name "v2" loop_steps ltac:(discriminate) [] rollout_log
              loop_fresh (loop_runs 3)) as (st & R & Hst).
  exists st. split; [exact R|]. split; [exact Hst|].
  destruct Hst as [_ [Hc _ _]]. simpl in Hc. destruct (ro_current st); [reflexivity|].
  destruct Hc as [Hc _]. destruct (Hc rollout_log_done).
Defined.

(** Both percentages were written, and it took the two pauses. *)
Lemma loop_respects_steps_witness :
  exists ramps : list (Z * Time),
    Forall (recorded loop_name "v2" rollout_log) ramps /\ ramps.*1 = [10; 50] /\
    3 * Hour - 2 * Second < w_Now rollout_log - w_Now [].
Proof.
  destruct (loop_respects_steps 75 loop_name "v2" loop_steps ltac:(discriminate) [] rollout_log)
    as (ramps & Hrec & _ & _ & Hdone).
  - exact loop_steps_accepted.
  - exact loop_fresh.
  - exact (loop_runs 3).
  - exists ramps. split; [exact Hrec|]. destruct (Hdone rollout_log_done) as (Hp & _ & Ht).
    split; [exact Hp|]. exact Ht.
Defined.

(** Each of the three runs completes, while the target serves. *)
Definition result_of (o : outcome (ClientPool * (Result + gerror))) : option (ClientPool * Result) :=
  match o with
  | Ok (cp, inl r) => Some (cp, r)
  | _ => None
  end.

Definition run_start (n : nat) : Log := Nat.iter n loop_run [] ++ [EvSleep (3 * Hour)].

Lemma run_completes n :
  (n < 3)%nat ->
  exists cp, Reconcile 75 ∅ loop_request (run_start n)
    = (Ok (cp, inl completed), Nat.iter (S n) loop_run []).
Proof.
  intros Hn. assert (snd <$> result_of (Reconcile 75 ∅ loop_request (run_start n)).1 = Some completed) as H.
  { destruct n as [|[|[|n]]]; [vm_compute; reflexivity..|lia]. }
  change (Nat.iter (S n) loop_run []) with (Reconcile 75 ∅ loop_request (run_start n)).2.
  destruct (Reconcile 75 ∅ loop_request (run_start n)) as [[[cp [r|e]]|e|p] l']; try discriminate H.
  injection H as ->. by exists cp.
Qed.

Lemma run_pauses n : (n < 3)%nat -> pauses_over loop_name "v2" loop_steps (run_start n).
Proof.
  intros Hn _. assert (Forall (fun s => rc_RampingVersionPercentageChangedTime
    (sv_routing (run_start n) loop_name) + step_PauseDuration s < w_Now (run_start n)) loop_steps)
    as Hall.
  { destruct n as [|[|[|n]]]; [..|lia]; repeat constructor; vm_compute; reflexivity. }
  intros s Hs _. rewrite Forall_forall in Hall. by apply Hall.
Qed.

Lemma loop_serves w l l' :
  TWD_Default (ObjTWD loop_twd) = Ok w -> target_serves loop_request w l l'.
Proof.
  intros [= <-]. split.
  - intros ld items _ [= <-]. split.
    + exists (demo_deployment "v2" 1 4). split; [by left|reflexivity].
    + intros d Hd _. apply list_elem_of_In in Hd. simpl in Hd.
      destruct Hd as [<-|[<-|[<-|[<-|[]]]]]; eexists; reflexivity.
  - intros ld _. exists (loop_response ld), (loop_summary "v2").
    split; [reflexivity|]. split; [left; reflexivity|]. split; [|reflexivity]. right. by left.
  - intros ld _. exists (demo_description "v2"). split; [reflexivity|]. intros _.
    split; [vm_compute; discriminate|]. intros lw d tq _ _ _. eexists. split; reflexivity.
Qed.

Lemma loop_served n :
  (n <= 3)%nat -> served_runs 75 loop_name "v2" loop_steps [] n (Nat.iter n loop_run []).
Proof.
  induction n as [|n IH]; intros Hn; [constructor|].
  destruct (run_completes n) as [cp Hrun]; [lia|].
  eapply served_run with (l1 := run_start n); [|apply run_pauses; lia| |exact Hrun].
  - eapply served_other; [apply IH; lia|]. apply runs_other; [apply runs_none|].
    by repeat constructor.
  - intros fetched w Hf. change (@inl _ gerror loop_twd = inl fetched) in Hf. injection Hf as <-.
    intros Hd. split; [by apply loop_managed|by apply loop_serves].
Qed.

Lemma loop_completes_witness :
  served_runs 75 loop_name "v2" loop_steps [] 3 rollout_log /\
  buildIdOf (rc_CurrentVersion (sv_routing rollout_log loop_name)) = "v2".
Proof.
  split; [exact (loop_served 3 (le_n 3))|].
  exact (loop_completes 75 loop_name "v2" loop_steps loop_steps_accepted ltac:(discriminate)
           [] 3 rollout_log loop_fresh (loop_served 3 (le_n 3)) (le_n 3)).
Defined.

(** ** A server that cannot describe [v0] *)

Definition unavailable : gerror := ErrLeaf KOther "deadline exceeded".

Definition failingWorld : World := {|
  w_Now := w_Now;
  w_Describe := w_Describe;
  w_DescribeVersion l n b := if decide (b = "v0") then inr unavailable else w_DescribeVersion l n b;
  w_DescribeTaskQueue := w_DescribeTaskQueue;
  w_DescribeWorkflowExecution := w_DescribeWorkflowExecution;
  w_FromPayload := w_FromPayload;
  w_Dial := w_Dial;
  w_CheckHealth := w_CheckHealth;
  w_GetTWD := w_GetTWD;
  w_ListTWDs := w_ListTWDs;
  w_GetConnection := w_GetConnection;
  w_ListDeployments := w_ListDeployments;
  w_GetConfigMap := w_GetConfigMap;
  w_GetSecret := w_GetSecret;
  w_UpdateStatus := w_UpdateStatus;
  w_Write := w_Write;
|}.

#[local] Instance failingWorld_clock : WorldClock failingWorld.
Proof. exact (Build_WorldClock failingWorld (@clock_mono demoWorld _) (@clock_sleep demoWorld _)). Qed.

#[local] Instance failingWorld_named : NamedObjects failingWorld.
Proof. exact (Build_NamedObjects failingWorld (@get_named loopWorld _)). Qed.

#[local] Instance failingWorld_status : StatusServer failingWorld.
Proof.
  exact (Build_StatusServer failingWorld (@update_keeps_status loopWorld _)
           (@update_keeps_object loopWorld _)).
Qed.

Definition failed_log : Log := (Reconcile (H0 := failingWorld) 75 ∅ loop_request []).2.

(** [v0] is drained and tracked: the plan dereferences its missing drain time. *)
Lemma failed_run :
  Reconcile (H0 := failingWorld) 75 ∅ loop_request [] = (Panic NilDereference, failed_log).
Proof. unfold failed_log. vm_compute. reflexivity. Qed.

Lemma Reconcile_panics_only_witness :
  panic_cause (W := failingWorld) loop_request [] failed_log /\ length failed_log <> 0%nat.
Proof.
  split; [|vm_compute; discriminate].
  refine (Reconcile_panics_only (W := failingWorld) 75 _ ∅ loop_request [] NilDereference failed_log
            _ failed_run).
  - intros w d [q [=]].
  - apply map_Forall_empty.
Defined.
