(* ===== verification/SunsetScenario.v ===== *)
(** * A drained version in the closed loop's world

    The first reconciliation of LoopScenario.v deletes the long-drained [v0]:
    the witness of SunsetLoop.v. *)

From stdpp Require Import base gmap sets list strings.
From Stdlib Require Import ZArith Lia.
From S2P Require Import Prelude GoStd Api K8s K8sProps Trace World Temporal TemporalProps.
From S2P Require Import Planner SunsetProps Webhook StateMapper Servers Safety ClientPool Controller.
From S2P Require Import EndToEnd Liveness SunsetLoop Scenario LoopScenario.
Local Open Scope Z_scope.

#[export] Instance loopWorld_decodes : DecodingClient loopWorld.
Proof.
  assert (forall st v, v ∈ status_versions (truncate_status st) ->
            exists v0, v0 ∈ status_versions st /\ BuildID v = BuildID v0 /\
                       ver_Deployment v = ver_Deployment v0) as Hback.
  { intros st v. unfold status_versions. simpl.
    rewrite elem_of_cons, elem_of_app. intros [->|[Hc|Hd]].
    - eexists. split; [by left|]. done.
    - destruct (CurrentVersion st) as [c|]; [|by apply not_elem_of_nil in Hc].
      apply list_elem_of_singleton in Hc as ->. exists (cur_base c). split; [|done].
      right. left.
    - rewrite <- list_fmap_compose in Hd. apply list_elem_of_fmap in Hd as (d & -> & Hd).
      exists (dep_base d). split; [|done]. right. apply elem_of_app. right.
      by apply list_elem_of_fmap_2. }
  split. intros l w stored [= <-] Hu v v' ref ref' Hv Hv' Hr Hr' Haddr. simpl in Hv, Hv'.
  destruct (Hback _ _ Hv) as (v0 & Hv0 & -> & He). destruct (Hback _ _ Hv') as (v0' & Hv0' & -> & He').
  rewrite He in Hr. rewrite He' in Hr'. by apply (Hu v0 v0').
Qed.

(** Nothing is routed to [v0] in the run. *)
Definition routes_to (rc : RoutingConfig) (b : string) : bool :=
  bool_decide (buildIdOf (rc_CurrentVersion rc) = b) || bool_decide (buildIdOf (rc_RampingVersion rc) = b).

Lemma never_routed :
  forallb (fun n => negb (routes_to (loop_routing (take n first_log) loop_name) "v0"))
    (seq 0 (S (length first_log))) = true.
Proof. vm_compute. reflexivity. Qed.

Lemma v0_not_routed ld : during [] first_log ld -> ~ routed (loop_response ld) "v0".
Proof.
  intros [_ [rest Hrest]] (v & Hb & Hv).
  pose proof (proj1 (forallb_forall _ _) never_routed (length ld)) as H.
  rewrite Hrest, take_app_length in H. specialize (H ltac:(apply in_seq; rewrite length_app; lia)).
  apply negb_true_iff, orb_false_iff in H as [H1%bool_decide_eq_false H2%bool_decide_eq_false].
  cbn [loop_response dr_Info wdi_RoutingConfig] in Hv.
  destruct Hv as [Hv|Hv]; [rewrite Hv in H1; by apply H1|rewrite Hv in H2; by apply H2].
Qed.

Lemma v0_due :
  sunset_due loop_request loop_w [] first_log "v0" (demo_now - 100 * Hour) 0.
Proof.
  split.
  - split; vm_compute; discriminate.
  - intros ld items _ [= <-]. split.
    + exists (demo_deployment "v0" 0 1). split; [right; by left|reflexivity].
    + intros d Hd Hl. apply list_elem_of_In in Hd. simpl in Hd.
      destruct Hd as [<-|[<-|[<-|[<-|[]]]]]; first [reflexivity|discriminate Hl].
  - intros ld Hld. exists (loop_response ld), (loop_summary "v0").
    split; [reflexivity|]. split; [by apply v0_not_routed|]. split; [do 3 right; by left|].
    split; [reflexivity|]. intros sm' (b & -> & _)%(list_elem_of_fmap_1 loop_summary) Hb.
    change (b = "v0") in Hb. by rewrite Hb.
  - intros ld _. eexists _, _. by split_and!.
Qed.

Lemma first_completes :
  snd <$> result_of (Reconcile 75 ∅ loop_request []).1 = Some completed.
Proof. vm_compute. reflexivity. Qed.

Lemma Reconcile_retires_witness :
  exists d d0, EvDelete d ∈ first_log /\ removes (EvDelete d) d0 /\ build_label d0 = Some "v0".
Proof.
  pose proof first_run as Hrun. pose proof first_completes as Hc.
  destruct (Reconcile 75 ∅ loop_request []).1 as [[cp [r|e]]|e|p]; try discriminate Hc.
  injection Hc as ->.
  destruct (Reconcile_retires 75 ∅ cp loop_request [] first_log loop_twd loop_w "v0"
              (demo_now - 100 * Hour) 0 (24 * Hour) Hour Hrun eq_refl eq_refl eq_refl eq_refl v0_due)
    as [_ Hdel].
  destruct (Hdel eq_refl) as (d & d0 & Hin & Hrem & Hl & _); [vm_compute; reflexivity|].
  exists d, d0. split; [exact Hin|]. split; [exact Hrem|exact Hl].
Defined.
