(* ===== verification/Witnesses.v ===== *)
(** * Witnesses

    Each theorem with hypotheses, applied at the concrete cluster and server of
    Scenario.v, where the hypotheses hold. *)

From stdpp Require Import base gmap sets list strings relations.
From Stdlib Require Import ZArith Lia.
From S2P Require Import Prelude GoStd Api K8s K8sProps Webhook Trace World Temporal.
From S2P Require Import TemporalProps StateMapper StateMapperProps Planner SunsetProps.
From S2P Require Import UpdateProps RolloutProps GateProps Servers Safety ClientPool.
From S2P Require Import ClientPoolProps Controller Startup ControllerProps Scenario PoolScenario.
Local Open Scope Z_scope.

(** ** Hypotheses that several witnesses share *)

Lemma demo_wf : state_wf demo_ks demo_h.
Proof.
  destruct (GetDeploymentState_tracked demo_items) as (ks & h & Hg & Hwf & _).
  unfold demo_ks, demo_h, demo_state. by rewrite Hg.
Qed.

Lemma demo_pointers : forall b p, Deployments demo_ks !! b = Some p -> is_Some (demo_h !! p).
Proof. intros b p Hp. destruct (wf_deployment _ _ demo_wf b p Hp) as (d & -> & _). eauto. Qed.

Lemma demo_consistent : consistent_response demo_response.
Proof.
  split.
  - intros v [[= <-]|[= <-]]; simpl.
    + eexists. split; [by left|done].
    + eexists. split; [by right; left|done].
  - simpl. intros s s' Hs Hs'.
    repeat (apply elem_of_cons in Hs as [->|Hs]); try (by apply not_elem_of_nil in Hs);
      repeat (apply elem_of_cons in Hs' as [->|Hs']); try (by apply not_elem_of_nil in Hs');
      done.
Qed.

Definition demo_log : Log :=
  ((ts ← GetWorkerDeploymentState "ns/foo" (Deployments demo_ks) demo_h "v2" UpdateProgressive
          "temporal-worker-controller";
   r ← generateStatus demo_h demo_w ts demo_ks;
   mret r.2 : io TemporalWorkerDeploymentStatus) []).2.

Lemma demo_observed :
  observed demo_h demo_ks demo_w UpdateProgressive "temporal-worker-controller" demo_response
    demo_status [] demo_log.
Proof.
  split; [apply demo_wf | done | done | apply demo_consistent |].
  vm_compute. reflexivity.
Qed.

Definition demo_spec : TemporalWorkerDeploymentSpec := twd_Spec demo_w.

Lemma demo_deprecated :
  (fun v => BuildID (dep_base v)) <$> DeprecatedVersions demo_status = ["v0d"; "v0"].
Proof. vm_compute. reflexivity. Qed.

Lemma demo_current : (fun c => BuildID (cur_base c)) <$> CurrentVersion demo_status = Some "v1".
Proof. vm_compute. reflexivity. Qed.

Lemma demo_target : BuildID (TargetVersion demo_status) = "v2".
Proof. vm_compute. reflexivity. Qed.

Lemma demo_deprecated_build (v : DeprecatedWorkerDeploymentVersion) :
  v ∈ DeprecatedVersions demo_status -> BuildID v = "v0d" \/ BuildID v = "v0".
Proof.
  intros Hv. apply (list_elem_of_fmap_2 (fun v => BuildID (dep_base v))) in Hv.
  rewrite demo_deprecated in Hv. set_solver.
Qed.

Lemma demo_roles : roles_distinct demo_status.
Proof.
  split.
  - rewrite demo_deprecated. repeat constructor; set_solver.
  - intros v Hv. rewrite demo_target. by destruct (demo_deprecated_build v Hv) as [->| ->].
  - intros v c Hv Hc. pose proof demo_current as Hd. rewrite Hc in Hd. injection Hd as ->.
    by destruct (demo_deprecated_build v Hv) as [->| ->].
Qed.

(** ** Safety *)

Lemma deletion_spares_live_versions_witness :
  exists d b, demo_h !! 0%nat = Some d /\ build_label d = Some b /\
    b <> ComputeBuildID demo_w /\ ~ routed demo_response b /\ ~ draining demo_response b.
Proof.
  eapply (deletion_spares_live_versions demo_h demo_ks demo_w UpdateProgressive
            "temporal-worker-controller" demo_response demo_status [] demo_log
            demo_status demo_h demo_ks demo_spec true demo_log [0%nat]).
  - apply demo_observed.
  - apply status_stored_refl.
  - apply demo_wf.
  - vm_compute. reflexivity.
  - by left.
Defined.

(** The same cluster with the drained version still scaled up. *)
Definition demo_up_h : Store :=
  demo_deployment "v0" 1 1 :: drop 1 demo_h.

Definition demo_scales : ScaleMap :=
  value ∅ (getScaleDeployments demo_ks demo_up_h demo_status demo_spec demo_log).1.
Definition demo_scale_log : Log :=
  (getScaleDeployments demo_ks demo_up_h demo_status demo_spec demo_log).2.

Definition demo_ref (i : nat) (b : string) : RefPtr :=
  mkRefPtr i (mkObjectReference "apps/v1" "Deployment" ("foo-" +:+ b) "ns" ("uid-" +:+ b)
                EmptyString EmptyString).

Lemma demo_scales_run :
  getScaleDeployments demo_ks demo_up_h demo_status demo_spec demo_log
  = (Ok demo_scales, demo_scale_log).
Proof. vm_compute. reflexivity. Qed.

Lemma demo_up_wf : state_wf demo_ks demo_up_h.
Proof.
  pose proof demo_wf as [Hd Hr].
  assert (forall p d, demo_h !! p = Some d -> exists d', demo_up_h !! p = Some d' /\
            build_label d' = build_label d /\ NewObjectRef p d' = NewObjectRef p d) as Hsame.
  { intros p d Hp. vm_compute in Hp.
    destruct p as [|p]; [injection Hp as <-; eexists; split; [reflexivity|by vm_compute]|].
    exists d. split; [|done]. unfold demo_up_h. simpl. by rewrite lookup_drop. }
  split.
  - intros b p Hb. destruct (Hd b p Hb) as (d & Hp & Hl).
    destruct (Hsame p d Hp) as (d' & Hp' & Hl' & _). exists d'. by rewrite Hl'.
  - intros b. rewrite Hr. destruct (Deployments demo_ks !! b) as [p|] eqn:Eb; [|done].
    destruct (Hd b p Eb) as (d & Hp & _). destruct (Hsame p d Hp) as (d' & Hp' & _ & Hn).
    simpl. unfold ref_at. rewrite Hp, Hp'. simpl. by rewrite Hn.
Qed.

Lemma scale_down_spares_live_versions_witness :
  exists v, ver_Deployment v = Some (demo_ref 0 "v0") /\ BuildID v <> ComputeBuildID demo_w /\
    ~ routed demo_response (BuildID v) /\ ~ draining demo_response (BuildID v).
Proof.
  eapply (scale_down_spares_live_versions demo_h demo_ks demo_w UpdateProgressive
            "temporal-worker-controller" demo_response demo_status [] demo_log
            demo_status demo_up_h demo_ks demo_spec 1 demo_log demo_scales demo_scale_log).
  - apply demo_observed.
  - apply status_stored_refl.
  - reflexivity.
  - vm_compute. discriminate.
  - apply demo_scales_run.
  - vm_compute. reflexivity.
Defined.

(** ** The rollout *)

Definition demo_steps : list RolloutStep :=
  [mkRolloutStep 5 (30 * Second); mkRolloutStep 50 (60 * Second)].
Definition demo_vcfg : VersionConfig := mkVersionConfig "token" "v2" false 0.

Lemma demo_rollout_steps : rollout_steps demo_steps.
Proof.
  split; [split; [done|split]|].
  - simpl. lia.
  - repeat constructor; vm_compute; discriminate.
  - repeat constructor; simpl; lia.
Qed.

Lemma handleProgressiveRollout_spec_witness :
  exists s, demo_steps !! 0%nat = Some s /\
    handleProgressiveRollout demo_steps 100 None None demo_vcfg = Ok (ramp_to demo_vcfg s).
Proof.
  by apply (handleProgressiveRollout_spec demo_steps 100 None demo_vcfg demo_rollout_steps).
Defined.

Lemma rollout_safe_witness :
  let st := mkRolloutState 1 (Some (5, 1)) false [(5, 1)] in
  (fst <$> ro_history st) `prefix_of` (step_RampPercentage <$> demo_steps).
Proof.
  refine (proj1 (rollout_safe Second demo_steps 0 _ _ _)); [apply demo_rollout_steps|].
  apply rtc_once. apply (rollout_ramp_set Second demo_steps (rollout_start 0) None demo_vcfg
    (mkVersionConfig "token" "v2" false 5) 1); done.
Defined.

Lemma rollout_completes_witness :
  ro_current (foldl (poll_at demo_steps demo_vcfg)
    (mkRolloutState 0 (Some (20, -5)) false [])
    [61 * Second; 122 * Second; 183 * Second]) = true.
Proof.
  apply (rollout_completes demo_steps demo_vcfg (60 * Second) 0).
  - apply demo_rollout_steps.
  - done.
  - repeat constructor; vm_compute; discriminate.
  - vm_compute. repeat constructor.
  - simpl. lia.
  - intros q m [= <- <-]. lia.
Defined.

(** ** The gate *)

Definition demo_ts0 : TemporalWorkerState :=
  value emptyTemporalState
    (GetWorkerDeploymentState "ns/foo" (Deployments demo_ks) demo_h "v2" UpdateProgressive
       "temporal-worker-controller" []).1.
Definition demo_log0 : Log :=
  (GetWorkerDeploymentState "ns/foo" (Deployments demo_ks) demo_h "v2" UpdateProgressive
     "temporal-worker-controller" []).2.

Lemma demo_ts0_run :
  GetWorkerDeploymentState "ns/foo" (Deployments demo_ks) demo_h "v2" UpdateProgressive
    "temporal-worker-controller" [] = (Ok demo_ts0, demo_log0).
Proof. vm_compute. reflexivity. Qed.

Lemma demo_fresh : fresh_versions demo_ts0.
Proof.
  intros b vi Hb.
  destruct (GetWorkerDeploymentState_versions _ _ _ _ _ _ demo_response [] _ _
    (eq_refl : @w_Describe demoWorld [] "ns/foo" = inl demo_response) demo_ts0_run) as [Hd _].
  destruct (Hd b vi Hb) as (s & _ & _ & Hok). apply (vio_fresh _ _ _ _ _ _ _ _ Hok).
Qed.

Lemma demo_mapper_pointers w ts name :
  w = demo_h -> pointers_ok w (newStateMapper demo_ks ts name).
Proof. intros -> b p Hp. by apply (demo_pointers b). Qed.

Definition demo_gate : Config :=
  mkConfig (mkRolloutStrategy UpdateAllAtOnce (Some (mkGateWorkflowConfig "gate" None None)) []).

Lemma gate_sound_witness :
  "v2" <> ts_CurrentBuildID demo_ts0 /\
  exists vi desc, ts_Versions demo_ts0 !! "v2" = Some vi /\
    w_DescribeVersion demo_log0 "ns/foo" (vi_BuildID vi) = inl desc /\
    wf_queues (vd_TaskQueuesInfos desc) <> [] /\
    Forall (test_completed demo_log0 demo_log vi) (wf_queues (vd_TaskQueuesInfos desc)).
Proof.
  eapply (gate_sound demo_h demo_w demo_ts0 demo_ks demo_log0 demo_ts demo_status demo_log
            demo_gate (mkGateWorkflowConfig "gate" None None) []
            (mkVersionConfig "token" "v2" true 0) []).
  - apply demo_fresh.
  - by apply demo_mapper_pointers.
  - done.
  - vm_compute. reflexivity.
  - done.
  - vm_compute. reflexivity.
Defined.

(** The target rolled back to the Current version. *)
Definition demo_back : TemporalWorkerDeployment := demo_twd "v1" "app:v1".
Definition demo_back_result : TemporalWorkerState * TemporalWorkerDeploymentStatus :=
  value (emptyTemporalState, twd_Status demo_w)
    (generateStatus demo_h demo_back demo_ts0 demo_ks demo_log0).1.

Lemma gate_blocks_ramp_reset_witness :
  ts_RampingBuildID demo_back_result.1 = "v2" /\
  getVersionConfigDiff demo_back_result.2 (Some demo_back_result.1) demo_gate []
  = (Ok None, []).
Proof.
  split; [vm_compute; reflexivity|].
  eapply (gate_blocks_ramp_reset demo_h demo_back demo_ts0 demo_ks demo_log0
            demo_back_result.1 demo_back_result.2 demo_log0 demo_gate
            (mkGateWorkflowConfig "gate" None None)).
  - apply demo_fresh.
  - by apply demo_mapper_pointers.
  - done.
  - vm_compute. reflexivity.
  - vm_compute. reflexivity.
  - done.
Defined.

(** ** Sunset *)

Definition demo_delete_log : Log :=
  (getDeleteDeployments demo_ks demo_h demo_status demo_spec true []).2.

Lemma demo_deletes_run :
  getDeleteDeployments demo_ks demo_h demo_status demo_spec true []
  = (Ok [0%nat], demo_delete_log).
Proof. vm_compute. reflexivity. Qed.

Lemma getDeleteDeployments_spec_witness :
  exists v : DeprecatedWorkerDeploymentVersion, v ∈ DeprecatedVersions demo_status /\
    may_delete demo_ks demo_h demo_status demo_spec true v (w_Now demo_delete_log) 0%nat.
Proof.
  apply (proj1 (getDeleteDeployments_spec demo_ks demo_h demo_status demo_spec true []
    [0%nat] demo_delete_log demo_deletes_run)). by left.
Defined.

(** The versions with a reference in the status. *)
Definition demo_bases : list BaseWorkerDeploymentVersion :=
  option_list (cur_base <$> CurrentVersion demo_status)
  ++ tgt_base (TargetVersion demo_status) :: (dep_base <$> DeprecatedVersions demo_status).

Lemma demo_bases_refs :
  (fun v => (BuildID v, ver_Deployment v)) <$> demo_bases
  = [("v1", Some (demo_ref 2 "v1")); ("v2", Some (demo_ref 3 "v2"));
     ("v0d", Some (demo_ref 1 "v0d")); ("v0", Some (demo_ref 0 "v0"))].
Proof. vm_compute. reflexivity. Qed.

Lemma scale_wanted_base ks h spec r now v ref n :
  scale_wanted ks h demo_status spec r now v ref n ->
  (BuildID v, Some ref) ∈ (fun v => (BuildID v, ver_Deployment v)) <$> demo_bases.
Proof.
  intros (Href & p & _ & Hs). apply list_elem_of_fmap. exists v. split; [by rewrite Href|].
  unfold demo_bases. destruct Hs as [c p Hc _|p _ _|w p n Hw _].
  - rewrite Hc. by left.
  - apply elem_of_app. right. by left.
  - apply elem_of_app. right. right. by apply list_elem_of_fmap_2.
Qed.

Lemma demo_refs : refs_distinct demo_ks demo_up_h demo_status demo_spec.
Proof.
  intros v v' ref ref' now now' r n n' H1%scale_wanted_base H2%scale_wanted_base Ha.
  rewrite demo_bases_refs in H1, H2.
  repeat (apply elem_of_cons in H1 as [[= -> ->]|H1]); try (by apply not_elem_of_nil in H1);
    repeat (apply elem_of_cons in H2 as [[= -> ->]|H2]); try (by apply not_elem_of_nil in H2);
    simpl in Ha; done.
Qed.

Lemma getScaleDeployments_spec_witness :
  exists replicas, spec_Replicas demo_spec = Some replicas /\
    (forall a r n, demo_scales !! a = Some (r, n) ->
       exists v, scale_wanted demo_ks demo_up_h demo_status demo_spec replicas
                   (w_Now demo_scale_log) v (mkRefPtr a r) n) /\
    (forall v ref n,
       scale_wanted demo_ks demo_up_h demo_status demo_spec replicas (w_Now demo_log) v ref n ->
       demo_scales !! rp_addr ref = Some (rp_ref ref, n)).
Proof.
  refine (getScaleDeployments_spec _ _ _ _ _ _ _ _ _ _); [apply demo_roles | apply demo_refs | apply demo_scales_run].
Defined.

(** By now Temporal has forgotten the draining version. *)
Definition demo_forget (v : DeprecatedWorkerDeploymentVersion)
    : DeprecatedWorkerDeploymentVersion :=
  if String.eqb (BuildID (dep_base v)) "v0d"
  then mkDeprecatedWorkerDeploymentVersion
         (mkBaseWorkerDeploymentVersion "v0d" VersionStatusNotRegistered None
            (ver_Deployment (dep_base v)) [] EmptyString) None false
  else v.

Definition demo_forgotten : TemporalWorkerDeploymentStatus :=
  mkTemporalWorkerDeploymentStatus (TargetVersion demo_status) (CurrentVersion demo_status)
    (demo_forget <$> DeprecatedVersions demo_status) EmptyString EmptyString 4.

Lemma demo_forgotten_deprecated :
  (fun v => BuildID (dep_base v)) <$> DeprecatedVersions demo_forgotten = ["v0d"; "v0"].
Proof. vm_compute. reflexivity. Qed.

Lemma demo_forgotten_build (v : DeprecatedWorkerDeploymentVersion) :
  v ∈ DeprecatedVersions demo_forgotten -> BuildID v = "v0d" \/ BuildID v = "v0".
Proof.
  intros Hv. apply (list_elem_of_fmap_2 (fun v => BuildID (dep_base v))) in Hv.
  rewrite demo_forgotten_deprecated in Hv. set_solver.
Qed.

Lemma demo_forgotten_roles : roles_distinct demo_forgotten.
Proof.
  split.
  - rewrite demo_forgotten_deprecated. repeat constructor; set_solver.
  - intros v Hv. change (BuildID v <> BuildID (TargetVersion demo_status)).
    rewrite demo_target. by destruct (demo_forgotten_build v Hv) as [->| ->].
  - intros v c Hv Hc. change (CurrentVersion demo_status = Some c) in Hc.
    pose proof demo_current as Hd. rewrite Hc in Hd. injection Hd as ->.
    by destruct (demo_forgotten_build v Hv) as [->| ->].
Qed.

Definition demo_forgotten_delete_log : Log :=
  (getDeleteDeployments demo_ks demo_up_h demo_forgotten demo_spec true []).2.
Definition demo_forgotten_scales : ScaleMap :=
  value ∅ (getScaleDeployments demo_ks demo_up_h demo_forgotten demo_spec demo_log).1.
Definition demo_forgotten_scale_log : Log :=
  (getScaleDeployments demo_ks demo_up_h demo_forgotten demo_spec demo_log).2.

Lemma demo_forgotten_deletes_run :
  getDeleteDeployments demo_ks demo_up_h demo_forgotten demo_spec true []
  = (Ok [1%nat], demo_forgotten_delete_log).
Proof. vm_compute. reflexivity. Qed.

Lemma demo_forgotten_scales_run :
  getScaleDeployments demo_ks demo_up_h demo_forgotten demo_spec demo_log
  = (Ok demo_forgotten_scales, demo_forgotten_scale_log).
Proof. vm_compute. reflexivity. Qed.

Lemma demo_forgotten_scaled :
  demo_forgotten_scales !! rp_addr (demo_ref 0 "v0") = Some (rp_ref (demo_ref 0 "v0"), 0).
Proof. vm_compute. reflexivity. Qed.

Lemma demo_forgotten_refs :
  (fun v => (BuildID v, ver_Deployment v)) <$> status_versions demo_forgotten
  = [("v2", Some (demo_ref 3 "v2")); ("v1", Some (demo_ref 2 "v1"));
     ("v0d", Some (demo_ref 1 "v0d")); ("v0", Some (demo_ref 0 "v0"))].
Proof. vm_compute. reflexivity. Qed.

Lemma demo_forgotten_unshared : refs_unshared demo_forgotten.
Proof.
  intros v v' ref ref' Hv Hv' Hr Hr'.
  apply (list_elem_of_fmap_2 (fun v => (BuildID v, ver_Deployment v))) in Hv, Hv'.
  rewrite demo_forgotten_refs, Hr in Hv. rewrite demo_forgotten_refs, Hr' in Hv'.
  repeat setoid_rewrite elem_of_cons in Hv. repeat setoid_rewrite elem_of_cons in Hv'.
  destruct Hv as [Hv|[Hv|[Hv|[Hv|[]%not_elem_of_nil]]]];
    destruct Hv' as [Hv'|[Hv'|[Hv'|[Hv'|[]%not_elem_of_nil]]]];
    injection Hv as -> ->; injection Hv' as -> ->; simpl; intros [=]; done.
Qed.

(** One plan deletes "v0d" and scales "v0" to zero. *)
Lemma delete_scale_disjoint_witness :
  (forall v ref, v ∈ status_versions demo_forgotten -> ver_Deployment v = Some ref ->
     Deployments demo_ks !! BuildID v = Some 1%nat ->
     demo_forgotten_scales !! rp_addr ref = None) /\
  exists v q, v ∈ status_versions demo_forgotten /\
    ver_Deployment v = Some (demo_ref 0 "v0") /\
    Deployments demo_ks !! BuildID v = Some q /\ q ∉ [1%nat].
Proof.
  destruct (delete_scale_disjoint demo_ks demo_up_h demo_forgotten demo_spec true []
    [1%nat] _ demo_log demo_forgotten_scales _ demo_up_wf demo_forgotten_roles
    demo_forgotten_unshared demo_forgotten_deletes_run demo_forgotten_scales_run)
    as (_ & Hdel & Hsc).
  split.
  - intros v ref Hv Hr Hp. apply (Hdel v 1%nat ref Hv Hr Hp). by left.
  - exact (Hsc _ _ _ demo_forgotten_scaled).
Defined.

Lemma shouldCreateDeployment_spec_witness :
  exists b, shouldCreateDeployment demo_status 75 = Ok b /\
    (b = true <-> ver_Deployment (TargetVersion demo_status) = None /\
                  ineligible_count demo_status < 75).
Proof. apply shouldCreateDeployment_spec. vm_compute. reflexivity. Defined.

Lemma demo_ready : sunset_ready demo_ks demo_h demo_status demo_spec.
Proof.
  split; [by eexists..| |].
  - intros b p Hb. destruct (demo_pointers b p Hb) as [d Hd]. exists d. split; [done|].
    assert (Forall (fun d => is_Some (ds_Replicas (d_Spec d))) demo_h) as Hall
      by (vm_compute; repeat constructor; by eexists).
    rewrite Forall_lookup in Hall. by eapply Hall.
  - assert (Forall (fun v => ver_Status (dep_base v) = VersionStatusDrained ->
              is_Some (DrainedSince v)) (DeprecatedVersions demo_status)) as Hall
      by (vm_compute; repeat constructor; [done | by eexists]).
    intros v Hv. rewrite Forall_forall in Hall. by apply Hall.
Qed.

Lemma sunset_total_witness :
  (exists dels l', getDeleteDeployments demo_ks demo_h demo_status demo_spec true []
                   = (Ok dels, l')) /\
  (exists scales l', getScaleDeployments demo_ks demo_h demo_status demo_spec []
                     = (Ok scales, l')).
Proof. apply sunset_total, demo_ready. Defined.

(** The status after describing the drained version failed. *)
Definition demo_unknown : DeprecatedWorkerDeploymentVersion :=
  mkDeprecatedWorkerDeploymentVersion
    (mkBaseWorkerDeploymentVersion "v0" VersionStatusDrained None (Some (demo_ref 0 "v0")) []
       EmptyString) None false.
Definition demo_unknown_status : TemporalWorkerDeploymentStatus :=
  mkTemporalWorkerDeploymentStatus (TargetVersion demo_status) (CurrentVersion demo_status)
    [demo_unknown] EmptyString EmptyString 4.

Lemma unknown_drain_time_panics_witness :
  is_Panic (GeneratePlan demo_ks demo_h demo_unknown_status demo_spec (Some demo_ts)
              demo_connection demo_gate "ns/foo" 75 EmptyString false []).1.
Proof.
  apply (unknown_drain_time_panics demo_ks demo_h demo_unknown_status demo_spec demo_unknown).
  - by left.
  - by eexists.
  - vm_compute. by eexists.
  - done.
  - done.
Defined.

(** ** Updates and creation *)

Lemma connection_update_keeps_api_key_witness :
  exists h' d', checkAndUpdateDeploymentConnectionSpec "v1" demo_ks demo_connection demo_h
                = Ok (Some 2%nat, h') /\ h' !! 2%nat = Some d' /\
  checkAndUpdateDeploymentConnectionSpec "v1" demo_ks demo_connection h' = Ok (None, h').
Proof.
  eexists _, _. split; [vm_compute; reflexivity|]. split; [vm_compute; reflexivity|].
  eapply (connection_update_keeps_api_key "v1" demo_ks demo_connection demo_h 2%nat);
    vm_compute; reflexivity.
Defined.

Definition demo_updates : list ptr * Store :=
  value ([], []) (getUpdateDeployments demo_ks demo_status demo_spec demo_connection demo_h).

Lemma getUpdateDeployments_spec_witness :
  demo_updates.1 <> [] /\
  pass_rel demo_spec demo_connection demo_h demo_updates.1 demo_updates.2 /\
  getUpdateDeployments demo_ks demo_status demo_spec demo_connection demo_updates.2
  = Ok ([], demo_updates.2).
Proof.
  destruct (getUpdateDeployments_spec demo_ks demo_spec demo_connection demo_status demo_h
              demo_updates.1 demo_updates.2) as (H1 & _ & _ & H2).
  - apply demo_pointers.
  - vm_compute. reflexivity.
  - split; [vm_compute; discriminate|]. by split.
Defined.

Definition demo_old_spec : TemporalWorkerDeploymentSpec := twd_Spec (demo_twd "v2" "app:old").

Lemma rolling_update_rebuilds_witness :
  let om := twd_ObjectMeta demo_w in
  let tm := twd_TypeMeta demo_w in
  let d := NewDeploymentWithOwnerRef tm om demo_old_spec "ns/foo" "v2" demo_connection in
  exists d', updateDeploymentWithPodTemplateSpec d demo_spec demo_connection = Ok d' /\
    d_Spec d' = d_Spec (NewDeploymentWithOwnerRef tm om demo_spec "ns/foo" "v2" demo_connection)
    /\ d_ObjectMeta d' = d_ObjectMeta d.
Proof.
  eapply (rolling_update_rebuilds (twd_TypeMeta demo_w) (twd_ObjectMeta demo_w) demo_old_spec
            demo_spec "ns/foo" "v2" demo_connection demo_connection).
  - reflexivity.
  - intros (e & He & _). by apply not_elem_of_nil in He.
  - done.
  - simpl. lia.
Defined.

Definition demo_created : Deployment :=
  value (demo_deployment EmptyString 0 0)
    (NewDeploymentWithControllerRef demo_w "v2" demo_connection).

Lemma demo_created_run :
  NewDeploymentWithControllerRef demo_w (ComputeBuildID demo_w) demo_connection
  = Ok demo_created.
Proof. reflexivity. Qed.

Lemma created_deployment_settled_witness :
  ds_Replicas (d_Spec demo_created) = spec_Replicas (twd_Spec demo_w) /\
  conn_ok demo_connection demo_created /\ template_ok (twd_Spec demo_w) demo_created.
Proof. apply (created_deployment_settled demo_w), demo_created_run. Defined.

Lemma creation_is_not_repeated_witness :
  exists ks h st, GetDeploymentState (Ok [demo_deployment "v1" 1 3; demo_created]) = Ok (ks, h) /\
    is_Some (Deployments ks !! ComputeBuildID demo_w) /\
    mapToStatus h (newStateMapper ks demo_ts (ComputeWorkerDeploymentName demo_w))
      (ComputeBuildID demo_w) = Ok st /\
    shouldCreateDeployment st 75 = Ok false.
Proof.
  eapply (creation_is_not_repeated demo_w demo_connection demo_created).
  - apply demo_created_run.
  - reflexivity.
  - by right; left.
Defined.

(** ** Observation *)

Lemma GetWorkerDeploymentState_spec_witness :
  exists resp, w_Describe [] "ns/foo" = inl resp /\
    ts_CurrentBuildID demo_ts0 = buildIdOf (rc_CurrentVersion (wdi_RoutingConfig (dr_Info resp))).
Proof.
  destruct (GetWorkerDeploymentState_spec "ns/foo" (Deployments demo_ks) demo_h "v2"
    UpdateProgressive "temporal-worker-controller" [] demo_ts0 demo_log0 demo_ts0_run)
    as [(_ & e & He & _)|(resp & Hr & Hc & _)].
  - discriminate He.
  - by exists resp.
Defined.

Lemma withBackoff_terminates_witness :
  (withBackoff backoff_fuel (10 * Second) (1 * Second) (DescribeVersion "ns/foo" "v0") []).1
  <> Panic OutOfFuel.
Proof.
  refine (proj1 (withBackoff_terminates (DescribeVersion "ns/foo" "v0") _ [] backoff_fuel _ _)).
  - intros l. eexists. split; [reflexivity | by repeat constructor].
  - done.
  - done.
Defined.

Lemma demo_mapper_ok : pointers_ok demo_h (newStateMapper demo_ks demo_ts0 "ns/foo").
Proof. by apply demo_mapper_pointers. Qed.

Lemma mapToStatus_spec_witness :
  exists st, mapToStatus demo_h (newStateMapper demo_ks demo_ts0 "ns/foo") "v2" = Ok st /\
    status_spec demo_h (newStateMapper demo_ks demo_ts0 "ns/foo") "v2" st.
Proof.
  destruct (mapToStatus_spec demo_h (newStateMapper demo_ks demo_ts0 "ns/foo") "v2"
    demo_mapper_ok) as (st & Hm & Hs & _).
  exact (ex_intro _ st (conj Hm Hs)).
Defined.

Definition demo_mapped : TemporalWorkerDeploymentStatus :=
  value demo_status (mapToStatus demo_h (newStateMapper demo_ks demo_ts0 "ns/foo") "v2").

Lemma demo_mapped_run :
  mapToStatus demo_h (newStateMapper demo_ks demo_ts0 "ns/foo") "v2" = Ok demo_mapped.
Proof. vm_compute. reflexivity. Qed.

Lemma demo_mapped_target : BuildID (TargetVersion demo_mapped) = "v2".
Proof. vm_compute. reflexivity. Qed.

Lemma demo_mapped_current :
  (fun c => BuildID (cur_base c)) <$> CurrentVersion demo_mapped = Some "v1".
Proof. vm_compute. reflexivity. Qed.

Lemma mapToStatus_roles_witness :
  "v0" ∈ (fun v => BuildID (dep_base v)) <$> DeprecatedVersions demo_mapped.
Proof.
  refine (proj2 (proj2 (mapToStatus_roles demo_h (newStateMapper demo_ks demo_ts0 "ns/foo")
    "v2" demo_mapped "v0" demo_mapper_ok demo_mapped_run _)) _).
  - eexists. vm_compute. reflexivity.
  - split_and!; [done|by rewrite demo_mapped_target|]. intros c Hc.
    pose proof demo_mapped_current as Hd. rewrite Hc in Hd. by injection Hd as ->.
Defined.

(** ** Plans *)

Definition demo_observed_w : TemporalWorkerDeployment := twd_set_Status demo_status demo_w.

Definition demo_no_plan : plan :=
  mk_plan EmptyString EmptyString [] None ∅ [] None [] [] [].
Definition demo_plan : plan :=
  value demo_no_plan (generatePlan 75 demo_observed_w demo_connection demo_ts demo_log).1.
Definition demo_plan_log : Log :=
  (generatePlan 75 demo_observed_w demo_connection demo_ts demo_log).2.

Lemma demo_plan_run :
  generatePlan 75 demo_observed_w demo_connection demo_ts demo_log = (Ok demo_plan, demo_plan_log).
Proof. vm_compute. reflexivity. Qed.

Lemma demo_plan_deletes : p_DeleteDeployments demo_plan = [0%nat].
Proof. vm_compute. reflexivity. Qed.

Lemma demo_plan_ok : plan_ok demo_plan.
Proof.
  unfold plan_ok.
  assert (forallb (fun q => negb (is_nil (p_store demo_plan !! q)))
            (p_DeleteDeployments demo_plan ++ p_UpdateDeployments demo_plan) = true) as Hb
    by (vm_compute; reflexivity).
  rewrite forallb_forall in Hb. apply Forall_forall. intros q Hq%list_elem_of_In%Hb.
  by destruct (p_store demo_plan !! q).
Qed.

Lemma executePlan_trace_witness :
  exists r attempted, executePlan demo_plan [] = (r, attempted) /\
    stopped_run (plan_writes demo_plan).*1 [] r attempted.
Proof. exact (executePlan_trace demo_plan [] demo_plan_ok). Defined.

(** Somebody else changed the routing. *)
Definition demo_foreign_w : TemporalWorkerDeployment :=
  twd_set_Status
    (mkTemporalWorkerDeploymentStatus (TargetVersion demo_status) (CurrentVersion demo_status)
       (DeprecatedVersions demo_status) (VersionConflictToken demo_status) "someone" 4) demo_w.
Definition demo_foreign_plan : plan :=
  value demo_no_plan (generatePlan 75 demo_foreign_w demo_connection demo_ts demo_log).1.
Definition demo_foreign_log : Log :=
  (generatePlan 75 demo_foreign_w demo_connection demo_ts demo_log).2.

Lemma demo_foreign_run :
  generatePlan 75 demo_foreign_w demo_connection demo_ts demo_log
  = (Ok demo_foreign_plan, demo_foreign_log).
Proof. vm_compute. reflexivity. Qed.

Lemma foreign_modifier_freezes_routing_witness :
  p_UpdateVersionConfig demo_foreign_plan = None /\
  p_RemoveIgnoreLastModifierBuilds demo_foreign_plan = [].
Proof.
  refine (proj1 (foreign_modifier_freezes_routing 75 demo_foreign_w demo_connection demo_ts
    demo_log demo_foreign_plan demo_foreign_log demo_foreign_run) _ _).
  - split_and!; done.
  - vm_compute. reflexivity.
Defined.

(** ** Clients *)

Definition demo_tls_connection : TemporalConnectionSpec :=
  mkTemporalConnectionSpec "temporal:7233" (Some (mkSecretReference "tls")) None.
Definition demo_opts (c : TemporalConnectionSpec) : NewClientOptions :=
  mkNewClientOptions "default" "ns" c.
Definition demo_key : ClientPoolKey :=
  mkClientPoolKey "temporal:7233" "default" "api-key" AuthModeAPIKey.
Definition demo_pool : ClientPool * sdkClient :=
  value (∅, 0%nat) (UpsertClient ∅ "api-key" AuthModeAPIKey (demo_opts demo_connection) []).1.
Definition demo_pool_log : Log :=
  (UpsertClient ∅ "api-key" AuthModeAPIKey (demo_opts demo_connection) []).2.

Lemma demo_upsert_run :
  UpsertClient ∅ "api-key" AuthModeAPIKey (demo_opts demo_connection) []
  = (Ok (demo_pool.1, demo_pool.2), demo_pool_log).
Proof. reflexivity. Qed.

Lemma UpsertClient_spec_witness :
  pool_wf demo_pool.1 /\ (GetSDKClient demo_pool.1 demo_key []).1 = Ok (Some demo_pool.2).
Proof.
  destruct (UpsertClient_spec ∅ "api-key" AuthModeAPIKey (demo_opts demo_connection) []
    demo_pool.1 demo_pool.2 demo_pool_log) as (Hwf & _ & info & _ & _ & Hget).
  - apply map_Forall_empty.
  - right. left. split; [done|]. by eexists.
  - apply demo_upsert_run.
  - split; [exact Hwf|]. apply Hget. intros [=].
Defined.

(** ** A whole reconciliation *)

Lemma Reconcile_results_witness :
  exists w c, valid_deployment w /\
    reconciled 75 w c (mkResult true (10 * Second)) (Reconcile 75 New demo_request []).2.
Proof.
  pose proof demo_reconciled as Hr.
  destruct (Reconcile 75 New demo_request []) as [[[cp' [r|e]]|e|p] l'] eqn:E; try discriminate Hr.
  injection Hr as ->.
  destruct (Reconcile_results 75 New demo_request [] cp' (mkResult true (10 * Second)) l' E)
    as [[[=] _]|(fetched & w & _ & _ & [[[=] _]|(Hv & c & _ & Hrec)])].
  exact (ex_intro _ w (ex_intro _ c (conj Hv Hrec))).
Defined.

(** ** Start-up *)

(** Environments that set the limit on versions. *)
Definition env_limit (value : string) : Env := {|
  os_Getenv k :=
    if decide (k = ControllerMaxDeploymentVersionsIneligibleForDeletionEnvKey) then value
    else EmptyString;
  Version := "1.0";
|}.

(** 120 is taken as it is, and 2^32 becomes 0: no Deployment is created. *)
Lemma version_limit_roundtrip_witness :
  r_MaxDeploymentVersionsIneligibleForDeletion (newReconciler (Ev := env_limit "120")) = 120 /\
  r_MaxDeploymentVersionsIneligibleForDeletion (newReconciler (Ev := env_limit "4294967296")) = 0 /\
  shouldCreateDeployment demo_status 0 = Ok false.
Proof.
  split; [|split; [reflexivity|]].
  - apply (version_limit_roundtrip (Ev := env_limit "120") 3 120); [lia|lia|lia|reflexivity|lia].
  - refine (proj2 (proj2 (proj2 (version_limit_roundtrip (Ev := env_limit "4294967296")
              10 4294967296 _ _ _ eq_refl))) _ demo_status _); vm_compute; try lia; done.
Defined.
